(* ===== verification/_CoqProject ===== *)
-Q . S2P
Prelude.v
Float64.v
RustStr.v
Ramp.v
Dns.v
Query.v
Stats.v
InFlight.v
UdpClosedLoop.v
UdpFlood.v
UdpUnified.v
Stream.v
WireLatency.v
Frame.v
Ring.v
XskSocket.v
Loader.v
XdpWorker.v
XdpSplit.v
XdpFallback.v
Config.v
Engine.v
MultiNic.v
Autodetect.v
XdpStart.v
EngineRun.v
Output.v
Lifecycle.v
Workload.v
Host.v
Report.v
