(* ===== verification/Prelude.v ===== *)
(** * dnsmark: a verification library

    dnsmark is a DNS load generator.  [main] turns the command line into a
    configuration; the engine builds a pool of pre-encoded queries, starts workers
    that send them (over kernel UDP sockets, over AF_XDP, over TCP or TLS), each
    matching replies to queries through an in-flight table and counting into a shared
    statistics collector; a controller searches for the highest rate the server
    sustains; several NICs are run as independent engines whose results are merged.

    ** The files, in the order they depend on each other

    - [Prelude] (this file): tactics, [outcome] (code that can panic) and [result],
      machine integers at their width, interleavings of threads, sums.
    - [Float64]: Rust's [f64] as IEEE 754 binary64, with the rounding lemmas.
    - [RustStr]: the operations of [str] the program uses, with their round trips.
    - [Ramp]: [src/engine/ramp.rs], the rate controller: [RampController], [advance].
    - [Dns]: [src/dns/], the query encoder, the record types, the response header.
    - [Query]: [src/query/], the sources behind the [QuerySource] trait (a class with
      laws) and the wire query pool ([from_pairs], [write_with_index]).
    - [Stats]: [src/stats/], [StatsCollector] and [StatsSnapshot], each operation alone
      and as atomic actions; the histogram crate is the class [HdrHistogram].
    - [InFlight]: the in-flight tables of [src/transport/udp.rs] (shared, and the
      hashed one in module [Legacy]) and of [src/transport/xdp/receiver.rs].
    - [UdpClosedLoop], [UdpFlood], [UdpUnified]: the workers [closed_loop_unified],
      [throughput_udp_tx] and [throughput_udp_rx], and [unified_udp_worker] of
      [src/transport/udp.rs].
    - [Stream]: the TCP and DNS-over-TLS workers, [src/transport/tcp.rs] and [dot.rs],
      with the length-prefixed framing they share.
    - [WireLatency]: [src/transport/wire_latency.rs], the probe that reads the
      kernel's send and receive stamps.
    - [Frame]: [src/transport/xdp/frame.rs] and the frame parser of [receiver.rs].
    - [Ring]: [src/transport/xdp/umem.rs], the rings and the split of the UMEM.
    - [XskSocket]: [create_xsk_socket] and [Umem::new] with the kernel's answer to each
      call and the descriptors and mappings they hold ([socket.rs], [umem.rs]).
    - [Loader]: [src/transport/xdp/loader.rs], with the crate that loads eBPF programs as
      an argument.
    - [XdpWorker]: [xdp_unified_worker] of [receiver.rs], interleaved with the kernel.
    - [XdpSplit]: the sender and receiver threads of [receiver.rs] that share a queue.
    - [XdpFallback]: the sender of [receiver.rs] that uses kernel sockets.
    - [Config]: [src/config.rs] and the part of [src/main.rs] that makes the
      configuration and chooses the mode.
    - [Engine]: the computing parts of [src/engine/mod.rs]: rates, NIC counters, the
      ramp task (which calls [Ramp]), the completion of the snapshot.
    - [MultiNic]: [src/engine/multi_nic.rs]: workers per NIC, [merge_snapshots].
    - [Autodetect]: [src/autodetect.rs] and the interface selection of
      [src/transport/xdp/socket.rs].
    - [XdpStart]: [start_xdp_receive_path]: queues, cores, workers and the process-wide
      registries, with the loops of several NICs interleaved.
    - [EngineRun]: the start of [run_with_shutdown] and [run_udp_worker]: it calls
      [Query], [XdpStart] and chooses among the workers above.
    - [Output]: the figures of [src/output/], the state of the dashboard, compare mode
      ([src/engine/compare.rs]) and [src/governor.rs].
    - [Lifecycle]: the end of [run_with_shutdown] with the memory guard, the dashboard,
      the ramp task and the workers, which share the shutdown flag.
    - [Workload]: the workers of the kernel paths as clients of one collector (the
      class [StatsClient]), with the reset of the collector after the warm-up.
    - [Host]: [Autodetect] over the files it reads, the rest of [src/autodetect.rs],
      [src/simd.rs], and pinning and confinement of [src/transport/mod.rs] as
      operations on the process; the mask type of [libc] is the class [CpuSet].
    - [Report]: what is printed and serialised: [src/output/text.rs], [json.rs], the
      texts of [tui.rs], [print_compare], from the final snapshot of the engine.

    ** How code corresponds to definitions

    A function of the source is a definition of the same name where Rocq allows
    it; a long function is cut into the steps its comments number, and composed in
    the same order (a turn of a worker's loop, then the loop).  A worker's locals
    and the shared state it touches are one record.  The clock, the kernel, the
    network and the other threads are what a turn receives: an environment record
    per turn, so that a theorem over all lists of environments is about every
    behaviour.  Where threads share memory the atomic accesses are listed and the
    theorems quantify over interleavings ([Stats], [Workload]) or over a step
    relation ([InFlight.astep], whose threads are between any two accesses of the
    methods they call; [XdpWorker.Xdp.xstep], [XdpSplit.Split.sstep],
    [XdpStart.Start.start_step]).  Code that is not in the repository (the random
    generator, the histogram, the files under [/proc] and [/sys], the kernel) is an
    argument or a class with its documented laws.

    Integers are [Z] with the wrap-around of their width written out ([wadd],
    [wsub], [as_u], ...): the release profile has overflow checks off and aborts on
    panic, so [Panic] has no value.

    ** What the theorems show

    - Rate controller: it ends within 25 steps for every sequence of measurements;
      its bracket is sound, within tolerance, and holds the latency knee or the
      served ceiling of a server that has one; the ramp task around it publishes
      rates within the target (or one query per client) and exports the highest
      served rate.
    - Messages: a built query decodes by RFC 1035 to what was asked (a name beyond 255
      octets is sent malformed); the pre-built
      path writes the same bytes; replies are read back, queries never taken for
      replies; frames are laid out by the standards with a valid checksum, and the
      receiver's parser inverts the writer.
    - Accounting: counters are exact under every interleaving; a recorded query is
      at every moment claimed, overwritten or in the table, exactly once, and the
      results of the calls count the claims; the closed loop respects its gate and counts every query
      once; the flood counts what the kernel took; the single-thread worker resolves
      every query by the end.  A reused id can cost the closed loop a place for ever.
      The sender over kernel sockets registers and counts exactly what the kernel took.
      Any number of UDP, TCP and TLS workers over one collector add up to what they did
      alone, and the report of a closed loop is exact up to the queries that were in
      flight when the warm-up's reset came.
    - AF_XDP: the rings refine a bounded queue at every value of their wrapping
      indices; in every reachable state of worker and kernel each UMEM frame is in one
      place, no turn panics or writes a frame the NIC may read, and what waits in the
      transmit ring are valid query frames; the ids of the workers are disjoint.  With
      several senders sharing a queue no frame is in two places and the sent counter
      is exact at the end, and until the shutdown flag is raised no sender writes to
      unmapped memory; after it one can, since the receiver unmaps the frames when it
      returns.  A limit on the outstanding queries can close for ever with the sender
      still running.  No two unified workers of any NICs share a core; a second start in a process can be
      without workers.  A failed socket leaves what the theorem lists, and a socket's
      rings and frames lie inside their mappings.
    - Other transports: a framed message is read back whatever the segmentation, and
      every query of a TCP or TLS worker is counted once; the probe measures round
      trips exactly as long as no reply is late, and ends as long as no stamp is.
    - Run: which runs start, and which answer of the host makes a start fail, on which
      path, with one task per client, and what rate the senders offer together, at
      the start and at every rate the ramp task publishes; from which states a run can still return, and how long it
      lasts whatever sets the shutdown flag.
    - Configuration and results: which command lines are accepted; how workers are
      shared over NICs (and the wrap-around with too few of them); what merging
      snapshots keeps, and that its rates depend on the order of the NICs; longest-prefix interface selection; one CPU per core; the text,
      JSON and CSV reports of a run give the same counts and the same verdict.
    - Host: the cores workers are pinned to are fixed by the first call and shared
      evenly; the start confines the main thread and the memory to the node of the
      NIC, not the workers.

    ** Fuel and bounds

    [Ramp.drive] and [Engine.ramp_loop] run 25 steps: 20 doublings and five halvings
    are proved to be enough.  [UdpClosedLoop.send_fill] runs [max_outstanding -
    outstanding] times, since each turn sends or leaves.  [Frame.fold_carry] folds
    three times, enough for every 32-bit sum.  [RustStr.display_u] writes 20 digits,
    enough for 64 bits; [Output.decimal] writes at most 400 digits before the point,
    more than the largest binary64 number has.  All other recursion is structural.

    ** Not modelled

    The kernel, the NIC (in [XdpSplit] the kernel keeps serving a queue whose socket
    was dropped, since the rings stay mapped), the eBPF program and its build script, memory fences (each
    ring operation is one step), the tokio runtime, the TLS session, the argument
    parser, the drawing of the terminal widgets, the JSON and CSV writers themselves,
    and log lines of the workers that change nothing.  In [Workload] the flood's
    threads are those of a run without latency tracking; with it (the ramp) they share
    the in-flight table, which [InFlight] and [UdpFlood] treat. *)

From Stdlib Require Import ZArith Lia Bool.
From stdpp Require Import base list numbers option.

Open Scope Z_scope.

(** ** Proof automation shared by the components *)

Create HintDb dnsmark.
Create Rewrite HintDb dnsmark.

(** Splits every conjunction of the context. *)
Ltac destruct_ands :=
  repeat match goal with H : _ /\ _ |- _ => destruct H end.

(** Turns the boolean integer tests of a hypothesis or of the goal into the
    propositions they decide. *)
Ltac bool_to_prop :=
  repeat match goal with
    | H : andb _ _ = true |- _ => apply andb_true_iff in H; destruct H
    | H : orb _ _ = false |- _ => apply orb_false_iff in H; destruct H
    | H : negb _ = true |- _ => apply negb_true_iff in H
    | H : negb _ = false |- _ => apply negb_false_iff in H
    | H : Z.leb _ _ = true |- _ => apply Z.leb_le in H
    | H : Z.leb _ _ = false |- _ => apply Z.leb_gt in H
    | H : Z.ltb _ _ = true |- _ => apply Z.ltb_lt in H
    | H : Z.ltb _ _ = false |- _ => apply Z.ltb_ge in H
    | H : Z.geb _ _ = true |- _ => rewrite Z.geb_leb in H
    | H : Z.geb _ _ = false |- _ => rewrite Z.geb_leb in H
    | H : Z.gtb _ _ = true |- _ => rewrite Z.gtb_ltb in H
    | H : Z.gtb _ _ = false |- _ => rewrite Z.gtb_ltb in H
    | H : Z.eqb _ _ = true |- _ => apply Z.eqb_eq in H
    | H : Z.eqb _ _ = false |- _ => apply Z.eqb_neq in H
    | |- Z.leb _ _ = true => apply Z.leb_le
    | |- Z.leb _ _ = false => apply Z.leb_gt
    | |- Z.ltb _ _ = true => apply Z.ltb_lt
    | |- Z.ltb _ _ = false => apply Z.ltb_ge
    | |- Z.eqb _ _ = true => apply Z.eqb_eq
    | |- Z.eqb _ _ = false => apply Z.eqb_neq
    end.

(** Case split on the test of the first [if] of the goal (or of [H]). *)
Ltac case_if :=
  match goal with
  | |- context [if ?b then _ else _] => destruct b eqn:?
  end.
Ltac case_if_in H :=
  match type of H with
  | context [if ?b then _ else _] => destruct b eqn:?
  end.

(** Splits every [if] of the goal, then decides the arithmetic. *)
Ltac ifs_lia := repeat case_if; bool_to_prop; try lia.

(** ** Outcomes: Rust code that can panic

    The release profile builds with [panic = "abort"]: a failed assertion or an
    index out of range stops the process, so the outcome has no value. *)

Inductive outcome (A : Type) : Type :=
| Done (a : A)
| Panic.
Arguments Done {A} _.
Arguments Panic {A}.

Global Instance outcome_ret : MRet outcome := fun A a => Done a.
Global Instance outcome_bind : MBind outcome := fun A B k m =>
  match m with Done a => k a | Panic => Panic end.

(** ** Rust's [Result] *)

Inductive result (A E : Type) : Type :=
| Ok (a : A)
| Err (e : E).
Arguments Ok {A E} _.
Arguments Err {A E} _.

(** ** Machine integers

    A [w]-bit unsigned integer is a [Z] in [0, 2^w).  The release profile does not
    turn overflow checks on, so [+], [-] and [*] wrap; the operations below write
    the wrap-around, and the saturating ones, out. *)

Definition u8_max : Z := 2 ^ 8 - 1.
Definition u16_max : Z := 2 ^ 16 - 1.
Definition u32_max : Z := 2 ^ 32 - 1.
Definition u64_max : Z := 2 ^ 64 - 1.

Definition in_u (w z : Z) : Prop := 0 <= z < 2 ^ w.

(** [x as uN] for an integer [x]. *)
Definition as_u (w z : Z) : Z := z mod 2 ^ w.

Definition wadd (w a b : Z) : Z := (a + b) mod 2 ^ w.
Definition wsub (w a b : Z) : Z := (a - b) mod 2 ^ w.
Definition wmul (w a b : Z) : Z := (a * b) mod 2 ^ w.

(** [saturating_sub] of unsigned integers, [saturating_mul] at width [w]. *)
Definition sat_sub (a b : Z) : Z := Z.max 0 (a - b).
Definition sat_mul (w a b : Z) : Z := Z.min (a * b) (2 ^ w - 1).

Lemma as_u_range w z : 0 <= w -> in_u w (as_u w z).
Proof. intros. apply Z.mod_pos_bound. lia. Qed.

Lemma as_u_small w z : in_u w z -> as_u w z = z.
Proof. intros. by apply Z.mod_small. Qed.

Lemma wadd_small w a b : 0 <= a + b < 2 ^ w -> wadd w a b = a + b.
Proof. intros. by apply Z.mod_small. Qed.

Lemma wadd_0 w a : in_u w a -> wadd w a 0 = a.
Proof. intros Ha. unfold wadd. rewrite Z.add_0_r. by apply Z.mod_small. Qed.

Lemma wsub_small w a b : 0 <= a - b < 2 ^ w -> wsub w a b = a - b.
Proof. intros. by apply Z.mod_small. Qed.

Lemma wadd_idemp w a b c : wadd w (wadd w a b) c = wadd w (a + b) c.
Proof. apply Zplus_mod_idemp_l. Qed.

Lemma sum5_mod n a b c d e : n <> 0 ->
  (a mod n + b mod n + c mod n + d mod n + e mod n) mod n = (a + b + c + d + e) mod n.
Proof.
  intros Hn. rewrite !Z.mod_eq with (b := n) (a := a) by done.
  rewrite (Z.mod_eq b), (Z.mod_eq c), (Z.mod_eq d), (Z.mod_eq e) by done.
  rewrite <- (Z.mod_add (a + b + c + d + e) (- (a / n + b / n + c / n + d / n + e / n))) by done.
  f_equal. ring.
Qed.

Lemma diff3_mod n a b c x y z : n <> 0 ->
  ((a + x) mod n - (b + y) mod n - (c + z) mod n) mod n = ((a - b - c) mod n + (x - y - z)) mod n.
Proof.
  intros Hn. rewrite Zplus_mod_idemp_l.
  rewrite (Z.mod_eq (a + x)), (Z.mod_eq (b + y)), (Z.mod_eq (c + z)) by done.
  rewrite <- (Z.mod_add (a - b - c + (x - y - z)) (- ((a + x) / n) + (b + y) / n + (c + z) / n)) by done.
  f_equal. ring.
Qed.

Lemma wadd_range w a b : 0 <= w -> in_u w (wadd w a b).
Proof. intros. apply Z.mod_pos_bound. lia. Qed.

Lemma wsub_range w a b : 0 <= w -> in_u w (wsub w a b).
Proof. intros. apply Z.mod_pos_bound. lia. Qed.

Lemma sat_sub_nonneg a b : 0 <= sat_sub a b.
Proof. unfold sat_sub. lia. Qed.

Lemma sat_sub_le a b : 0 <= a -> 0 <= b -> sat_sub a b <= a.
Proof. unfold sat_sub. lia. Qed.

#[export] Hint Resolve as_u_range wadd_range wsub_range sat_sub_nonneg : dnsmark.

(** ** Interleavings

    The traces that the threads [ts], each a sequence of atomic actions, can
    produce together. *)

Inductive interleaving {A : Type} : list (list A) -> list A -> Prop :=
| il_done ts : Forall (fun t => t = []) ts -> interleaving ts []
| il_step ts i a rest tr :
    ts !! i = Some (a :: rest) ->
    interleaving (<[i := rest]> ts) tr ->
    interleaving ts (a :: tr).

Lemma concat_all_nil {A} (ts : list (list A)) : Forall (fun t => t = []) ts -> concat ts = [].
Proof. induction 1 as [|t ts -> _ IH]; [done|exact IH]. Qed.

Lemma concat_insert_perm {A} (ts : list (list A)) i a rest :
  ts !! i = Some (a :: rest) -> Permutation (concat ts) (a :: concat (<[i := rest]> ts)).
Proof.
  revert i. induction ts as [|t ts IH]; intros [|i] Hi; cbn in *; try done.
  - by inversion Hi.
  - rewrite (IH _ Hi). symmetry. apply Permutation_middle.
Qed.

(** An interleaving holds the actions of all the threads. *)
Lemma interleaving_perm {A} (ts : list (list A)) tr :
  interleaving ts tr -> Permutation (concat ts) tr.
Proof.
  induction 1 as [ts Hts|ts i a rest tr Hi _ IH].
  - by rewrite concat_all_nil.
  - rewrite (concat_insert_perm _ _ _ _ Hi). by constructor.
Qed.

(** Sum of a measure over a list. *)
Definition zsum {A} (f : A -> Z) (l : list A) : Z := foldr (fun a n => f a + n) 0 l.

Lemma zsum_cons {A} (f : A -> Z) a l : zsum f (a :: l) = f a + zsum f l.
Proof. done. Qed.

Lemma zsum_app {A} (f : A -> Z) l k : zsum f (l ++ k) = zsum f l + zsum f k.
Proof. induction l as [|a l IH]; [done|]. cbn. fold (zsum f l) (zsum f (l ++ k)). lia. Qed.

Lemma zsum_perm {A} (f : A -> Z) l k : Permutation l k -> zsum f l = zsum f k.
Proof. induction 1; cbn in *; unfold zsum in *; lia. Qed.

Lemma zsum_concat {A} (f : A -> Z) ls : zsum f (concat ls) = zsum (zsum f) ls.
Proof. induction ls as [|l ls IH]; [done|]. cbn [concat]. rewrite zsum_app, IH. done. Qed.

Lemma zsum_fmap {A B} (f : B -> Z) (g : A -> B) l : zsum f (g <$> l) = zsum (fun a => f (g a)) l.
Proof. induction l as [|a l IH]; [done|]. rewrite fmap_cons. cbn. f_equal. exact IH. Qed.

Lemma zsum_ext {A} (f g : A -> Z) l : (forall a, a ∈ l -> f a = g a) -> zsum f l = zsum g l.
Proof.
  induction l as [|a l IH]; intros Hfg; [done|]. cbn. rewrite Hfg by left.
  f_equal. apply IH. intros. apply Hfg. by right.
Qed.

Lemma zsum_nonneg {A} (f : A -> Z) l : (forall a, a ∈ l -> 0 <= f a) -> 0 <= zsum f l.
Proof.
  induction l as [|a l IH]; intros Hf; cbn; [lia|]. fold (zsum f l).
  pose proof (Hf a ltac:(left)). assert (0 <= zsum f l) by (apply IH; intros; apply Hf; by right). lia.
Qed.

Lemma zsum_add {A} (f g : A -> Z) l : zsum (fun a => f a + g a) l = zsum f l + zsum g l.
Proof. induction l as [|a l IH]; [done|]. cbn. unfold zsum in *. lia. Qed.

Lemma zsum_insert {A} (f : A -> Z) (l : list A) i x y :
  l !! i = Some x -> zsum f (<[i := y]> l) = zsum f l - f x + f y.
Proof.
  revert i. induction l as [|a l IH]; intros [|i] Hi; try done.
  - inversion Hi; subst. cbn [insert list_insert]. rewrite !zsum_cons. lia.
  - cbn in Hi. change (<[S i := y]> (a :: l)) with (a :: <[i := y]> l).
    rewrite !zsum_cons, (IH _ Hi). lia.
Qed.

Lemma zsum_bound {A} (f : A -> Z) l b : (forall a, a ∈ l -> f a <= b) -> zsum f l <= Z.of_nat (length l) * b.
Proof.
  induction l as [|a l IH]; intros Hb; [done|]. rewrite zsum_cons. cbn [length].
  pose proof (Hb a ltac:(left)). assert (forall x, x ∈ l -> f x <= b) by (intros x Hx; apply Hb; by right).
  specialize (IH ltac:(done)). lia.
Qed.
