(* ===== verification/Float64.v ===== *)
(** * IEEE 754 binary64 arithmetic

    Rust's [f64] as the Standard Library's [spec_float] at precision 53 and
    maximal exponent 1024, rounding to nearest even: the conversions [x as f64] and
    [x as uN], the four operations and the comparisons the program uses.  The lemmas
    bound the rounding error of the product of positive numbers and show that
    the conversion of an integer below 2^53 is exact, which is what the rate
    controller's thresholds need. *)

From Stdlib Require Import ZArith Lia Bool SpecFloat.
From stdpp Require Import base list numbers option.
From S2P Require Import Prelude.

Open Scope Z_scope.

Abbreviation f64 := spec_float.

Definition prec64 : Z := 53.
Definition emax64 : Z := 1024.

(** [z as f64] for an integer [z]: round to nearest even. *)
Definition f64_of_Z (z : Z) : f64 := binary_normalize prec64 emax64 z 0 false.

Definition f64_mul (x y : f64) : f64 := SFmul prec64 emax64 x y.
Definition f64_add (x y : f64) : f64 := SFadd prec64 emax64 x y.
Definition f64_sub (x y : f64) : f64 := SFsub prec64 emax64 x y.
Definition f64_div (x y : f64) : f64 := SFdiv prec64 emax64 x y.

Definition f64_ltb (x y : f64) : bool := SFltb x y.
Definition f64_leb (x y : f64) : bool := SFleb x y.
Definition f64_gtb (x y : f64) : bool := SFltb y x.
Definition f64_geb (x y : f64) : bool := SFleb y x.
Definition f64_eqb (x y : f64) : bool := SFeqb x y.

Definition f64_zero : f64 := S754_zero false.

Definition f64_is_nan (x : f64) : bool :=
  match x with S754_nan => true | _ => false end.

(** [f64::max] and [f64::min]: a NaN operand is ignored. *)
Definition f64_max (x y : f64) : f64 :=
  if f64_is_nan x then y else if f64_is_nan y then x
  else if f64_ltb x y then y else x.
Definition f64_min (x y : f64) : f64 :=
  if f64_is_nan x then y else if f64_is_nan y then x
  else if f64_ltb y x then y else x.

(** A decimal literal [num/den]: both parts are exact below 2^53, so the IEEE
    quotient is the correctly rounded value the compiler emits. *)
Definition f64_lit (num den : Z) : f64 := f64_div (f64_of_Z num) (f64_of_Z den).

(** The integer part of a float, towards zero. *)
Definition f64_trunc (x : f64) : Z :=
  match x with
  | S754_finite s m e =>
      let v := Z.shiftl (Zpos m) e in if s then - v else v
  | _ => 0
  end.

(** [x as uN]: truncation, saturating at the bounds, NaN to 0. *)
Definition f64_as_u (w : Z) (x : f64) : Z :=
  match x with
  | S754_infinity false => 2 ^ w - 1
  | S754_finite false _ _ => Z.min (f64_trunc x) (2 ^ w - 1)
  | _ => 0
  end.

(** [f64::floor] of a number of magnitude below 2^53. *)
Definition f64_floor (x : f64) : f64 :=
  match x with
  | S754_finite s m e =>
      if 0 <=? e then x
      else binary_normalize prec64 emax64
             (Z.shiftr (if s then Zneg m else Zpos m) (- e)) 0 s
  | _ => x
  end.

(** [Duration::from_secs_f64] in nanoseconds, rounded to nearest even.  (The
    program calls it on the inverse of a positive rate only; a negative, infinite
    or NaN argument, which panics, does not arise.) *)
Definition dur_from_secs_f64 (x : f64) : Z :=
  match x with
  | S754_finite false m e =>
      let v := Zpos m * 1000000000 in
      if 0 <=? e then v * 2 ^ e
      else
        let d := 2 ^ (- e) in
        let q := v / d in
        let r := v mod d in
        if 2 * r <? d then q
        else if d <? 2 * r then q + 1
        else if Z.even q then q else q + 1
  | _ => 0
  end.

(** A float's magnitude as an integer multiple of 2^-1074, the smallest
    positive [f64]. *)
Definition f64_scaled (x : f64) : Z :=
  match x with
  | S754_finite s m e => (if s then -1 else 1) * (Zpos m * 2 ^ (e + 1074))
  | _ => 0
  end.

(** ** Digits of a positive number *)

Lemma digits2_pos_bounds (p : positive) :
  2 ^ (Zpos (digits2_pos p) - 1) <= Zpos p < 2 ^ Zpos (digits2_pos p).
Proof.
  induction p as [p IH | p IH |]; [| | simpl; lia].
  - change (digits2_pos p~1) with (Pos.succ (digits2_pos p)).
    rewrite Pos2Z.inj_succ, Z.pow_succ_r by lia.
    replace (2 ^ (Z.succ (Zpos (digits2_pos p)) - 1))
      with (2 * 2 ^ (Zpos (digits2_pos p) - 1))
      by (rewrite <- Z.pow_succ_r by lia; f_equal; lia).
    lia.
  - change (digits2_pos p~0) with (Pos.succ (digits2_pos p)).
    rewrite Pos2Z.inj_succ, Z.pow_succ_r by lia.
    replace (2 ^ (Z.succ (Zpos (digits2_pos p)) - 1))
      with (2 * 2 ^ (Zpos (digits2_pos p) - 1))
      by (rewrite <- Z.pow_succ_r by lia; f_equal; lia).
    lia.
Qed.

(** The digit count is the only [d] with 2^(d-1) <= p < 2^d. *)
Lemma digits2_pos_unique (p : positive) (d : Z) :
  0 < d -> 2 ^ (d - 1) <= Zpos p < 2 ^ d -> Zpos (digits2_pos p) = d.
Proof.
  intros Hd [Hlo Hhi]. pose proof (digits2_pos_bounds p) as [Blo Bhi].
  destruct (Z.lt_trichotomy (Zpos (digits2_pos p)) d) as [H | [H | H]]; [| done |].
  - pose proof (Z.pow_le_mono_r 2 (Zpos (digits2_pos p)) (d - 1)). lia.
  - pose proof (Z.pow_le_mono_r 2 d (Zpos (digits2_pos p) - 1)). lia.
Qed.

(** ** The shift register of the rounding step *)

Lemma iter_pos_nat {A} (f : A -> A) (p : positive) (x : A) :
  SpecFloat.iter_pos f p x = Nat.iter (Pos.to_nat p) f x.
Proof.
  revert x. induction p as [p IH | p IH |]; intros x; [| | done];
    cbn [SpecFloat.iter_pos]; rewrite !IH.
  - rewrite Pos2Nat.inj_xI, <- Nat.iter_succ_r, <- Nat.iter_add. f_equal. lia.
  - rewrite Pos2Nat.inj_xO, <- Nat.iter_add. f_equal. lia.
Qed.

(** What the register holds after [n] shifts of [m]: the quotient, the last bit
    shifted out, and whether anything below that bit was set. *)
Definition shr_spec (m : Z) (n : nat) (r : shr_record) : Prop :=
  shr_m r = m / 2 ^ Z.of_nat n /\
  exists rest,
    m = shr_m r * 2 ^ Z.of_nat n + rest /\
    match shr_r r, shr_s r with
    | false, false => rest = 0
    | false, true => 0 < rest /\ 2 * rest < 2 ^ Z.of_nat n
    | true, false => 2 * rest = 2 ^ Z.of_nat n
    | true, true => 2 ^ Z.of_nat n < 2 * rest < 2 * 2 ^ Z.of_nat n
    end.

Lemma shr_1_spec (m : Z) (n : nat) (r : shr_record) :
  0 <= m -> shr_spec m n r -> shr_spec m (S n) (shr_1 r).
Proof.
  intros Hm [Hq [rest [Heq Hrs]]].
  assert (0 <= shr_m r) as Hr by (rewrite Hq; apply Z.div_pos; lia).
  assert (0 < 2 ^ Z.of_nat n) as Hp by lia.
  assert (shr_m (shr_1 r) = shr_m r / 2 /\
          exists b, shr_m r = 2 * shr_m (shr_1 r) + Z.b2z b /\
            shr_r (shr_1 r) = b /\ shr_s (shr_1 r) = shr_r r || shr_s r)
    as (Hd & b & Hb & Hr1 & Hs1).
  { destruct r as [[| [q | q |] |] rr rs]; simpl in *; [| | | | lia];
      (split; [| first [by exists false | by exists true]]).
    - done.
    - by rewrite Pos2Z.inj_xI, Z.add_comm, Z.mul_comm, Z.div_add by lia.
    - by rewrite Pos2Z.inj_xO, Z.mul_comm, Z.div_mul by lia.
    - done. }
  unfold shr_spec. rewrite Hr1, Hs1, Nat2Z.inj_succ, Z.pow_succ_r by lia.
  split.
  { by rewrite Hd, Hq, Z.div_div, Z.mul_comm by lia. }
  exists (Z.b2z b * 2 ^ Z.of_nat n + rest). split; [rewrite Heq, Hb at 1; ring |].
  destruct b, (shr_r r), (shr_s r); cbn [Z.b2z orb]; lia.
Qed.

Lemma shr_iter_spec (m : Z) (n : nat) :
  0 <= m -> shr_spec m n (Nat.iter n shr_1 (Build_shr_record m false false)).
Proof.
  intros Hm. induction n as [| n IH].
  - split; [simpl; by rewrite Z.div_1_r |]. exists 0. simpl. lia.
  - simpl. by apply shr_1_spec.
Qed.

(** Rounding to nearest: the rounded quotient is at most half a unit away, and
    is the quotient itself when the division is exact. *)
Lemma round_nearest_even_spec (m : Z) (n : nat) (r : shr_record) :
  (0 < n)%nat -> shr_spec m n r ->
  let q := round_nearest_even (shr_m r) (loc_of_shr_record r) in
  (q = m / 2 ^ Z.of_nat n \/ q = m / 2 ^ Z.of_nat n + 1) /\
  2 * Z.abs (q * 2 ^ Z.of_nat n - m) <= 2 ^ Z.of_nat n /\
  (m mod 2 ^ Z.of_nat n = 0 -> q = m / 2 ^ Z.of_nat n).
Proof.
  intros Hn [Hq [rest [Heq Hrs]]] q.
  assert (0 < 2 ^ Z.of_nat n) as Hp by lia.
  pose proof (Z.div_mod m (2 ^ Z.of_nat n)) as Hdm. rewrite <- Hq in *.
  assert (rest = m mod 2 ^ Z.of_nat n) as Hrest by lia.
  subst q. destruct r as [qm [] []]; cbn in *; [| | |]; try (destruct (Z.even qm)); lia.
Qed.

(** ** The rounding of a positive mantissa in the normal range *)

Lemma fexp_normal (x : Z) : -1021 <= x -> fexp prec64 emax64 x = x - 53.
Proof. unfold fexp, emin, prec64, emax64. lia. Qed.

Lemma Zdigits2_unique (q d : Z) :
  0 < d -> 2 ^ (d - 1) <= q < 2 ^ d -> Zdigits2 q = d.
Proof.
  intros Hd Hq. assert (0 < 2 ^ (d - 1)) by (apply Z.pow_pos_nonneg; lia).
  destruct q as [| p | p]; try lia. by apply digits2_pos_unique.
Qed.

(** A mantissa of exactly 53 bits is left as it is. *)
Lemma round_aux_53 (m : positive) (e : Z) :
  Zpos (digits2_pos m) = 53 -> -1074 <= e <= 971 ->
  binary_round_aux prec64 emax64 false (Zpos m) e loc_Exact = S754_finite false m e.
Proof.
  intros Hd He. unfold binary_round_aux, shr_fexp. cbn [Zdigits2 shr_record_of_loc].
  rewrite Hd, fexp_normal by lia. replace (53 + e - 53 - e) with 0 by lia.
  cbn [shr shr_m loc_of_shr_record round_nearest_even Zdigits2 shr_record_of_loc].
  rewrite Hd, fexp_normal by lia. replace (53 + e - 53 - e) with 0 by lia. cbn [shr shr_m].
  destruct (Z.leb_spec e (emax64 - prec64)) as [|H]; [done |].
  unfold emax64, prec64 in H. lia.
Qed.

(** The second normalisation: a rounded 53-bit quotient stays, 2^53 moves to the
    next binade. *)
Lemma round_aux_finish (q e : Z) :
  2 ^ 52 <= q <= 2 ^ 53 -> -1074 <= e <= 970 ->
  exists m' e',
    (let '(mrs, e'') := shr_fexp prec64 emax64 q e loc_Exact in
     match shr_m mrs with
     | Z0 => S754_zero false
     | Zpos m => if e'' <=? emax64 - prec64 then S754_finite false m e''
                 else S754_infinity false
     | _ => S754_nan
     end) = S754_finite false m' e' /\
    (e' = e \/ e' = e + 1) /\ Zpos m' * 2 ^ (e' - e) = q /\
    Zpos (digits2_pos m') = 53.
Proof.
  intros Hq He. unfold shr_fexp. destruct (Z.eq_dec q (2 ^ 53)) as [-> | Hne].
  - rewrite (Zdigits2_unique _ 54), fexp_normal by lia.
    replace (54 + e - 53 - e) with 1 by lia.
    exists (2 ^ 52)%positive, (e + 1). split; [| split; [by right |]].
    + cbn [shr shr_record_of_loc]. change (SpecFloat.iter_pos shr_1 1 _) with
        (Build_shr_record (Zpos (2 ^ 52)) false false). cbn [shr_m].
      destruct (Z.leb_spec (e + 1) (emax64 - prec64)) as [|H]; [done |].
      unfold emax64, prec64 in H. lia.
    + replace (e + 1 - e) with 1 by lia. split; reflexivity.
  - rewrite (Zdigits2_unique _ 53), fexp_normal by lia.
    replace (53 + e - 53 - e) with 0 by lia. cbn [shr shr_record_of_loc shr_m].
    destruct q as [| p | p]; try lia.
    exists p, e. split; [| split; [by left |]].
    + destruct (Z.leb_spec e (emax64 - prec64)) as [|H]; [done |].
      unfold emax64, prec64 in H. lia.
    + rewrite Z.sub_diag. split; [lia |]. apply digits2_pos_unique; lia.
Qed.

(** A wider mantissa is rounded: the result is within half a unit in the last
    place, and exact when the dropped bits are zero. *)
Lemma round_aux_pos (m : positive) (e n : Z) :
  Zpos (digits2_pos m) = 53 + n -> 0 < n -> -1074 <= e + n <= 970 ->
  exists m' e',
    binary_round_aux prec64 emax64 false (Zpos m) e loc_Exact = S754_finite false m' e' /\
    Zpos (digits2_pos m') = 53 /\ (e' = e + n \/ e' = e + n + 1) /\
    2 * Z.abs (Zpos m' * 2 ^ (e' - e) - Zpos m) <= 2 ^ n /\
    Zpos m / 2 ^ n * 2 ^ n <= Zpos m' * 2 ^ (e' - e) /\
    (Zpos m mod 2 ^ n = 0 -> Zpos m' * 2 ^ (e' - e) = Zpos m).
Proof.
  intros Hd Hn He. unfold binary_round_aux. unfold shr_fexp at 1.
  cbn [Zdigits2 shr_record_of_loc].
  rewrite Hd, fexp_normal by lia. replace (53 + n + e - 53 - e) with n by lia.
  destruct n as [| k | k]; try lia. cbn [shr]. rewrite iter_pos_nat.
  pose proof (shr_iter_spec (Zpos m) (Pos.to_nat k) ltac:(lia)) as Hs.
  apply round_nearest_even_spec in Hs; [| lia].
  rewrite positive_nat_Z in Hs. revert Hs.
  set (q := round_nearest_even _ _). intros (Hq & Herr & Hexact).
  pose proof (digits2_pos_bounds m) as Hb. rewrite Hd in Hb.
  assert (2 ^ 52 <= Zpos m / 2 ^ Zpos k < 2 ^ 53) as Hdiv.
  { split.
    - apply Z.div_le_lower_bound; [lia |].
      replace (2 ^ Zpos k * 2 ^ 52) with (2 ^ (53 + Zpos k - 1)); [lia |].
      rewrite <- Z.pow_add_r by lia. f_equal. lia.
    - apply Z.div_lt_upper_bound; [lia |].
      replace (2 ^ Zpos k * 2 ^ 53) with (2 ^ (53 + Zpos k)); [lia |].
      rewrite <- Z.pow_add_r by lia. f_equal. lia. }
  destruct (round_aux_finish q (e + Zpos k)) as (m' & e' & Heq & He' & Hm' & Hd'); [lia | lia |].
  exists m', e'. split; [exact Heq |].
  assert (Zpos m' * 2 ^ (e' - e) = q * 2 ^ Zpos k) as Hval.
  { rewrite <- Hm', <- Z.mul_assoc, <- Z.pow_add_r by lia. do 2 f_equal. lia. }
  rewrite Hval. repeat split; [done | lia | lia | apply Z.mul_le_mono_nonneg_r; lia |].
  intros H0. rewrite Hexact by done. pose proof (Z.div_mod (Zpos m) (2 ^ Zpos k)). lia.
Qed.

(** ** Conversion and product of positive numbers *)

Lemma Pos_iter_xO (m k : positive) : Zpos (Pos.iter xO m k) = Zpos m * 2 ^ Zpos k.
Proof.
  induction k as [| k IH] using Pos.peano_ind; [simpl; lia |].
  rewrite Pos.iter_succ, Pos2Z.inj_xO, IH, Pos2Z.inj_succ, Z.pow_succ_r by lia. lia.
Qed.

(** An integer below 2^53 converts exactly, to a mantissa of 53 bits. *)
Lemma f64_of_Z_exact (n : Z) :
  0 < n < 2 ^ 53 ->
  exists m e, f64_of_Z n = S754_finite false m e /\ Zpos (digits2_pos m) = 53 /\
    -52 <= e <= 0 /\ Zpos m = n * 2 ^ (- e) /\ 2 ^ (e + 52) <= n < 2 ^ (e + 53).
Proof.
  intros Hn. destruct n as [| p | p]; try lia. unfold f64_of_Z, binary_normalize, binary_round.
  set (d := Zpos (digits2_pos p)). pose proof (digits2_pos_bounds p) as Hb. fold d in Hb.
  assert (1 <= d <= 53) as Hd.
  { split; [lia |]. destruct (Z.le_gt_cases d 53) as [| H]; [done |].
    pose proof (Z.pow_le_mono_r 2 53 (d - 1)). lia. }
  rewrite Z.add_0_r, fexp_normal by lia. unfold shl_align.
  destruct (Z.eq_dec d 53) as [Heq | Hne].
  - replace (d - 53 - 0) with 0 by lia. cbn. exists p, 0.
    rewrite round_aux_53 by (fold d; lia). rewrite Heq in Hb.
    repeat split; try done; cbn in *; lia.
  - destruct (d - 53 - 0) as [| k | k] eqn:Hk; try lia.
    pose proof (Pos_iter_xO p k) as Hit. set (m := Pos.iter xO p k) in *.
    assert (Zpos k = 53 - d) as Hk' by lia.
    assert (Zpos (digits2_pos m) = 53) as Hm.
    { apply digits2_pos_unique; [lia |]. rewrite Hit.
      replace (2 ^ (53 - 1)) with (2 ^ (d - 1) * 2 ^ Zpos k)
        by (rewrite <- Z.pow_add_r by lia; f_equal; lia).
      replace (2 ^ 53) with (2 ^ d * 2 ^ Zpos k)
        by (rewrite <- Z.pow_add_r by lia; f_equal; lia).
      nia. }
    exists m, (d - 53). rewrite round_aux_53 by lia.
    replace (- (d - 53)) with (Zpos k) by lia.
    replace (d - 53 + 52) with (d - 1) by lia. replace (d - 53 + 53) with d by lia.
    repeat split; lia.
Qed.

(** The rounding error of a product of two 53-bit mantissas. *)
Lemma f64_mul_pos (mx my : positive) (ex ey : Z) :
  Zpos (digits2_pos mx) = 53 -> Zpos (digits2_pos my) = 53 ->
  -1126 <= ex + ey -> ex + ey <= 917 ->
  exists m' e' n,
    f64_mul (S754_finite false mx ex) (S754_finite false my ey) = S754_finite false m' e' /\
    (52 <= n <= 53 /\ Zpos mx * Zpos my < 2 ^ (53 + n)) /\ n <= e' - (ex + ey) /\ e' <= ex + ey + n + 1 /\
    2 * Z.abs (Zpos m' * 2 ^ (e' - (ex + ey)) - Zpos mx * Zpos my) <= 2 ^ n /\
    Zpos mx * Zpos my / 2 ^ n * 2 ^ n <= Zpos m' * 2 ^ (e' - (ex + ey)) /\
    ((Zpos mx * Zpos my) mod 2 ^ n = 0 ->
      Zpos m' * 2 ^ (e' - (ex + ey)) = Zpos mx * Zpos my).
Proof.
  intros Hx Hy Hlo Hhi. unfold f64_mul, SFmul. cbn [xorb].
  pose proof (digits2_pos_bounds mx) as Bx. pose proof (digits2_pos_bounds my) as By.
  rewrite Hx in Bx. rewrite Hy in By. rewrite <- !Pos2Z.inj_mul.
  assert (exists n, 52 <= n <= 53 /\ Zpos (digits2_pos (mx * my)) = 53 + n) as (n & Hn & Hd).
  { destruct (Z.lt_ge_cases (Zpos (mx * my)) (2 ^ 105)) as [H | H].
    - exists 52. split; [lia |]. apply digits2_pos_unique; [lia |].
      rewrite Pos2Z.inj_mul in *. nia.
    - exists 53. split; [lia |]. apply digits2_pos_unique; [lia |].
      rewrite Pos2Z.inj_mul in *. nia. }
  destruct (round_aux_pos (mx * my) (ex + ey) n Hd) as (m' & e' & Heq & _ & He & H1 & H2 & H3);
    [lia | lia |].
  pose proof (digits2_pos_bounds (mx * my)) as Bxy. rewrite Hd in Bxy.
  exists m', e', n. split_and!; try done; lia.
Qed.

(** [x as u64] of a positive float that is the integer [k] plus a fraction. *)
Lemma f64_as_u_floor (w : Z) (m : positive) (e k s : Z) :
  0 <= s -> 0 <= e + s -> 0 <= k < 2 ^ w ->
  k * 2 ^ s <= Zpos m * 2 ^ (e + s) < (k + 1) * 2 ^ s ->
  f64_as_u w (S754_finite false m e) = k.
Proof.
  intros Hs He Hk Hb. unfold f64_as_u, f64_trunc. rewrite Z.min_l.
  all: assert (Z.shiftl (Zpos m) e = k) as Hv; [| try lia].
  all: destruct (Z.le_ge_cases 0 e) as [Hpos | Hneg].
  all: try (rewrite Z.shiftl_mul_pow2 by done; rewrite Z.pow_add_r in Hb by lia;
            assert (0 < 2 ^ s) by lia; nia).
  all: replace e with (- (- e)) by lia; rewrite Z.shiftl_opp_r, Z.shiftr_div_pow2 by lia;
    replace s with ((e + s) + (- e)) in Hb at 1 by lia;
    replace ((k + 1) * 2 ^ s) with ((k + 1) * 2 ^ ((e + s) + (- e))) in Hb by (do 2 f_equal; lia);
    rewrite Z.pow_add_r in Hb by lia; symmetry;
    apply Z.div_unique with (Zpos m - 2 ^ (- e) * k); [left |];
    assert (0 < 2 ^ (e + s)) by (apply Z.pow_pos_nonneg; lia); nia.
Qed.

(** ** The two products of the rate controller *)

Lemma f64_lit_3 : f64_lit 3 1 = S754_finite false (3 * 2 ^ 51) (-51).
Proof. reflexivity. Qed.

Lemma f64_lit_080 : f64_lit 80 100 = S754_finite false 7205759403792794 (-53).
Proof. reflexivity. Qed.

(** [(b as f64 * 3.0) as u64] is [3 * b] below 2^51. *)
Lemma f64_mul_3_exact (b : Z) :
  0 <= b < 2 ^ 51 -> f64_as_u 64 (f64_mul (f64_of_Z b) (f64_lit 3 1)) = 3 * b.
Proof.
  intros Hb. destruct (Z.eq_dec b 0) as [-> | Hne]; [reflexivity |].
  destruct (f64_of_Z_exact b) as (m & e & Heq & Hd & He & Hm & Hr); [lia |].
  assert (e <= -2) as He2.
  { destruct (Z.le_gt_cases e (-2)) as [| H]; [done |].
    pose proof (Z.pow_le_mono_r 2 51 (e + 52)). lia. }
  rewrite Heq, f64_lit_3.
  destruct (f64_mul_pos m (3 * 2 ^ 51) e (-51)) as (m' & e' & n & -> & Hn & Hge & Hle & _ & _ & Hex);
    [done | reflexivity | lia | lia |].
  assert (Zpos m * Zpos (3 * 2 ^ 51) = 3 * b * 2 ^ (51 - e)) as Hprod.
  { rewrite Hm. change (Zpos (3 * 2 ^ 51)) with (3 * 2 ^ 51).
    replace (51 - e) with (- e + 51) by lia. rewrite Z.pow_add_r by lia. ring. }
  rewrite Hprod in Hex.
  assert ((3 * b * 2 ^ (51 - e)) mod 2 ^ n = 0) as H0.
  { replace (51 - e) with ((51 - e - n) + n) by lia. rewrite Z.pow_add_r by lia.
    rewrite Z.mul_assoc. by apply Z_mod_mult. }
  specialize (Hex H0).
  apply f64_as_u_floor with (51 - e); [lia | lia | lia |].
  replace (e' + (51 - e)) with (e' - (e + -51)) by lia. rewrite Hex.
  assert (0 < 2 ^ (51 - e)) by (apply Z.pow_pos_nonneg; lia). nia.
Qed.

(** [(t as f64 * 0.80) as u64] is the integer part of [4t/5] below 2^48: the
    product is a little above [4t/5] and the rounding cannot reach the next
    integer, nor fall below an integer that [4t/5] has reached. *)
Lemma f64_mul_080_floor (t : Z) :
  0 <= t < 2 ^ 48 -> f64_as_u 64 (f64_mul (f64_of_Z t) (f64_lit 80 100)) = 4 * t / 5.
Proof.
  intros Ht. destruct (Z.eq_dec t 0) as [-> | Hne]; [reflexivity |].
  destruct (f64_of_Z_exact t) as (m & e & Heq & Hd & He & Hm & Hr); [lia |].
  assert (e <= -5) as He5.
  { destruct (Z.le_gt_cases e (-5)) as [| H]; [done |].
    pose proof (Z.pow_le_mono_r 2 48 (e + 52)). lia. }
  rewrite Heq, f64_lit_080.
  destruct (f64_mul_pos m 7205759403792794 e (-53))
    as (m' & e' & n & -> & Hn & Hge & Hle & Herr & Hfl & _); [done | reflexivity | lia | lia |].
  set (S := Zpos m' * 2 ^ (e' - (e + -53))) in *. rewrite Hm in Herr, Hfl.
  set (c := Zpos 7205759403792794) in *. set (k := 4 * t / 5).
  assert (5 * c = 4 * 2 ^ 53 + 2) as Hc by reflexivity.
  assert (0 < 2 ^ (- e)) as Hpe by (apply Z.pow_pos_nonneg; lia).
  assert (2 ^ 53 * 2 ^ (- e) = 2 ^ (53 - e)) as Hpow
    by (rewrite <- Z.pow_add_r by lia; f_equal; lia).
  assert (2 ^ n <= 2 ^ 53) as Hn53 by (apply Z.pow_le_mono_r; lia).
  assert (2 ^ 5 <= 2 ^ (- e)) as Hpe5 by (apply Z.pow_le_mono_r; lia).
  assert (k * 2 ^ (53 - e) <= t * 2 ^ (- e) * c) as Hk.
  { rewrite <- Hpow. assert (5 * k <= 4 * t) by (unfold k; pose proof (Z.mul_div_le (4 * t) 5); lia).
    nia. }
  assert (k * 2 ^ (53 - e) <= S) as Hlow.
  { etransitivity; [| exact Hfl]. replace (53 - e) with ((53 - e - n) + n) by lia.
    rewrite Z.pow_add_r, Z.mul_assoc by lia. apply Z.mul_le_mono_nonneg_r; [lia |].
    apply Z.div_le_lower_bound; [lia |].
    replace (53 - e) with ((53 - e - n) + n) in Hk by lia. rewrite Z.pow_add_r in Hk by lia. nia. }
  assert (4 * t + 1 <= 5 * (k + 1)) as Hk1.
  { unfold k. pose proof (Z.div_mod (4 * t) 5). pose proof (Z.mod_pos_bound (4 * t) 5). lia. }
  apply f64_as_u_floor with (53 - e); [lia | lia | unfold k |].
  { split; [apply Z.div_pos; lia |]. apply Z.div_lt_upper_bound; lia. }
  replace (e' + (53 - e)) with (e' - (e + -53)) by lia. split; [exact Hlow |].
  rewrite <- Hpow. assert (t * 2 ^ (- e) * c * 5 = t * 2 ^ (- e) * (4 * 2 ^ 53 + 2)) by nia.
  assert (10 * S <= 10 * (t * 2 ^ (- e) * c) + 5 * 2 ^ 53) by lia. nia.
Qed.

(** ** Percentages of a count *)

Lemma f64_lit_050 : f64_lit 50 100 = S754_finite false 4503599627370496 (-53).
Proof. reflexivity. Qed.

Lemma f64_lit_095 : f64_lit 95 100 = S754_finite false 8556839292003942 (-53).
Proof. reflexivity. Qed.

Lemma f64_lit_099 : f64_lit 99 100 = S754_finite false 8917127262193582 (-53).
Proof. reflexivity. Qed.

(** Two multiples of [d] less than [d] apart are equal. *)
Lemma multiple_close a b d : 0 < d -> Z.abs (a * d - b * d) < d -> a = b.
Proof. intros Hd H. nia. Qed.

(** Two roundings of half a unit are less than a unit when one of them is. *)
Lemma close_step V P K md d :
  2 * Z.abs (V - P) <= d -> 100 * P = 100 * K + md -> 2 * Z.abs md < 100 * d -> Z.abs (V - K) < d.
Proof. lia. Qed.

(** [(t as f64 * p) as u64] is the integer part of [num * t / 100] below 2^45 when
    the literal [p = num/100] is close enough to its decimal value: a product that
    should be an integer is rounded to it, also from below, and any other is too
    far from the next integer to reach it. *)
Lemma f64_mul_pct_floor (num t : Z) (c : positive) :
  f64_lit num 100 = S754_finite false c (-53) -> Zpos (digits2_pos c) = 53 ->
  Z.abs (100 * Zpos c - num * 2 ^ 53) * 2 ^ 54 <= 100 * Zpos c ->
  Z.abs (100 * Zpos c - num * 2 ^ 53) <= 50 -> 0 < num <= 100 -> 0 <= t < 2 ^ 45 ->
  f64_as_u 64 (f64_mul (f64_of_Z t) (f64_lit num 100)) = num * t / 100.
Proof.
  intros Hlit Hc Hnear H50 Hnum Ht. destruct (Z.eq_dec t 0) as [-> | Hne].
  { rewrite Hlit, Z.mul_0_r. reflexivity. }
  destruct (f64_of_Z_exact t) as (m & e & Heq & Hd & He & Hm & Hr); [lia |].
  assert (e <= -7) as He7.
  { destruct (Z.le_gt_cases e (-7)) as [| H]; [done |].
    pose proof (Z.pow_le_mono_r 2 46 (e + 52)). lia. }
  rewrite Heq, Hlit.
  destruct (f64_mul_pos m c e (-53))
    as (m' & e' & n & -> & Hn & Hge & Hle & Herr & Hfl & _); [done | done | lia | lia |].
  pose proof (digits2_pos_bounds m) as Bm. rewrite Hd in Bm.
  pose proof (digits2_pos_bounds c) as Bc. rewrite Hc in Bc.
  set (k := num * t / 100). pose proof (Z.div_mod (num * t) 100 ltac:(lia)) as Hk. fold k in Hk.
  pose proof (Z.mod_pos_bound (num * t) 100 ltac:(lia)) as Hmod.
  assert (0 < 2 ^ n <= 2 ^ 53) as Hpn by (split; [lia | apply Z.pow_le_mono_r; lia]).
  assert (2 ^ 60 <= 2 ^ (53 - e)) as Hbig by (apply Z.pow_le_mono_r; lia).
  assert (num * t * 2 ^ (53 - e) = num * Zpos m * 2 ^ 53) as Hscale.
  { rewrite Hm. replace (53 - e) with (- e + 53) by lia. rewrite Z.pow_add_r by lia. ring. }
  assert (0 <= k < 2 ^ 64) as Hkb.
  { unfold k. split; [apply Z.div_pos; lia |]. apply Z.div_lt_upper_bound; nia. }
  apply f64_as_u_floor with (53 - e); [lia | lia | done |].
  replace (e' + (53 - e)) with (e' - (e + -53)) by lia.
  set (V := Zpos m' * 2 ^ (e' - (e + -53))) in *.
  set (D := 2 ^ (53 - e)) in *. set (delta := 100 * Zpos c - num * 2 ^ 53) in *.
  assert (100 * (Zpos m * Zpos c) = num * t * D + Zpos m * delta) as HP by (unfold delta; lia).
  destruct (Z.eq_dec ((num * t) mod 100) 0) as [E | E].
  - enough (V = k * D) as -> by lia.
    assert (V = Zpos m' * 2 ^ (e' - (e + -53) - n) * 2 ^ n) as HV.
    { unfold V. rewrite <- Z.mul_assoc, <- Z.pow_add_r by lia. do 2 f_equal. lia. }
    assert (k * D = k * 2 ^ (53 - e - n) * 2 ^ n) as HK.
    { unfold D. rewrite <- Z.mul_assoc, <- Z.pow_add_r by lia. do 2 f_equal. lia. }
    rewrite HV, HK. f_equal. apply multiple_close with (2 ^ n); [lia |]. rewrite <- HV, <- HK.
    assert (100 * (k * D) = num * t * D) as HkD by (rewrite Hk, E; ring).
    apply (close_step _ _ _ (Zpos m * delta) _ Herr); [by rewrite HkD |].
    destruct Hn as [Hn Hprod]. rewrite Z.pow_add_r in Hprod by lia.
    rewrite Z.abs_mul. set (a := Z.abs delta) in *. change (Z.abs (Zpos m)) with (Zpos m).
    assert (a * 2 ^ 54 * Zpos m <= 100 * Zpos c * Zpos m)
      by (apply Z.mul_le_mono_nonneg_r; lia). lia.
  - set (r := (num * t) mod 100) in *.
    assert (num * t * D = 100 * (k * D) + r * D) as HkD by (rewrite Hk at 1; ring).
    assert (Z.abs (Zpos m * delta) <= 50 * 2 ^ 53) as Hdelta.
    { rewrite Z.abs_mul, (Z.mul_comm 50). apply Z.mul_le_mono_nonneg; lia. }
    assert (1 * D <= r * D <= 99 * D) as HrD by (split; apply Z.mul_le_mono_nonneg_r; lia). rewrite HkD in HP.
    clearbody V D r k. clear - Herr HP Hdelta HrD Hbig Hpn.
    set (P := Zpos m * Zpos c) in *. set (md := Zpos m * delta) in *. clearbody P md. lia.
Qed.

(** The three percentages of the probe's report. *)
Lemma f64_mul_050_floor t : 0 <= t < 2 ^ 45 ->
  f64_as_u 64 (f64_mul (f64_of_Z t) (f64_lit 50 100)) = 50 * t / 100.
Proof. intros. eapply f64_mul_pct_floor; [apply f64_lit_050 | done | lia | lia | lia | lia]. Qed.

Lemma f64_mul_095_floor t : 0 <= t < 2 ^ 45 ->
  f64_as_u 64 (f64_mul (f64_of_Z t) (f64_lit 95 100)) = 95 * t / 100.
Proof. intros. eapply f64_mul_pct_floor; [apply f64_lit_095 | done | lia | lia | lia | lia]. Qed.

Lemma f64_mul_099_floor t : 0 <= t < 2 ^ 45 ->
  f64_as_u 64 (f64_mul (f64_of_Z t) (f64_lit 99 100)) = 99 * t / 100.
Proof. intros. eapply f64_mul_pct_floor; [apply f64_lit_099 | done | lia | lia | lia | lia]. Qed.
