(* ===== verification/RustStr.v ===== *)
(** * Rust strings

    The operations of [str] and [char] that the program uses.  A [str] is the
    list of its Unicode scalar values (each a [Z]); [as_bytes] is its UTF-8
    encoding.  [lit] reads an ASCII literal of the source.

    The operations: [split], [split_whitespace], [lines], [trim],
    [trim_end_matches], [strip_prefix], [strip_suffix], [starts_with], the ASCII
    case conversions, [parse] to an unsigned integer, [from_str_radix] and the
    formatting of an integer in decimal and in zero-padded hexadecimal. *)

From Stdlib Require Import ZArith Lia Bool String Ascii.
From stdpp Require Import base numbers option list.
From S2P Require Import Prelude.

Open Scope Z_scope.

(** A character and a string. *)
Abbreviation char := Z (only parsing).
Abbreviation str := (list Z) (only parsing).

(** The ASCII literal of the source as a [str]. *)
Fixpoint lit (s : string) : str :=
  match s with
  | EmptyString => []
  | String a s' => Z.of_N (N_of_ascii a) :: lit s'
  end.

Definition str_eqb (a b : str) : bool := bool_decide (a = b).

Definition c_dot : char := 46.
Definition c_colon : char := 58.
Definition c_comma : char := 44.
Definition c_dash : char := 45.
Definition c_hash : char := 35.
Definition c_plus : char := 43.
Definition c_lf : char := 10.
Definition c_cr : char := 13.

(** ** UTF-8 *)

(** A Unicode scalar value: what a Rust [char] can hold. *)
Definition is_scalar (c : char) : bool :=
  (0 <=? c) && (c <? 0xD800) || (0xE000 <=? c) && (c <=? 0x10FFFF).

Definition utf8_char (c : char) : list Z :=
  if c <? 0x80 then [c]
  else if c <? 0x800 then [0xC0 + c / 64; 0x80 + c mod 64]
  else if c <? 0x10000 then
    [0xE0 + c / 4096; 0x80 + (c / 64) mod 64; 0x80 + c mod 64]
  else
    [0xF0 + c / 262144; 0x80 + (c / 4096) mod 64; 0x80 + (c / 64) mod 64;
     0x80 + c mod 64].

Definition as_bytes (s : str) : list Z := concat (utf8_char <$> s).

(** ** Splitting and trimming *)

(** [s.split(p)]: never empty, one more piece than separators. *)
Fixpoint split_by (p : char -> bool) (s : str) : list str :=
  match s with
  | [] => [[]]
  | c :: s' =>
      let rest := split_by p s' in
      if p c then [] :: rest
      else match rest with
           | [] => [[c]]
           | w :: ws => (c :: w) :: ws
           end
  end.

Definition split_char (c : char) (s : str) : list str := split_by (Z.eqb c) s.

(** [char::is_whitespace] (the White_Space property of Unicode). *)
Definition is_whitespace (c : char) : bool :=
  (9 <=? c) && (c <=? 13) || (c =? 0x20) || (c =? 0x85) || (c =? 0xA0) ||
  (c =? 0x1680) || (0x2000 <=? c) && (c <=? 0x200A) || (c =? 0x2028) ||
  (c =? 0x2029) || (c =? 0x202F) || (c =? 0x205F) || (c =? 0x3000).

Definition is_empty {A} (s : list A) : bool :=
  match s with [] => true | _ => false end.

Definition split_whitespace (s : str) : list str :=
  base.filter (fun w => is_empty w = false) (split_by is_whitespace s).

Fixpoint drop_prefix_while (p : char -> bool) (s : str) : str :=
  match s with
  | [] => []
  | c :: s' => if p c then drop_prefix_while p s' else s
  end.

Definition trim_end_by (p : char -> bool) (s : str) : str :=
  rev (drop_prefix_while p (rev s)).

Definition trim_end_matches (c : char) (s : str) : str := trim_end_by (Z.eqb c) s.
Definition trim (s : str) : str :=
  trim_end_by is_whitespace (drop_prefix_while is_whitespace s).

Fixpoint strip_prefix (p s : str) : option str :=
  match p, s with
  | [], _ => Some s
  | a :: p', b :: s' => if a =? b then strip_prefix p' s' else None
  | _ :: _, [] => None
  end.

Definition strip_suffix (p s : str) : option str :=
  @rev Z <$> strip_prefix (rev p) (rev s).

Definition starts_with (p s : str) : bool := bool_decide (is_Some (strip_prefix p s)).

(** [s.split_inclusive('\n')]: each piece keeps its line feed, and the text
    after the last line feed is a piece only when it is not empty. *)
Fixpoint split_inclusive_lf (s : str) : list str :=
  match s with
  | [] => []
  | c :: s' =>
      if c =? c_lf then [c] :: split_inclusive_lf s'
      else match split_inclusive_lf s' with
           | [] => [[c]]
           | w :: ws => (c :: w) :: ws
           end
  end.

(** [s.lines()]: a line ends with a line feed, or a carriage return and a line
    feed; neither is part of it. *)
Definition line_of (w : str) : str :=
  match strip_suffix [c_lf] w with
  | None => w
  | Some w' => default w' (strip_suffix [c_cr] w')
  end.
Definition lines (s : str) : list str := line_of <$> split_inclusive_lf s.

(** ** Case *)

Definition ascii_upper (c : char) : char :=
  if (97 <=? c) && (c <=? 122) then c - 32 else c.
Definition ascii_lower (c : char) : char :=
  if (65 <=? c) && (c <=? 90) then c + 32 else c.
Definition to_ascii_uppercase (s : str) : str := ascii_upper <$> s.
Definition to_ascii_lowercase (s : str) : str := ascii_lower <$> s.

(** ** Integers *)

(** [char::to_digit] for a radix up to 16. *)
Definition to_digit (radix : Z) (c : char) : option Z :=
  let v := if (48 <=? c) && (c <=? 57) then c - 48
           else if (97 <=? c) && (c <=? 122) then c - 87
           else if (65 <=? c) && (c <=? 90) then c - 55
           else radix in
  if v <? radix then Some v else None.

Fixpoint digits_value (radix w acc : Z) (s : str) : option Z :=
  match s with
  | [] => Some acc
  | c :: s' =>
      match to_digit radix c with
      | None => None
      | Some d =>
          let acc' := acc * radix + d in
          if acc' <? 2 ^ w then digits_value radix w acc' s' else None
      end
  end.

(** [uN::from_str_radix]: an optional [+], then at least one digit; [None] is
    any of its errors (empty, invalid digit, overflow). *)
Definition from_str_radix (radix w : Z) (s : str) : option Z :=
  let ds := match s with
            | c :: s' => if c =? c_plus then s' else s
            | [] => []
            end in
  match ds with
  | [] => None
  | _ => digits_value radix w 0 ds
  end.

Definition parse_u (w : Z) (s : str) : option Z := from_str_radix 10 w s.

Definition digit_char (d : Z) : char := if d <? 10 then 48 + d else 87 + d.

(** The [n] last digits of [z] in a radix, leading zeros kept. *)
Fixpoint digits_fixed (radix : Z) (n : nat) (z : Z) : str :=
  match n with
  | O => []
  | S n' => digits_fixed radix n' (z / radix) ++ [digit_char (z mod radix)]
  end.

(** [format!("{:0nx}", z)] for [z < 16 ^ n]. *)
Definition format_hex (n : nat) (z : Z) : str := digits_fixed 16 n z.

Fixpoint display_fuel (n : nat) (z : Z) : str :=
  match n with
  | O => []
  | S n' =>
      (if z <? 10 then [] else display_fuel n' (z / 10)) ++ [digit_char (z mod 10)]
  end.

(** [format!("{}", z)] for an unsigned integer of at most 64 bits: 20 digits
    are enough. *)
Definition display_u (z : Z) : str := display_fuel 20 z.

(** ** Lemmas *)

(** A string in which no character satisfies [p]. *)
Definition no_char (p : char -> bool) (s : str) : Prop := Forall (fun c => p c = false) s.

Lemma split_by_ne p s : split_by p s <> [].
Proof. destruct s; simpl; [done|]. case_if; [done|]. by destruct (split_by p s). Qed.

Lemma split_by_pieces p s : Forall (no_char p) (split_by p s).
Proof.
  induction s as [|c s IH]; simpl.
  - repeat constructor.
  - destruct (p c) eqn:E; [by constructor; [constructor|]|].
    destruct (split_by p s) as [|w ws]; [by repeat constructor|].
    inversion IH; subst. constructor; [by constructor|done].
Qed.

Lemma split_by_app p w s c :
  no_char p w -> p c = true -> split_by p (w ++ c :: s) = w :: split_by p s.
Proof.
  intros Hw Hc. induction Hw as [|x w Hx Hw IH]; simpl; [by rewrite Hc|].
  by rewrite Hx, IH.
Qed.

Lemma split_by_none p w : no_char p w -> split_by p w = [w].
Proof. induction 1 as [|x w Hx Hw IH]; simpl; [done|]. by rewrite Hx, IH. Qed.

(** Joining with a separator is undone by splitting on it. *)
Fixpoint join (sep : char) (ws : list str) : str :=
  match ws with
  | [] => []
  | [w] => w
  | w :: ws' => w ++ sep :: join sep ws'
  end.

Lemma split_join sep ws :
  ws <> [] -> Forall (no_char (Z.eqb sep)) ws -> split_char sep (join sep ws) = ws.
Proof.
  intros Hne Hws. unfold split_char. induction Hws as [|w ws Hw Hws IH]; [done|].
  destruct ws as [|w' ws]; simpl; [by apply split_by_none|].
  rewrite (split_by_app (Z.eqb sep)); [|done|apply Z.eqb_refl].
  f_equal. by apply IH.
Qed.

Lemma join_split sep s : join sep (split_char sep s) = s.
Proof.
  unfold split_char. induction s as [|c s IH]; simpl; [done|].
  destruct (sep =? c) eqn:E.
  - apply Z.eqb_eq in E. subst. rewrite <- IH at 2.
    destruct (split_by (Z.eqb c) s) eqn:Es; [by apply split_by_ne in Es|]. done.
  - rewrite <- IH at 2. destruct (split_by (Z.eqb sep) s) as [|w [|w' ws]]; done.
Qed.

Lemma trim_end_by_id p s : (forall c, last s = Some c -> p c = false) -> trim_end_by p s = s.
Proof.
  intros H. unfold trim_end_by. destruct (rev s) as [|c r] eqn:E; simpl.
  - apply (f_equal (@rev Z)) in E. by rewrite rev_involutive in E.
  - assert (Hs : s = rev r ++ [c])
      by (rewrite <- (rev_involutive s), E; done).
    rewrite (H c); [by rewrite Hs|]. rewrite Hs. by rewrite last_snoc.
Qed.

Lemma drop_prefix_while_suffix p s : exists t, s = t ++ drop_prefix_while p s /\
  Forall (fun c => p c = true) t.
Proof.
  induction s as [|c s [t [IH Ht]]]; simpl; [by exists []|].
  destruct (p c) eqn:E; [|by exists []].
  exists (c :: t). rewrite IH at 1. split; [done|by constructor].
Qed.

(** Trimming removes only trailing characters that match. *)
Lemma trim_end_by_prefix p s :
  exists t, s = trim_end_by p s ++ t /\ Forall (fun c => p c = true) t.
Proof.
  unfold trim_end_by. destruct (drop_prefix_while_suffix p (rev s)) as (t & Ht & Hp).
  exists (rev t). split; [|by apply Forall_rev].
  rewrite <- rev_app_distr, <- Ht. symmetry. apply rev_involutive.
Qed.

Lemma strip_prefix_app p s : strip_prefix p (p ++ s) = Some s.
Proof. induction p as [|a p IH]; simpl; [by destruct s|]. by rewrite Z.eqb_refl. Qed.

Lemma strip_prefix_Some p s r : strip_prefix p s = Some r <-> s = p ++ r.
Proof.
  split; [|intros ->; apply strip_prefix_app].
  revert s. induction p as [|a p IH]; intros s H; simpl in H.
  - by destruct s; inversion H.
  - destruct s as [|b s]; [done|]. case_if_in H; [|done].
    bool_to_prop. subst. simpl. f_equal. by apply IH.
Qed.

Lemma as_bytes_app s t : as_bytes (s ++ t) = as_bytes s ++ as_bytes t.
Proof. unfold as_bytes. by rewrite fmap_app, concat_app. Qed.

Lemma utf8_char_bytes c : is_scalar c = true -> Forall (in_u 8) (utf8_char c).
Proof.
  intros H.
  assert (0 <= c <= 0x10FFFF).
  { unfold is_scalar in H. apply orb_true_iff in H as [H|H]; bool_to_prop; lia. }
  unfold utf8_char, in_u. change (2 ^ 8) with 256.
  repeat case_if; bool_to_prop; repeat constructor;
    try (apply Z.mod_pos_bound; lia); Z.to_euclidean_division_equations; lia.
Qed.

Lemma as_bytes_range s : Forall (fun c => is_scalar c = true) s -> Forall (in_u 8) (as_bytes s).
Proof.
  induction 1 as [|c s Hc Hs IH]; [constructor|].
  unfold as_bytes. cbn. apply Forall_app. split; [by apply utf8_char_bytes|exact IH].
Qed.

Lemma as_bytes_ascii s : Forall (fun c => 0 <= c < 128) s -> as_bytes s = s.
Proof.
  induction 1 as [|c s Hc Hs IH]; [done|]. unfold as_bytes in *. cbn.
  rewrite IH. unfold utf8_char. by replace (c <? 128) with true by (symmetry; bool_to_prop; lia).
Qed.

Lemma utf8_char_ne c : utf8_char c <> [].
Proof. unfold utf8_char. by repeat case_if. Qed.

Lemma as_bytes_nil s : as_bytes s = [] -> s = [].
Proof.
  destruct s as [|c s]; [done|]. unfold as_bytes. cbn.
  pose proof (utf8_char_ne c). by destruct (utf8_char c).
Qed.

(** Reading back a number written in a radix. *)
Lemma to_digit_digit_char radix d : 0 <= d < radix -> radix <= 16 -> to_digit radix (digit_char d) = Some d.
Proof.
  intros Hd Hr. unfold to_digit, digit_char.
  destruct (d <? 10) eqn:E; bool_to_prop.
  - replace ((48 <=? 48 + d) && (48 + d <=? 57)) with true by (symmetry; apply andb_true_iff; split; bool_to_prop; lia).
    replace (48 + d - 48) with d by lia. ifs_lia. done.
  - replace ((48 <=? 87 + d) && (87 + d <=? 57)) with false by (symmetry; apply andb_false_iff; right; bool_to_prop; lia).
    replace ((97 <=? 87 + d) && (87 + d <=? 122)) with true by (symmetry; apply andb_true_iff; split; bool_to_prop; lia).
    replace (87 + d - 87) with d by lia. ifs_lia. done.
Qed.

Lemma digits_value_app radix w acc s t :
  digits_value radix w acc (s ++ t) = (digits_value radix w acc s) ≫= (fun a => digits_value radix w a t).
Proof.
  revert acc. induction s as [|c s IH]; intros acc; simpl; [done|].
  destruct (to_digit radix c); [|done]. case_if; [apply IH|done].
Qed.

Lemma display_fuel_value n w z :
  0 <= w -> 0 <= z < 10 ^ Z.of_nat n -> z < 2 ^ w -> (0 < n)%nat ->
  digits_value 10 w 0 (display_fuel n z) = Some z.
Proof.
  intros Hw. revert z. induction n as [|n IH]; intros z Hz Hz2 Hn; [lia|].
  simpl. rewrite Nat2Z.inj_succ, Z.pow_succ_r in Hz by lia.
  rewrite digits_value_app.
  assert (Hd : forall a, a = z / 10 ->
     digits_value 10 w a [digit_char (z mod 10)] = Some z).
  { intros a ->. simpl. rewrite to_digit_digit_char by (try apply Z.mod_pos_bound; lia).
    replace (z / 10 * 10 + z mod 10) with z
      by (pose proof (Z.div_mod z 10); lia).
    by replace (z <? 2 ^ w) with true by (symmetry; bool_to_prop; lia). }
  destruct (z <? 10) eqn:E; bool_to_prop.
  - apply Hd. symmetry. apply Z.div_small. lia.
  - assert (0 < z / 10) by (apply Z.div_str_pos; lia).
    assert (z / 10 < 10 ^ Z.of_nat n) by (apply Z.div_lt_upper_bound; lia).
    assert ((0 < n)%nat) by (destruct n; [simpl in *; lia|lia]).
    assert (z / 10 <= z) by (apply Z.div_le_upper_bound; lia).
    rewrite IH by lia. by apply Hd.
Qed.

Lemma display_fuel_head n z :
  (0 < n)%nat -> exists c s, display_fuel n z = c :: s /\ (0 <= z -> (c =? c_plus) = false).
Proof.
  revert z. induction n as [|n IH]; intros z Hn; [lia|]. simpl.
  destruct (z <? 10) eqn:E; bool_to_prop; simpl.
  - eexists _, _. split; [reflexivity|]. intros.
    unfold digit_char, c_plus. rewrite Z.mod_small by lia. ifs_lia.
  - destruct n as [|n].
    + eexists _, _. split; [reflexivity|]. intros. unfold digit_char, c_plus.
      pose proof (Z.mod_pos_bound z 10). ifs_lia.
    + destruct (IH (z / 10)) as (c & s & -> & Hc); [lia|].
      eexists _, _. split; [reflexivity|]. intros. apply Hc. apply Z.div_pos; lia.
Qed.

(** [parse] reads back what [Display] writes. *)
Lemma parse_display w z : 0 <= w <= 64 -> in_u w z -> parse_u w (display_u z) = Some z.
Proof.
  intros Hw Hz. unfold parse_u, from_str_radix, display_u, in_u in *.
  destruct (display_fuel_head 20 z) as (c & s & Hcs & Hp); [lia|].
  rewrite Hcs, Hp by lia. rewrite <- Hcs.
  assert (2 ^ w <= 2 ^ 64) by (apply Z.pow_le_mono_r; lia).
  apply display_fuel_value; [lia| |lia|lia].
  change (10 ^ Z.of_nat 20) with 100000000000000000000. lia.
Qed.

Lemma display_fuel_digits n z : 0 <= z -> Forall (fun c => 48 <= c <= 57) (display_fuel n z).
Proof.
  revert z. induction n as [|n IH]; intros z Hz; [constructor|]. cbn [display_fuel].
  pose proof (Z.mod_pos_bound z 10). apply Forall_app. split.
  - destruct (z <? 10); [constructor|]. apply IH. apply Z.div_pos; lia.
  - constructor; [|constructor]. unfold digit_char. ifs_lia.
Qed.

(** A decimal number holds none of the characters that are not digits. *)
Lemma display_no_char p z : 0 <= z -> (forall c, 48 <= c <= 57 -> p c = false) -> no_char p (display_u z).
Proof. intros Hz Hp. eapply Forall_impl; [apply display_fuel_digits, Hz|]. intros c Hc. by apply Hp. Qed.

Lemma display_not_empty z : display_u z <> [].
Proof. destruct (display_fuel_head 20 z) as (c & s & Hcs & _); [lia|]. unfold display_u. by rewrite Hcs. Qed.

(** Trimming text without white space, with or without a final line feed. *)
Lemma drop_prefix_while_none p s : no_char p s -> drop_prefix_while p s = s.
Proof. destruct s as [|c s]; [done|]. intros Hs. apply Forall_cons in Hs as [Hc _]. cbn. by rewrite Hc. Qed.

Lemma trim_none s : no_char is_whitespace s -> trim s = s.
Proof.
  intros Hs. unfold trim. rewrite trim_end_by_id, drop_prefix_while_none; [done|done|].
  intros c Hc. rewrite drop_prefix_while_none in Hc by done. apply last_Some in Hc as (t & ->).
  apply Forall_app in Hs as [_ Hs]. by apply Forall_cons in Hs as [? _].
Qed.

Lemma trim_lf s : no_char is_whitespace s -> trim (s ++ [c_lf]) = s.
Proof.
  intros Hs. unfold trim. assert (drop_prefix_while is_whitespace (s ++ [c_lf]) = s ++ [c_lf] \/ s = []) as [-> | ->].
  { destruct s as [|c s]; [by right|left]. apply Forall_cons in Hs as [Hc _]. cbn. by rewrite Hc. }
  - unfold trim_end_by. rewrite rev_app_distr. cbn [rev app drop_prefix_while].
    change (is_whitespace c_lf) with true. cbn match. rewrite drop_prefix_while_none; [apply rev_involutive|].
    by apply Forall_rev.
  - reflexivity.
Qed.
