(* ===== verification/Ramp.v ===== *)
(** * The rate controller of [--ramp] (Dichotomic Saturation Discovery)

    Models [src/engine/ramp.rs]: the state of [RampController], its latency
    threshold, its convergence test and the whole of [advance], with [u64] and
    [u32] arithmetic at their width and the two [f64] products as IEEE 754
    operations.  [drive] composes the steps as the callers do, against an oracle
    that answers each target with a measurement.

    The theorems: the run ends for every sequence of measurements, within 25
    steps; the bracket it reports is sound (a target that was sustained, a
    target that was not) and within the 5 % tolerance; on a server with a latency
    knee, or with a served-rate ceiling, the bracket holds the knee. *)

From Stdlib Require Import ZArith Lia Bool SpecFloat.
From stdpp Require Import base list numbers option sets.
From S2P Require Import Prelude Float64.

Open Scope Z_scope.

(** ** Constants *)

Definition MAX_DOUBLINGS : Z := 20.
Definition MAX_BISECT : Z := 14.
Definition START_QPS : Z := 100000.
Definition SLO_FACTOR : f64 := f64_lit 3 1.
Definition SLO_MARGIN_US : Z := 1000.

(** ** State *)

Inductive Phase : Set := Exp | Bisect.

Global Instance Phase_eq_dec : EqDecision Phase.
Proof. solve_decision. Defined.

Record RampController : Set := mkRamp {
  current_qps : Z;
  last_stable_qps : Z;
  doublings : Z;
  phase : Phase;
  lo : Z;
  hi : Z;
  bisect_steps : Z;
  use_xdp : bool;
  baseline_us : Z
}.

(** [RampController::new] *)
Definition new (xdp : bool) : RampController := {|
  current_qps := START_QPS;
  last_stable_qps := 0;
  doublings := 0;
  phase := Exp;
  lo := 0;
  hi := 0;
  bisect_steps := 0;
  use_xdp := xdp;
  baseline_us := 0
|}.

(** The SLO of a latency floor, then of a controller ([threshold_us]). *)
Definition threshold_of (floor : Z) : Z :=
  let b := Z.max floor 1 in
  Z.max (f64_as_u 64 (f64_mul (f64_of_Z b) SLO_FACTOR)) (wadd 64 b SLO_MARGIN_US).

Definition threshold_us (c : RampController) : Z := threshold_of (baseline_us c).

Definition bracket (c : RampController) : Z * Z := (lo c, hi c).

Definition converged (c : RampController) : bool :=
  sat_sub (hi c) (lo c) <=? Z.max (lo c / 20) 5000.

(** ** One step *)

(** The floor after a measured median [p50]. *)
Definition observe (c : RampController) (p50 : Z) : RampController :=
  if (0 <? p50) && ((baseline_us c =? 0) || (p50 <? baseline_us c))
  then {| current_qps := current_qps c; last_stable_qps := last_stable_qps c;
          doublings := doublings c; phase := phase c; lo := lo c; hi := hi c;
          bisect_steps := bisect_steps c; use_xdp := use_xdp c;
          baseline_us := p50 |}
  else c.

(** [offer_ok]: the datapath delivered 80 % of the target. *)
Definition offer_ok (target achieved : Z) : bool :=
  f64_as_u 64 (f64_mul (f64_of_Z target) (f64_lit 80 100)) <=? achieved.

(** [ok]: the step is sustained. *)
Definition step_ok (c : RampController) (achieved p50 : Z) : bool :=
  let c := observe c p50 in
  let latency_ok := p50 <=? threshold_us c in
  if use_xdp c then latency_ok
  else latency_ok && offer_ok (current_qps c) achieved.

Definition midpoint (c : RampController) : Z :=
  wadd 64 (lo c) (wsub 64 (hi c) (lo c) / 2).

(** [advance]: the controller after one measured step, and the triple
    (new target, saturated, maximal sustainable rate) it returns. *)
Definition advance (c0 : RampController) (achieved p50 : Z)
  : RampController * (Z * bool * Z) :=
  let ok := step_ok c0 achieved p50 in
  let c := observe c0 p50 in
  match phase c with
  | Exp =>
      if ok then
        let c := mkRamp (current_qps c) (current_qps c) (wadd 32 (doublings c) 1) Exp
                   (lo c) (hi c) (bisect_steps c) (use_xdp c) (baseline_us c) in
        if MAX_DOUBLINGS <=? doublings c then (c, (current_qps c, true, current_qps c))
        else
          let q := sat_mul 64 (current_qps c) 2 in
          (mkRamp q (last_stable_qps c) (doublings c) Exp (lo c) (hi c)
             (bisect_steps c) (use_xdp c) (baseline_us c), (q, false, 0))
      else
        let c := mkRamp (current_qps c) (last_stable_qps c) (doublings c) Bisect
                   (last_stable_qps c) (current_qps c) (bisect_steps c)
                   (use_xdp c) (baseline_us c) in
        if converged c then (c, (Z.max (lo c) 1, true, lo c))
        else
          let q := midpoint c in
          (mkRamp q (last_stable_qps c) (doublings c) Bisect (lo c) (hi c)
             (bisect_steps c) (use_xdp c) (baseline_us c), (q, false, 0))
  | Bisect =>
      let c := mkRamp (current_qps c) (last_stable_qps c) (doublings c) Bisect
                 (if ok then current_qps c else lo c)
                 (if ok then hi c else current_qps c)
                 (wadd 32 (bisect_steps c) 1) (use_xdp c) (baseline_us c) in
      if converged c || (MAX_BISECT <=? bisect_steps c)
      then (c, (Z.max (lo c) 1, true, lo c))
      else
        let q := midpoint c in
        (mkRamp q (last_stable_qps c) (doublings c) Bisect (lo c) (hi c)
           (bisect_steps c) (use_xdp c) (baseline_us c), (q, false, 0))
  end.

(** Steps against an oracle until the controller reports saturation: the number
    of steps taken, the final controller and the rate it returned. *)
Fixpoint drive (fuel : nat) (oracle : nat -> Z -> Z * Z) (i : nat) (c : RampController)
  : option (nat * RampController * Z) :=
  match fuel with
  | O => None
  | S fuel =>
      let '(achieved, p50) := oracle i (current_qps c) in
      let '(c', (_, saturated, max)) := advance c achieved p50 in
      if saturated then Some (S i, c', max) else drive fuel oracle (S i) c'
  end.

(** The oracle of the tests: a target fully served up to [ceiling], at a fixed
    median latency; and the clean latency cliff at [knee]. *)
Definition ceiling_oracle (ceiling p50 : Z) (_ : nat) (target : Z) : Z * Z :=
  (Z.min target ceiling, p50).
Definition knee_oracle (knee floor cliff : Z) (_ : nat) (target : Z) : Z * Z :=
  (target, if target <=? knee then floor else cliff).

(** The clean knee of the tests, run on the controller. *)
Example knee_3m :
  match drive 25 (knee_oracle 3000000 50 5000) 0 (new false) with
  | Some (n, c, m) => (n, lo c, hi c, m) | None => (O, 0, 0, 0) end
  = (10%nat, 3000000, 3100000, 3000000).
Proof. vm_compute. reflexivity. Qed.
Example ceiling_500k :
  match drive 25 (ceiling_oracle 500000 40) 0 (new false) with
  | Some (n, c, m) => (n, lo c, hi c, m) | None => (O, 0, 0, 0) end
  = (8%nat, 625000, 650000, 625000).
Proof. vm_compute. reflexivity. Qed.

(** ** Invariant *)

(** In the doubling phase the target is START * 2^k and the last sustained one
    the target before it.  In the bisection phase the bracket is non-empty, the
    target is its middle, and the width has halved exactly at every step: the
    first width is START * 2^j, which five halvings leave an integer, and is
    at most the sustained bound unless the first step failed. *)
Definition ramp_inv (c : RampController) : Prop :=
  match phase c with
  | Exp =>
      0 <= doublings c < 20 /\ current_qps c = START_QPS * 2 ^ doublings c /\
      (doublings c = 0 /\ last_stable_qps c = 0 \/
       0 < doublings c /\ 2 * last_stable_qps c = current_qps c) /\
      lo c = 0 /\ hi c = 0 /\ bisect_steps c = 0
  | Bisect =>
      0 <= lo c < hi c /\ hi c <= START_QPS * 2 ^ 19 /\
      0 <= bisect_steps c <= 5 /\
      exists w, hi c - lo c = w * 2 ^ (5 - bisect_steps c) /\ 0 < w /\
        (32 * w <= lo c \/ 32 * w = START_QPS)
  end.

(** A controller between steps: it has not converged and its target is the
    middle of the bracket. *)
Definition ramp_ready (c : RampController) : Prop :=
  ramp_inv c /\
  (phase c = Bisect ->
    current_qps c = lo c + (hi c - lo c) / 2 /\ bisect_steps c < 5).

(** Steps left before the controller must report saturation. *)
Definition steps_left (c : RampController) : nat :=
  match phase c with
  | Exp => Z.to_nat (25 - doublings c)
  | Bisect => Z.to_nat (5 - bisect_steps c)
  end.

Lemma observe_fields c p :
  current_qps (observe c p) = current_qps c /\ last_stable_qps (observe c p) = last_stable_qps c /\
  doublings (observe c p) = doublings c /\ phase (observe c p) = phase c /\
  lo (observe c p) = lo c /\ hi (observe c p) = hi c /\
  bisect_steps (observe c p) = bisect_steps c /\ use_xdp (observe c p) = use_xdp c.
Proof. unfold observe. by case_if. Qed.

Lemma converged_iff c :
  0 <= lo c <= hi c -> converged c = true <-> hi c - lo c <= Z.max (lo c / 20) 5000.
Proof. intros. unfold converged, sat_sub. rewrite Z.leb_le. lia. Qed.

(** Five halvings always converge. *)
Lemma converged_at_five c :
  ramp_inv c -> phase c = Bisect -> bisect_steps c = 5 -> converged c = true.
Proof.
  unfold ramp_inv. intros H Hp Hb. rewrite Hp in H. destruct H as (Hlo & _ & _ & w & Hw & Hpos & Hor).
  rewrite Hb in Hw. replace (5 - 5) with 0 in Hw by lia.
  apply converged_iff; [lia |]. unfold START_QPS in *.
  destruct Hor as [H | H]; [| lia].
  assert (w <= lo c / 20); [apply Z.div_le_lower_bound; lia | lia].
Qed.

Lemma midpoint_eq c :
  0 <= lo c <= hi c -> hi c < 2 ^ 63 -> midpoint c = lo c + (hi c - lo c) / 2.
Proof.
  intros. unfold midpoint. rewrite wsub_small by lia.
  apply wadd_small. pose proof (Z.div_le_mono (hi c - lo c) (2 * hi c) 2).
  rewrite Z.mul_comm, Z.div_mul in * by lia.
  pose proof (Z.div_pos (hi c - lo c) 2). lia.
Qed.

Lemma start_pow_bound k : 0 <= k <= 19 -> START_QPS <= START_QPS * 2 ^ k <= START_QPS * 2 ^ 19.
Proof.
  intros. unfold START_QPS. pose proof (Z.pow_le_mono_r 2 k 19). pose proof (Z.pow_le_mono_r 2 0 k).
  lia.
Qed.

Lemma new_ready xdp : ramp_ready (new xdp).
Proof. split; [| done]. unfold ramp_inv, new, START_QPS. cbn. lia. Qed.

(** The two halves of a bracket of even width. *)
Lemma halve_width c w :
  hi c - lo c = w * 2 ^ (5 - bisect_steps c) -> 0 <= bisect_steps c < 5 ->
  (hi c - lo c) / 2 = w * 2 ^ (5 - (bisect_steps c + 1)) /\
  hi c - lo c = 2 * ((hi c - lo c) / 2).
Proof.
  intros Hw Hb. rewrite Hw.
  replace (5 - bisect_steps c) with (Z.succ (5 - (bisect_steps c + 1))) by lia.
  rewrite Z.pow_succ_r by lia.
  replace (w * (2 * 2 ^ (5 - (bisect_steps c + 1))))
    with (w * 2 ^ (5 - (bisect_steps c + 1)) * 2) by ring.
  rewrite Z.div_mul by lia. lia.
Qed.

(** What one step does, by phase and outcome. *)
Inductive advanced (c : RampController) (ok : bool) : RampController -> Z * bool * Z -> Prop :=
| adv_double c' :
    phase c = Exp -> ok = true -> doublings c < 19 -> phase c' = Exp ->
    doublings c' = doublings c + 1 -> current_qps c' = 2 * current_qps c ->
    last_stable_qps c' = current_qps c -> lo c' = 0 -> hi c' = 0 -> bisect_steps c' = 0 ->
    advanced c ok c' (2 * current_qps c, false, 0)
| adv_cap c' :
    phase c = Exp -> ok = true -> doublings c = 19 -> phase c' = Exp ->
    doublings c' = 20 -> current_qps c' = current_qps c ->
    last_stable_qps c' = current_qps c -> lo c' = 0 -> hi c' = 0 ->
    advanced c ok c' (current_qps c, true, current_qps c)
| adv_bracket c' q :
    phase c = Exp -> ok = false -> phase c' = Bisect ->
    lo c' = last_stable_qps c -> hi c' = current_qps c -> bisect_steps c' = 0 ->
    current_qps c' = q -> converged c' = false -> q = lo c' + (hi c' - lo c') / 2 ->
    advanced c ok c' (q, false, 0)
| adv_halve c' q :
    phase c = Bisect -> phase c' = Bisect ->
    lo c' = (if ok then current_qps c else lo c) ->
    hi c' = (if ok then hi c else current_qps c) ->
    bisect_steps c' = bisect_steps c + 1 -> current_qps c' = q -> converged c' = false ->
    q = lo c' + (hi c' - lo c') / 2 ->
    advanced c ok c' (q, false, 0)
| adv_done c' :
    phase c = Bisect -> phase c' = Bisect ->
    lo c' = (if ok then current_qps c else lo c) ->
    hi c' = (if ok then hi c else current_qps c) ->
    bisect_steps c' = bisect_steps c + 1 -> converged c' = true ->
    advanced c ok c' (Z.max (lo c') 1, true, lo c').

Lemma inv_bounds c :
  ramp_ready c -> 0 <= lo c <= hi c /\ hi c <= START_QPS * 2 ^ 19 /\
    0 < current_qps c <= START_QPS * 2 ^ 19.
Proof.
  intros [Hi Hr]. unfold ramp_inv in Hi. destruct (phase c) eqn:Hp.
  - destruct Hi as (Hd & Hc & _ & -> & -> & _). rewrite Hc.
    pose proof (start_pow_bound (doublings c)). unfold START_QPS in *. lia.
  - destruct Hi as (Hlo & Hhi & Hbs & w & Hw & Hpos & _). destruct (Hr eq_refl) as [Hc Hb].
    destruct (halve_width c w) as [_ He]; [done | lia |]. lia.
Qed.

Lemma advance_exp c a p :
  ramp_ready c -> phase c = Exp ->
  advanced c (step_ok c a p) (advance c a p).1 (advance c a p).2.
Proof.
  intros Hr Hp. pose proof (inv_bounds c Hr) as (_ & _ & Hcb). destruct Hr as [Hi _].
  unfold ramp_inv in Hi. rewrite Hp in Hi. destruct Hi as (Hd & Hc & Hl & Hlo & Hhi & Hb).
  unfold advance. destruct (observe_fields c p) as (E1 & E2 & E3 & E4 & E5 & E6 & E7 & E8).
  rewrite E4, Hp. destruct (step_ok c a p).
  - cbn [doublings current_qps lo hi bisect_steps last_stable_qps use_xdp baseline_us].
    rewrite E1, E3, E5, E6, E7, wadd_small by lia.
    unfold MAX_DOUBLINGS. destruct (Z.leb_spec 20 (doublings c + 1)).
    + cbn. apply adv_cap; cbn; try done; lia.
    + assert (sat_mul 64 (current_qps c) 2 = 2 * current_qps c) as ->.
      { unfold sat_mul, START_QPS in *. lia. }
      cbn. apply adv_double; cbn; try done; lia.
  - set (c' := mkRamp _ _ _ Bisect _ _ _ _ _).
    assert (lo c' = last_stable_qps c) as Hlo' by (by cbn; rewrite E2).
    assert (hi c' = current_qps c) as Hhi' by (by cbn; rewrite E1).
    assert (0 <= last_stable_qps c /\ last_stable_qps c < current_qps c) as Hls.
    { unfold START_QPS in *. lia. }
    assert (converged c' = false) as Hconv.
    { apply not_true_is_false. rewrite converged_iff by lia. rewrite Hlo', Hhi'.
      pose proof (start_pow_bound (doublings c)).
      pose proof (Z.div_le_upper_bound (last_stable_qps c) 20 (last_stable_qps c)).
      destruct Hl as [[Hd0 Hl] | [Hd0 Hl]].
      - rewrite Hl, Hc, Hd0, Z.div_0_l, Z.pow_0_r by lia. unfold START_QPS. lia.
      - unfold START_QPS in *.
        pose proof (Z.div_lt (last_stable_qps c) 20). lia. }
    rewrite Hconv. rewrite midpoint_eq by (rewrite ?Hlo', ?Hhi'; unfold START_QPS in *; lia).
    apply adv_bracket; cbn [fst snd phase lo hi bisect_steps current_qps];
      first [done | exact Hconv | congruence | subst c'; cbn; congruence].
Qed.

Lemma advance_bisect c a p :
  ramp_ready c -> phase c = Bisect ->
  advanced c (step_ok c a p) (advance c a p).1 (advance c a p).2.
Proof.
  intros Hr Hp. pose proof (inv_bounds c Hr) as (Hb1 & Hb2 & Hcb).
  destruct Hr as [Hi Hmid]. destruct (Hmid Hp) as [Hm Hbs].
  pose proof Hi as Hi0. unfold ramp_inv in Hi. rewrite Hp in Hi.
  destruct Hi as (Hlt & _ & Hbs0 & w & Hw & Hwpos & Hwor).
  destruct (halve_width c w Hw) as [Hhalf Heven]; [lia |].
  unfold advance. destruct (observe_fields c p) as (E1 & E2 & E3 & E4 & E5 & E6 & E7 & E8).
  rewrite E4, Hp. set (ok := step_ok c a p). rewrite E1, E2, E3, E5, E6, E7, E8, wadd_small by lia.
  set (c' := mkRamp _ _ _ Bisect _ _ _ _ _).
  assert (0 <= lo c' <= hi c' /\ hi c' <= hi c) as Hc' by (cbn; destruct ok; lia).
  destruct (converged c') eqn:Hconv.
  - cbn [orb fst snd]. apply adv_done; done.
  - assert ((MAX_BISECT <=? bisect_steps c') = false) as ->.
    { apply Z.leb_gt. cbn. unfold MAX_BISECT. lia. }
    cbn [orb]. rewrite midpoint_eq by (unfold START_QPS in *; lia).
    apply adv_halve; cbn [fst snd phase lo hi bisect_steps current_qps];
      first [done | exact Hconv].
Qed.

(** Every step is one of the five cases above. *)
Lemma advance_spec c a p :
  ramp_ready c -> advanced c (step_ok c a p) (advance c a p).1 (advance c a p).2.
Proof.
  intros H. destruct (phase c) eqn:Hp; [by apply advance_exp | by apply advance_bisect].
Qed.

(** The bracket stays well formed through a bisection step. *)
Lemma halve_inv (c c' : RampController) (ok : bool) :
  ramp_ready c -> phase c = Bisect -> phase c' = Bisect ->
  lo c' = (if ok then current_qps c else lo c) ->
  hi c' = (if ok then hi c else current_qps c) ->
  bisect_steps c' = bisect_steps c + 1 -> ramp_inv c'.
Proof.
  intros Hr Hp Hp' Hlo Hhi Hb. destruct Hr as [Hi Hmid]. destruct (Hmid Hp) as [Hm Hbs].
  unfold ramp_inv in Hi |- *. rewrite Hp in Hi. rewrite Hp'.
  destruct Hi as (Hlt & Hmax & Hbs0 & w & Hw & Hwpos & Hwor).
  destruct (halve_width c w Hw) as [Hhalf Heven]; [lia |].
  assert (0 < 2 ^ (5 - (bisect_steps c + 1))) by lia.
  assert (0 < (hi c - lo c) / 2) by (rewrite Hhalf; nia).
  repeat split; try (destruct ok; lia).
  exists w. rewrite Hb. repeat split; [| done |]; destruct ok; lia.
Qed.

(** A step keeps the invariant, and one that does not saturate leaves the
    controller ready with fewer steps to go. *)
Lemma advance_inv c a p :
  ramp_ready c ->
  let '(c', (_, saturated, _)) := advance c a p in
  (doublings c' = 20 \/ ramp_inv c') /\
  (saturated = false -> ramp_ready c' /\ (steps_left c' < steps_left c)%nat).
Proof.
  intros Hr. pose proof (advance_spec c a p Hr) as Hs.
  destruct (advance c a p) as [c' [[q sat] m]]. cbn [fst snd] in Hs.
  pose proof Hr as [Hi Hmid].
  inversion Hs as [? Hp ? Hd Hp' Hd' Hc' Hls' Hlo' Hhi' Hb' | ? Hp ? Hd Hp' Hd' Hc' Hls' Hlo' Hhi'
    | ? ? Hp ? Hp' Hlo' Hhi' Hb' Hc' Hcv Hq | ? ? Hp Hp' Hlo' Hhi' Hb' Hc' Hcv Hq
    | ? Hp Hp' Hlo' Hhi' Hb' Hcv]; subst.
  - assert (ramp_inv c') as Hi'.
    { unfold ramp_inv in *. rewrite Hp in Hi. rewrite Hp'. destruct Hi as (Hd0 & Hc & _).
      rewrite Hd', Hc', Hls', Z.pow_add_r by lia. repeat split; try done; lia. }
    split; [by right |]. intros _. split; [split; [done |]; congruence |].
    unfold steps_left. rewrite Hp, Hp'. unfold ramp_inv in Hi. rewrite Hp in Hi. lia.
  - split; [by left | done].
  - assert (ramp_inv c') as Hi'.
    { unfold ramp_inv in *. rewrite Hp in Hi. rewrite Hp'. destruct Hi as (Hd0 & Hc & Hls & _).
      pose proof (start_pow_bound (doublings c)). rewrite Hlo', Hhi', Hb', Hc.
      unfold START_QPS in *. replace (5 - 0) with 5 by lia.
      repeat split; try lia. destruct Hls as [[E ->] | [E Hls]].
      - exists 3125. rewrite E. cbn. lia.
      - exists (3125 * 2 ^ (doublings c - 1)).
        replace (doublings c) with (Z.succ (doublings c - 1)) in Hc |- * at 1 by lia.
        rewrite Z.pow_succ_r in Hc |- * by lia. lia. }
    split; [by right |]. intros _. split.
    + split; [done |]. intros _. split; [done |]. lia.
    + unfold steps_left. rewrite Hp, Hp'. unfold ramp_inv in Hi. rewrite Hp in Hi. lia.
  - pose proof (halve_inv c c' (step_ok c a p) Hr Hp Hp' Hlo' Hhi' Hb') as Hi'.
    split; [by right |]. intros _. split.
    + split; [done |]. intros _. split; [done |].
      destruct (Z.eq_dec (bisect_steps c') 5) as [E | E].
      * by rewrite (converged_at_five c' Hi' Hp' E) in Hcv.
      * unfold ramp_inv in Hi'. rewrite Hp' in Hi'. lia.
    + unfold steps_left. rewrite Hp, Hp'. destruct (Hmid Hp). lia.
  - split; [right; by eapply halve_inv | done].
Qed.

Lemma ready_steps_pos c : ramp_ready c -> (0 < steps_left c)%nat.
Proof.
  intros [Hi Hm]. unfold steps_left, ramp_inv in *. destruct (phase c); [lia |]. destruct (Hm eq_refl). lia.
Qed.

(** ** Runs *)

(** A property [P] of the waiting controller that every step keeps, and a
    property [Q] that the last step establishes, hold of every run. *)
Section drive_rule.
Context (oracle : nat -> Z -> Z * Z) (P : RampController -> Prop)
        (Q : RampController -> Z -> Prop).

Hypothesis step_rule : forall i c, ramp_ready c -> P c ->
  let '(c', (_, saturated, m)) :=
    advance c (oracle i (current_qps c)).1 (oracle i (current_qps c)).2 in
  if (saturated : bool) then Q c' m else P c'.

Lemma drive_rule fuel i c :
  ramp_ready c -> P c -> (steps_left c <= fuel)%nat -> (0 < fuel)%nat ->
  exists n c' m, drive fuel oracle i c = Some (n, c', m) /\
    (i < n <= i + Nat.max 1 (steps_left c))%nat /\ Q c' m.
Proof.
  revert i c. induction fuel as [| fuel IH]; intros i c Hr HP Hf Hpos; [lia |].
  cbn [drive]. pose proof (step_rule i c Hr HP) as Hstep.
  destruct (oracle i (current_qps c)) as [a p]. cbn [fst snd] in Hstep.
  pose proof (advance_inv c a p Hr) as Hinv.
  destruct (advance c a p) as [c' [[q sat] m]]. destruct Hinv as [_ Hnext].
  destruct sat.
  - exists (S i), c', m. repeat split; [lia | lia | done].
  - destruct (Hnext eq_refl) as [Hr' Hlt].
    assert (0 < steps_left c')%nat by (by apply ready_steps_pos).
    destruct (IH (S i) c' Hr' Hstep) as (n & c'' & m' & Hd & Hn & HQ); [lia | lia |].
    exists n, c'', m'. repeat split; [done | lia | lia | done].
Qed.

Lemma drive_new xdp :
  P (new xdp) -> exists n c' m, drive 25 oracle 0 (new xdp) = Some (n, c', m) /\
    (0 < n <= 25)%nat /\ Q c' m.
Proof.
  intros HP. destruct (drive_rule 25 0 (new xdp)) as (n & c' & m & H & Hn & HQ);
    [apply new_ready | done | by vm_compute | lia |].
  exists n, c', m. repeat split; [done | lia | | done]. cbn in Hn. lia.
Qed.
End drive_rule.

(** How a run ends: at the cap on doublings, or with a converged bracket. *)
Definition finished (c : RampController) (m : Z) : Prop :=
  (phase c = Exp /\ doublings c = 20 /\ m = START_QPS * 2 ^ 19 /\ bracket c = (0, 0)) \/
  (phase c = Bisect /\ 0 <= lo c < hi c /\ hi c - lo c <= Z.max (lo c / 20) 5000 /\ m = lo c /\
   bisect_steps c <= 5).

Lemma advance_finished c a p :
  ramp_ready c ->
  let '(c', (_, saturated, m)) := advance c a p in
  if (saturated : bool) then finished c' m else True.
Proof.
  intros Hr. pose proof (advance_spec c a p Hr) as Hs. pose proof (advance_inv c a p Hr) as Hinv.
  destruct (advance c a p) as [c' [[q sat] m]]. cbn [fst snd] in Hs.
  destruct Hinv as [Hinv _]. pose proof Hr as [Hi Hmid].
  inversion Hs as [ | ? Hp ? Hd Hp' Hd' Hc' Hls' Hlo' Hhi' | | | ? Hp Hp' Hlo' Hhi' Hb' Hcv];
    subst; try done.
  - left. unfold bracket. rewrite Hlo', Hhi'. unfold ramp_inv in Hi. rewrite Hp in Hi.
    destruct Hi as (_ & -> & _). by rewrite Hd.
  - right. split; [done |]. assert (ramp_inv c') as Hi' by (by eapply halve_inv).
    unfold ramp_inv in Hi'. rewrite Hp' in Hi'. apply converged_iff in Hcv; [| lia].
    repeat split; lia.
Qed.

(** C1. For every oracle - also one that answers differently each time, in
    either mode - the ramp ends: [drive] returns within 25 steps. *)
Theorem ramp_terminates (oracle : nat -> Z -> Z * Z) (xdp : bool) :
  exists n c m, drive 25 oracle 0 (new xdp) = Some (n, c, m) /\ (0 < n <= 25)%nat.
Proof.
  destruct (drive_new oracle (fun _ => True) (fun _ _ => True)) with xdp
    as (n & c & m & H & Hn & _); [| done | by exists n, c, m].
  intros. destruct (advance _ _ _) as [? [[? []] ?]]; done.
Qed.

(** C2. Whatever the oracle answers, a ramp ends either at the cap of twenty
    doublings, or with a non-empty bracket no wider than 5 % of its sustained
    bound (or than 5000 q/s), whose sustained bound is the rate it reports;
    the bisection needs at most five steps, so the cap of fourteen is never
    what ends it. *)
Theorem ramp_result_within_tolerance (oracle : nat -> Z -> Z * Z) (xdp : bool) :
  exists n c m, drive 25 oracle 0 (new xdp) = Some (n, c, m) /\ finished c m.
Proof.
  destruct (drive_new oracle (fun _ => True) finished) with xdp
    as (n & c & m & H & _ & HQ); [| done | by exists n, c, m].
  intros i c Hr _. pose proof (advance_finished c (oracle i (current_qps c)).1
    (oracle i (current_qps c)).2 Hr) as H.
  destruct (advance _ _ _) as [? [[? []] ?]]; done.
Qed.

(** ** Soundness of the bracket, by rule induction on the steps taken *)

(** The controller, the targets it has tried with their outcome, newest first,
    and whether it has reported saturation. *)
Inductive ramp_history (xdp : bool) : RampController -> list (Z * bool) -> bool -> Prop :=
| history_new : ramp_history xdp (new xdp) [] false
| history_step c h a p c' q sat m :
    ramp_history xdp c h false -> advance c a p = (c', (q, sat, m)) ->
    ramp_history xdp c' ((current_qps c, step_ok c a p) :: h) sat.

Definition history_sound (c : RampController) (h : list (Z * bool)) : Prop :=
  match phase c with
  | Exp => last_stable_qps c = 0 \/ (last_stable_qps c, true) ∈ h
  | Bisect => (lo c = 0 \/ (lo c, true) ∈ h) /\ (hi c, false) ∈ h
  end.

Lemma history_ready xdp c h : ramp_history xdp c h false -> ramp_ready c.
Proof.
  remember false as b eqn:E. intros H. revert E.
  induction H as [| c h a p c' q sat m H IH Hadv]; intros E; [apply new_ready |].
  pose proof (advance_inv c a p (IH eq_refl)) as Hinv. rewrite Hadv in Hinv.
  destruct Hinv as [_ Hn]. by apply Hn.
Qed.

Lemma history_is_sound xdp c h sat : ramp_history xdp c h sat -> history_sound c h.
Proof.
  induction 1 as [| c h a p c' q sat m H IH Hadv]; [by left |].
  pose proof (history_ready _ _ _ H) as Hr. pose proof (advance_spec c a p Hr) as Hs.
  rewrite Hadv in Hs. cbn [fst snd] in Hs. unfold history_sound in *.
  inversion Hs as [? Hp Hok Hd Hp' Hd' Hc' Hls' | ? Hp Hok Hd Hp' Hd' Hc' Hls'
    | ? ? Hp Hok Hp' Hlo' Hhi' | ? ? Hp Hp' Hlo' Hhi' | ? Hp Hp' Hlo' Hhi'];
    subst; rewrite Hp in IH; rewrite Hp', ?Hls', ?Hlo', ?Hhi', ?Hok;
    try destruct (step_ok c a p); intuition (auto using list_elem_of_here, list_elem_of_further).
Qed.

(** C3. At any moment of any ramp, once the bracket is open, its lower bound is
    0 or a target whose step was sustained, and its upper bound is a target
    whose step was not. *)
Theorem ramp_bracket_sound (xdp : bool) (c : RampController) (h : list (Z * bool)) (sat : bool)
  (H : ramp_history xdp c h sat) (Hp : phase c = Bisect) :
  (lo c = 0 \/ (lo c, true) ∈ h) /\ (hi c, false) ∈ h.
Proof. apply history_is_sound in H. unfold history_sound in H. by rewrite Hp in H. Qed.

Lemma ramp_bracket_sound_witness :
  let c := (advance (new false) 0 40).1 in
  phase c = Bisect /\ (lo c = 0 \/ (lo c, true) ∈ [(START_QPS, false)]) /\
  (hi c, false) ∈ [(START_QPS, false)].
Proof.
  cbn zeta. split; [by vm_compute |].
  apply (ramp_bracket_sound false (advance (new false) 0 40).1 _ false); [| by vm_compute].
  exact (history_step false (new false) [] 0 40 _ 50000 false 0 (history_new false) eq_refl).
Defined.

(** ** The two thresholds as integer tests *)

(** The auto SLO of a floor [b]: three times the floor, or the floor plus one
    millisecond, whichever is larger. *)
Lemma threshold_of_eq b :
  0 <= b < 2 ^ 51 -> threshold_of b = Z.max (3 * Z.max b 1) (Z.max b 1 + 1000).
Proof.
  intros. unfold threshold_of, SLO_FACTOR, SLO_MARGIN_US.
  rewrite f64_mul_3_exact, wadd_small by lia. done.
Qed.

Lemma offer_ok_iff t a : 0 <= t < 2 ^ 48 -> offer_ok t a = (4 * t / 5 <=? a).
Proof. intros. unfold offer_ok. by rewrite f64_mul_080_floor. Qed.

Lemma baseline_observe c p :
  0 <= p -> 0 <= baseline_us c ->
  baseline_us (observe c p) =
    (if p =? 0 then baseline_us c
     else if baseline_us c =? 0 then p else Z.min p (baseline_us c)).
Proof.
  intros. unfold observe.
  destruct (Z.ltb_spec 0 p), (Z.eqb_spec p 0), (Z.eqb_spec (baseline_us c) 0),
    (Z.ltb_spec p (baseline_us c)); cbn; lia.
Qed.

Lemma step_ok_eq c a p :
  0 <= p -> 0 <= baseline_us c < 2 ^ 51 -> p < 2 ^ 51 -> 0 <= current_qps c < 2 ^ 48 ->
  step_ok c a p =
    (p <=? threshold_of (baseline_us (observe c p))) &&
    (use_xdp c || (4 * current_qps c / 5 <=? a)).
Proof.
  intros. unfold step_ok, threshold_us. destruct (observe_fields c p) as (E1 & _ & _ & _ & _ & _ & _ & ->).
  rewrite E1, offer_ok_iff by lia. destruct (use_xdp c); [by rewrite andb_true_r | done].
Qed.

Lemma advance_baseline c a p : baseline_us (advance c a p).1 = baseline_us (observe c p).
Proof. unfold advance. destruct (phase _); repeat case_if; done. Qed.

Lemma advance_use_xdp c a p : use_xdp (advance c a p).1 = use_xdp c.
Proof.
  destruct (observe_fields c p) as (_ & _ & _ & _ & _ & _ & _ & E).
  unfold advance. destruct (phase _); repeat case_if; exact E.
Qed.

(** ** Servers with a knee *)

(** When the outcome of every step is a test [good] of its target, the ramp ends
    at the cap, or with a bracket from a good target to a bad one. *)
Section good_rule.
Context (oracle : nat -> Z -> Z * Z) (good : Z -> bool) (B : RampController -> Prop).

Hypothesis B_step : forall i c, ramp_ready c -> B c ->
  let '(a, p) := oracle i (current_qps c) in
  step_ok c a p = good (current_qps c) /\ B (advance c a p).1.

Definition good_so_far (c : RampController) : Prop :=
  B c /\ match phase c with
    | Exp => last_stable_qps c = 0 \/ good (last_stable_qps c) = true
    | Bisect => (lo c = 0 \/ good (lo c) = true) /\ good (hi c) = false
    end.

Lemma good_step i c :
  ramp_ready c -> good_so_far c -> good (START_QPS * 2 ^ 19) = false ->
  let '(c', (_, saturated, m)) :=
    advance c (oracle i (current_qps c)).1 (oracle i (current_qps c)).2 in
  if (saturated : bool) then phase c' = Bisect /\ finished c' m /\ good_so_far c'
  else good_so_far c'.
Proof.
  intros Hr [HBc Hg] Hcap. pose proof (B_step i c Hr HBc) as Hb.
  destruct (oracle i (current_qps c)) as [a p]. destruct Hb as [Hok HB']. cbn [fst snd].
  pose proof (advance_spec c a p Hr) as Hs. pose proof (advance_finished c a p Hr) as Hf.
  rewrite Hok in Hs. pose proof Hr as [Hi _]. unfold ramp_inv in Hi. unfold good_so_far in *.
  destruct (advance c a p) as [c' [[q sat] m]]. cbn [fst snd] in *.
  inversion Hs as [? Hp Hgd Hd Hp' Hd' Hc' Hls' | ? Hp Hgd Hd Hp' Hd' Hc' Hls'
    | ? ? Hp Hgd Hp' Hlo' Hhi' | ? ? Hp Hp' Hlo' Hhi' | ? Hp Hp' Hlo' Hhi'];
    subst; rewrite Hp in Hg, Hi; rewrite Hp', ?Hls', ?Hlo', ?Hhi'.
  - by auto.
  - exfalso. destruct Hi as (_ & Hc & _). rewrite Hc, Hd in Hgd. congruence.
  - by auto.
  - destruct (good (current_qps c)) eqn:E; cbv iota; intuition congruence.
  - destruct (good (current_qps c)) eqn:E; cbv iota; intuition congruence.
Qed.

Lemma drive_good xdp :
  B (new xdp) -> good (START_QPS * 2 ^ 19) = false ->
  exists n c m, drive 25 oracle 0 (new xdp) = Some (n, c, m) /\
    0 <= lo c < hi c /\ hi c - lo c <= Z.max (lo c / 20) 5000 /\ m = lo c /\
    (lo c = 0 \/ good (lo c) = true) /\ good (hi c) = false.
Proof.
  intros HB Hcap.
  destruct (drive_new oracle good_so_far
    (fun c m => phase c = Bisect /\ finished c m /\ good_so_far c)) with xdp
    as (n & c & m & Hd & _ & Hp & Hf & [_ Hg]).
  - intros i c Hr Hg. by apply good_step.
  - split; [done | by left].
  - exists n, c, m. rewrite Hp in Hg.
    destruct Hf as [(? & _) | (_ & H1 & H2 & H3 & _)]; [congruence |]. intuition auto.
Qed.
End good_rule.

(** C14. Against a server whose median latency is [floor] up to a knee and at
    least the SLO of that floor beyond it, and that serves every target, the ramp
    ends with the knee inside its bracket, within the tolerance, and reports the
    bracket's sustained bound.  The knee is at least the first target tried. *)
Theorem ramp_finds_latency_knee (xdp : bool) (knee floor cliff : Z)
  (Hk : START_QPS <= knee < START_QPS * 2 ^ 19) (Hf : 1 <= floor)
  (Hc : Z.max (3 * floor) (floor + 1000) < cliff < 2 ^ 51) :
  exists n c m, drive 25 (knee_oracle knee floor cliff) 0 (new xdp) = Some (n, c, m) /\
    lo c <= knee < hi c /\ hi c - lo c <= Z.max (lo c / 20) 5000 /\ m = lo c.
Proof.
  pose (B := fun c => baseline_us c = floor \/ baseline_us c = 0 /\ current_qps c = START_QPS).
  destruct (drive_good (knee_oracle knee floor cliff) (fun t => t <=? knee) B) with xdp
    as (n & c & m & Hd & H1 & H2 & H3 & H4 & H5).
  - intros i c Hr HB. unfold knee_oracle. pose proof (inv_bounds c Hr) as (_ & _ & Hcur).
    set (p := if current_qps c <=? knee then floor else cliff).
    assert (0 < p < 2 ^ 51) as Hp by (unfold p; case_if; lia).
    assert (baseline_us (observe c p) = floor) as Hb.
    { rewrite baseline_observe by (unfold B in HB; lia).
      unfold B in HB. unfold p. destruct (Z.leb_spec (current_qps c) knee); ifs_lia. }
    split; [| left; by rewrite advance_baseline].
    rewrite step_ok_eq, Hb, threshold_of_eq by (unfold B, START_QPS in *; lia).
    assert (4 * current_qps c / 5 <= current_qps c) as Hdiv by (apply Z.div_le_upper_bound; lia).
    apply Z.leb_le in Hdiv. rewrite Hdiv, orb_true_r, andb_true_r.
    unfold p. destruct (Z.leb_spec (current_qps c) knee); bool_to_prop; lia.
  - by right.
  - apply Z.leb_gt. lia.
  - exists n, c, m. bool_to_prop. rewrite Z.leb_le in H4. unfold START_QPS in *. intuition lia.
Qed.

Lemma ramp_finds_latency_knee_witness :
  (START_QPS <= 3000000 < START_QPS * 2 ^ 19) /\
  exists n c m, drive 25 (knee_oracle 3000000 50 5000) 0 (new false) = Some (n, c, m) /\
    lo c <= 3000000 < hi c /\ hi c - lo c <= Z.max (lo c / 20) 5000 /\ m = lo c.
Proof.
  split; [by vm_compute |].
  apply (ramp_finds_latency_knee false 3000000 50 5000); by vm_compute.
Defined.

(** C15. In kernel mode, against a server that serves at most [ceiling] replies
    per second at a constant median latency, the ramp brackets the largest target
    of which four fifths are still served: it cannot run away above the
    ceiling, whatever the latency. *)
Theorem ramp_finds_served_ceiling (ceiling p50 : Z)
  (Hc : 0 <= ceiling < 4 * (START_QPS * 2 ^ 19) / 5) (Hp : 0 <= p50 < 2 ^ 51) :
  exists n c m, drive 25 (ceiling_oracle ceiling p50) 0 (new false) = Some (n, c, m) /\
    4 * lo c / 5 <= ceiling < 4 * hi c / 5 /\
    hi c - lo c <= Z.max (lo c / 20) 5000 /\ m = lo c.
Proof.
  pose (B := fun c => use_xdp c = false /\ (baseline_us c = 0 \/ baseline_us c = p50)).
  destruct (drive_good (ceiling_oracle ceiling p50) (fun t => 4 * t / 5 <=? ceiling) B) with false
    as (n & c & m & Hd & H1 & H2 & H3 & H4 & H5).
  - intros i c Hr [Hx HB]. unfold ceiling_oracle. pose proof (inv_bounds c Hr) as (_ & _ & Hcur).
    assert (baseline_us (observe c p50) = p50) as Hb.
    { rewrite baseline_observe by lia. ifs_lia. }
    split; [| split; [by rewrite advance_use_xdp | right; by rewrite advance_baseline]].
    rewrite step_ok_eq, Hb, Hx, threshold_of_eq by (unfold START_QPS in *; lia).
    assert (4 * current_qps c / 5 <= current_qps c) by (apply Z.div_le_upper_bound; lia).
    destruct (Z.leb_spec p50 (Z.max (3 * Z.max p50 1) (Z.max p50 1 + 1000))); [| lia].
    cbn [andb orb]. apply eq_true_iff_eq. rewrite !Z.leb_le. lia.
  - split; [done | by left].
  - apply Z.leb_gt. lia.
  - exists n, c, m. bool_to_prop. rewrite Z.leb_le in H4.
    repeat split; try done. destruct H4 as [H4 | H4]; [| done]. rewrite H4. change (4 * 0 / 5) with 0. by destruct Hc.
Qed.

Lemma ramp_finds_served_ceiling_witness :
  (0 <= 500000 < 4 * (START_QPS * 2 ^ 19) / 5) /\
  exists n c m, drive 25 (ceiling_oracle 500000 40) 0 (new false) = Some (n, c, m) /\
    4 * lo c / 5 <= 500000 < 4 * hi c / 5 /\
    hi c - lo c <= Z.max (lo c / 20) 5000 /\ m = lo c.
Proof.
  split; [by vm_compute |]. apply (ramp_finds_served_ceiling 500000 40); by vm_compute.
Defined.

(** ** The open loop *)

(** Under a constant median latency an XDP controller in the doubling phase
    climbs to the cap, whatever is served. *)
Lemma xdp_climbs (served : nat -> Z -> Z) (p50 : Z) fuel i c :
  0 <= p50 < 2 ^ 51 -> ramp_ready c -> phase c = Exp -> use_xdp c = true ->
  baseline_us c = 0 \/ baseline_us c = p50 -> doublings c = Z.of_nat i -> (20 - i <= fuel)%nat ->
  exists c', drive fuel (fun i t => (served i t, p50)) i c = Some (20%nat, c', START_QPS * 2 ^ 19).
Proof.
  intros Hp. revert i c. induction fuel as [| fuel IH]; intros i c Hr He Hx HB Hi Hf.
  { destruct Hr as [Hinv _]. unfold ramp_inv in Hinv. rewrite He in Hinv. lia. }
  cbn [drive]. pose proof (inv_bounds c Hr) as (_ & _ & Hcur). set (a := served i (current_qps c)).
  assert (baseline_us (observe c p50) = p50) as Hb.
  { rewrite baseline_observe by lia. ifs_lia. }
  assert (step_ok c a p50 = true) as Hok.
  { rewrite step_ok_eq, Hb, Hx, threshold_of_eq by (unfold START_QPS in *; lia).
    cbn [orb]. rewrite andb_true_r. bool_to_prop. lia. }
  pose proof (advance_spec c a p50 Hr) as Hs. rewrite Hok in Hs.
  pose proof (advance_inv c a p50 Hr) as Hinv. pose proof (advance_use_xdp c a p50) as Hx'.
  pose proof (advance_baseline c a p50) as Hb'. rewrite Hb in Hb'.
  destruct (advance c a p50) as [c' [[q sat] m]]. cbn [fst snd] in *.
  inversion Hs as [? Hp0 ? Hd Hp' Hd' | ? Hp0 ? Hd | | | ]; subst; try congruence.
  - destruct Hinv as [_ Hn]. destruct (Hn eq_refl) as [Hr' _]. apply IH; try done; try lia; congruence || auto.
  - exists c'. assert (i = 19%nat) as -> by lia. destruct Hr as [Hinv0 _].
    unfold ramp_inv in Hinv0. rewrite He in Hinv0. destruct Hinv0 as (_ & -> & _). by rewrite Hd.
Qed.

(** In XDP mode the ramp gates on latency only: with the median latency
    constant it climbs through all twenty doublings, whatever the offered rate
    lags behind the target, and ends there. *)
Theorem ramp_xdp_latency_only (served : nat -> Z -> Z) (p50 : Z) (Hp : 0 <= p50 < 2 ^ 51) :
  exists c, drive 25 (fun i t => (served i t, p50)) 0 (new true)
            = Some (20%nat, c, START_QPS * 2 ^ 19).
Proof. apply xdp_climbs; try done; [apply new_ready | by left | lia]. Qed.

Lemma ramp_xdp_latency_only_witness :
  0 <= 40 < 2 ^ 51 /\
  exists c, drive 25 (fun i t => ((fun (_ : nat) t => t / 10) i t, 40)) 0 (new true)
            = Some (20%nat, c, START_QPS * 2 ^ 19).
Proof.
  split; [by vm_compute |]. apply (ramp_xdp_latency_only (fun _ t => t / 10) 40). by vm_compute.
Defined.

(** The SLO is relative to the measured floor: three times a floor above
    500 us, the floor plus one millisecond below it; and as the floor is the
    lowest median seen, the first step of a ramp is never rejected on latency. *)
Theorem ramp_slo_follows_floor (xdp : bool) (floor : Z) (Hf : 1 <= floor < 2 ^ 51) :
  threshold_us (observe (new xdp) floor) = Z.max (3 * floor) (floor + 1000) /\
  (forall achieved, step_ok (new true) achieved floor = true) /\
  (forall achieved, step_ok (new false) achieved floor = (80000 <=? achieved)).
Proof.
  assert (forall x, baseline_us (observe (new x) floor) = floor) as Hb.
  { intros x. rewrite baseline_observe by (cbn; lia). cbn. ifs_lia. }
  split; [| split]; [| intros a ..].
  - unfold threshold_us. rewrite Hb, threshold_of_eq by lia. lia.
  - rewrite step_ok_eq, Hb, threshold_of_eq by (cbn; unfold START_QPS; lia).
    cbn [use_xdp new orb]. rewrite andb_true_r. bool_to_prop. lia.
  - rewrite step_ok_eq, Hb, threshold_of_eq by (cbn; unfold START_QPS; lia).
    destruct (Z.leb_spec floor (Z.max (3 * Z.max floor 1) (Z.max floor 1 + 1000))); [done | lia].
Qed.

Lemma ramp_slo_follows_floor_witness :
  threshold_us (observe (new false) 2500) = 7500 /\ threshold_us (observe (new false) 40) = 1040.
Proof.
  split.
  - exact (proj1 (ramp_slo_follows_floor false 2500 ltac:(lia))).
  - exact (proj1 (ramp_slo_follows_floor false 40 ltac:(lia))).
Defined.
