(* ===== verification/Dns.v ===== *)
(** * DNS messages

    Models [src/dns/mod.rs] ([build_query], [parse_record_type]) and
    [src/dns/response.rs] ([parse_response]).

    [decode_query] is the reference: it reads a message the way RFC 1035 section
    4.1 lays it out (header, then one question whose name is a sequence of length
    octets and labels ended by the root, of at most 255 octets).  The theorems: a
    query built for a name whose labels are legal decodes to that id, name, type and
    class, unless the name is too long as a whole; a response
    with the QR bit is read back with its id and rcode, and a query is never taken
    for a response; the record-type table. *)

From Stdlib Require Import ZArith Lia Bool String.
From stdpp Require Import base numbers option list.
From S2P Require Import Prelude RustStr.

Open Scope Z_scope.

(** ** Big-endian 16-bit fields *)

Definition to_be_bytes16 (z : Z) : list Z := [z / 256; z mod 256].
Definition from_be_bytes16 (a b : Z) : Z := a * 256 + b.

Lemma from_to_be16 z : from_be_bytes16 (z / 256) (z mod 256) = z.
Proof. unfold from_be_bytes16. pose proof (Z.div_mod z 256). lia. Qed.

Lemma be16_shift_mask a b : in_u 8 a -> in_u 8 b ->
  Z.shiftr (from_be_bytes16 a b) 8 = a /\ Z.land (from_be_bytes16 a b) 255 = b.
Proof.
  unfold in_u, from_be_bytes16. change (2 ^ 8) with 256. intros Ha Hb. split.
  - rewrite Z.shiftr_div_pow2 by lia. change (2 ^ 8) with 256.
    rewrite Z.div_add_l by lia. rewrite Z.div_small; lia.
  - change 255 with (Z.ones 8). rewrite Z.land_ones by lia. change (2 ^ 8) with 256.
    rewrite Z.add_comm, Z.mod_add by lia. apply Z.mod_small. lia.
Qed.

#[export] Hint Rewrite from_to_be16 : dnsmark.

(** ** Building a query ([build_query]) *)

(** The labels the loop of [build_query] keeps. *)
Definition labels (name : str) : list str :=
  base.filter (fun l => is_empty l = false) (split_char c_dot (trim_end_matches c_dot name)).

(** One turn of the loop: the length octet is [b.len() as u8]. *)
Definition push_label (buf : list Z) (label : str) : list Z :=
  let b := as_bytes label in
  buf ++ [as_u 8 (Z.of_nat (length b))] ++ b.

Definition build_query (id : Z) (name : str) (qtype : Z) : list Z :=
  let buf := to_be_bytes16 id ++ to_be_bytes16 0x0100 ++ to_be_bytes16 1 ++
             to_be_bytes16 0 ++ to_be_bytes16 0 ++ to_be_bytes16 0 in
  let name := trim_end_matches c_dot name in
  let buf := fold_left (fun (buf : list Z) (label : str) =>
                 if is_empty label then buf else push_label buf label)
               (split_char c_dot name) buf in
  buf ++ [0] ++ to_be_bytes16 qtype ++ to_be_bytes16 1.

(** ** Record types ([parse_record_type]) *)

Definition record_types : list (str * Z) :=
  [(lit "A", 1); (lit "NS", 2); (lit "CNAME", 5); (lit "SOA", 6); (lit "PTR", 12);
   (lit "MX", 15); (lit "TXT", 16); (lit "AAAA", 28); (lit "SRV", 33);
   (lit "NAPTR", 35); (lit "DS", 43); (lit "RRSIG", 46); (lit "NSEC", 47);
   (lit "DNSKEY", 48); (lit "NSEC3", 50); (lit "TLSA", 52); (lit "CAA", 257);
   (lit "ANY", 255)].

(** The arms of a [match] on a string, in order. *)
Fixpoint match_str {A} (arms : list (str * A)) (s : str) : option A :=
  match arms with
  | [] => None
  | (k, v) :: arms' => if str_eqb s k then Some v else match_str arms' s
  end.

Definition parse_record_type (s : str) : Z :=
  let u := to_ascii_uppercase s in
  match match_str record_types u with
  | Some t => t
  | None => default 1 (parse_u 16 u)
  end.

(** ** Reading a response ([parse_response]) *)

Record ResponseInfo : Set := mkResponse { resp_id : Z; resp_rcode : Z }.

Global Instance ResponseInfo_eq_dec : EqDecision ResponseInfo.
Proof. solve_decision. Defined.

Definition parse_response (buf : list Z) : option ResponseInfo :=
  if Z.of_nat (length buf) <? 12 then None
  else
    let id := from_be_bytes16 (buf !!! 0%nat) (buf !!! 1%nat) in
    let flags := from_be_bytes16 (buf !!! 2%nat) (buf !!! 3%nat) in
    if Z.land flags 0x8000 =? 0 then None
    else Some (mkResponse id (as_u 8 (Z.land flags 0x000F))).

(** ** The reference: RFC 1035 section 4.1 *)

Record message : Set := mkMessage {
  msg_id : Z;
  msg_flags : Z;
  msg_counts : list Z;
  msg_qname : list (list Z);
  msg_qtype : Z;
  msg_qclass : Z
}.

(** A name: labels of 1 to 63 octets, each after its length, up to the root. *)
Fixpoint decode_name (fuel : nat) (bs : list Z) : option (list (list Z) * list Z) :=
  match fuel, bs with
  | S fuel', n :: rest =>
      if n =? 0 then Some ([], rest)
      else if n <=? 63 then
        let n := Z.to_nat n in
        if (length rest <? n)%nat then None
        else match decode_name fuel' (drop n rest) with
             | Some (ls, rest') => Some (take n rest :: ls, rest')
             | None => None
             end
      else None
  | _, _ => None
  end.

Definition decode_query (bs : list Z) : option message :=
  match bs with
  | i1 :: i0 :: f1 :: f0 :: q1 :: q0 :: a1 :: a0 :: n1 :: n0 :: r1 :: r0 :: body =>
      match decode_name (length body) body with
      | Some (ls, [t1; t0; c1; c0]) =>
          (* a name has at most 255 octets, length octets and root included *)
          if (255 <? length body - 4)%nat then None
          else Some (mkMessage (from_be_bytes16 i1 i0) (from_be_bytes16 f1 f0)
                  [from_be_bytes16 q1 q0; from_be_bytes16 a1 a0;
                   from_be_bytes16 n1 n0; from_be_bytes16 r1 r0]
                  ls (from_be_bytes16 t1 t0) (from_be_bytes16 c1 c0))
      | _ => None
      end
  | _ => None
  end.

(** ** Lemmas *)

Definition encode_label (l : list Z) : list Z := as_u 8 (Z.of_nat (length l)) :: l.

(** The loop appends the non-empty labels, each after its length octet. *)
Lemma push_labels ls buf :
  fold_left (fun (buf : list Z) (label : str) =>
     if is_empty label then buf else push_label buf label) ls buf =
  buf ++ concat ((fun l => encode_label (as_bytes l)) <$>
                 base.filter (fun l => is_empty l = false) ls).
Proof.
  revert buf. induction ls as [|l ls IH]; intros buf; cbn [fold_left].
  - by rewrite app_nil_r.
  - rewrite IH. destruct (is_empty l) eqn:E.
    + rewrite filter_cons_False by congruence. done.
    + rewrite filter_cons_True by done. cbn. unfold push_label.
      rewrite <- app_assoc. cbn. done.
Qed.

(** The layout of a query: header, labels, root, type and class. *)
Lemma build_query_layout id name qtype :
  build_query id name qtype =
  [id / 256; id mod 256; 1; 0; 0; 1; 0; 0; 0; 0; 0; 0] ++
  concat ((fun l => encode_label (as_bytes l)) <$> labels name) ++
  [0; qtype / 256; qtype mod 256; 0; 1].
Proof. unfold build_query. rewrite push_labels, <- app_assoc. done. Qed.

(** The bytes after the id do not depend on it. *)
Lemma build_query_id id name qtype :
  build_query id name qtype = to_be_bytes16 id ++ drop 2 (build_query 0 name qtype).
Proof. by rewrite !build_query_layout. Qed.

Lemma labels_nonempty name : Forall (fun l => l <> []) (labels name).
Proof.
  unfold labels. apply Forall_forall. intros l Hl.
  apply list_elem_of_filter in Hl as [Hl _]. by destruct l.
Qed.

Definition legal_label (l : list Z) : Prop := (1 <= length l <= 63)%nat.

(** Labels of 1 to 63 octets decode to themselves. *)
Lemma decode_encode_labels ls rest fuel :
  Forall legal_label ls ->
  (length (concat (encode_label <$> ls)) < fuel)%nat ->
  decode_name fuel (concat (encode_label <$> ls) ++ 0 :: rest) = Some (ls, rest).
Proof.
  intros Hls. revert fuel. induction Hls as [|l ls Hl Hls IH]; intros fuel Hf.
  - destruct fuel; [simpl in Hf; lia|]. done.
  - destruct fuel as [|fuel]; [lia|]. unfold legal_label in Hl.
    cbn [fmap list_fmap concat] in *. unfold encode_label at 1 in Hf.
    rewrite <- app_comm_cons in Hf. cbn [length] in Hf. rewrite length_app in Hf.
    unfold encode_label at 1. rewrite <- !app_comm_cons. cbn [decode_name].
    rewrite as_u_small by (unfold in_u; lia).
    replace (Z.of_nat (length l) =? 0) with false by (symmetry; bool_to_prop; lia).
    replace (Z.of_nat (length l) <=? 63) with true by (symmetry; bool_to_prop; lia).
    rewrite Nat2Z.id, <- app_assoc, length_app.
    replace (_ <? _)%nat with false by (symmetry; apply Nat.ltb_ge; lia).
    rewrite drop_app_length, take_app_length, IH by lia. done.
Qed.

Lemma fmap_encode_labels (ls : list str) :
  ((fun l => encode_label (as_bytes l)) <$> ls) = encode_label <$> (as_bytes <$> ls).
Proof. by rewrite <- list_fmap_compose. Qed.

Lemma match_str_elem {A} (arms : list (str * A)) k v :
  NoDup arms.*1 -> (k, v) ∈ arms -> match_str arms k = Some v.
Proof.
  induction arms as [|[k' v'] arms IH]; cbn; intros Hnd Hin; [by apply elem_of_nil in Hin|].
  apply NoDup_cons in Hnd as [Hn Hnd]. unfold str_eqb.
  apply elem_of_cons in Hin as [Heq|Hin].
  - inversion Heq; subst. by rewrite bool_decide_eq_true_2.
  - rewrite bool_decide_eq_false_2; [by apply IH|].
    intros ->. apply Hn. apply list_elem_of_fmap. by exists (k', v).
Qed.

Lemma match_str_None {A} (arms : list (str * A)) k :
  k ∉ arms.*1 -> match_str arms k = None.
Proof.
  induction arms as [|[k' v'] arms IH]; cbn; intros Hn; [done|].
  apply not_elem_of_cons in Hn as [Hne Hn]. unfold str_eqb.
  rewrite bool_decide_eq_false_2 by done. by apply IH.
Qed.

Lemma record_types_NoDup : NoDup record_types.*1.
Proof. apply (bool_decide_unpack _). vm_compute. exact I. Qed.

Lemma record_types_upper : Forall (fun kv => to_ascii_uppercase kv.1 = kv.1) record_types.
Proof. repeat constructor. Qed.

Lemma upper_idemp s : to_ascii_uppercase (to_ascii_uppercase s) = to_ascii_uppercase s.
Proof.
  unfold to_ascii_uppercase. rewrite <- list_fmap_compose. apply list_fmap_ext.
  intros _ c _. unfold ascii_upper. cbn.
  destruct ((97 <=? c) && (c <=? 122)) eqn:E; [|by rewrite E].
  bool_to_prop.
  by replace ((97 <=? c - 32) && (c - 32 <=? 122)) with false
    by (symmetry; apply andb_false_iff; left; bool_to_prop; lia).
Qed.

(** The uppercase of a decimal number is itself, and it is no type's name. *)
Definition is_decimal (c : char) : Prop := 48 <= c <= 57.

Lemma upper_decimal s : Forall is_decimal s -> to_ascii_uppercase s = s.
Proof.
  induction 1 as [|c s Hc Hs IH]; [done|]. cbn. unfold to_ascii_uppercase in IH.
  rewrite IH. unfold is_decimal, ascii_upper in *.
  by replace ((97 <=? c) && (c <=? 122)) with false
    by (symmetry; apply andb_false_iff; left; bool_to_prop; lia).
Qed.

Lemma display_fuel_decimal n z : 0 <= z -> Forall is_decimal (display_fuel n z).
Proof.
  revert z. induction n as [|n IH]; intros z Hz; cbn; [constructor|].
  apply Forall_app. split.
  - case_if; [constructor|]. apply IH. apply Z.div_pos; lia.
  - constructor; [|constructor]. unfold digit_char, is_decimal.
    pose proof (Z.mod_pos_bound z 10). ifs_lia.
Qed.

Lemma decimal_not_type s : Forall is_decimal s -> s ∉ record_types.*1.
Proof.
  intros Hs Hin. destruct s as [|c s].
  - revert Hin. apply (bool_decide_unpack _). vm_compute. exact I.
  - inversion Hs as [|? ? Hc _]; subst. unfold is_decimal in Hc.
    cbn in Hin. repeat (apply elem_of_cons in Hin as [Hin|Hin]; [injection Hin; lia|]).
    by apply elem_of_nil in Hin.
Qed.

(** The QR test of the flags word looks at bit 7 of its first byte. *)
Lemma land_qr x : (Z.land x 0x8000 =? 0) = negb (Z.testbit x 15).
Proof.
  assert (H : Z.land x 0x8000 = if Z.testbit x 15 then 0x8000 else 0).
  { apply Z.bits_inj'. intros n Hn. rewrite Z.land_spec. change 0x8000 with (2 ^ 15).
    destruct (decide (n = 15)) as [->|Hne].
    - rewrite Z.pow2_bits_true, andb_true_r by lia. by destruct (Z.testbit x 15).
    - rewrite Z.pow2_bits_false, andb_false_r by lia.
      destruct (Z.testbit x 15); [by rewrite Z.pow2_bits_false by lia|by rewrite Z.bits_0]. }
  rewrite H. by destruct (Z.testbit x 15).
Qed.

Lemma be16_qr a b : 0 <= a < 256 -> 0 <= b < 256 -> Z.testbit (a * 256 + b) 15 = Z.testbit a 7.
Proof.
  intros. rewrite !Z.testbit_odd, !Z.shiftr_div_pow2 by lia. f_equal.
  change (2 ^ 15) with 32768. change (2 ^ 7) with 128.
  Z.to_euclidean_division_equations; lia.
Qed.

Lemma labels_octets (ls : list str) :
  Z.of_nat (length (concat (encode_label <$> (as_bytes <$> ls)))) = zsum (fun l => 1 + Z.of_nat (length (as_bytes l))) ls.
Proof.
  induction ls as [|l ls IH]; [done|]. cbn [fmap list_fmap concat]. rewrite zsum_cons, length_app, Nat2Z.inj_add, IH.
  unfold encode_label. cbn [length]. lia.
Qed.

(** ** Theorems *)

(** The octets of a name: a length octet and the bytes for each label, and the root. *)
Definition name_octets (name : str) : Z := zsum (fun l => 1 + Z.of_nat (length (as_bytes l))) (labels name) + 1.

(** C10. [build_query] is a correct encoder: when every label of the name (the
    non-empty pieces between dots) has at most 63 UTF-8 bytes, a reader of RFC
    1035 gets back exactly the id, the flags word with only RD set, one question,
    the labels in order, the record type and class IN, with nothing left over, as long
    as the name has at most the 255 octets the RFC allows; a longer one is sent all
    the same, and is malformed. *)
Theorem build_query_decodes id name qtype :
  Forall (fun l => (length (as_bytes l) <= 63)%nat) (labels name) ->
  decode_query (build_query id name qtype) =
  if name_octets name <=? 255
  then Some (mkMessage id 0x0100 [1; 0; 0; 0] (as_bytes <$> labels name) qtype 1) else None.
Proof.
  intros Hl. rewrite build_query_layout, fmap_encode_labels. cbn [app].
  unfold decode_query. rewrite decode_encode_labels.
  - replace (255 <? _)%nat with (negb (name_octets name <=? 255)); [by destruct (_ <=? 255); cbn [negb]; rewrite ?from_to_be16|].
    rewrite length_app. cbn [length]. apply eq_true_iff_eq. rewrite negb_true_iff, Z.leb_gt, Nat.ltb_lt.
    unfold name_octets. rewrite <- labels_octets. lia.
  - apply Forall_fmap. pose proof (labels_nonempty name) as Hne.
    apply Forall_forall. intros l Hin. rewrite Forall_forall in Hl, Hne.
    specialize (Hl l Hin). specialize (Hne l Hin). cbn. unfold legal_label.
    split; [|done]. destruct (as_bytes l) eqn:E; [by apply as_bytes_nil in E|cbn; lia].
  - rewrite length_app. cbn. lia.
Qed.

Lemma build_query_decodes_witness :
  decode_query (build_query 0xBEEF (lit "www.example.com.") 28) =
  Some (mkMessage 0xBEEF 0x0100 [1; 0; 0; 0] [lit "www"; lit "example"; lit "com"] 28 1).
Proof.
  refine (build_query_decodes 0xBEEF (lit "www.example.com.") 28 _).
  repeat constructor.
Defined.

Lemma parse_response_bits b0 b1 b2 b3 rest : in_u 8 b2 -> in_u 8 b3 -> (8 <= length rest)%nat ->
  parse_response (b0 :: b1 :: b2 :: b3 :: rest) =
  if Z.testbit b2 7 then Some (mkResponse (b0 * 256 + b1) (b3 mod 16)) else None.
Proof.
  intros H2 H3 Hlen. unfold parse_response.
  replace (Z.of_nat _ <? 12) with false by (symmetry; bool_to_prop; cbn [length]; lia).
  cbn [lookup_total list_lookup_total]. unfold in_u, from_be_bytes16 in *.
  change (2 ^ 8) with 256 in *.
  rewrite land_qr, be16_qr by done.
  destruct (Z.testbit b2 7); [|done]. cbn [negb]. f_equal. f_equal.
  change 0x000F with (Z.ones 4). rewrite Z.land_ones by lia. change (2 ^ 4) with 16.
  replace ((b2 * 256 + b3) mod 16) with (b3 mod 16)
    by (Z.to_euclidean_division_equations; lia).
  apply as_u_small. unfold in_u. pose proof (Z.mod_pos_bound b3 16). lia.
Qed.

Lemma parse_response_query id name qtype : parse_response (build_query id name qtype) = None.
Proof. rewrite build_query_layout. unfold parse_response. by case_if. Qed.

(** [parse_response] accepts exactly the messages of at least twelve bytes
    whose QR bit is set, and returns the id of bytes 0 and 1 and the low four bits
    of byte 3; in particular a query that [build_query] made is never taken for a
    response (a reflected query counts nothing). *)
Theorem parse_response_spec :
  (forall b0 b1 b2 b3 rest, in_u 8 b2 -> in_u 8 b3 -> (8 <= length rest)%nat ->
     parse_response (b0 :: b1 :: b2 :: b3 :: rest) =
     if Z.testbit b2 7 then Some (mkResponse (b0 * 256 + b1) (b3 mod 16)) else None) /\
  (forall buf, (length buf < 12)%nat -> parse_response buf = None) /\
  (forall id name qtype, parse_response (build_query id name qtype) = None).
Proof.
  split; [exact parse_response_bits|]. split; [|exact parse_response_query].
  intros buf Hlen. unfold parse_response.
  by replace (Z.of_nat _ <? 12) with true by (symmetry; bool_to_prop; lia).
Qed.

Lemma parse_response_spec_witness :
  parse_response (0xBE :: 0xEF :: 0x81 :: 0x83 :: replicate 8 0) = Some (mkResponse 0xBEEF 3) /\
  parse_response (0xBE :: 0xEF :: 0x01 :: 0x00 :: replicate 8 0) = None.
Proof.
  destruct parse_response_spec as [H _]. split.
  - rewrite H; [reflexivity|unfold in_u; lia|unfold in_u; lia|done].
  - rewrite H; [reflexivity|unfold in_u; lia|unfold in_u; lia|done].
Defined.

(** [parse_record_type]: a type's name in any case gives its number; a
    16-bit number in decimal gives itself; anything else (an unknown name, a
    number above 65535) gives type A. *)
Theorem parse_record_type_spec :
  (forall k v s, (k, v) ∈ record_types -> to_ascii_uppercase s = k -> parse_record_type s = v) /\
  (forall n, in_u 16 n -> parse_record_type (display_u n) = n) /\
  (forall s, to_ascii_uppercase s ∉ record_types.*1 ->
     parse_u 16 (to_ascii_uppercase s) = None -> parse_record_type s = 1).
Proof.
  split; [|split].
  - intros k v s Hin Hs. unfold parse_record_type. rewrite Hs.
    by rewrite (match_str_elem _ k v record_types_NoDup).
  - intros n Hn. unfold parse_record_type. unfold in_u in Hn.
    pose proof (display_fuel_decimal 20 n ltac:(lia)) as Hd.
    rewrite upper_decimal, match_str_None by (try apply decimal_not_type; done).
    by rewrite parse_display by (unfold in_u; lia).
  - intros s Hs Hp. unfold parse_record_type. by rewrite match_str_None, Hp.
Qed.

Lemma parse_record_type_spec_witness :
  parse_record_type (lit "aaaa") = 28 /\ parse_record_type (lit "65") = 65 /\
  parse_record_type (lit "HTTPS") = 1.
Proof.
  destruct parse_record_type_spec as (H1 & H2 & H3). split; [|split].
  - apply (H1 (lit "AAAA") 28); [|reflexivity]. repeat (apply list_elem_of_here || apply list_elem_of_further).
  - change (lit "65") with (display_u 65). apply H2. unfold in_u. lia.
  - apply H3; [|reflexivity]. apply (bool_decide_unpack _). vm_compute. exact I.
Defined.

(** A label of 64 to 255 bytes is written with a length octet that RFC 1035
    reserves (or reads as a compression pointer): the query is malformed, and
    [build_query] has no error to report it with. *)
Lemma build_query_overlong_label id name qtype l :
  labels name = [l] -> (64 <= length (as_bytes l) <= 255)%nat ->
  decode_query (build_query id name qtype) = None.
Proof.
  intros Hl Hlen. rewrite build_query_layout, Hl. cbn [app fmap list_fmap concat].
  unfold decode_query, encode_label. rewrite app_nil_r. cbn [app length decode_name].
  rewrite as_u_small by (unfold in_u; lia).
  replace (Z.of_nat _ =? 0) with false by (symmetry; bool_to_prop; lia).
  by replace (Z.of_nat _ <=? 63) with false by (symmetry; bool_to_prop; lia).
Qed.
