(* ===== verification/Query.v ===== *)
(** * Query sources and the pool of pre-built queries

    Models [src/query/mod.rs] (the [QuerySource] trait, here a class),
    [file.rs], [builtin.rs], [random.rs] and [wire.rs] ([WireQueryPool]).

    What is not under [src/] is an argument: the text of the query file, the
    corpus asset, and the random number generator (a stream of draws).
    [QuerySourceLaws] is what the pool relies on; each source has an instance.

    The theorems: the hot path ([write_with_index]) writes byte for byte what
    [build_query] builds for the same name, type and id, whatever the buffer held,
    and touches nothing after it; it cannot panic on the 512-byte buffers of the
    callers for names up to 494 bytes; the round robin serves every entry once per
    round; a pool made from any source can be built. *)

From Stdlib Require Import ZArith Lia Bool String.
From stdpp Require Import base numbers option list.
From S2P Require Import Prelude RustStr Dns.

Open Scope Z_scope.

(** ** Entries and the trait *)

Record QueryEntry : Set := mkEntry { name : str; qtype : Z }.

Global Instance QueryEntry_inhabited : Inhabited QueryEntry := populate (mkEntry [] 0).

(** [rand::random::<u128>()]: the next draw of a stream. *)
Definition rng : Set := nat -> Z.
Definition draw (r : rng) : Z * rng := (r 0%nat, fun n => r (S n)).

(** The trait.  [next] takes [&self]; its state change is the one the atomic
    cursor makes. *)
Class QuerySource (S : Type) := {
  next : S -> rng -> outcome (QueryEntry * S * rng);
  all_wire_pairs : S -> rng -> list (str * Z) * rng
}.

(** ** [file.rs] *)

(** The closure of [load]: the first word is the name, the second the type. *)
Definition entry_of_line (line : str) : QueryEntry :=
  let parts := split_whitespace line in
  let nm := default (lit "example.com") (parts !! 0%nat) in
  let qtype_str := default (lit "A") (parts !! 1%nat) in
  mkEntry nm (parse_record_type qtype_str).

Definition entries_of (content : str) : list QueryEntry :=
  entry_of_line <$>
  base.filter (fun l => negb (is_empty l) && negb (starts_with [c_hash] l) = true) (lines content).

(** [self.entries[self.index.fetch_add(1) % self.entries.len()]]: the old value
    of the cursor, which wraps at 64 bits; a remainder by zero panics. *)
Definition indexed_next (entries : list QueryEntry) (index : Z) : outcome (QueryEntry * Z) :=
  let len := Z.of_nat (length entries) in
  if len =? 0 then Panic
  else match entries !! Z.to_nat (index mod len) with
       | Some e => Done (e, wadd 64 index 1)
       | None => Panic
       end.

Definition pairs_of (entries : list QueryEntry) : list (str * Z) :=
  (fun e => (name e, qtype e)) <$> entries.

Record FileQuerySource : Set := mkFile { f_entries : list QueryEntry; f_index : Z }.

(** [load]: [content] is the outcome of [read_to_string]. *)
Inductive load_error : Set := ReadFailed | NoValidEntries.

Definition load (content : option str) : result FileQuerySource load_error :=
  match content with
  | None => Err ReadFailed
  | Some c =>
      let entries := entries_of c in
      if is_empty entries then Err NoValidEntries else Ok (mkFile entries 0)
  end.

Global Instance FileQuerySource_source : QuerySource FileQuerySource := {
  next s r := '(e, i) ← indexed_next (f_entries s) (f_index s); Done (e, mkFile (f_entries s) i, r);
  all_wire_pairs s r := (pairs_of (f_entries s), r)
}.

(** ** [builtin.rs] *)

Record BuiltinQuerySource : Set := mkBuiltin { b_entries : list QueryEntry; b_index : Z }.

Definition builtin_new (CORPUS : str) : BuiltinQuerySource := mkBuiltin (entries_of CORPUS) 0.

Global Instance BuiltinQuerySource_source : QuerySource BuiltinQuerySource := {
  next s r := '(e, i) ← indexed_next (b_entries s) (b_index s); Done (e, mkBuiltin (b_entries s) i, r);
  all_wire_pairs s r := (pairs_of (b_entries s), r)
}.

(** ** [random.rs] *)

Record RandomQuerySource : Set := mkRandom { base_domain : str; r_qtype : Z }.

Definition random_new (base : str) (qt : Z) : RandomQuerySource :=
  mkRandom (trim_end_matches c_dot base) qt.

(** [format!("{:032x}.{}", id, self.base_domain)] *)
Definition random_name (s : RandomQuerySource) (id : Z) : str :=
  format_hex 32 id ++ c_dot :: base_domain s.

Fixpoint random_pairs (n : nat) (s : RandomQuerySource) (r : rng) : list (str * Z) * rng :=
  match n with
  | O => ([], r)
  | S n' =>
      let '(id, r) := draw r in
      let '(ps, r) := random_pairs n' s r in
      ((random_name s id, r_qtype s) :: ps, r)
  end.

Definition random_all_wire_pairs (s : RandomQuerySource) (r : rng) : list (str * Z) * rng :=
  random_pairs 4096 s r.

Definition random_next (s : RandomQuerySource) (r : rng)
  : outcome (QueryEntry * RandomQuerySource * rng) :=
  let '(id, r) := draw r in Done (mkEntry (random_name s id) (r_qtype s), s, r).

Global Instance RandomQuerySource_source : QuerySource RandomQuerySource := {
  next := random_next;
  all_wire_pairs := random_all_wire_pairs
}.

(** ** [wire.rs] *)

Definition MAX_QUERY : Z := 512.

(** [build_wire_template]: [build_query]'s layout with a zero id. *)
Definition build_wire_template (nm : str) (qt : Z) : list Z :=
  let buf := [0; 0] ++ to_be_bytes16 0x0100 ++ to_be_bytes16 1 ++ [0; 0; 0; 0; 0; 0] in
  let nm := trim_end_matches c_dot nm in
  let buf := fold_left (fun (buf : list Z) (label : str) =>
                 if is_empty label then buf else push_label buf label)
               (split_char c_dot nm) buf in
  buf ++ [0] ++ to_be_bytes16 qt ++ to_be_bytes16 1.

Record WireQueryPool : Set := mkPool { templates : list (list Z) }.

Definition from_pairs (entries : list (str * Z)) : outcome WireQueryPool :=
  if is_empty entries then Panic
  else Done (mkPool ((fun e => build_wire_template e.1 e.2) <$> entries)).

(** [write_with_index]: the buffer after the call and the length returned; the
    remainder by zero, the slice [buf[..len]] and the two stores can panic. *)
Definition write_with_index (pool : WireQueryPool) (local_idx id : Z) (buf : list Z)
  : outcome (list Z * Z) :=
  let n := Z.of_nat (length (templates pool)) in
  if n =? 0 then Panic
  else match templates pool !! Z.to_nat (local_idx mod n) with
       | None => Panic
       | Some tmpl =>
           let len := length tmpl in
           if (length buf <? len)%nat then Panic
           else
             let buf := tmpl ++ drop len buf in
             if (length buf <? 2)%nat then Panic
             else
               let buf := <[0%nat := as_u 8 (Z.shiftr id 8)]> buf in
               let buf := <[1%nat := as_u 8 id]> buf in
               Done (buf, Z.of_nat len)
       end.

(** ** The laws a source promises to the pool *)

Class QuerySourceLaws (S : Type) `{QuerySource S} := {
  source_ok : S -> Prop;
  pairs_nonempty s r : source_ok s -> (all_wire_pairs s r).1 <> [];
  next_total s r : source_ok s ->
    exists e s' r', next s r = Done (e, s', r') /\ source_ok s'
}.

Lemma indexed_next_spec entries index :
  0 <= index -> entries <> [] ->
  indexed_next entries index =
  Done (entries !!! Z.to_nat (index mod Z.of_nat (length entries)), wadd 64 index 1).
Proof.
  intros Hi Hne. unfold indexed_next.
  assert (0 < Z.of_nat (length entries)) by (destruct entries; cbn; [done|lia]).
  pose proof (Z.mod_pos_bound index (Z.of_nat (length entries))).
  replace (_ =? 0) with false by (symmetry; bool_to_prop; lia).
  destruct (lookup_lt_is_Some_2 entries (Z.to_nat (index mod Z.of_nat (length entries)))) as [e He];
    [lia|]. by rewrite He, (list_lookup_total_correct _ _ _ He).
Qed.

Lemma pairs_of_nonempty entries : entries <> [] -> pairs_of entries <> [].
Proof. by destruct entries. Qed.

Global Program Instance FileQuerySource_laws : QuerySourceLaws FileQuerySource := {
  source_ok s := f_entries s <> [] /\ in_u 64 (f_index s)
}.
Next Obligation. intros s r [H _]. by apply pairs_of_nonempty. Qed.
Next Obligation.
  intros [es i] r [H Hi]; cbn in *. rewrite indexed_next_spec by (unfold in_u in *; lia || done).
  cbn. eexists _, _, _. split; [reflexivity|]. split; [done|]. by apply wadd_range.
Qed.

Global Program Instance BuiltinQuerySource_laws : QuerySourceLaws BuiltinQuerySource := {
  source_ok s := b_entries s <> [] /\ in_u 64 (b_index s)
}.
Next Obligation. intros s r [H _]. by apply pairs_of_nonempty. Qed.
Next Obligation.
  intros [es i] r [H Hi]; cbn in *. rewrite indexed_next_spec by (unfold in_u in *; lia || done).
  cbn. eexists _, _, _. split; [reflexivity|]. split; [done|]. by apply wadd_range.
Qed.

Lemma random_pairs_length n s r : length (random_pairs n s r).1 = n.
Proof.
  revert r. induction n as [|n IH]; intros r; cbn; [done|].
  specialize (IH (fun k => r (S k))). destruct (random_pairs n s _); cbn in *. by rewrite IH.
Qed.

Lemma random_pairs_ne n s r : (n <> 0)%nat -> (random_pairs n s r).1 <> [].
Proof. intros Hn H. pose proof (random_pairs_length n s r) as Hl. rewrite H in Hl. done. Qed.

Lemma random_all_wire_pairs_ne s r : (random_all_wire_pairs s r).1 <> [].
Proof. unfold random_all_wire_pairs. apply random_pairs_ne. discriminate. Qed.

Global Program Instance RandomQuerySource_laws : QuerySourceLaws RandomQuerySource := {
  source_ok s := True
}.
Next Obligation.
  intros s r _. exact (random_all_wire_pairs_ne s r).
Qed.
Next Obligation. intros s r _. by eexists _, _, _. Qed.

(** ** Lemmas on templates *)

(** The template is the query with id 0. *)
Lemma build_wire_template_query nm qt : build_wire_template nm qt = build_query 0 nm qt.
Proof. done. Qed.

(** Bytes a list of labels takes on the wire, length octets included. *)
Definition labels_cost (ls : list str) : nat :=
  sum_list_with (fun l => S (length (as_bytes l))) ls.

Lemma build_query_length id nm qt :
  length (build_query id nm qt) = (17 + labels_cost (labels nm))%nat.
Proof.
  rewrite build_query_layout, !length_app. cbn [length].
  enough (length (concat ((fun l => encode_label (as_bytes l)) <$> labels nm)) =
          labels_cost (labels nm)) by lia.
  induction (labels nm) as [|l ls IH]; [done|].
  rewrite fmap_cons. cbn [concat]. rewrite length_app, IH. done.
Qed.

Lemma labels_cost_filter_cons l ls :
  (labels_cost (base.filter (fun l => is_empty l = false) (l :: ls)) <=
   S (length (as_bytes l)) + labels_cost (base.filter (fun l => is_empty l = false) ls))%nat.
Proof.
  destruct (is_empty l) eqn:E.
  - rewrite filter_cons_False by congruence. lia.
  - rewrite filter_cons_True by done. done.
Qed.

Lemma as_bytes_cons c s : length (as_bytes (c :: s)) = (length (utf8_char c) + length (as_bytes s))%nat.
Proof. unfold as_bytes. rewrite fmap_cons. cbn [concat]. apply length_app. Qed.

Lemma split_cost p s w ws :
  split_by p s = w :: ws ->
  (length (as_bytes w) + labels_cost (base.filter (fun l => is_empty l = false) ws) <=
   length (as_bytes s))%nat.
Proof.
  revert w ws. induction s as [|c s IH]; cbn [split_by]; intros w ws Hs.
  - inversion Hs; subst. cbn. lia.
  - rewrite as_bytes_cons. pose proof (utf8_char_ne c).
    assert (1 <= length (utf8_char c))%nat by (destruct (utf8_char c); cbn; [done|lia]).
    destruct (split_by p s) as [|w0 ws0] eqn:Es; [by apply split_by_ne in Es|].
    specialize (IH _ _ eq_refl). destruct (p c); inversion Hs; subst.
    + pose proof (labels_cost_filter_cons w0 ws0). cbn [as_bytes fmap list_fmap concat length]. lia.
    + rewrite as_bytes_cons. lia.
Qed.

Lemma labels_cost_name nm : (labels_cost (labels nm) <= S (length (as_bytes nm)))%nat.
Proof.
  unfold labels, split_char. set (s := trim_end_matches c_dot nm).
  assert (length (as_bytes s) <= length (as_bytes nm))%nat.
  { destruct (trim_end_by_prefix (Z.eqb c_dot) nm) as (t & Ht & _).
    rewrite Ht at 1. rewrite as_bytes_app, length_app. subst s. unfold trim_end_matches. lia. }
  destruct (split_by (Z.eqb c_dot) s) as [|w ws] eqn:Es; [by apply split_by_ne in Es|].
  apply split_cost in Es. pose proof (labels_cost_filter_cons w ws). lia.
Qed.

(** A template of a pool is the query of the pair at its index. *)
Lemma pool_lookup entries pool local_idx :
  from_pairs entries = Done pool -> 0 <= local_idx ->
  exists nm qt, entries !! Z.to_nat (local_idx mod Z.of_nat (length entries)) = Some (nm, qt) /\
    templates pool !! Z.to_nat (local_idx mod Z.of_nat (length (templates pool))) =
    Some (build_query 0 nm qt) /\ length (templates pool) <> 0%nat.
Proof.
  unfold from_pairs. destruct entries as [|e es] eqn:Ee; [done|]. rewrite <- Ee in *.
  intros H Hi. assert (He : is_empty entries = false) by by rewrite Ee.
  rewrite He in H. inversion H; subst pool. cbn [templates]. rewrite length_fmap.
  assert (0 < Z.of_nat (length entries)) by (rewrite Ee; cbn; lia).
  pose proof (Z.mod_pos_bound local_idx (Z.of_nat (length entries))).
  destruct (lookup_lt_is_Some_2 entries (Z.to_nat (local_idx mod Z.of_nat (length entries))))
    as [[nm qt] Hl]; [lia|].
  exists nm, qt. rewrite list_lookup_fmap, Hl. split; [done|]. split; [done|lia].
Qed.

(** Patching the first two bytes of a query sets its id. *)
Lemma patch_id id nm qt rest :
  in_u 16 id ->
  <[1%nat := as_u 8 id]> (<[0%nat := as_u 8 (Z.shiftr id 8)]> (build_query 0 nm qt ++ rest)) =
  build_query id nm qt ++ rest.
Proof.
  intros Hid. unfold in_u in Hid. rewrite !build_query_layout. cbn [app insert list_insert].
  rewrite Z.shiftr_div_pow2 by lia. change (2 ^ 8) with 256.
  rewrite as_u_small by (unfold in_u; change (2 ^ 8) with 256; change (2 ^ 16) with 65536 in *;
    Z.to_euclidean_division_equations; lia).
  done.
Qed.

(** The effect of [write_with_index] on a pool of pairs. *)
Lemma write_with_index_pool entries pool local_idx id buf :
  from_pairs entries = Done pool -> 0 <= local_idx -> in_u 16 id ->
  exists nm qt, entries !! Z.to_nat (local_idx mod Z.of_nat (length entries)) = Some (nm, qt) /\
    write_with_index pool local_idx id buf =
    let q := build_query id nm qt in
    if (length buf <? length q)%nat then Panic
    else Done (q ++ drop (length q) buf, Z.of_nat (length q)).
Proof.
  intros Hp Hi Hid. destruct (pool_lookup _ _ _ Hp Hi) as (nm & qt & He & Ht & Hn).
  exists nm, qt. split; [done|]. unfold write_with_index.
  replace (_ =? 0) with false by (symmetry; bool_to_prop; lia). rewrite Ht.
  rewrite !build_query_length. cbn zeta. case_if; [done|].
  rewrite length_app, build_query_length. replace (_ <? 2)%nat with false by (symmetry; apply Nat.ltb_ge; lia).
  by rewrite patch_id.
Qed.

(** On a buffer of at least [MAX_QUERY] bytes, with names of at most 494 bytes,
    the call returns; the buffer holds the query at its start and what it held
    before after it. *)
Lemma write_with_index_long entries pool local_idx id buf :
  from_pairs entries = Done pool -> 0 <= local_idx -> in_u 16 id ->
  MAX_QUERY <= Z.of_nat (length buf) ->
  Forall (fun e => Z.of_nat (length (as_bytes e.1)) <= 494) entries ->
  exists nm qt, (nm, qt) ∈ entries /\
    17 <= Z.of_nat (length (build_query id nm qt)) <= MAX_QUERY /\
    write_with_index pool local_idx id buf =
    Done (build_query id nm qt ++ drop (length (build_query id nm qt)) buf,
          Z.of_nat (length (build_query id nm qt))).
Proof.
  intros Hp Hi Hid Hb Hall. unfold MAX_QUERY in *.
  destruct (write_with_index_pool _ _ _ _ buf Hp Hi Hid) as (nm & qt & He & Hw).
  cbn zeta in Hw. pose proof (build_query_length id nm qt) as Hlen.
  rewrite Forall_lookup in Hall. specialize (Hall _ _ He). cbn [fst] in Hall.
  pose proof (labels_cost_name nm). exists nm, qt.
  split; [by eapply list_elem_of_lookup_2|]. split; [lia|]. rewrite Hw.
  by replace (_ <? _)%nat with false by (symmetry; apply Nat.ltb_ge; lia).
Qed.

(** The same for the [MAX_QUERY]-byte buffers of the UDP workers. *)
Lemma write_with_index_total entries pool local_idx id buf :
  from_pairs entries = Done pool -> 0 <= local_idx -> in_u 16 id ->
  Z.of_nat (length buf) = MAX_QUERY ->
  Forall (fun e => Z.of_nat (length (as_bytes e.1)) <= 494) entries ->
  exists buf' n nm qt, write_with_index pool local_idx id buf = Done (buf', n) /\
    17 <= n <= MAX_QUERY /\ length buf' = length buf /\
    (nm, qt) ∈ entries /\ take (Z.to_nat n) buf' = build_query id nm qt.
Proof.
  intros Hp Hi Hid Hb Hall.
  destruct (write_with_index_long _ _ _ _ buf Hp Hi Hid) as (nm & qt & Hin & Hn & Hw); [lia|done|].
  eexists _, _, nm, qt. split; [exact Hw|]. split; [done|]. rewrite length_app, length_drop.
  split; [lia|]. split; [done|]. rewrite Nat2Z.id. by rewrite take_app_length.
Qed.

(** ** Runs of [next] *)

(** [k] successive calls on one source, from any number of threads: the cursor
    is one atomic, so the calls are ordered by their [fetch_add]. *)
Fixpoint run_next {S} `{QuerySource S} (k : nat) (s : S) (r : rng)
  : outcome (list QueryEntry * S * rng) :=
  match k with
  | O => Done ([], s, r)
  | Datatypes.S k' =>
      '(e, s, r) ← next s r;
      '(es, s, r) ← run_next k' s r;
      Done (e :: es, s, r)
  end.

Lemma run_next_file k es i r :
  es <> [] -> 0 <= i -> i + Z.of_nat k < 2 ^ 64 ->
  run_next k (mkFile es i) r =
  Done ((fun j => es !!! Z.to_nat ((i + Z.of_nat j) mod Z.of_nat (length es))) <$> seq 0 k,
        mkFile es (i + Z.of_nat k), r).
Proof.
  intros Hne. revert i. induction k as [|k IH]; intros i Hi Hk.
  - cbn. by rewrite Z.add_0_r.
  - cbn [run_next next FileQuerySource_source f_entries f_index].
    rewrite indexed_next_spec by (lia || done). cbn [mbind outcome_bind].
    rewrite wadd_small by lia. rewrite IH by lia. cbn [mbind outcome_bind].
    replace (i + 1 + Z.of_nat k) with (i + Z.of_nat (S k)) by lia.
    cbn [seq]. rewrite fmap_cons, Z.add_0_r, <- fmap_S_seq, <- list_fmap_compose.
    do 4 f_equal. apply list_fmap_ext. intros _ j _. cbn. do 3 f_equal. lia.
Qed.

(** One round from cursor [i] is the entries, rotated. *)
Lemma round_rotation (es : list QueryEntry) i :
  es <> [] -> 0 <= i ->
  (fun j => es !!! Z.to_nat ((i + Z.of_nat j) mod Z.of_nat (length es))) <$> seq 0 (length es) =
  rotate (Z.to_nat (i mod Z.of_nat (length es))) es.
Proof.
  intros Hne Hi. set (n := length es).
  assert (Hn : 0 < Z.of_nat n) by (subst n; destruct es; cbn; [done|lia]).
  pose proof (Z.mod_pos_bound i (Z.of_nat n) Hn) as Hm.
  apply list_eq. intros j. rewrite list_lookup_fmap.
  destruct (decide (j < n)%nat) as [Hj|Hj].
  - rewrite lookup_seq_lt by lia. cbn.
    rewrite lookup_rotate_r by (subst n; lia).
    rewrite list_lookup_lookup_total_lt.
    2:{ apply rotate_nat_add_lt. subst n. lia. }
    do 2 f_equal. unfold rotate_nat_add. fold n. rewrite Z2Nat.id by lia.
    by rewrite <- (Zplus_mod_idemp_l i).
  - rewrite lookup_ge_None_2 by (rewrite length_seq; lia).
    rewrite lookup_ge_None_2; [done|]. rewrite length_rotate. subst n. lia.
Qed.

(** ** Theorems *)

(** C11. The zero-allocation path is equivalent to the allocating one: for a pool
    built from (name, type) pairs, a cursor, an id and any buffer that is long
    enough, [write_with_index] leaves in the buffer exactly the bytes of
    [build_query] for the pair at the cursor modulo the number of pairs, followed
    by what the buffer held before, and returns their number; when the buffer is
    too short it panics. *)
Theorem write_with_index_is_build_query entries pool local_idx id buf :
  from_pairs entries = Done pool -> 0 <= local_idx -> in_u 16 id ->
  exists nm qt,
    entries !! Z.to_nat (local_idx mod Z.of_nat (length entries)) = Some (nm, qt) /\
    write_with_index pool local_idx id buf =
    if (length buf <? length (build_query id nm qt))%nat then Panic
    else Done (build_query id nm qt ++ drop (length (build_query id nm qt)) buf,
               Z.of_nat (length (build_query id nm qt))).
Proof. apply write_with_index_pool. Qed.

Definition ex_pairs : list (str * Z) := [(lit "a.com", 1); (lit "b.example", 28)].

Lemma write_with_index_is_build_query_witness :
  exists pool, from_pairs ex_pairs = Done pool /\
  write_with_index pool 7 0xBEEF (replicate 512 0) =
  Done (build_query 0xBEEF (lit "b.example") 28 ++ replicate 485 0, 27).
Proof.
  eexists. split; [reflexivity|].
  edestruct (write_with_index_is_build_query ex_pairs _ 7 0xBEEF (replicate 512 0) eq_refl)
    as (nm & qt & He & Hw); [lia|unfold in_u; lia|].
  rewrite Hw. vm_compute in He. inversion He. vm_compute. reflexivity.
Defined.

(** With the [MAX_QUERY]-byte buffers every caller uses, a query for a name
    of at most 494 UTF-8 bytes always fits, so [write_with_index] does not panic;
    one byte more and a one-label name does not fit, and the release build (whose
    only check is a [debug_assert!]) panics. *)
Theorem write_with_index_fits pool local_idx id buf entries :
  from_pairs entries = Done pool -> 0 <= local_idx -> in_u 16 id ->
  Z.of_nat (length buf) = MAX_QUERY ->
  (Forall (fun e => Z.of_nat (length (as_bytes e.1)) <= 494) entries ->
   exists buf' n, write_with_index pool local_idx id buf = Done (buf', n) /\
                  17 <= n <= MAX_QUERY /\ length buf' = length buf) /\
  (forall nm qt, entries = [(nm, qt)] -> labels nm = [nm] ->
   Z.of_nat (length (as_bytes nm)) = 495 ->
   write_with_index pool local_idx id buf = Panic).
Proof.
  intros Hp Hi Hid Hb. unfold MAX_QUERY in *.
  destruct (write_with_index_pool _ _ _ _ buf Hp Hi Hid) as (nm & qt & He & Hw).
  cbn zeta in Hw. pose proof (build_query_length id nm qt) as Hlen. split.
  - intros Hall. destruct (write_with_index_total _ _ _ _ buf Hp Hi Hid Hb Hall)
      as (buf' & n & _ & _ & ? & ? & ? & _). by exists buf', n.
  - intros nm' qt' -> Hl Hn. apply list_lookup_singleton_Some in He as [_ He].
    inversion He; subst nm' qt'. rewrite Hw.
    rewrite Hl in Hlen. unfold labels_cost in Hlen. cbn [sum_list_with] in Hlen.
    by replace (_ <? _)%nat with true by (symmetry; apply Nat.ltb_lt; lia).
Qed.

Lemma write_with_index_fits_witness :
  (exists buf' n, write_with_index (mkPool [build_wire_template (replicate 494 97) 1]) 3 9
                    (replicate 512 0) = Done (buf', n)) /\
  write_with_index (mkPool [build_wire_template (replicate 495 97) 1]) 3 9 (replicate 512 0) = Panic.
Proof.
  split.
  - destruct (write_with_index_fits (mkPool [build_wire_template (replicate 494 97) 1]) 3 9
      (replicate 512 0) [(replicate 494 97, 1)] eq_refl ltac:(lia) ltac:(unfold in_u; lia) eq_refl)
      as [H _].
    destruct H as (b & n & H & _); [|by exists b, n].
    constructor; [vm_compute; discriminate|constructor].
  - refine (proj2 (write_with_index_fits (mkPool [build_wire_template (replicate 495 97) 1]) 3 9
      (replicate 512 0) [(replicate 495 97, 1)] eq_refl ltac:(lia) ltac:(unfold in_u; lia) eq_refl)
      _ _ eq_refl _ _); vm_compute; reflexivity.
Defined.

(** The round robin of a file source is fair: from any cursor that does not
    wrap, the calls of one round return every entry of the file exactly once, in
    file order from the cursor on, and leave the cursor one round further. *)
Theorem file_source_round_robin es i r :
  es <> [] -> 0 <= i -> i + Z.of_nat (length es) < 2 ^ 64 ->
  exists out, run_next (length es) (mkFile es i) r =
              Done (out, mkFile es (i + Z.of_nat (length es)), r) /\
    out = rotate (Z.to_nat (i mod Z.of_nat (length es))) es /\ Permutation out es.
Proof.
  intros Hne Hi Hk. eexists. split; [by apply run_next_file|].
  rewrite round_rotation by done. split; [done|].
  unfold rotate. rewrite Permutation_app_comm. by rewrite take_drop.
Qed.

Lemma file_source_round_robin_witness :
  let es := entries_of (lit "a.com A" ++ [10] ++ lit "# comment" ++ [13; 10] ++ lit "b.com  MX" ++ [10]) in
  exists out, run_next 2 (mkFile es 5) (fun _ => 0) = Done (out, mkFile es 7, fun _ => 0) /\
  out = [mkEntry (lit "b.com") 15; mkEntry (lit "a.com") 1].
Proof.
  intros es.
  destruct (file_source_round_robin es 5 (fun _ => 0)) as (out & H & Ho & _);
    [by vm_compute|lia|vm_compute; reflexivity|].
  exists out. split; [exact H|]. rewrite Ho. vm_compute. reflexivity.
Defined.

(** A pool can be built from every source that keeps its promise
    ([QuerySourceLaws]), and each query it writes is [build_query] of one of the
    source's pairs. *)
Theorem pool_of_source {S} `{QuerySourceLaws S} (s : S) (r : rng) :
  source_ok s ->
  exists pool, from_pairs (all_wire_pairs s r).1 = Done pool /\
    forall local_idx id buf buf' n, 0 <= local_idx -> in_u 16 id ->
      write_with_index pool local_idx id buf = Done (buf', n) ->
      exists nm qt, (nm, qt) ∈ (all_wire_pairs s r).1 /\
                    take (Z.to_nat n) buf' = build_query id nm qt.
Proof.
  intros Hs. pose proof (pairs_nonempty s r Hs) as Hne.
  set (ps := (all_wire_pairs s r).1) in *.
  assert (exists pool, from_pairs ps = Done pool) as [pool Hp].
  { unfold from_pairs. destruct ps; [done|]. by eexists. }
  exists pool. split; [done|]. intros i id buf buf' n Hi Hid Hw.
  destruct (write_with_index_pool _ _ _ _ buf Hp Hi Hid) as (nm & qt & He & Hw').
  rewrite Hw in Hw'. cbn zeta in Hw'. case_if_in Hw'; [done|]. inversion Hw'; subst.
  exists nm, qt. split; [by eapply list_elem_of_lookup_2|].
  rewrite Nat2Z.id. by rewrite take_app_length.
Qed.

Lemma pool_of_source_witness :
  exists pool, from_pairs (all_wire_pairs (random_new (lit "bench.test.") 1) (fun n => Z.of_nat n)).1
               = Done pool.
Proof.
  destruct (pool_of_source (random_new (lit "bench.test.") 1) (fun n => Z.of_nat n))
    as (p & H & _); [exact I|].
  exists p. exact H.
Defined.

(** A file that loads gives a source that keeps the promise; otherwise [load]
    reports the error. *)
Lemma load_ok content :
  match load content with
  | Ok s => source_ok s /\ exists c, content = Some c /\ f_entries s = entries_of c
  | Err ReadFailed => content = None
  | Err NoValidEntries => exists c, content = Some c /\ entries_of c = []
  end.
Proof.
  unfold load. destruct content as [c|]; [|done].
  destruct (entries_of c) eqn:E; cbn; [by exists c|].
  split; [|by exists c; rewrite E]. split; [done|unfold in_u; lia].
Qed.
