(* ===== verification/Stats.v ===== *)
(** * The statistics collector

    Models [src/stats/mod.rs] ([StatsCollector]) and [src/stats/snapshot.rs].

    The latency histogram is a third-party crate: [HdrHistogram] is its interface
    (the operations the collector calls and the laws its documentation states),
    and the collector is proved against it.  [exact_hist] is an implementation, for
    the witnesses.

    Each operation is given as the state change of a call that runs alone, and as
    the list of atomic actions it is made of ([actions_of]); the two agree.  The
    theorems: under every interleaving of the calls of any number of threads each
    counter ends with the sum of its increments, so that the completions are the
    sum of the response codes; the maximum kept by the compare-and-swap loop is the
    maximum; a ramp step's latency window holds the samples since the last call;
    the snapshot's loss and rates, on every branch. *)

From Stdlib Require Import ZArith Lia Bool SpecFloat.
From stdpp Require Import base numbers option relations sorting list.
From S2P Require Import Prelude Float64.

Open Scope Z_scope.

(** ** The histogram's interface *)

Class HdrHistogram (H : Type) := {
  h_new : H;                        (* new_with_bounds(1, 60_000_000, 3) *)
  h_record : Z -> H -> H;           (* the error of a value out of range is dropped *)
  h_clear : H -> H;
  h_len : H -> Z;
  h_is_empty : H -> bool;
  h_value_at_quantile : f64 -> H -> Z;
  h_min : H -> Z;
  h_max : H -> Z;
  h_mean : H -> f64
}.

(** The largest value the collector's histogram is made for. *)
Definition HIST_HIGH : Z := 60000000.

Class HdrHistogramLaws (H : Type) `{HdrHistogram H} := {
  h_len_new : h_len h_new = 0;
  h_len_clear h : h_len (h_clear h) = 0;
  h_len_record v h : 1 <= v <= HIST_HIGH -> h_len (h_record v h) = h_len h + 1;
  h_is_empty_len h : h_is_empty h = (h_len h =? 0)
}.

(** ** State *)

Record StatsCollector (H : Type) : Type := mkStats {
  sent : Z;
  completed : Z;
  timeouts : Z;
  errors : Z;
  rcode_noerror : Z;
  rcode_nxdomain : Z;
  rcode_servfail : Z;
  rcode_refused : Z;
  rcode_other : Z;
  histogram : H;
  inflight_sum : Z;
  inflight_count : Z;
  inflight_max : Z;
  last_egress_ns : Z;
  window_start_ns : Z
}.
Arguments mkStats {H} _ _ _ _ _ _ _ _ _ _ _ _ _ _ _.
Arguments sent {H} _.
Arguments completed {H} _.
Arguments timeouts {H} _.
Arguments errors {H} _.
Arguments rcode_noerror {H} _.
Arguments rcode_nxdomain {H} _.
Arguments rcode_servfail {H} _.
Arguments rcode_refused {H} _.
Arguments rcode_other {H} _.
Arguments histogram {H} _.
Arguments inflight_sum {H} _.
Arguments inflight_count {H} _.
Arguments inflight_max {H} _.
Arguments last_egress_ns {H} _.
Arguments window_start_ns {H} _.

(** The counters that are only added to. *)
Inductive counter : Set :=
| Sent | Completed | Timeouts | Errors
| Noerror | Nxdomain | Servfail | Refused | Other
| InflightSum | InflightCount.

Global Instance counter_eq_dec : EqDecision counter.
Proof. solve_decision. Defined.

Definition get {H} (c : counter) (s : StatsCollector H) : Z :=
  match c with
  | Sent => sent s | Completed => completed s | Timeouts => timeouts s | Errors => errors s
  | Noerror => rcode_noerror s | Nxdomain => rcode_nxdomain s | Servfail => rcode_servfail s
  | Refused => rcode_refused s | Other => rcode_other s
  | InflightSum => inflight_sum s | InflightCount => inflight_count s
  end.

(** [fetch_add(n)]: wraps at 64 bits. *)
Definition fetch_add {H} (c : counter) (n : Z) (s : StatsCollector H) : StatsCollector H :=
  let f k v := if decide (c = k) then wadd 64 v n else v in
  mkStats (f Sent (sent s)) (f Completed (completed s)) (f Timeouts (timeouts s))
    (f Errors (errors s)) (f Noerror (rcode_noerror s)) (f Nxdomain (rcode_nxdomain s))
    (f Servfail (rcode_servfail s)) (f Refused (rcode_refused s)) (f Other (rcode_other s))
    (histogram s) (f InflightSum (inflight_sum s)) (f InflightCount (inflight_count s))
    (inflight_max s) (last_egress_ns s) (window_start_ns s).

Definition set_hist {H} (h : H) (s : StatsCollector H) : StatsCollector H :=
  mkStats (sent s) (completed s) (timeouts s) (errors s) (rcode_noerror s) (rcode_nxdomain s)
    (rcode_servfail s) (rcode_refused s) (rcode_other s) h (inflight_sum s) (inflight_count s)
    (inflight_max s) (last_egress_ns s) (window_start_ns s).

Definition set_inflight_max {H} (m : Z) (s : StatsCollector H) : StatsCollector H :=
  mkStats (sent s) (completed s) (timeouts s) (errors s) (rcode_noerror s) (rcode_nxdomain s)
    (rcode_servfail s) (rcode_refused s) (rcode_other s) (histogram s) (inflight_sum s)
    (inflight_count s) m (last_egress_ns s) (window_start_ns s).

Definition set_last_egress {H} (t : Z) (s : StatsCollector H) : StatsCollector H :=
  mkStats (sent s) (completed s) (timeouts s) (errors s) (rcode_noerror s) (rcode_nxdomain s)
    (rcode_servfail s) (rcode_refused s) (rcode_other s) (histogram s) (inflight_sum s)
    (inflight_count s) (inflight_max s) t (window_start_ns s).

(** ** Operations

    [elapsed_ns] is what [self.start.elapsed()] reads at the call. *)

(** The counter of a response code. *)
Definition rcode_counter (rcode : Z) : counter :=
  if rcode =? 0 then Noerror
  else if rcode =? 3 then Nxdomain
  else if rcode =? 2 then Servfail
  else if rcode =? 5 then Refused
  else Other.

Section Ops.
Context {H : Type} `{HdrHistogram H}.
Implicit Types s : StatsCollector H.

Definition stats_new : StatsCollector H := mkStats 0 0 0 0 0 0 0 0 0 h_new 0 0 0 0 0.

Definition inc_sent s : StatsCollector H := fetch_add Sent 1 s.

Definition inc_sent_n (n elapsed_ns : Z) s : StatsCollector H :=
  set_last_egress elapsed_ns (fetch_add Sent n s).

Definition reset_window (elapsed_ns : Z) s : StatsCollector H :=
  mkStats 0 0 0 0 0 0 0 0 0 (h_clear (histogram s)) 0 0 0 (last_egress_ns s) elapsed_ns.

Definition inc_timeout s : StatsCollector H := fetch_add Timeouts 1 s.

(** [if x > 0 { self.c.fetch_add(x) }] *)
Definition add_if_pos (c : counter) (n : Z) s : StatsCollector H :=
  if n >? 0 then fetch_add c n s else s.

Definition record_rcodes (noerror nxdomain servfail refused other : Z) s : StatsCollector H :=
  let total := wadd 64 (wadd 64 (wadd 64 (wadd 64 noerror nxdomain) servfail) refused) other in
  if total =? 0 then s
  else
    add_if_pos Other other (add_if_pos Refused refused (add_if_pos Servfail servfail
      (add_if_pos Nxdomain nxdomain (add_if_pos Noerror noerror (fetch_add Completed total s))))).

Definition inc_error s : StatsCollector H := fetch_add Errors 1 s.

(** The compare-and-swap loop of [record_inflight], when no other thread
    writes: one exchange, or none. *)
Definition record_inflight (current : Z) s : StatsCollector H :=
  let v := as_u 64 current in
  let s := fetch_add InflightSum v s in
  let s := fetch_add InflightCount 1 s in
  if v >? inflight_max s then set_inflight_max v s else s.

Definition record_response (rcode rtt_us : Z) s : StatsCollector H :=
  let s := fetch_add Completed 1 s in
  let s := fetch_add (rcode_counter rcode) 1 s in
  set_hist (h_record (Z.max rtt_us 1) (histogram s)) s.

Definition record_latency_us (rtt_us : Z) s : StatsCollector H :=
  set_hist (h_record (Z.max rtt_us 1) (histogram s)) s.

Definition ramp_step_latency s : (Z * Z * Z * Z) * StatsCollector H :=
  let h := histogram s in
  let out := if h_is_empty h then (0, 0, 0, 0)
             else (h_value_at_quantile (f64_lit 50 100) h, h_value_at_quantile (f64_lit 95 100) h,
                   h_value_at_quantile (f64_lit 99 100) h, h_len h) in
  (out, set_hist (h_clear h) s).

(** ** The snapshot *)

Record StatsSnapshot : Type := mkSnapshot {
  queries_sent : Z;
  queries_completed : Z;
  queries_lost : Z;
  s_rcode_noerror : Z;
  s_rcode_nxdomain : Z;
  s_rcode_servfail : Z;
  s_rcode_refused : Z;
  s_rcode_other : Z;
  run_time_s : f64;
  send_qps : f64;
  avg_qps : f64;
  min_us : Z;
  avg_us : f64;
  p50_us : Z;
  p95_us : Z;
  p99_us : Z;
  p999_us : Z;
  max_us : Z;
  inflight_mean : f64;
  s_inflight_max : Z;
  wire_qps : option f64;
  server_rx_qps : option f64;
  server_rx_avg_bytes : option f64;
  link_mbps : option Z;
  ramp_capacity : option f64
}.

(** The rate of egress: the window since [reset_window] up to the last
    confirmed transmission, or the run time. *)
Definition send_qps_of (elapsed_secs : f64) s : f64 :=
  let last_ns := last_egress_ns s in
  let win0 := window_start_ns s in
  if last_ns >? win0 then
    let egress_secs := f64_div (f64_of_Z (last_ns - win0)) (f64_lit 1000000000 1) in
    if f64_gtb egress_secs (f64_lit 1 10) then f64_div (f64_of_Z (sent s)) egress_secs
    else f64_div (f64_of_Z (sent s)) elapsed_secs
  else if f64_gtb elapsed_secs f64_zero then f64_div (f64_of_Z (sent s)) elapsed_secs
  else f64_zero.

Definition snapshot (elapsed_secs : f64) s : StatsSnapshot :=
  let h := histogram s in
  let e := h_is_empty h in
  {| queries_sent := sent s;
     queries_completed := completed s;
     queries_lost := sat_sub (sent s) (completed s);
     s_rcode_noerror := rcode_noerror s;
     s_rcode_nxdomain := rcode_nxdomain s;
     s_rcode_servfail := rcode_servfail s;
     s_rcode_refused := rcode_refused s;
     s_rcode_other := rcode_other s;
     run_time_s := elapsed_secs;
     send_qps := send_qps_of elapsed_secs s;
     avg_qps := if f64_gtb elapsed_secs f64_zero then f64_div (f64_of_Z (completed s)) elapsed_secs
                else f64_zero;
     min_us := if e then 0 else h_min h;
     avg_us := if e then f64_zero else h_mean h;
     p50_us := if e then 0 else h_value_at_quantile (f64_lit 50 100) h;
     p95_us := if e then 0 else h_value_at_quantile (f64_lit 95 100) h;
     p99_us := if e then 0 else h_value_at_quantile (f64_lit 99 100) h;
     p999_us := if e then 0 else h_value_at_quantile (f64_lit 999 1000) h;
     max_us := if e then 0 else h_max h;
     inflight_mean := if inflight_count s >? 0
                      then f64_div (f64_of_Z (inflight_sum s)) (f64_of_Z (inflight_count s))
                      else f64_zero;
     s_inflight_max := inflight_max s;
     wire_qps := None;
     server_rx_qps := None;
     server_rx_avg_bytes := None;
     link_mbps := None;
     ramp_capacity := None |}.

End Ops.

(** ** Atomic actions and calls *)

(** The last action of [record_inflight] is its compare-and-swap loop, which raises
    the maximum; the loop's own interleavings are those of [cas_step] below. *)
Inductive action : Set :=
| AddTo (c : counter) (n : Z)
| StoreEgress (t : Z)
| RecordHist (v : Z)
| RaiseMax (v : Z).

(** The calls that workers make while the benchmark runs. *)
Inductive call : Set :=
| CallSent
| CallSentN (n elapsed_ns : Z)
| CallTimeout
| CallError
| CallRcodes (noerror nxdomain servfail refused other : Z)
| CallResponse (rcode rtt_us : Z)
| CallLatency (rtt_us : Z)
| CallInflight (current : Z).

Definition add_actions (c : counter) (n : Z) : list action := if n >? 0 then [AddTo c n] else [].

Definition actions_of (k : call) : list action :=
  match k with
  | CallSent => [AddTo Sent 1]
  | CallSentN n t => [AddTo Sent n; StoreEgress t]
  | CallTimeout => [AddTo Timeouts 1]
  | CallError => [AddTo Errors 1]
  | CallRcodes a b c d e =>
      let total := wadd 64 (wadd 64 (wadd 64 (wadd 64 a b) c) d) e in
      if total =? 0 then []
      else AddTo Completed total :: add_actions Noerror a ++ add_actions Nxdomain b ++
           add_actions Servfail c ++ add_actions Refused d ++ add_actions Other e
  | CallResponse rcode rtt => [AddTo Completed 1; AddTo (rcode_counter rcode) 1; RecordHist (Z.max rtt 1)]
  | CallLatency rtt => [RecordHist (Z.max rtt 1)]
  | CallInflight current => [AddTo InflightSum (as_u 64 current); AddTo InflightCount 1; RaiseMax (as_u 64 current)]
  end.

Section Traces.
Context {H : Type} `{HdrHistogram H}.
Implicit Types s : StatsCollector H.

Definition exec_action (s : StatsCollector H) (a : action) : StatsCollector H :=
  match a with
  | AddTo c n => fetch_add c n s
  | StoreEgress t => set_last_egress t s
  | RecordHist v => set_hist (h_record v (histogram s)) s
  | RaiseMax v => if v >? inflight_max s then set_inflight_max v s else s
  end.

Definition exec_call (s : StatsCollector H) (k : call) : StatsCollector H :=
  match k with
  | CallSent => inc_sent s
  | CallSentN n t => inc_sent_n n t s
  | CallTimeout => inc_timeout s
  | CallError => inc_error s
  | CallRcodes a b c d e => record_rcodes a b c d e s
  | CallResponse rcode rtt => record_response rcode rtt s
  | CallLatency rtt => record_latency_us rtt s
  | CallInflight current => record_inflight current s
  end.

Lemma add_actions_exec c n s :
  fold_left exec_action (add_actions c n) s = add_if_pos c n s.
Proof. unfold add_actions, add_if_pos. by case_if. Qed.

(** A call that runs alone does its actions in order. *)
Lemma actions_of_exec k s : fold_left exec_action (actions_of k) s = exec_call s k.
Proof.
  destruct k; try done. cbn [actions_of exec_call]. unfold record_rcodes.
  case_if; [done|]. cbn [fold_left]. by rewrite !fold_left_app, !add_actions_exec.
Qed.

Definition delta (c : counter) (a : action) : Z :=
  match a with
  | AddTo c' n => if decide (c' = c) then n else 0
  | _ => 0
  end.

Definition counters_in_range s : Prop := forall c, in_u 64 (get c s).

Lemma get_fetch_add c c' n s :
  get c (fetch_add c' n s) = if decide (c' = c) then wadd 64 (get c s) n else get c s.
Proof. by destruct c; cbn; case_decide. Qed.

Lemma exec_action_get c a s :
  counters_in_range s -> get c (exec_action s a) = (get c s + delta c a) mod 2 ^ 64.
Proof.
  intros Hr. destruct a; cbn [exec_action delta].
  - rewrite get_fetch_add. case_decide; [done|].
    rewrite Z.add_0_r, Z.mod_small; [done|apply Hr].
  - rewrite Z.add_0_r, Z.mod_small; [by destruct c|apply (Hr c)].
  - rewrite Z.add_0_r, Z.mod_small; [by destruct c|apply (Hr c)].
  - rewrite Z.add_0_r, Z.mod_small; [case_if; by destruct c|apply (Hr c)].
Qed.

(** The depths that actions and calls record. *)
Definition raised (a : action) : option Z := match a with RaiseMax v => Some v | _ => None end.
Definition depth_of (k : call) : option Z := match k with CallInflight n => Some (as_u 64 n) | _ => None end.

Lemma exec_action_max a s : inflight_max (exec_action s a) = foldr Z.max (inflight_max s) (option_list (raised a)).
Proof.
  destruct a; try done. cbn [exec_action raised option_list foldr]. rewrite Z.gtb_ltb.
  destruct (_ <? v) eqn:E; bool_to_prop; cbn; lia.
Qed.

Lemma foldr_max_out m v l : foldr Z.max (Z.max v m) l = Z.max v (foldr Z.max m l).
Proof. induction l as [|x l IH]; cbn; [done|]. rewrite IH. lia. Qed.

Lemma exec_trace_max tr s : inflight_max (fold_left exec_action tr s) = foldr Z.max (inflight_max s) (omap raised tr).
Proof.
  revert s. induction tr as [|a tr IH]; intros s; [done|]. cbn [fold_left omap list_omap]. rewrite IH, exec_action_max.
  destruct (raised a) as [v|]; cbn [option_list foldr]; [apply foldr_max_out|done].
Qed.

Lemma call_raises k : omap raised (actions_of k) = option_list (depth_of k).
Proof.
  assert (Ha : forall c n, omap raised (add_actions c n) = []) by (intros c n; unfold add_actions; by case_if).
  destruct k; try done. cbn [actions_of]. cbn zeta. case_if; [done|]. cbn [omap list_omap raised].
  by rewrite !omap_app, !Ha.
Qed.

Lemma exec_action_range a s : counters_in_range s -> counters_in_range (exec_action s a).
Proof. intros Hr c. rewrite exec_action_get by done. apply Z.mod_pos_bound. lia. Qed.

Lemma exec_trace_get c tr s :
  counters_in_range s ->
  get c (fold_left exec_action tr s) = (get c s + zsum (delta c) tr) mod 2 ^ 64.
Proof.
  revert s. induction tr as [|a tr IH]; intros s Hr; cbn.
  - rewrite Z.add_0_r, Z.mod_small; [done|apply Hr].
  - rewrite IH by by apply exec_action_range. rewrite exec_action_get by done.
    rewrite Zplus_mod_idemp_l. f_equal. fold (zsum (delta c) tr). lia.
Qed.

(** What a call adds to a counter. *)
Definition call_delta (c : counter) (k : call) : Z := zsum (delta c) (actions_of k).

Definition rcodes_delta (k : call) : Z :=
  call_delta Noerror k + call_delta Nxdomain k + call_delta Servfail k + call_delta Refused k +
  call_delta Other k.

(** The arguments of the batched call are 64-bit unsigned. *)
Definition call_ok (k : call) : Prop :=
  match k with
  | CallRcodes a b c d e => in_u 64 a /\ in_u 64 b /\ in_u 64 c /\ in_u 64 d /\ in_u 64 e
  | _ => True
  end.

Lemma zsum_add_actions c c' n : 0 <= n ->
  zsum (delta c) (add_actions c' n) = if decide (c' = c) then n else 0.
Proof.
  intros. unfold add_actions. destruct (n >? 0) eqn:E; bool_to_prop; cbn; case_decide; lia.
Qed.

(** Each call adds to the response codes what it adds to the completions. *)
Lemma call_balanced k : call_ok k -> rcodes_delta k mod 2 ^ 64 = call_delta Completed k mod 2 ^ 64.
Proof.
  unfold rcodes_delta, call_delta. destruct k; cbn [actions_of call_ok]; intros Hk; try done.
  - destruct_ands. unfold in_u in *. case_if; [done|].
    rewrite !zsum_cons, !zsum_app, !zsum_add_actions by lia. cbn -[Z.pow Z.modulo].
    repeat first [rewrite decide_True by done | rewrite decide_False by done].
    rewrite !Z.add_0_r, !Z.add_0_l.
    rewrite (wadd_idemp 64 noerror), (wadd_idemp 64 _ servfail), (wadd_idemp 64 _ refused).
    unfold wadd. by rewrite Z.mod_mod by lia.
  - unfold rcode_counter. repeat case_if; reflexivity.
Qed.

Definition balanced s : Prop :=
  completed s = (rcode_noerror s + rcode_nxdomain s + rcode_servfail s + rcode_refused s +
                 rcode_other s) mod 2 ^ 64.

(** What the threads' calls add to a counter, in total. *)
Definition total_delta (c : counter) (threads : list (list call)) : Z :=
  zsum (zsum (call_delta c)) threads.

Definition thread_actions (t : list call) : list action := concat (actions_of <$> t).

Lemma thread_raises t : omap raised (thread_actions t) = omap depth_of t.
Proof.
  unfold thread_actions. induction t as [|k t IH]; [done|]. rewrite fmap_cons. cbn [concat omap list_omap].
  rewrite omap_app, IH, call_raises. by destruct (depth_of k).
Qed.

Lemma interleaved_max threads tr m : interleaving (thread_actions <$> threads) tr ->
  foldr Z.max m (omap raised tr) = foldr Z.max m (omap depth_of (concat threads)).
Proof.
  intros Hi. assert (Hp : omap raised tr ≡ₚ omap depth_of (concat threads)).
  { rewrite <- (interleaving_perm _ _ Hi). clear. induction threads as [|t ts IH]; [done|]. rewrite fmap_cons. cbn [concat].
    by rewrite !omap_app, thread_raises, IH. }
  apply (foldr_permutation (=) Z.max m); [|done]. intros j1 a1 j2 a2 b _ _ _. lia.
Qed.

Lemma interleaved_delta c threads tr :
  interleaving (thread_actions <$> threads) tr -> zsum (delta c) tr = total_delta c threads.
Proof.
  intros Hi. rewrite <- (zsum_perm _ _ _ (interleaving_perm _ _ Hi)).
  rewrite zsum_concat, zsum_fmap. unfold total_delta. apply zsum_ext. intros t _.
  unfold thread_actions. by rewrite zsum_concat, zsum_fmap.
Qed.

Lemma total_balanced threads :
  Forall (Forall call_ok) threads ->
  (total_delta Noerror threads + total_delta Nxdomain threads + total_delta Servfail threads +
   total_delta Refused threads + total_delta Other threads) mod 2 ^ 64 =
  total_delta Completed threads mod 2 ^ 64.
Proof.
  intros Hok. unfold total_delta. rewrite <- !zsum_concat.
  assert (Hc : Forall call_ok (concat threads)).
  { induction Hok; cbn; [constructor|]. by apply Forall_app. }
  induction Hc as [|k ks Hk Hks IH]; [done|].
  rewrite !zsum_cons. pose proof (call_balanced k Hk) as Hb. unfold rcodes_delta in Hb.
  rewrite (Z.add_mod (call_delta Completed k)), <- Hb, <- IH, <- Z.add_mod by lia. f_equal. lia.
Qed.

(** The same for a call that runs alone. *)
Lemma exec_call_get c k s :
  counters_in_range s -> get c (exec_call s k) = (get c s + call_delta c k) mod 2 ^ 64.
Proof. intros. rewrite <- actions_of_exec. by apply exec_trace_get. Qed.

Lemma exec_call_range k s : counters_in_range s -> counters_in_range (exec_call s k).
Proof. intros Hr c. rewrite exec_call_get by done. apply Z.mod_pos_bound. lia. Qed.

(** A step that adds to every counter, and as much to the response codes as to
    the completions, keeps them balanced. *)
Lemma balanced_step s s' (d : counter -> Z) :
  (forall c, get c s' = (get c s + d c) mod 2 ^ 64) ->
  (d Noerror + d Nxdomain + d Servfail + d Refused + d Other) mod 2 ^ 64 = d Completed mod 2 ^ 64 ->
  balanced s -> balanced s'.
Proof.
  unfold balanced. intros Hg Hd Hb.
  pose proof (Hg Completed) as E0. pose proof (Hg Noerror) as E1. pose proof (Hg Nxdomain) as E2.
  pose proof (Hg Servfail) as E3. pose proof (Hg Refused) as E4. pose proof (Hg Other) as E5.
  cbn [get] in *. rewrite E0, E1, E2, E3, E4, E5, Hb.
  rewrite Zplus_mod_idemp_l, sum5_mod by lia.
  rewrite (Zplus_mod _ (d Completed)), <- Hd, <- Zplus_mod. f_equal. lia.
Qed.

Lemma exec_call_balanced k s :
  counters_in_range s -> call_ok k -> balanced s -> balanced (exec_call s k).
Proof.
  intros Hr Hk. apply (balanced_step _ _ (fun c => call_delta c k)).
  - intros c. by apply exec_call_get.
  - exact (call_balanced k Hk).
Qed.

(** The batched call completes the sum of its arguments. *)
Lemma rcodes_completed a b c d e :
  call_ok (CallRcodes a b c d e) ->
  call_delta Completed (CallRcodes a b c d e) = (a + b + c + d + e) mod 2 ^ 64.
Proof.
  cbn [call_ok]. intros Hk. destruct_ands. unfold in_u in *. unfold call_delta. cbn [actions_of].
  rewrite (wadd_idemp 64 a), (wadd_idemp 64 _ c), (wadd_idemp 64 _ d).
  destruct (_ =? 0) eqn:E; bool_to_prop; [unfold wadd in E; by rewrite E|].
  rewrite !zsum_cons, !zsum_app, !zsum_add_actions by lia. cbn [delta].
  rewrite decide_True, !decide_False by done. unfold wadd. lia.
Qed.

(** The queries sent that are neither completed nor timed out (64-bit
    counters), and what a call adds to them. *)
Definition unresolved s : Z := (sent s - completed s - timeouts s) mod 2 ^ 64.

Definition unresolved_delta (k : call) : Z :=
  call_delta Sent k - call_delta Completed k - call_delta Timeouts k.

Lemma unresolved_call k s : counters_in_range s ->
  unresolved (exec_call s k) = (unresolved s + unresolved_delta k) mod 2 ^ 64.
Proof.
  intros Hr. unfold unresolved, unresolved_delta.
  change (sent (exec_call s k)) with (get Sent (exec_call s k)).
  change (completed (exec_call s k)) with (get Completed (exec_call s k)).
  change (timeouts (exec_call s k)) with (get Timeouts (exec_call s k)).
  rewrite !exec_call_get by done. cbn [get].
  apply diff3_mod. lia.
Qed.

Lemma unresolved_sent s : counters_in_range s ->
  unresolved (inc_sent s) = (unresolved s + 1) mod 2 ^ 64.
Proof. exact (unresolved_call CallSent s). Qed.

Lemma unresolved_timeout s : counters_in_range s ->
  unresolved (inc_timeout s) = (unresolved s - 1) mod 2 ^ 64.
Proof. exact (unresolved_call CallTimeout s). Qed.

Lemma unresolved_error s : counters_in_range s -> unresolved (inc_error s) = unresolved s.
Proof.
  intros Hr. change (inc_error s) with (exec_call s CallError). rewrite unresolved_call by done.
  change (unresolved_delta CallError) with 0. rewrite Z.add_0_r. apply Z.mod_small.
  apply Z.mod_pos_bound. lia.
Qed.

Lemma unresolved_response rcode rtt s : counters_in_range s ->
  unresolved (record_response rcode rtt s) = (unresolved s - 1) mod 2 ^ 64.
Proof.
  intros Hr. change (record_response rcode rtt s) with (exec_call s (CallResponse rcode rtt)).
  rewrite unresolved_call by done. f_equal. unfold unresolved_delta, call_delta, actions_of, rcode_counter.
  repeat case_if; reflexivity.
Qed.

Lemma unresolved_range s : in_u 64 (unresolved s).
Proof. apply Z.mod_pos_bound. lia. Qed.

(** [n] losses, counted one by one. *)
Fixpoint inc_timeouts (n : nat) (s : StatsCollector H) : StatsCollector H :=
  match n with O => s | S n' => inc_timeouts n' (inc_timeout s) end.

Lemma inc_timeouts_stats n st : counters_in_range st ->
  counters_in_range (inc_timeouts n st) /\
  unresolved (inc_timeouts n st) = (unresolved st - Z.of_nat n) mod 2 ^ 64.
Proof.
  revert st. induction n as [|n IH]; intros st Hr; cbn [inc_timeouts].
  - split; [done|]. rewrite Z.sub_0_r, Z.mod_small; [done|apply unresolved_range].
  - destruct (IH (inc_timeout st)) as [Hr1 Hu1]; [by apply (exec_call_range CallTimeout)|].
    split; [done|]. rewrite Hu1, unresolved_timeout, Zminus_mod_idemp_l by done. f_equal. lia.
Qed.

End Traces.

(** ** The compare-and-swap loop of [record_inflight]

    Each thread has a value to fold into the shared maximum.  It loads the cell,
    then while its value is larger it tries to exchange the value it saw;
    [compare_exchange_weak] can also fail when the cell still holds that value. *)

Inductive cas_pc : Set := CasLoad | CasLoop (old : Z) | CasDone.

Record cas_thread : Set := mkCas { cas_v : Z; pc : cas_pc }.

Inductive cas_step : Z * list cas_thread -> Z * list cas_thread -> Prop :=
| cas_load m ts i v :
    ts !! i = Some (mkCas v CasLoad) ->
    cas_step (m, ts) (m, <[i := mkCas v (CasLoop m)]> ts)
| cas_exit m ts i v old :
    ts !! i = Some (mkCas v (CasLoop old)) -> ~ v > old ->
    cas_step (m, ts) (m, <[i := mkCas v CasDone]> ts)
| cas_ok m ts i v :
    ts !! i = Some (mkCas v (CasLoop m)) -> v > m ->
    cas_step (m, ts) (v, <[i := mkCas v CasDone]> ts)
| cas_fail m ts i v old :
    ts !! i = Some (mkCas v (CasLoop old)) -> v > old ->
    cas_step (m, ts) (m, <[i := mkCas v (CasLoop m)]> ts).

Definition cas_start (vs : list Z) : list cas_thread := (fun v => mkCas v CasLoad) <$> vs.

(** What every reachable state satisfies, from the cell's first value. *)
Definition cas_inv (m0 : Z) (vs : list Z) (st : Z * list cas_thread) : Prop :=
  let '(m, ts) := st in
  cas_v <$> ts = vs /\ m0 <= m /\ (m = m0 \/ m ∈ vs) /\
  Forall (fun t => match pc t with
                   | CasLoad => True
                   | CasLoop old => old <= m
                   | CasDone => cas_v t <= m
                   end) ts.

Lemma cas_start_inv m0 vs : cas_inv m0 vs (m0, cas_start vs).
Proof.
  unfold cas_start. cbn. split; [|split; [lia|split; [by left|]]].
  - rewrite <- list_fmap_compose. apply list_fmap_id.
  - by apply Forall_fmap, Forall_true.
Qed.

Lemma cas_vals_insert (ts : list cas_thread) (i : nat) v p p' :
  ts !! i = Some (mkCas v p) -> cas_v <$> <[i := mkCas v p']> ts = cas_v <$> ts.
Proof.
  intros Hi. rewrite list_fmap_insert. apply list_insert_id.
  by rewrite list_lookup_fmap, Hi.
Qed.

Lemma cas_step_inv m0 vs st st' : cas_step st st' -> cas_inv m0 vs st -> cas_inv m0 vs st'.
Proof.
  destruct 1 as [m ts i v Hi|m ts i v old Hi Hv|m ts i v Hi Hv|m ts i v old Hi Hv];
    intros (Hvs & Hm & Hin & Hall); unfold cas_inv; rewrite (cas_vals_insert _ _ _ _ _ Hi);
    (split; [done|]); pose proof (proj1 (Forall_lookup _ _) Hall _ _ Hi) as Ht; cbn in Ht.
  - split; [lia|]. split; [done|]. apply Forall_insert; [done|cbn; lia].
  - split; [lia|]. split; [done|]. apply Forall_insert; [done|cbn; lia].
  - split; [lia|]. split.
    + right. rewrite <- Hvs. apply list_elem_of_fmap. exists (mkCas v (CasLoop m)).
      split; [done|]. by eapply list_elem_of_lookup_2.
    + apply Forall_insert; [|cbn; lia]. eapply Forall_impl; [exact Hall|].
      cbn beta. intros t. destruct (pc t); intros; lia || done.
  - split; [lia|]. split; [done|]. apply Forall_insert; [done|cbn; lia].
Qed.

Lemma cas_run_inv m0 vs st st' : rtc cas_step st st' -> cas_inv m0 vs st -> cas_inv m0 vs st'.
Proof. induction 1; eauto using cas_step_inv. Qed.

(** ** An exact histogram *)

Definition exact_hist : Type := list Z.

Definition in_hist_range (v : Z) : bool := (1 <=? v) && (v <=? HIST_HIGH).

Global Instance exact_hist_ops : HdrHistogram exact_hist := {
  h_new := [];
  h_record v h := if in_hist_range v then v :: h else h;
  h_clear _ := [];
  h_len h := Z.of_nat (length h);
  h_is_empty h := match h with [] => true | _ => false end;
  h_value_at_quantile q h :=
    let n := Z.of_nat (length h) in
    default 0 (merge_sort Z.le h !! Z.to_nat (Z.min (n - 1) (f64_as_u 64 (f64_mul q (f64_of_Z n)))));
  h_min h := foldr Z.min HIST_HIGH h;
  h_max h := foldr Z.max 0 h;
  h_mean h := f64_div (f64_of_Z (zsum id h)) (f64_of_Z (Z.of_nat (length h)))
}.

Global Program Instance exact_hist_laws : HdrHistogramLaws exact_hist.
Next Obligation. done. Qed.
Next Obligation. done. Qed.
Next Obligation.
  intros v h Hv. cbn. unfold in_hist_range.
  replace ((1 <=? v) && (v <=? HIST_HIGH)) with true
    by (symmetry; apply andb_true_iff; split; bool_to_prop; lia).
  cbn [length]. lia.
Qed.
Next Obligation. intros [|v h]; cbn; [done|]. symmetry. bool_to_prop. lia. Qed.

(** ** Theorems *)

Section StatsTheorems.
Context {H : Type} `{HdrHistogramLaws H}.
Implicit Types s : StatsCollector H.

(** C20. Under every interleaving of the atomic actions of the calls of any
    number of threads, each counter ends with its first value plus the sum of the
    increments of all the calls (modulo 2^64), and when the completions were the
    sum of the response codes before, they are after: no response is counted under
    no code or under two; and the maximum depth ends as the maximum of what it was and
    of every depth recorded. *)
Theorem stats_interleaving s threads tr :
  counters_in_range s -> Forall (Forall call_ok) threads ->
  interleaving (thread_actions <$> threads) tr ->
  (forall c, get c (fold_left exec_action tr s) = (get c s + total_delta c threads) mod 2 ^ 64) /\
  (balanced s -> balanced (fold_left exec_action tr s)) /\
  inflight_max (fold_left exec_action tr s) = foldr Z.max (inflight_max s) (omap depth_of (concat threads)).
Proof.
  intros Hr Hok Hi.
  assert (Hg : forall c, get c (fold_left exec_action tr s) = (get c s + total_delta c threads) mod 2 ^ 64).
  { intros c. rewrite exec_trace_get by done. by rewrite (interleaved_delta c threads tr Hi). }
  split; [done|]. split; [|rewrite exec_trace_max; by apply interleaved_max].
  apply (balanced_step _ _ (fun c => total_delta c threads)); [done|]. by apply total_balanced.
Qed.

(** The maximum depth: whatever the interleaving of the compare-and-swap
    loops and however often the exchange fails, when all calls have returned the
    cell holds the maximum of its first value and of the values recorded. *)
Theorem inflight_max_is_max m0 vs m ts :
  rtc cas_step (m0, cas_start vs) (m, ts) -> Forall (fun t => pc t = CasDone) ts ->
  m = foldr Z.max m0 vs.
Proof.
  intros Hrun Hdone.
  destruct (cas_run_inv m0 vs _ _ Hrun (cas_start_inv m0 vs)) as (Hvs & Hm & Hin & Hall).
  assert (Hle : Forall (fun v => v <= m) vs).
  { rewrite <- Hvs. apply Forall_fmap. eapply Forall_impl; [exact (proj2 (Forall_and _ _) (conj Hall Hdone))|].
    cbn. intros t [Ht Hd]. by rewrite Hd in Ht. }
  apply Z.le_antisymm.
  - destruct Hin as [->|Hin]; [clear; induction vs; cbn; lia|].
    clear - Hin. induction vs as [|v vs IH]; [by apply elem_of_nil in Hin|]. cbn.
    apply elem_of_cons in Hin as [->|Hin]; [lia|specialize (IH Hin); lia].
  - clear - Hle Hm. induction Hle; cbn; lia.
Qed.

(** A ramp step's latency window: after the clear of the previous step and
    the responses of this one (each a 60-second RTT at most), [ramp_step_latency]
    reports exactly their number, zero percentiles when there is none, and leaves
    an empty window and every counter as it was. *)
Theorem ramp_step_window s rtts s1 out s2 :
  Forall (fun r => 0 <= r <= HIST_HIGH) rtts ->
  s1 = fold_left (fun s r => record_latency_us r s) rtts (ramp_step_latency s).2 ->
  ramp_step_latency s1 = (out, s2) ->
  snd out = Z.of_nat (length rtts) /\
  (rtts = [] -> out = (0, 0, 0, 0)) /\
  (ramp_step_latency s2).1 = (0, 0, 0, 0) /\
  forall c, get c s2 = get c s.
Proof.
  intros Hr -> Hout.
  assert (Hlen : forall s0, h_len (histogram (fold_left (fun s r => record_latency_us r s) rtts s0)) =
                            h_len (histogram s0) + Z.of_nat (length rtts)).
  { clear Hout. induction Hr as [|r rs Hr0 Hrs IH]; intros s0; cbn [fold_left length]; [lia|].
    rewrite IH. cbn. rewrite h_len_record by (unfold HIST_HIGH in *; lia). lia. }
  assert (Hget : forall c s0, get c (fold_left (fun s r => record_latency_us r s) rtts s0) = get c s0).
  { clear. induction rtts as [|r rs IH]; intros c s0; cbn [fold_left]; [done|]. rewrite IH. by destruct c. }
  unfold ramp_step_latency in Hout at 1. specialize (Hlen (ramp_step_latency s).2).
  cbn [ramp_step_latency snd set_hist histogram] in Hlen. rewrite h_len_clear in Hlen.
  rewrite h_is_empty_len in Hout. inversion Hout; subst out s2; clear Hout.
  split; [|split; [|split]].
  - rewrite Hlen. case_if; bool_to_prop; cbn [snd]; lia.
  - intros ->. rewrite Hlen. done.
  - cbn. by rewrite h_is_empty_len, h_len_clear.
  - intros c. trans (get c (fold_left (fun s r => record_latency_us r s) rtts (ramp_step_latency s).2)).
    + by destruct c.
    + rewrite Hget. by destruct c.
Qed.

(** The snapshot after a warm-up: [reset_window] empties every counter and
    the latency window, so that a snapshot taken before anything is sent reports
    zero everywhere (loss, rates and percentiles included) for every positive run
    time; and a snapshot's loss is the queries sent less those completed, never
    negative. *)
Theorem snapshot_after_reset s t elapsed :
  last_egress_ns s <= t -> f64_gtb elapsed f64_zero = true ->
  let w := snapshot elapsed (reset_window t s) in
  (queries_sent w, queries_completed w, queries_lost w) = (0, 0, 0) /\
  (send_qps w, avg_qps w) = (f64_zero, f64_zero) /\
  (min_us w, p50_us w, p95_us w, p99_us w, p999_us w, max_us w) = (0, 0, 0, 0, 0, 0) /\
  (avg_us w, inflight_mean w, s_inflight_max w) = (f64_zero, f64_zero, 0) /\
  balanced (reset_window t s) /\
  forall e s', queries_lost (snapshot e s') = Z.max 0 (sent s' - completed s').
Proof.
  intros Ht He w. subst w.
  assert (Hg : (last_egress_ns s >? t) = false) by (rewrite Z.gtb_ltb; bool_to_prop; lia).
  destruct elapsed as [[]|[]| |[] ? ?]; try discriminate He;
    unfold snapshot, reset_window, send_qps_of; cbn;
    rewrite h_is_empty_len, h_len_clear, Hg; done.
Qed.

End StatsTheorems.

(** ** Witnesses *)

Definition ex_threads : list (list call) :=
  [[CallResponse 0 120; CallResponse 3 90]; [CallRcodes 5 1 0 0 2; CallTimeout; CallInflight 7]; [CallInflight 9]].

Lemma interleaving_sequential {A} (ts : list (list A)) : interleaving ts (concat ts).
Proof.
  induction ts as [|t ts IH]; [by repeat constructor|].
  induction t as [|a t IHt]; cbn.
  - clear -IH. remember (concat ts) as tr. clear Heqtr. induction IH as [ts Hts|ts i a rest tr Hi _ IH'].
    + constructor. by constructor.
    + apply (il_step _ (S i) a rest); [done|]. exact IH'.
  - by apply (il_step _ 0%nat a t).
Qed.

Lemma stats_interleaving_witness :
  completed (fold_left exec_action (concat (thread_actions <$> ex_threads)) (stats_new (H := exact_hist))) = 10 /\
  balanced (fold_left exec_action (concat (thread_actions <$> ex_threads)) (stats_new (H := exact_hist))) /\
  inflight_max (fold_left exec_action (concat (thread_actions <$> ex_threads)) (stats_new (H := exact_hist))) = 9.
Proof.
  destruct (stats_interleaving (stats_new (H := exact_hist)) ex_threads
              (concat (thread_actions <$> ex_threads))) as (Hc & Hb & Hm).
  - intros c. destruct c; cbn; unfold in_u; lia.
  - repeat constructor; cbn; unfold in_u; lia.
  - apply interleaving_sequential.
  - split; [exact (Hc Completed)|]. split; [apply Hb; reflexivity|exact Hm].
Defined.

Lemma inflight_max_is_max_witness :
  rtc cas_step (3, cas_start [7; 5]) (7, [mkCas 7 CasDone; mkCas 5 CasDone]) /\ 7 = foldr Z.max 3 [7; 5].
Proof.
  assert (Hrun : rtc cas_step (3, cas_start [7; 5]) (7, [mkCas 7 CasDone; mkCas 5 CasDone])).
  { eapply rtc_l; [apply (cas_load _ _ 0%nat 7); reflexivity|].
    eapply rtc_l; [apply (cas_load _ _ 1%nat 5); reflexivity|].
    eapply rtc_l; [apply (cas_ok _ _ 1%nat 5); [reflexivity|lia]|].
    eapply rtc_l; [apply (cas_fail _ _ 0%nat 7 3); [reflexivity|lia]|].
    eapply rtc_l; [apply (cas_ok _ _ 0%nat 7); [reflexivity|lia]|].
    apply rtc_refl. }
  split; [exact Hrun|].
  apply (inflight_max_is_max 3 [7; 5] 7 _ Hrun). by repeat constructor.
Defined.

Lemma ramp_step_window_witness :
  exists out s2, ramp_step_latency (record_latency_us 40 (record_latency_us 0
     (ramp_step_latency (stats_new (H := exact_hist))).2)) = (out, s2) /\ snd out = 2.
Proof.
  eexists _, _. split; [reflexivity|].
  refine (proj1 (ramp_step_window (stats_new (H := exact_hist)) [0; 40] _ _ _ _ eq_refl eq_refl)).
  repeat constructor; unfold HIST_HIGH; lia.
Defined.

Lemma snapshot_after_reset_witness :
  queries_lost (snapshot (f64_lit 5 2)
    (reset_window 1000 (record_response 0 250 (inc_sent_n 8 900 (stats_new (H := exact_hist)))))) = 0.
Proof.
  pose proof (snapshot_after_reset
    (record_response 0 250 (inc_sent_n 8 900 (stats_new (H := exact_hist)))) 1000 (f64_lit 5 2))
    as Hs.
  destruct Hs as (Hq & _); [cbn; lia|reflexivity|]. by inversion Hq.
Defined.
