(* ===== verification/InFlight.v ===== *)
(** * In-flight tables

    Models the three tables that match a response to the query it answers:
    [SharedInFlight] and the legacy hashed [InFlight] of [src/transport/udp.rs], and
    the lock-free [InFlight] of [src/transport/xdp/receiver.rs].

    A slot of the lock-free tables is one [AtomicU64].  Each method is given twice: as
    the change of the table when it runs alone ([shared_insert], ...), and as the
    sequence of atomic accesses it makes ([tstep]: a store, a swap, or for each slot
    of a sweep a load and a compare-exchange), so that any number of threads that
    call any methods can interleave between any two accesses.  The theorems: under
    every interleaving each recorded query is in exactly one of three places, claimed
    by one call, overwritten by a reuse of its id, or in the table, and what the
    calls return adds up to the claims; the sweeps clear exactly the expired slots,
    and are what their accesses do when nothing else runs; the hashed table refines a
    map from ids to send times, with the collision it evicts reported. *)

From Stdlib Require Import ZArith Lia Bool.
From stdpp Require Import base numbers option relations list.
From S2P Require Import Prelude.

Open Scope Z_scope.

(** ** A table indexed by the id *)

(** One slot per 16-bit id: the send time in nanoseconds, 0 when free. *)
Abbreviation table := (list Z) (only parsing).

Definition TABLE_SIZE : nat := Z.to_nat 65536.

Definition table_new : table := replicate TABLE_SIZE 0.

Definition slot (t : table) (id : Z) : Z := default 0 (t !! Z.to_nat id).

Definition store (id v : Z) (t : table) : table := <[Z.to_nat id := v]> t.

(** Number of occupied slots. *)
Definition occ (v : Z) : Z := if v =? 0 then 0 else 1.
Definition occupied (t : table) : Z := zsum occ t.

(** ** [SharedInFlight] (udp.rs) *)

Definition shared_insert (id send_ns : Z) (t : table) : table := store id (Z.max send_ns 1) t.

Definition shared_take (id recv_ns : Z) (t : table) : option Z * table :=
  let s := slot t id in
  let t := store id 0 t in
  (if negb (s =? 0) then Some (sat_sub recv_ns s) else None, t).

(** One turn of the sweep loops, when no other thread writes the slot: the
    exchange then succeeds. *)
Definition sweep_slot (expired : Z -> bool) (v : Z) : Z * Z :=
  if negb (v =? 0) && expired v then (0, 1) else (v, 0).

Definition sweep_table (expired : Z -> bool) (t : table) : Z * table :=
  (zsum (fun v => (sweep_slot expired v).2) t, (fun v => (sweep_slot expired v).1) <$> t).

Definition shared_sweep (now_ns timeout_ns : Z) (t : table) : Z * table :=
  sweep_table (fun v => timeout_ns <=? sat_sub now_ns v) t.

(** ** [InFlight] (receiver.rs)

    [elapsed] is what [self.base.elapsed()] reads, in nanoseconds. *)

Definition xdp_insert (elapsed id : Z) (t : table) : table := store id (Z.max elapsed 1) t.

Definition xdp_take (elapsed id : Z) (t : table) : option Z * table :=
  let prev := slot t id in
  let t := store id 0 t in
  (if prev =? 0 then None else Some (sat_sub elapsed prev / 1000), t).

Definition sweep_expired (elapsed timeout_ns : Z) (t : table) : Z * table :=
  sweep_table (fun v => sat_sub elapsed v >? timeout_ns) t.

Definition drain_all (t : table) : Z * table := sweep_table (fun _ => true) t.

(** ** The methods as atomic accesses *)

(** The calls on a shared table, with the clock each of them reads. *)
Inductive method : Set :=
| SharedInsert (id send_ns : Z)
| SharedTake (id recv_ns : Z)
| SharedSweep (now_ns timeout_ns : Z)
| XdpInsert (id elapsed : Z)
| XdpTake (id elapsed : Z)
| SweepExpired (elapsed timeout_ns : Z)
| DrainAll.

Inductive reply : Set :=
| Stored
| Rtt (r : option Z)
| Count (n : Z).

(** Where a thread is inside a call: the next slot of a loop, with the number of
    slots cleared so far; a sweep also between its load and its exchange. *)
Inductive point : Set :=
| Between                                                    (* two calls *)
| SweepLoad (m : method) (i : nat) (n : Z)
| SweepCas (m : method) (i : nat) (v n : Z)
| DrainSwap (i : nat) (n : Z).

Record thread : Set := mkThread {
  todo : list method;
  at_point : point;
  replies : list (method * reply)   (* the calls that have returned *)
}.

(** The table, and for the statements the queries: [log] lists the recorded ones,
    with the id and the time of each; a query is its position in [log].  [owner] says
    which one a slot holds, [claimed] and [lost] which ones a call has taken out and
    which ones were overwritten. *)
Record world : Type := mkWorld {
  slots : list Z;
  owner : list (option nat);
  log : list (Z * Z);
  claimed : list nat;
  lost : list nat
}.

Definition holder (w : world) (id : Z) : list nat := option_list (mjoin (owner w !! Z.to_nat id)).

(** [slots[id].store(v)] *)
Definition put (id v : Z) (w : world) : world :=
  mkWorld (store id v (slots w)) (<[Z.to_nat id := Some (length (log w))]> (owner w)) (log w ++ [(id, v)])
    (claimed w) (holder w id ++ lost w).

(** [slots[id].swap(0)], and the exchange that succeeds. *)
Definition clear (id : Z) (w : world) : world :=
  mkWorld (store id 0 (slots w)) (<[Z.to_nat id := None]> (owner w)) (log w) (holder w id ++ claimed w) (lost w).

(** The condition a sweep clears a slot under. *)
Definition expired_by (m : method) (v : Z) : bool :=
  match m with
  | SharedSweep now_ns timeout_ns => timeout_ns <=? sat_sub now_ns v
  | SweepExpired elapsed timeout_ns => sat_sub elapsed v >? timeout_ns
  | _ => false
  end.

(** One access of a thread, or the return of a loop; [None] when it has no call left. *)
Definition tstep (th : thread) (w : world) : option (thread * world) :=
  match at_point th with
  | Between =>
      match todo th with
      | [] => None
      | m :: ms =>
          match m with
          | SharedInsert id send_ns =>
              Some (mkThread ms Between ((m, Stored) :: replies th), put id (Z.max send_ns 1) w)
          | XdpInsert id elapsed =>
              Some (mkThread ms Between ((m, Stored) :: replies th), put id (Z.max elapsed 1) w)
          | SharedTake id recv_ns =>
              let s := slot (slots w) id in
              Some (mkThread ms Between ((m, Rtt (if negb (s =? 0) then Some (sat_sub recv_ns s) else None)) :: replies th),
                    clear id w)
          | XdpTake id elapsed =>
              let prev := slot (slots w) id in
              Some (mkThread ms Between ((m, Rtt (if prev =? 0 then None else Some (sat_sub elapsed prev / 1000))) :: replies th),
                    clear id w)
          | SharedSweep _ _ | SweepExpired _ _ => Some (mkThread ms (SweepLoad m 0 0) (replies th), w)
          | DrainAll => Some (mkThread ms (DrainSwap 0 0) (replies th), w)
          end
      end
  | SweepLoad m i n =>
      match slots w !! i with
      | None => Some (mkThread (todo th) Between ((m, Count n) :: replies th), w)
      | Some v =>
          if negb (v =? 0) && expired_by m v then Some (mkThread (todo th) (SweepCas m i v n) (replies th), w)
          else Some (mkThread (todo th) (SweepLoad m (S i) n) (replies th), w)
      end
  | SweepCas m i v n =>
      if slot (slots w) (Z.of_nat i) =? v
      then Some (mkThread (todo th) (SweepLoad m (S i) (n + 1)) (replies th), clear (Z.of_nat i) w)
      else Some (mkThread (todo th) (SweepLoad m (S i) n) (replies th), w)
  | DrainSwap i n =>
      match slots w !! i with
      | None => Some (mkThread (todo th) Between ((DrainAll, Count n) :: replies th), w)
      | Some v => Some (mkThread (todo th) (DrainSwap (S i) (if v =? 0 then n else n + 1)) (replies th), clear (Z.of_nat i) w)
      end
  end.

(** Any thread takes the next step. *)
Inductive astep : list thread * world -> list thread * world -> Prop :=
| a_step ths w j th th' w' :
    ths !! j = Some th -> tstep th w = Some (th', w') -> astep (ths, w) (<[j := th']> ths, w').

(** A new table, and the threads with the calls they will make. *)
Definition astart (progs : list (list method)) : list thread * world :=
  ((fun ms => mkThread ms Between []) <$> progs, mkWorld table_new (replicate TABLE_SIZE None) [] [] []).

(** ** Lemmas on slots *)

Lemma slot_store_same t id v : (Z.to_nat id < length t)%nat -> slot (store id v t) id = v.
Proof. intros. unfold slot, store. by rewrite list_lookup_insert_eq. Qed.

Lemma slot_store_other t id id' v : 0 <= id -> 0 <= id' -> id <> id' -> slot (store id v t) id' = slot t id'.
Proof. intros. unfold slot, store. rewrite list_lookup_insert_ne; [done|lia]. Qed.

Lemma length_store id v t : length (store id v t) = length t.
Proof. apply length_insert. Qed.

Lemma id_in_table (t : table) id : length t = TABLE_SIZE -> in_u 16 id -> (Z.to_nat id < length t)%nat.
Proof. unfold in_u, TABLE_SIZE. change (2 ^ 16) with 65536. lia. Qed.

Lemma occ_range v : 0 <= occ v <= 1.
Proof. unfold occ. ifs_lia. Qed.

Lemma occupied_store t id v : (Z.to_nat id < length t)%nat ->
  occupied (store id v t) = occupied t - occ (slot t id) + occ v.
Proof.
  intros Hid. unfold occupied, store, slot.
  destruct (lookup_lt_is_Some_2 t _ Hid) as [x Hx]. rewrite (zsum_insert _ _ _ x) by done.
  by rewrite Hx.
Qed.

Lemma occupied_nonneg t : 0 <= occupied t.
Proof. apply zsum_nonneg. intros v _. pose proof (occ_range v). lia. Qed.

Lemma occupied_new : occupied table_new = 0.
Proof.
  unfold table_new, occupied. induction TABLE_SIZE as [|n IH]; [done|].
  cbn [replicate]. rewrite zsum_cons, IH. done.
Qed.

Lemma occupied_slot t id : occ (slot t id) <= occupied t.
Proof.
  unfold slot. generalize (Z.to_nat id). induction t as [|v t IH]; intros i; [done|].
  unfold occupied in *. rewrite zsum_cons. pose proof (occ_range v).
  destruct i as [|i].
  - pose proof (occupied_nonneg t). unfold occupied in *. change (default 0 ((v :: t) !! 0%nat)) with v. lia.
  - specialize (IH i). change ((v :: t) !! S i) with (t !! i). lia.
Qed.

Lemma length_sweep e t : length (sweep_table e t).2 = length t.
Proof. apply length_fmap. Qed.

(** ** The invariant of the interleaved calls *)

(** The queries still in the table. *)
Definition held (w : world) : list nat := omap id (owner w).

(** The ids of the calls are 16-bit. *)
Definition method_ok (m : method) : Prop :=
  match m with
  | SharedInsert id _ | SharedTake id _ | XdpInsert id _ | XdpTake id _ => in_u 16 id
  | _ => True
  end.

(** A slot is free exactly when it holds no query, and otherwise has its time. *)
Definition slot_ok (w : world) (i : nat) : Prop :=
  match mjoin (owner w !! i) with
  | Some k => exists v, slots w !! i = Some v /\ v <> 0 /\ log w !! k = Some (Z.of_nat i, v)
  | None => slot (slots w) (Z.of_nat i) = 0
  end.

Record world_ok (w : world) : Prop := mkWorldOk {
  wo_slots : length (slots w) = TABLE_SIZE;
  wo_owner : length (owner w) = TABLE_SIZE;
  wo_slot : forall i, slot_ok w i;
  wo_places : claimed w ++ lost w ++ held w ≡ₚ seq 0 (length (log w))
}.

(** What a reply counts. *)
Definition counts (r : reply) : Z :=
  match r with Rtt (Some _) => 1 | Count n => n | _ => 0 end.

Definition counted (th : thread) : Z :=
  zsum (fun c => counts c.2) (replies th) +
  match at_point th with Between => 0 | SweepLoad _ _ n | SweepCas _ _ _ n | DrainSwap _ n => n end.

(** A reply with a round trip is that of a claimed query of the id that was asked. *)
Definition reply_ok (w : world) (c : method * reply) : Prop :=
  match c with
  | (SharedTake id ns, Rtt (Some r)) =>
      exists k v, k ∈ claimed w /\ log w !! k = Some (id, v) /\ r = sat_sub ns v
  | (XdpTake id ns, Rtt (Some r)) =>
      exists k v, k ∈ claimed w /\ log w !! k = Some (id, v) /\ r = sat_sub ns v / 1000
  | _ => True
  end.

Record thread_ok (w : world) (th : thread) : Prop := mkThreadOk {
  to_todo : Forall method_ok (todo th);
  to_replies : Forall (reply_ok w) (replies th);
  to_cas : match at_point th with SweepCas _ _ v _ => v <> 0 | _ => True end
}.

(** The queries of a list of owners, when one of them changes. *)
Lemma omap_update (l : list (option nat)) i x : (i < length l)%nat ->
  option_list (mjoin (l !! i)) ++ omap id (<[i := x]> l) ≡ₚ option_list x ++ omap id l.
Proof.
  intros Hi. destruct (lookup_lt_is_Some_2 l i Hi) as [o Ho]. rewrite Ho. cbn [mjoin option_join].
  rewrite insert_take_drop by done. rewrite <- (take_drop_middle l i o Ho) at 3. rewrite !omap_app.
  destruct o as [a|], x as [b|]; cbn [omap list_omap option_list id]; cbn; solve_Permutation.
Qed.

Lemma slot_lookup (t : list Z) i : slot t (Z.of_nat i) = default 0 (t !! i).
Proof. unfold slot. by rewrite Nat2Z.id. Qed.

Lemma slot_ok_other w w' i id :
  slots w' = store id (slot (slots w') id) (slots w) -> owner w' = <[Z.to_nat id := mjoin (owner w' !! Z.to_nat id)]> (owner w) ->
  log w `prefix_of` log w' -> i <> Z.to_nat id -> slot_ok w i -> slot_ok w' i.
Proof.
  intros Hs Ho [ext Hl] Hne. unfold slot_ok. rewrite Ho, list_lookup_insert_ne by done.
  rewrite slot_lookup, slot_lookup, Hs. unfold store. rewrite list_lookup_insert_ne by done. rewrite Hl.
  destruct (mjoin (owner w !! i)) as [k|]; [|done]. intros (v & Hv & Hnz & Hk). exists v.
  split; [done|]. split; [done|]. by apply lookup_app_l_Some.
Qed.

Lemma put_ok id v w : in_u 16 id -> v <> 0 -> world_ok w -> world_ok (put id v w).
Proof.
  intros Hid Hv [W1 W2 W3 W4].
  assert (Hi : (Z.to_nat id < length (slots w))%nat) by by apply id_in_table.
  assert (Hj : (Z.to_nat id < length (owner w))%nat) by (rewrite W2, <- W1; done).
  constructor; cbn [put slots owner log claimed lost held].
  - by rewrite length_store.
  - by rewrite length_insert.
  - intros i. destruct (decide (i = Z.to_nat id)) as [->|Hne].
    + unfold slot_ok. cbn [put slots owner log]. rewrite list_lookup_insert_eq by done. cbn [mjoin option_join].
      exists v. split; [by apply list_lookup_insert_eq|]. split; [done|].
      rewrite lookup_app_r, Nat.sub_diag by lia. cbn. rewrite Z2Nat.id by (destruct Hid; lia). done.
    + apply (slot_ok_other w _ i id); [|by cbn [put owner]; rewrite list_lookup_insert_eq by done|by apply prefix_app_r|done|done].
      cbn [put slots]. by rewrite slot_store_same.
  - rewrite length_app, Nat.add_comm. cbn [length Nat.add]. rewrite seq_S, <- W4. unfold held, holder. cbn [owner].
    rewrite (Permutation_app_comm _ (lost w)), <- !app_assoc.
    rewrite (omap_update (owner w) (Z.to_nat id) (Some (length (log w))) Hj). cbn [option_list]. solve_Permutation.
Qed.

Lemma clear_ok id w : in_u 16 id -> world_ok w -> world_ok (clear id w).
Proof.
  intros Hid [W1 W2 W3 W4].
  assert (Hi : (Z.to_nat id < length (slots w))%nat) by by apply id_in_table.
  assert (Hj : (Z.to_nat id < length (owner w))%nat) by (rewrite W2, <- W1; done).
  constructor; cbn [clear slots owner log claimed lost held].
  - by rewrite length_store.
  - by rewrite length_insert.
  - intros i. destruct (decide (i = Z.to_nat id)) as [->|Hne].
    + unfold slot_ok. cbn [clear slots owner log]. rewrite list_lookup_insert_eq by done. cbn [mjoin option_join].
      rewrite Z2Nat.id by (destruct Hid; lia). by apply slot_store_same.
    + apply (slot_ok_other w _ i id); [|by cbn [clear owner]; rewrite list_lookup_insert_eq by done|by exists []; rewrite app_nil_r|done|done].
      cbn [clear slots]. by rewrite slot_store_same.
  - rewrite <- W4. unfold held, holder. cbn [owner].
    pose proof (omap_update (owner w) (Z.to_nat id) None Hj) as Hp. cbn [option_list app] in Hp. rewrite <- Hp. solve_Permutation.
Qed.

(** What taking a slot out claims: nothing when it is free, else the query it holds. *)
Lemma clear_claims id w : in_u 16 id -> world_ok w ->
  if slot (slots w) id =? 0 then claimed (clear id w) = claimed w
  else exists k, claimed (clear id w) = k :: claimed w /\ log w !! k = Some (id, slot (slots w) id).
Proof.
  intros Hid [W1 W2 W3 W4]. pose proof (W3 (Z.to_nat id)) as Hs. unfold slot_ok in Hs.
  rewrite Z2Nat.id in Hs by (destruct Hid; lia). cbn [clear claimed]. unfold holder.
  destruct (mjoin (owner w !! Z.to_nat id)) as [k|]; cbn [option_list app].
  - destruct Hs as (v & Hv & Hnz & Hk). assert (Hsl : slot (slots w) id = v) by (unfold slot; by rewrite Hv).
    rewrite Hsl. replace (v =? 0) with false by (symmetry; bool_to_prop; lia). by exists k.
  - by rewrite Hs.
Qed.

(** Claims and records are never taken back. *)
Definition grows (w w' : world) : Prop := log w `prefix_of` log w' /\ claimed w ⊆ claimed w'.

Lemma reply_grows w w' c : grows w w' -> reply_ok w c -> reply_ok w' c.
Proof.
  intros [[ext He] Hc]. destruct c as [m r].
  destruct m, r as [|[r|]|]; try done; cbn [reply_ok]; intros (k & v & Hk & Hl & ->); exists k, v;
    (split; [by apply Hc|]); (split; [rewrite He; by apply lookup_app_l_Some|done]).
Qed.

Lemma put_grows id v w : grows w (put id v w).
Proof. split; cbn [put log claimed]; [by apply prefix_app_r|done]. Qed.

Lemma clear_grows id w : grows w (clear id w).
Proof. split; cbn [clear log claimed]; [by exists []; rewrite app_nil_r|]. intros x Hx. apply elem_of_app. by right. Qed.

Lemma replies_grow w w' cs : grows w w' -> Forall (reply_ok w) cs -> Forall (reply_ok w') cs.
Proof. intros Hg Hf. eapply Forall_impl; [exact Hf|]. intros c. by apply reply_grows. Qed.

Definition n_stored (th : thread) : Z :=
  zsum (fun c => match c.2 with Stored => 1 | _ => 0 end) (replies th).

(** A step of a thread, on what it counts and what it recorded. *)
Record steps_well (th : thread) (w : world) (th' : thread) (w' : world) : Prop := mkStepsWell {
  sw_world : world_ok w';
  sw_thread : thread_ok w' th';
  sw_grows : grows w w';
  sw_counted : counted th' - counted th = Z.of_nat (length (claimed w')) - Z.of_nat (length (claimed w));
  sw_stored : n_stored th' - n_stored th = Z.of_nat (length (log w')) - Z.of_nat (length (log w))
}.

Lemma grows_refl w : grows w w.
Proof. split; [by exists []; rewrite app_nil_r|done]. Qed.

(** A record. *)
Lemma put_well th w m ms id v : world_ok w -> thread_ok w th -> at_point th = Between -> in_u 16 id -> v <> 0 ->
  Forall method_ok ms -> steps_well th w (mkThread ms Between ((m, Stored) :: replies th)) (put id v w).
Proof.
  intros Hw [T1 T2 T3] Hp Hid Hv Hms. pose proof (put_grows id v w) as Hg. constructor.
  - by apply put_ok.
  - constructor; cbn [todo replies at_point]; try done. constructor; [by destruct m|]. by apply (replies_grow w).
  - done.
  - unfold counted. rewrite Hp. cbn [replies at_point put claimed]. rewrite zsum_cons. cbn. lia.
  - unfold n_stored. cbn [replies put log]. rewrite zsum_cons, length_app. cbn. lia.
Qed.

(** A slot taken out; [c] is what the thread counts for it. *)
Lemma clear_well th w id c th' : world_ok w -> thread_ok w th -> in_u 16 id ->
  c = (if slot (slots w) id =? 0 then 0 else 1) -> counted th' = counted th + c -> n_stored th' = n_stored th ->
  thread_ok (clear id w) th' -> steps_well th w th' (clear id w).
Proof.
  intros Hw Ht Hid Hc Hn Hs Hok. constructor; [by apply clear_ok|done|by apply clear_grows| |].
  - pose proof (clear_claims id w Hid Hw) as Hcl. rewrite Hn, Hc. destruct (slot (slots w) id =? 0).
    + rewrite Hcl. lia.
    + destruct Hcl as (k & -> & _). cbn [length]. lia.
  - cbn [clear log]. rewrite Hs. lia.
Qed.

(** Nothing happens to the table. *)
Lemma quiet_well th w th' : world_ok w -> thread_ok w th' -> counted th' = counted th -> n_stored th' = n_stored th ->
  steps_well th w th' w.
Proof. intros Hw Ht Hc Hs. constructor; [done|done|apply grows_refl|lia|lia]. Qed.

Lemma tstep_well th w th' w' : world_ok w -> thread_ok w th -> tstep th w = Some (th', w') -> steps_well th w th' w'.
Proof.
  intros Hw Ht. pose proof Ht as [T1 T2 T3]. unfold tstep.
  assert (Hin : forall i v, slots w !! i = Some v -> in_u 16 (Z.of_nat i)).
  { intros i v Hi. apply lookup_lt_Some in Hi. rewrite (wo_slots _ Hw) in Hi. unfold TABLE_SIZE, in_u in *.
    change (2 ^ 16) with 65536. lia. }
  destruct (at_point th) as [|m i n|m i v n|i n] eqn:Ep.
  - destruct (todo th) as [|m ms] eqn:Em; [done|]. apply Forall_cons in T1 as [Tm Tms].
    destruct m as [id ns|id ns|now to|id ns|id ns|now to|]; cbn [method_ok] in Tm; injection 1 as <- <-.
    + apply put_well; try done. lia.
    + pose proof (clear_claims id w Tm Hw) as Hcl.
      apply (clear_well th w id (if slot (slots w) id =? 0 then 0 else 1)); try done.
      * unfold counted. rewrite Ep. cbn [replies at_point]. rewrite zsum_cons. destruct (slot (slots w) id =? 0); cbn; lia.
      * constructor; cbn [todo replies at_point]; try done. constructor; [|by apply (replies_grow w); [apply clear_grows|]].
        destruct (slot (slots w) id =? 0); cbn [negb reply_ok]; [done|]. destruct Hcl as (k & Hk & Hl).
        exists k, (slot (slots w) id). split; [rewrite Hk; left|]. by split.
    + apply quiet_well; try done; unfold counted; by rewrite Ep.
    + apply put_well; try done. lia.
    + pose proof (clear_claims id w Tm Hw) as Hcl.
      apply (clear_well th w id (if slot (slots w) id =? 0 then 0 else 1)); try done.
      * unfold counted. rewrite Ep. cbn [replies at_point]. rewrite zsum_cons. destruct (slot (slots w) id =? 0); cbn; lia.
      * constructor; cbn [todo replies at_point]; try done. constructor; [|by apply (replies_grow w); [apply clear_grows|]].
        destruct (slot (slots w) id =? 0); cbn [reply_ok]; [done|]. destruct Hcl as (k & Hk & Hl).
        exists k, (slot (slots w) id). split; [rewrite Hk; left|]. by split.
    + apply quiet_well; try done; unfold counted; by rewrite Ep.
    + apply quiet_well; try done; unfold counted; by rewrite Ep.
  - destruct (slots w !! i) as [v|] eqn:Ei.
    + destruct (negb (v =? 0) && expired_by m v) eqn:Ec; injection 1 as <- <-.
      * apply andb_true_iff in Ec as [Ec _]. apply negb_true_iff in Ec. bool_to_prop.
        apply quiet_well; try done; unfold counted; by rewrite Ep.
      * apply quiet_well; try done; unfold counted; by rewrite Ep.
    + injection 1 as <- <-. apply quiet_well; try done.
      * constructor; try done. constructor; [by destruct m|done].
      * unfold counted. rewrite Ep. cbn [replies at_point]. rewrite zsum_cons. cbn. lia.
  - destruct (slot (slots w) (Z.of_nat i) =? v) eqn:Es; injection 1 as <- <-; bool_to_prop.
    + assert (Hlt : exists x, slots w !! i = Some x).
      { rewrite slot_lookup in Es. destruct (slots w !! i) as [x|]; [by exists x|]. cbn in Es. by rewrite <- Es in T3. }
      destruct Hlt as [x Hx]. apply (clear_well th w (Z.of_nat i) 1); try done; [by eapply Hin| | |].
      * rewrite Es. by replace (v =? 0) with false by (symmetry; bool_to_prop; lia).
      * unfold counted. rewrite Ep. cbn [replies at_point]. lia.
      * constructor; try done. apply (replies_grow w); [apply clear_grows|done].
    + apply quiet_well; try done; unfold counted; by rewrite Ep.
  - destruct (slots w !! i) as [v|] eqn:Ei; injection 1 as <- <-.
    + apply (clear_well th w (Z.of_nat i) (if v =? 0 then 0 else 1)); try done; [by eapply Hin| | |].
      * by rewrite slot_lookup, Ei.
      * unfold counted. rewrite Ep. cbn [replies at_point]. destruct (v =? 0); lia.
      * constructor; try done. apply (replies_grow w); [apply clear_grows|done].
    + apply quiet_well; try done.
      * constructor; try done. by constructor.
      * unfold counted. rewrite Ep. cbn [replies at_point]. rewrite zsum_cons. cbn. lia.
Qed.

Record all_ok (st : list thread * world) : Prop := mkAllOk {
  ao_world : world_ok st.2;
  ao_threads : Forall (thread_ok st.2) st.1;
  ao_counted : zsum counted st.1 = Z.of_nat (length (claimed st.2));
  ao_stored : zsum n_stored st.1 = Z.of_nat (length (log st.2))
}.

Lemma astep_ok st st' : astep st st' -> all_ok st -> all_ok st'.
Proof.
  intros Hs [A1 A2 A3 A4]. destruct Hs as [ths w j th th' w' Hj Ht]. cbn [fst snd] in *.
  assert (Hth : thread_ok w th) by (by apply (Forall_lookup_1 _ _ _ _ A2 Hj)).
  destruct (tstep_well th w th' w' A1 Hth Ht) as [S1 S2 S3 S4 S5]. constructor; cbn [fst snd].
  - done.
  - apply Forall_insert; [|done]. eapply Forall_impl; [exact A2|]. intros t [T1 T2 T3].
    constructor; [done|by apply (replies_grow w)|done].
  - rewrite (zsum_insert _ _ _ _ _ Hj). lia.
  - rewrite (zsum_insert _ _ _ _ _ Hj). lia.
Qed.

Lemma astart_ok progs : Forall (Forall method_ok) progs -> all_ok (astart progs).
Proof.
  intros Hp. unfold astart.
  assert (Hz : forall f : thread -> Z, (forall ms, f (mkThread ms Between []) = 0) ->
    zsum f ((fun ms => mkThread ms Between []) <$> progs) = 0).
  { intros f Hf. clear Hp. induction progs as [|ms progs IH]; [done|]. rewrite fmap_cons, zsum_cons, Hf, IH. done. }
  constructor; cbn [fst snd slots owner log claimed lost].
  - constructor; cbn [slots owner log claimed lost].
    + apply length_replicate.
    + apply length_replicate.
    + intros i. unfold slot_ok. cbn [slots owner log].
      assert (Hn : mjoin (replicate TABLE_SIZE (@None nat) !! i) = None).
      { destruct (replicate TABLE_SIZE None !! i) as [o|] eqn:E; [|done]. apply lookup_replicate in E as [-> _]. done. }
      rewrite Hn, slot_lookup. unfold table_new.
      destruct (replicate TABLE_SIZE 0 !! i) as [v|] eqn:E; [|done]. apply lookup_replicate in E as [-> _]. done.
    + unfold held. cbn [owner]. induction TABLE_SIZE as [|n IH]; [done|exact IH].
  - apply Forall_fmap. eapply Forall_impl; [exact Hp|]. intros ms Hms. by constructor.
  - by rewrite Hz.
  - by rewrite Hz.
Qed.

Lemma areach_ok progs st : Forall (Forall method_ok) progs -> rtc astep (astart progs) st -> all_ok st.
Proof.
  intros Hp Hr. pose proof (astart_ok progs Hp) as Ho. revert Ho.
  induction Hr as [|s1 s2 s3 Hs _ IH]; [done|]. intros Ho. apply IH. by eapply astep_ok.
Qed.

(** The occupied slots are those that hold a query. *)
Lemma held_occupied w : world_ok w -> Z.of_nat (length (held w)) = occupied (slots w).
Proof.
  intros [W1 W2 W3 _]. assert (Hf : Forall2 (fun o v => o = None <-> v = 0) (owner w) (slots w)).
  { apply Forall2_same_length_lookup_2; [congruence|]. intros i o v Ho Hv. pose proof (W3 i) as Hi. unfold slot_ok in Hi.
    rewrite Ho, slot_lookup, Hv in Hi. cbn in Hi. destruct o as [k|]; [|done]. destruct Hi as (v' & [= <-] & Hnz & _). done. }
  unfold held, occupied. clear -Hf. induction Hf as [|o v os vs Ho _ IH]; [done|]. rewrite zsum_cons. cbn [omap list_omap id].
  destruct o as [k|]; cbn [length]; unfold occ at 1.
  - replace (v =? 0) with false; [lia|]. symmetry. bool_to_prop. intros Hv. by apply Ho in Hv.
  - destruct Ho as [Ho _]. rewrite (Ho eq_refl). cbn. lia.
Qed.

(** ** A call that runs alone *)

Definition alone : thread * world -> thread * world -> Prop := fun s s' => tstep s.1 s.2 = Some s'.

Definition is_sweep (m : method) : bool := match m with SharedSweep _ _ | SweepExpired _ _ => true | _ => false end.

(** The exchanges of a sweep all succeed, and the loop is [sweep_table]. *)
Lemma sweep_alone m ms rs t : forall pre w n, slots w = pre ++ t ->
  exists w', rtc alone (mkThread ms (SweepLoad m (length pre) n) rs, w)
    (mkThread ms Between ((m, Count (n + (sweep_table (expired_by m) t).1)) :: rs), w') /\
    slots w' = pre ++ (sweep_table (expired_by m) t).2.
Proof.
  induction t as [|v t IH]; intros pre w n Hw.
  - exists w. split; [|done]. apply rtc_once. unfold alone, tstep. cbn [fst snd at_point].
    rewrite Hw, lookup_ge_None_2 by (rewrite app_nil_r; lia). cbn [todo replies sweep_table fst zsum foldr].
    by rewrite Z.add_0_r.
  - assert (Hi : slots w !! length pre = Some v) by (rewrite Hw; by apply list_lookup_middle).
    cbn [sweep_table fst snd]. rewrite fmap_cons, zsum_cons. unfold sweep_slot at 1 3.
    destruct (negb (v =? 0) && expired_by m v) eqn:E; cbn [fst snd].
    + destruct (IH (pre ++ [0]) (clear (Z.of_nat (length pre)) w) (n + 1)) as (w' & Hr & Hs).
      { cbn [clear slots]. unfold store. rewrite Nat2Z.id, Hw, insert_app_r_alt, Nat.sub_diag by lia.
        cbn [insert list_insert]. by rewrite <- app_assoc. }
      rewrite length_app, Nat.add_comm in Hr. cbn [length Nat.add] in Hr.
      exists w'. rewrite <- app_assoc in Hs. split; [|exact Hs].
      eapply rtc_l. { unfold alone, tstep. cbn [fst snd at_point todo replies]. rewrite Hi, E. reflexivity. }
      eapply rtc_l. { unfold alone, tstep. cbn [fst snd at_point todo replies].
        rewrite slot_lookup, Hi. cbn [default from_option id]. rewrite Z.eqb_refl. reflexivity. }
      replace (n + (1 + _)) with (n + 1 + zsum (fun v => (sweep_slot (expired_by m) v).2) t) by lia. exact Hr.
    + destruct (IH (pre ++ [v]) w n) as (w' & Hr & Hs); [by rewrite <- app_assoc|].
      rewrite length_app, Nat.add_comm in Hr. cbn [length Nat.add] in Hr.
      exists w'. rewrite <- app_assoc in Hs. split; [|exact Hs].
      eapply rtc_l. { unfold alone, tstep. cbn [fst snd at_point todo replies]. rewrite Hi, E. reflexivity. }
      rewrite Z.add_0_l. exact Hr.
Qed.

Lemma slot_sweep expired t id :
  slot (sweep_table expired t).2 id = (sweep_slot expired (slot t id)).1.
Proof.
  unfold slot. cbn [sweep_table snd]. rewrite list_lookup_fmap.
  by destruct (t !! Z.to_nat id).
Qed.

Lemma occupied_sweep expired t :
  occupied t = (sweep_table expired t).1 + occupied (sweep_table expired t).2.
Proof.
  unfold occupied. cbn [sweep_table fst snd]. rewrite zsum_fmap, <- zsum_add. apply zsum_ext.
  intros v _. unfold sweep_slot, occ. destruct (v =? 0) eqn:E; cbn [negb andb fst snd]; [by rewrite E|].
  destruct (expired v); cbn [fst snd]; [done|by rewrite E].
Qed.

Lemma occupied_zero_slots t : (forall id, 0 <= id -> slot t id = 0) -> occupied t = 0.
Proof.
  intros Hall. induction t as [|v t IH]; [done|]. unfold occupied in *. rewrite zsum_cons.
  rewrite IH.
  - pose proof (Hall 0 ltac:(lia)) as H0. change (slot (v :: t) 0) with v in H0. by rewrite H0.
  - intros id Hid. specialize (Hall (id + 1) ltac:(lia)). unfold slot in *.
    by replace (Z.to_nat (id + 1)) with (S (Z.to_nat id)) in Hall by lia.
Qed.

(** ** Theorems on the lock-free tables *)

(** C21. Conservation under concurrency: threads that call [insert], [take], [sweep] and
    [drain_all] on one table, in any number and any order, interleave between any two
    atomic accesses.  In every reachable state each recorded query is in exactly one
    place: claimed by a call, overwritten by a reuse of its id, or in the table; so
    none is claimed twice and none disappears.  The calls together have counted
    exactly the claims (a round trip each, or one in the result of a sweep or of the
    drain), the recorded queries are the inserts that returned, the occupied slots
    hold the rest, and every round trip returned for an id is measured from the send
    time of a claimed query of that id. *)
Theorem inflight_conservation progs ths w :
  Forall (Forall method_ok) progs -> rtc astep (astart progs) (ths, w) ->
  claimed w ++ lost w ++ held w ≡ₚ seq 0 (length (log w)) /\ NoDup (claimed w ++ lost w ++ held w) /\
  zsum counted ths = Z.of_nat (length (claimed w)) /\ zsum n_stored ths = Z.of_nat (length (log w)) /\
  occupied (slots w) = Z.of_nat (length (held w)) /\
  Forall (fun th => Forall (reply_ok w) (replies th)) ths.
Proof.
  intros Hp Hr. destruct (areach_ok progs _ Hp Hr) as [A1 A2 A3 A4]. cbn [fst snd] in *.
  split; [apply A1|]. split; [rewrite (wo_places _ A1); apply NoDup_seq|]. split; [done|]. split; [done|].
  split; [by rewrite held_occupied|]. eapply Forall_impl; [exact A2|]. by intros th [_ T2 _].
Qed.

(** The sweeps: each clears exactly the occupied slots that have expired
    (from the time-out on in [SharedInFlight], beyond it in the AF_XDP table, all
    of them at the end of the run) and returns their number; the others keep their
    time.  A sweep is what its loads and compare-exchanges do when they run alone. *)
Theorem sweep_exact (t : table) (now timeout : Z) :
  (forall id, slot (shared_sweep now timeout t).2 id =
     if negb (slot t id =? 0) && (timeout <=? sat_sub now (slot t id)) then 0 else slot t id) /\
  (forall id, slot (sweep_expired now timeout t).2 id =
     if negb (slot t id =? 0) && (sat_sub now (slot t id) >? timeout) then 0 else slot t id) /\
  (shared_sweep now timeout t).1 = occupied t - occupied (shared_sweep now timeout t).2 /\
  (sweep_expired now timeout t).1 = occupied t - occupied (sweep_expired now timeout t).2 /\
  (drain_all t).1 = occupied t /\ occupied (drain_all t).2 = 0 /\
  (forall m ms rs w, is_sweep m = true -> slots w = t ->
     exists w', rtc alone (mkThread (m :: ms) Between rs, w)
         (mkThread ms Between ((m, Count (sweep_table (expired_by m) t).1) :: rs), w') /\
       slots w' = (sweep_table (expired_by m) t).2).
Proof.
  assert (Hd : occupied (drain_all t).2 = 0).
  { apply occupied_zero_slots. intros id _. unfold drain_all. rewrite slot_sweep. unfold sweep_slot.
    rewrite andb_true_r. destruct (slot t id =? 0) eqn:E; cbn; by bool_to_prop. }
  split; [|split; [|split; [|split; [|split; [|split]]]]].
  - intros id. unfold shared_sweep. rewrite slot_sweep. unfold sweep_slot. by case_if.
  - intros id. unfold sweep_expired. rewrite slot_sweep. unfold sweep_slot. by case_if.
  - pose proof (occupied_sweep (fun v => timeout <=? sat_sub now v) t). unfold shared_sweep. lia.
  - pose proof (occupied_sweep (fun v => sat_sub now v >? timeout) t). unfold sweep_expired. lia.
  - pose proof (occupied_sweep (fun _ => true) t). unfold drain_all in *. lia.
  - done.
  - intros m ms rs w Hm Hw. destruct (sweep_alone m ms rs t [] w 0 Hw) as (w' & Hr & Hs). exists w'.
    split; [|exact Hs]. eapply rtc_l; [|exact Hr]. unfold alone. by destruct m.
Qed.

(** A sender and two receivers on one id: the reply is claimed once, although the
    clock read zero when the query was recorded. *)
Definition ex_progs : list (list method) := [[XdpInsert 7 0; XdpInsert 8 1200]; [XdpTake 7 5000]; [XdpTake 7 6000]].

Lemma ex_interleaving : exists w,
  rtc astep (astart ex_progs)
    ([mkThread [] Between [(XdpInsert 8 1200, Stored); (XdpInsert 7 0, Stored)];
      mkThread [] Between [(XdpTake 7 5000, Rtt None)]; mkThread [] Between [(XdpTake 7 6000, Rtt (Some 5))]], w) /\
  claimed w = [0%nat].
Proof.
  eexists. split.
  - eapply rtc_l; [eapply (a_step _ _ 0%nat); reflexivity|]. cbn [insert list_insert].
    eapply rtc_l; [eapply (a_step _ _ 2%nat); reflexivity|]. cbn [insert list_insert].
    eapply rtc_l; [eapply (a_step _ _ 1%nat); reflexivity|]. cbn [insert list_insert].
    eapply rtc_l; [eapply (a_step _ _ 0%nat); reflexivity|]. cbn [insert list_insert]. apply rtc_refl.
  - vm_compute. reflexivity.
Qed.

Lemma inflight_conservation_witness :
  exists ths w, rtc astep (astart ex_progs) (ths, w) /\ claimed w = [0%nat] /\
    zsum counted ths = 1 /\ zsum n_stored ths = Z.of_nat (length (log w)).
Proof.
  destruct ex_interleaving as (w & Hr & Hc). eexists _, w. split; [exact Hr|]. split; [exact Hc|].
  assert (Hm : Forall (Forall method_ok) ex_progs) by (repeat constructor; unfold in_u; lia).
  destruct (inflight_conservation ex_progs _ w Hm Hr) as (_ & _ & H1 & H2 & _).
  rewrite Hc in H1. split; [exact H1|exact H2].
Defined.

(** ** The hashed table of the single-thread worker (udp.rs, [InFlight]) *)

Module Legacy.

(** [usize::next_power_of_two]; when it does not fit 64 bits the release build
    returns 0. *)
Definition next_power_of_two (c : Z) : Z :=
  let p := if c <=? 1 then 1 else 2 ^ Z.log2_up c in
  if p <? 2 ^ 64 then p else 0.

(** [slots]: the id and its send time; time 0 is an empty slot. *)
Definition new (capacity : Z) : list (Z * Z) :=
  let cap := Z.max (next_power_of_two capacity) 256 in
  replicate (Z.to_nat cap) (0, 0).

Definition index (slots : list (Z * Z)) (id : Z) : nat :=
  Z.to_nat (Z.land id (Z.of_nat (length slots) - 1)).

Definition get (slots : list (Z * Z)) (id : Z) : Z * Z :=
  default (0, 0) (slots !! index slots id).

Definition insert_id (id now_ns : Z) (slots : list (Z * Z)) : option Z * list (Z * Z) :=
  let idx := index slots id in
  let slot := get slots id in
  let evicted := if negb (slot.2 =? 0) && negb (slot.1 =? id)
                 then Some (sat_sub now_ns slot.2 / 1000) else None in
  (evicted, <[idx := (id, now_ns)]> slots).

Definition take (id now_ns : Z) (slots : list (Z * Z)) : option Z * list (Z * Z) :=
  let idx := index slots id in
  let slot := get slots id in
  if negb (slot.2 =? 0) && (slot.1 =? id)
  then (Some (sat_sub now_ns slot.2), <[idx := (0, 0)]> slots)
  else (None, slots).

(** The loops of [sweep] and [drain]: the ages of the slots cleared, in order,
    and the slots after. *)
Fixpoint clear_slots (p : Z -> bool) (now_ns : Z) (slots : list (Z * Z)) : list Z * list (Z * Z) :=
  match slots with
  | [] => ([], [])
  | slot :: rest =>
      let '(ages, rest') := clear_slots p now_ns rest in
      if negb (slot.2 =? 0) && p slot.2
      then (sat_sub now_ns slot.2 / 1000 :: ages, (0, 0) :: rest')
      else (ages, slot :: rest')
  end.

Definition sweep (now_ns timeout_ns : Z) (slots : list (Z * Z)) : list Z * list (Z * Z) :=
  clear_slots (fun t => timeout_ns <=? sat_sub now_ns t) now_ns slots.

Definition drain (now_ns : Z) (slots : list (Z * Z)) : list Z * list (Z * Z) :=
  clear_slots (fun _ => true) now_ns slots.

(** The abstract state: the send time of an id, if it is in flight. *)
Definition pending (slots : list (Z * Z)) (id : Z) : option Z :=
  let slot := get slots id in
  if negb (slot.2 =? 0) && (slot.1 =? id) then Some slot.2 else None.

Definition n_pending (slots : list (Z * Z)) : Z := zsum (fun s => occ s.2) slots.

(** The size is a power of two, and each occupied slot is its id's. *)
Definition wf (slots : list (Z * Z)) : Prop :=
  (exists k, 8 <= k /\ Z.of_nat (length slots) = 2 ^ k) /\
  forall i q t, slots !! i = Some (q, t) -> t <> 0 -> 0 <= q /\ index slots q = i.

Lemma land_size_mod (slots : list (Z * Z)) id :
  (exists k, 8 <= k /\ Z.of_nat (length slots) = 2 ^ k) ->
  Z.land id (Z.of_nat (length slots) - 1) = id mod Z.of_nat (length slots).
Proof.
  intros (k & Hk & Hl). rewrite Hl.
  replace (2 ^ k - 1) with (Z.ones k) by (rewrite Z.ones_equiv; lia).
  apply Z.land_ones. lia.
Qed.

Lemma index_lt slots id : wf slots -> (index slots id < length slots)%nat.
Proof.
  intros [Hk _]. unfold index. rewrite land_size_mod by done.
  destruct Hk as (k & Hk & Hl). assert (0 < 2 ^ k) by lia.
  pose proof (Z.mod_pos_bound id (Z.of_nat (length slots))). lia.
Qed.

Lemma index_insert slots i x id : index (<[i := x]> slots) id = index slots id.
Proof. unfold index. by rewrite length_insert. Qed.

(** Ids closer than the size of the table have different slots. *)
Lemma index_near slots id id' :
  wf slots -> id <> id' -> Z.abs (id - id') < Z.of_nat (length slots) -> index slots id <> index slots id'.
Proof.
  intros Hwf Hne Hd He. destruct Hwf as [Hk _]. unfold index in He.
  rewrite !land_size_mod in He by done.
  assert (0 < Z.of_nat (length slots)) by lia.
  pose proof (Z.mod_pos_bound id (Z.of_nat (length slots))).
  pose proof (Z.mod_pos_bound id' (Z.of_nat (length slots))).
  assert (Hm : id mod Z.of_nat (length slots) = id' mod Z.of_nat (length slots)) by lia.
  pose proof (Z.div_mod id (Z.of_nat (length slots))). pose proof (Z.div_mod id' (Z.of_nat (length slots))).
  set (n := Z.of_nat (length slots)) in *.
  assert (id - id' = n * (id / n - id' / n)) by lia.
  destruct (Z.eq_dec (id / n) (id' / n)); [nia|].
  assert (1 <= Z.abs (id / n - id' / n)) by lia. nia.
Qed.

Lemma get_lookup slots id : wf slots -> slots !! index slots id = Some (get slots id).
Proof.
  intros Hwf. unfold get. destruct (lookup_lt_is_Some_2 slots (index slots id)) as [x Hx];
    [by apply index_lt|]. by rewrite Hx.
Qed.

Lemma get_insert slots id id' x : wf slots ->
  get (<[index slots id := x]> slots) id' =
  if decide (index slots id' = index slots id) then x else get slots id'.
Proof.
  intros Hwf. unfold get at 1. rewrite index_insert. case_decide as E.
  - rewrite E, list_lookup_insert_eq; [done|by apply index_lt].
  - rewrite list_lookup_insert_ne by done. done.
Qed.

Lemma wf_update slots id q t :
  wf slots -> (t <> 0 -> 0 <= q /\ index slots q = index slots id) ->
  wf (<[index slots id := (q, t)]> slots).
Proof.
  intros Hwf Hq. destruct Hwf as [Hk Hs] eqn:E. clear E. split; [by rewrite length_insert|].
  intros i q' t' Hi Ht. rewrite index_insert.
  apply list_lookup_insert_Some in Hi as [(<- & [= <- <-] & _)|(Hne & Hi)].
  - by apply Hq.
  - by apply (Hs i q' t').
Qed.

Lemma new_wf capacity : wf (new capacity).
Proof.
  unfold new. set (cap := Z.max _ 256). split.
  - exists (Z.log2 cap). rewrite length_replicate.
    assert (Hc : exists k, 8 <= k /\ cap = 2 ^ k).
    { assert (exists j, 0 <= j /\ (next_power_of_two capacity = 2 ^ j \/ next_power_of_two capacity = 0))
        as (j & Hj & Hp).
      { unfold next_power_of_two. destruct (capacity <=? 1).
        - exists 0. split; [lia|]. left. done.
        - exists (Z.log2_up capacity). split; [apply Z.log2_up_nonneg|]. case_if; auto. }
      destruct (Z.le_gt_cases 8 j).
      - assert (2 ^ 8 <= 2 ^ j) by (apply Z.pow_le_mono_r; lia).
        destruct Hp as [Hp|Hp]; [exists j|exists 8]; subst cap; rewrite Hp; lia.
      - exists 8. assert (2 ^ j <= 2 ^ 8) by (apply Z.pow_le_mono_r; lia). subst cap. lia. }
    destruct Hc as (k & Hk & Hc). rewrite Hc, Z.log2_pow2 by lia. split; [done|lia].
  - intros i q t Hi Ht. apply lookup_replicate in Hi as [[= _ ->] _]. done.
Qed.

(** [clear_slots] keeps the table's shape and clears the slots that match. *)
Lemma clear_slots_spec p now slots :
  (clear_slots p now slots).2 =
    (fun s => if negb (s.2 =? 0) && p s.2 then (0, 0) else s) <$> slots /\
  (clear_slots p now slots).1 =
    (fun s => sat_sub now s.2 / 1000) <$>
      base.filter (fun s => negb (s.2 =? 0) && p s.2 = true) slots.
Proof.
  induction slots as [|s rest [IH1 IH2]]; [done|]. cbn [clear_slots].
  destruct (clear_slots p now rest) as [ages rest']. cbn [fst snd] in *. subst.
  rewrite !fmap_cons. destruct (negb (s.2 =? 0) && p s.2) eqn:E; cbn [fst snd].
  - rewrite filter_cons_True by done. done.
  - rewrite filter_cons_False by congruence. done.
Qed.

Lemma clear_slots_pending p now slots :
  let slots' := (clear_slots p now slots).2 in
  wf slots -> wf slots' /\
  (forall id, pending slots' id =
     match pending slots id with Some t => if p t then None else Some t | None => None end) /\
  Z.of_nat (length (clear_slots p now slots).1) + n_pending slots' = n_pending slots.
Proof.
  cbn zeta. destruct (clear_slots_spec p now slots) as [-> ->].
  set (f := fun s : Z * Z => if negb (s.2 =? 0) && p s.2 then (0, 0) else s).
  intros Hwf. pose proof Hwf as [Hk Hs].
  assert (Hidx : forall id, index (f <$> slots) id = index slots id)
    by (intros; unfold index; by rewrite length_fmap).
  split; [|split].
  - split; [by rewrite length_fmap|]. intros i q t Hi Ht. rewrite Hidx.
    rewrite list_lookup_fmap in Hi. destruct (slots !! i) as [[q0 t0]|] eqn:E; [|done].
    cbn in Hi. unfold f in Hi. cbn in Hi. case_if_in Hi; inversion Hi; subst; [done|].
    by apply (Hs i q t).
  - intros id. unfold pending, get. rewrite Hidx, list_lookup_fmap.
    destruct (slots !! index slots id) as [[q t]|]; cbn; [|done]. unfold f. cbn.
    destruct (t =? 0) eqn:Et; cbn [negb andb].
    + cbn. by rewrite Et.
    + destruct (p t) eqn:Ep; cbn; rewrite ?Et; cbn; destruct (q =? id); by rewrite ?Ep.
  - unfold n_pending. rewrite length_fmap, zsum_fmap. clear.
    induction slots as [|[q t] rest IH]; [done|]. rewrite !zsum_cons. unfold f at 1. cbn [snd fst] in *.
    destruct (negb (t =? 0) && p t) eqn:E.
    + rewrite filter_cons_True by done. cbn [length snd]. unfold occ in *.
      apply andb_true_iff in E as [E _]. apply negb_true_iff in E. rewrite E. cbn. lia.
    + rewrite filter_cons_False by (cbn; congruence). cbn [snd]. lia.
Qed.

Lemma pending_insert slots id id' q t : wf slots ->
  pending (<[index slots id := (q, t)]> slots) id' =
  if decide (index slots id' = index slots id)
  then if negb (t =? 0) && (q =? id') then Some t else None
  else pending slots id'.
Proof. intros Hwf. unfold pending. rewrite get_insert by done. by case_decide. Qed.

(** The entry that a slot holds is its own id's. *)
Lemma pending_at slots id q t : wf slots ->
  get slots id = (q, t) -> t <> 0 -> index slots q = index slots id /\ pending slots q = Some t.
Proof.
  intros Hwf Hg Ht. pose proof (get_lookup slots id Hwf) as Hl. rewrite Hg in Hl.
  destruct Hwf as [Hk Hs]. destruct (Hs _ _ _ Hl Ht) as [_ Hi]. split; [done|].
  unfold pending, get. rewrite Hi, Hl. cbn [default from_option Datatypes.id fst snd].
  rewrite Z.eqb_refl. by replace (t =? 0) with false by (symmetry; bool_to_prop; lia).
Qed.

(** Another id of the slot that is in flight is the slot's entry. *)
Lemma pending_same_slot slots id id' q t t' :
  get slots id = (q, t) -> index slots id' = index slots id -> pending slots id' = Some t' ->
  t <> 0 /\ q = id' /\ t = t'.
Proof.
  intros Hg Hi Hp. unfold pending, get in Hp. rewrite Hi in Hp. fold (get slots id) in Hp.
  rewrite Hg in Hp. cbn [fst snd] in Hp. case_if_in Hp; [|done]. bool_to_prop. inversion Hp. subst. auto.
Qed.

(** What [insert] reports as evicted. *)
Lemma evicted_spec slots id now q t : wf slots -> get slots id = (q, t) ->
  forall age,
  (if negb (t =? 0) && negb (q =? id) then Some (sat_sub now t / 1000) else None) = Some age <->
  exists id' t', id' <> id /\ index slots id' = index slots id /\
    pending slots id' = Some t' /\ age = sat_sub now t' / 1000.
Proof.
  intros Hwf Hg age. split.
  - case_if; [|done]. intros [= <-]. bool_to_prop.
    destruct (pending_at slots id q t Hwf Hg) as [Hi Hp]; [done|]. by exists q, t.
  - intros (id' & t' & Hne & Hi & Hp & ->).
    destruct (pending_same_slot _ _ _ _ _ _ Hg Hi Hp) as (Ht & -> & ->).
    replace (t' =? 0) with false by (symmetry; bool_to_prop; lia).
    by replace (id' =? id) with false by (symmetry; bool_to_prop; lia).
Qed.

(** The hashed table refines a map from ids to send times.  [insert] records
    the id's time, drops the one other id that shares its slot and reports the age
    of what it dropped, and only then; [take] returns the age of the id's entry
    and removes it; [sweep] removes exactly the entries past the time-out and
    [drain] all of them, each reporting one age per entry removed; all four keep
    the table well formed, and ids closer than its size never collide. *)
Theorem table_refines_map slots id now timeout :
  wf slots -> 0 <= id -> now <> 0 ->
  (let '(ev, s') := insert_id id now slots in
   wf s' /\ pending s' id = Some now /\
   (forall id', id' <> id -> pending s' id' =
      if decide (index slots id' = index slots id) then None else pending slots id') /\
   (forall age, ev = Some age <-> exists id' t, id' <> id /\ index slots id' = index slots id /\
      pending slots id' = Some t /\ age = sat_sub now t / 1000)) /\
  (let '(r, s') := take id now slots in
   wf s' /\ r = sat_sub now <$> pending slots id /\
   forall id', pending s' id' = if decide (id' = id) then None else pending slots id') /\
  (let '(ages, s') := sweep now timeout slots in
   wf s' /\ Z.of_nat (length ages) + n_pending s' = n_pending slots /\
   forall id', pending s' id' = match pending slots id' with
                               | Some t => if timeout <=? sat_sub now t then None else Some t
                               | None => None
                               end) /\
  (let '(ages, s') := drain now slots in
   wf s' /\ Z.of_nat (length ages) + n_pending s' = n_pending slots /\ forall id', pending s' id' = None) /\
  (forall id', id' <> id -> Z.abs (id - id') < Z.of_nat (length slots) -> index slots id <> index slots id').
Proof.
  intros Hwf Hid Hnow. split; [|split; [|split; [|split]]].
  - unfold insert_id. cbn beta zeta. destruct (get slots id) as [q t] eqn:Hg. cbn [fst snd].
    split; [|split; [|split]].
    + apply wf_update; [done|]. intros _. done.
    + rewrite pending_insert by done. rewrite decide_True by done. rewrite Z.eqb_refl.
      by replace (now =? 0) with false by (symmetry; bool_to_prop; lia).
    + intros id' Hne. rewrite pending_insert by done. case_decide; [|done].
      replace (id =? id') with false by (symmetry; bool_to_prop; lia). by rewrite andb_false_r.
    + exact (evicted_spec slots id now q t Hwf Hg).
  - unfold take. cbn beta zeta. unfold pending at 1. destruct (get slots id) as [q t] eqn:Hg. cbn [fst snd].
    destruct (negb (t =? 0) && (q =? id)) eqn:E.
    + bool_to_prop. subst q. split; [by apply wf_update|]. split; [done|].
      intros id'. rewrite pending_insert by done. cbn. case_decide as Hd.
      * case_decide; [done|]. symmetry. unfold pending, get. rewrite Hd. fold (get slots id). rewrite Hg.
        cbn [fst snd]. replace (id =? id') with false by (symmetry; bool_to_prop; lia). by rewrite andb_false_r.
      * case_decide; [subst; done|done].
    + split; [done|]. split; [done|]. intros id'. case_decide; [subst|done].
      unfold pending. rewrite Hg. cbn [fst snd]. by rewrite E.
  - pose proof (clear_slots_pending (fun t => timeout <=? sat_sub now t) now slots) as Hc.
    unfold sweep. destruct (clear_slots _ now slots) as [ages s']. cbn [fst snd] in Hc.
    destruct (Hc Hwf) as (H1 & H2 & H3). done.
  - pose proof (clear_slots_pending (fun _ => true) now slots) as Hc.
    unfold drain. destruct (clear_slots _ now slots) as [ages s']. cbn [fst snd] in Hc.
    destruct (Hc Hwf) as (H1 & H2 & H3). split; [done|]. split; [done|].
    intros id'. rewrite H2. by destruct (pending slots id').
  - intros id' Hne Hd. apply index_near; [done|lia|done].
Qed.

(** The number in flight after a slot is overwritten. *)
Lemma n_pending_update slots id q t : wf slots ->
  n_pending (<[index slots id := (q, t)]> slots) = n_pending slots - occ (get slots id).2 + occ t.
Proof.
  intros Hwf. unfold n_pending. by rewrite (zsum_insert _ _ _ _ _ (get_lookup slots id Hwf)).
Qed.

Lemma n_pending_range slots : 0 <= n_pending slots <= Z.of_nat (length slots).
Proof.
  unfold n_pending. induction slots as [|s rest IH]; [done|]. rewrite zsum_cons. cbn [length].
  pose proof (occ_range s.2). lia.
Qed.

Lemma n_pending_new capacity : n_pending (new capacity) = 0.
Proof.
  unfold n_pending, new. generalize (Z.to_nat (Z.max (next_power_of_two capacity) 256)).
  intros n. induction n as [|n IH]; [done|]. cbn [replicate]. by rewrite zsum_cons, IH.
Qed.

Lemma get_pending slots id : wf slots -> (get slots id).2 <> 0 -> 1 <= n_pending slots.
Proof.
  intros Hwf Ht. pose proof (n_pending_update slots id 0 0 Hwf) as Hu.
  pose proof (n_pending_range (<[index slots id := (0, 0)]> slots)).
  unfold occ in Hu. replace (_ =? 0) with false in Hu by (symmetry; bool_to_prop; lia). cbn in Hu. lia.
Qed.

Lemma table_refines_map_witness :
  (insert_id 256 3000000 (insert_id 0 1000000 (new 256)).2).1 = Some 2000 /\
  pending (insert_id 256 3000000 (insert_id 0 1000000 (new 256)).2).2 256 = Some 3000000.
Proof.
  split; [vm_compute; reflexivity|].
  assert (Hwf : wf (insert_id 0 1000000 (new 256)).2).
  { apply (wf_update (new 256) 0 0 1000000); [apply new_wf|]. intros _. split; [lia|reflexivity]. }
  destruct (table_refines_map (insert_id 0 1000000 (new 256)).2 256 3000000 5 Hwf) as (H & _); [lia|lia|].
  destruct (insert_id 256 3000000 (insert_id 0 1000000 (new 256)).2) as [ev s']. cbn [snd].
  exact (proj1 (proj2 H)).
Defined.

End Legacy.
