(* ===== verification/UdpClosedLoop.v ===== *)
(** * The closed-loop UDP worker

    Models [closed_loop_unified] of [src/transport/udp.rs]: one thread that fills
    the pipe up to [max_outstanding], drains the replies of one [recvmmsg], matches
    each by its id and sweeps the expired slots.

    An instant is its distance from [base] in nanoseconds.  What the kernel and the
    clock answer in one turn of the loop is a [cl_env]; a run is a list of turns.
    The loop that fills the pipe runs at most [max_outstanding - outstanding]
    times, since each turn sends (and counts) a query or leaves the loop: that is
    the fuel of [send_fill], and it is proved enough.

    The theorems: no turn panics, the gate is never exceeded, every query sent is
    counted exactly once (completed, timed out or outstanding), and the gate never
    closes on an empty table; a query whose slot is overwritten by a reuse of its
    id keeps its place in [outstanding] for ever. *)

From Stdlib Require Import ZArith Lia Bool String.
From stdpp Require Import base numbers option list.
From S2P Require Import Prelude Float64 RustStr Dns Query Stats InFlight.

Open Scope Z_scope.

Definition MAX_MSG_SIZE : Z := 512.
(** 10 ms. *)
Definition TIMEOUT_CHECK_INTERVAL : Z := 10000000.

(** [Duration::from_secs_f64(1.0 / qps as f64)], or zero. *)
Definition send_interval (qps : Z) : Z :=
  if qps >? 0 then dur_from_secs_f64 (f64_div (f64_of_Z 1) (f64_of_Z qps)) else 0.

(** ** What the environment answers *)

(** The outcome of [send]. *)
Inductive send_result : Set := SendOk | WouldBlock | SendFailed.

(** One attempt to send: the clock at the rate test, before and after the call. *)
Record attempt : Set := mkAttempt {
  at_due : Z;
  at_send : Z;
  at_res : send_result;
  at_after : Z
}.

(** One turn of the outer loop. *)
Record cl_env : Set := mkEnv {
  e_qps : Z;                   (* qps_per_worker, read in ramp mode *)
  e_qps_now : Z;               (* the clock when the rate changed *)
  e_tries : nat -> attempt;    (* the attempts of the send loop *)
  e_recv : list (list Z);      (* the datagrams of recvmmsg, none when n <= 0 *)
  e_recv_ns : Z;
  e_sweep_now : Z;             (* the clock at the sweep test *)
  e_sweep_ns : Z;
  e_sweep_end : Z
}.

(** ** State *)

Section ClosedLoop.
Context {H : Type} `{HdrHistogram H}.

Record cl_state : Type := mkCl {
  slots : list Z;
  outstanding : Z;
  next_id : Z;
  tmpl_idx : Z;
  sbuf : list Z;
  qps : Z;
  step : Z;
  next_send : Z;
  last_sweep : Z;
  stats : StatsCollector H
}.

Record cl_config : Set := mkConfig {
  wire_pool : WireQueryPool;
  max_outstanding : Z;
  timeout_ns : Z;
  ramp : bool
}.

Definition cl_init (rand_id rand_idx q now : Z) (st : StatsCollector H) : cl_state :=
  mkCl table_new 0 rand_id rand_idx (replicate (Z.to_nat MAX_QUERY) 0) q (send_interval q) now now st.

Definition with_slots (sl : list Z) (o : Z) (st : StatsCollector H) (s : cl_state) : cl_state :=
  mkCl sl o (next_id s) (tmpl_idx s) (sbuf s) (qps s) (step s) (next_send s) (last_sweep s) st.

(** ** The re-read of the rate in ramp mode *)

Definition update_rate (cfg : cl_config) (e : cl_env) (s : cl_state) : cl_state :=
  if ramp cfg && negb (e_qps e =? qps s) then
    mkCl (slots s) (outstanding s) (next_id s) (tmpl_idx s) (sbuf s) (e_qps e)
      (send_interval (e_qps e)) (e_qps_now e) (last_sweep s) (stats s)
  else s.

(** ** The send loop *)

(** The schedule after a send: a bounded catch-up, reset when more than 2 ms
    behind. *)
Definition next_deadline (q st next now : Z) : Z :=
  if q >? 0 then
    let next := next + st in
    if next + 2000000 <? now then now else next
  else next.

(** One turn of the loop: the state, the datagram sent, and whether the loop
    goes on. *)
Definition send_one (cfg : cl_config) (a : attempt) (s : cl_state)
  : outcome (cl_state * option (list Z) * bool) :=
  if (qps s >? 0) && (at_due a <? next_send s) then Done (s, None, false)
  else
    let id := next_id s in
    '(buf, len) ← write_with_index (wire_pool cfg) (tmpl_idx s) id (sbuf s);
    let s := mkCl (slots s) (outstanding s) (wadd 16 id 1) (wadd 64 (tmpl_idx s) 1) buf
               (qps s) (step s) (next_send s) (last_sweep s) (stats s) in
    match at_res a with
    | WouldBlock => Done (s, None, false)
    | SendFailed => Done (with_slots (slots s) (outstanding s) (inc_error (stats s)) s, None, false)
    | SendOk =>
        Done (mkCl (shared_insert id (at_send a) (slots s)) (outstanding s + 1) (next_id s)
                (tmpl_idx s) (sbuf s) (qps s) (step s)
                (next_deadline (qps s) (step s) (next_send s) (at_after a))
                (last_sweep s) (inc_sent (stats s)),
              Some (take (Z.to_nat len) buf), true)
    end.

Fixpoint send_fill (fuel : nat) (cfg : cl_config) (tries : nat -> attempt) (s : cl_state)
  : outcome (cl_state * list (list Z)) :=
  match fuel with
  | O => Done (s, [])
  | S fuel' =>
      if outstanding s <? max_outstanding cfg then
        '(s, sent, more) ← send_one cfg (tries 0%nat) s;
        if (more : bool) then
          '(s, rest) ← send_fill fuel' cfg (fun n => tries (S n)) s;
          Done (s, option_list sent ++ rest)
        else Done (s, option_list sent)
      else Done (s, [])
  end.

(** ** The receive loop *)

(** A reply later than the time-out is counted, but is no latency sample. *)
Definition record_late (rcode : Z) (st : StatsCollector H) : StatsCollector H :=
  if rcode =? 0 then record_rcodes 1 0 0 0 0 st
  else if rcode =? 3 then record_rcodes 0 1 0 0 0 st
  else if rcode =? 2 then record_rcodes 0 0 1 0 0 st
  else if rcode =? 5 then record_rcodes 0 0 0 1 0 st
  else record_rcodes 0 0 0 0 1 st.

Definition recv_one (cfg : cl_config) (recv_ns : Z) (s : cl_state) (msg : list Z) : cl_state :=
  let buf := take (Z.to_nat MAX_MSG_SIZE) msg in
  if Z.of_nat (length buf) <? 4 then s
  else
    let id := from_be_bytes16 (buf !!! 0%nat) (buf !!! 1%nat) in
    let rcode := Z.land (buf !!! 3%nat) 0x0f in
    let v := slot (slots s) id in
    if negb (v =? 0) then
      let rtt_ns := sat_sub recv_ns v in
      with_slots (store id 0 (slots s)) (sat_sub (outstanding s) 1)
        (if rtt_ns <=? timeout_ns cfg then record_response rcode (Z.max (rtt_ns / 1000) 1) (stats s)
         else record_late rcode (stats s)) s
    else s.

(** ** The sweep *)

Definition sweep (cfg : cl_config) (e : cl_env) (s : cl_state) : cl_state :=
  if TIMEOUT_CHECK_INTERVAL <=? sat_sub (e_sweep_now e) (last_sweep s) then
    let '(freed, sl) := shared_sweep (e_sweep_ns e) (timeout_ns cfg) (slots s) in
    let s := with_slots sl (sat_sub (outstanding s) freed)
               (inc_timeouts (Z.to_nat freed) (stats s)) s in
    mkCl (slots s) (outstanding s) (next_id s) (tmpl_idx s) (sbuf s) (qps s) (step s)
      (next_send s) (e_sweep_end e) (stats s)
  else s.

(** ** One turn, and a run until shutdown *)

Definition cl_turn (cfg : cl_config) (e : cl_env) (s : cl_state) : outcome (cl_state * list (list Z)) :=
  let s := update_rate cfg e s in
  '(s, out) ← send_fill (Z.to_nat (max_outstanding cfg - outstanding s)) cfg (e_tries e) s;
  let s := fold_left (recv_one cfg (e_recv_ns e)) (e_recv e) s in
  Done (sweep cfg e s, out).

Fixpoint cl_run (cfg : cl_config) (es : list cl_env) (s : cl_state) : outcome (cl_state * list (list Z)) :=
  match es with
  | [] => Done (s, [])
  | e :: es' =>
      '(s, out) ← cl_turn cfg e s;
      '(s, out') ← cl_run cfg es' s;
      Done (s, out ++ out')
  end.

(** ** Invariant

    [entries] are the pairs of the pool; [base] is what the collector had
    unresolved before this worker started. *)

(** Places of [outstanding] that no slot of the table accounts for. *)
Definition leak (s : cl_state) : Z := outstanding s - occupied (slots s).

Record cl_inv (cfg : cl_config) (base : Z) (s : cl_state) : Prop := mkInv {
  inv_slots : length (slots s) = TABLE_SIZE;
  inv_id : in_u 16 (next_id s);
  inv_idx : 0 <= tmpl_idx s;
  inv_buf : Z.of_nat (length (sbuf s)) = MAX_QUERY;
  inv_leak : 0 <= leak s <= max_outstanding cfg - 1;
  inv_gate : outstanding s <= max_outstanding cfg;
  inv_stats : counters_in_range (stats s);
  inv_balance : unresolved (stats s) = (base + outstanding s) mod 2 ^ 64
}.

Section Invariant.
Variable cfg : cl_config.
Variable entries : list (str * Z).
Hypothesis pool_from : from_pairs entries = Done (wire_pool cfg).
Hypothesis names_fit : Forall (fun e => Z.of_nat (length (as_bytes e.1)) <= 494) entries.
Variable base : Z.

(** A datagram of this pool. *)
Definition is_query (d : list Z) : Prop :=
  exists id nm qt, (nm, qt) ∈ entries /\ d = build_query id nm qt.

Lemma update_rate_inv e s : cl_inv cfg base s ->
  cl_inv cfg base (update_rate cfg e s) /\ leak (update_rate cfg e s) = leak s.
Proof. intros [? ? ? ? ? ? ? ?]. unfold update_rate. case_if; [|done]. by split. Qed.

Lemma outstanding_pos s id : cl_inv cfg base s -> slot (slots s) id <> 0 -> 1 <= outstanding s.
Proof.
  intros Hi Hs. pose proof (occupied_slot (slots s) id) as Ho. pose proof (inv_leak _ _ _ Hi) as Hl.
  unfold leak, occ in *. case_if_in Ho; bool_to_prop; lia.
Qed.

(** One turn of the send loop, when the gate is open. *)
Lemma send_one_inv a s :
  cl_inv cfg base s -> outstanding s < max_outstanding cfg ->
  exists s' d more, send_one cfg a s = Done (s', d, more) /\ cl_inv cfg base s' /\
    leak s <= leak s' /\ outstanding s' = outstanding s + (if (more : bool) then 1 else 0) /\
    Forall is_query (option_list d).
Proof.
  intros Hi Hg. pose proof Hi as [Hsl Hid Hix Hb Hl Hgate Hst Hbal]. unfold send_one.
  case_if; [exists s, None, false; split_and!; try done; try lia; constructor|].
  destruct (write_with_index_total entries (wire_pool cfg) (tmpl_idx s) (next_id s) (sbuf s))
    as (buf & n & nm & qt & Hw & Hn & Hlen & Hin & Hq); try done.
  rewrite Hw. cbn [mbind outcome_bind].
  assert (Hid' : in_u 16 (wadd 16 (next_id s) 1)) by by apply wadd_range.
  assert (Hix' : 0 <= wadd 64 (tmpl_idx s) 1) by (apply (wadd_range 64); lia).
  assert (Hb' : Z.of_nat (length buf) = MAX_QUERY) by (rewrite Hlen; done).
  destruct (at_res a); eexists _, _, _; (split; [reflexivity|]).
  - set (v := Z.max (at_send a) 1). assert (Hv : occ v = 1) by (subst v; unfold occ; ifs_lia).
    assert (Hocc : occupied (shared_insert (next_id s) (at_send a) (slots s)) =
                   occupied (slots s) - occ (slot (slots s) (next_id s)) + 1).
    { unfold shared_insert. rewrite occupied_store by by apply id_in_table. fold v. by rewrite Hv. }
    pose proof (occ_range (slot (slots s) (next_id s))).
    pose proof (occupied_slot (slots s) (next_id s)).
    assert (1 <= occupied (shared_insert (next_id s) (at_send a) (slots s))) by lia.
    unfold leak in *. cbn [slots outstanding].
    split; [|split; [lia|split; [lia|]]].
    + constructor; cbn [slots outstanding next_id tmpl_idx sbuf stats with_slots]; try done; try lia.
      * unfold shared_insert. by rewrite length_store.
      * unfold leak. cbn [slots outstanding]. lia.
      * by apply (exec_call_range CallSent).
      * rewrite unresolved_sent, Hbal, Zplus_mod_idemp_l by done. f_equal. lia.
    + constructor; [|constructor]. by exists (next_id s), nm, qt.
  - unfold leak in *. cbn [slots outstanding]. split_and!; try lia; [|constructor].
    by constructor.
  - unfold leak in *. cbn [slots outstanding with_slots]. split; [|split_and!; try lia; constructor].
    constructor; cbn [slots outstanding next_id tmpl_idx sbuf stats with_slots]; try done.
    by apply (exec_call_range CallError).
Qed.

Lemma send_fill_inv fuel tries s :
  cl_inv cfg base s ->
  exists s' ds, send_fill fuel cfg tries s = Done (s', ds) /\ cl_inv cfg base s' /\
    leak s <= leak s' /\ outstanding s <= outstanding s' /\ Forall is_query ds.
Proof.
  revert tries s. induction fuel as [|fuel IH]; intros tries s Hi; cbn [send_fill].
  { exists s, []. split_and!; try done; lia. }
  case_if; [bool_to_prop|exists s, []; split_and!; try done; lia].
  destruct (send_one_inv (tries 0%nat) s Hi) as (s1 & d & more & -> & Hi1 & Hl1 & Ho1 & Hd1); [done|].
  cbn [mbind outcome_bind]. destruct more.
  - destruct (IH (fun n => tries (S n)) s1 Hi1) as (s2 & ds & -> & Hi2 & Hl2 & Ho2 & Hd2).
    cbn [mbind outcome_bind]. exists s2, (option_list d ++ ds).
    split; [done|]. split; [done|]. split; [lia|]. split; [lia|]. by apply Forall_app.
  - exists s1, (option_list d). split_and!; try done; lia.
Qed.

(** The fuel is enough: with more, the loop does the same. *)
Lemma send_fill_fuel n k tries s :
  cl_inv cfg base s -> max_outstanding cfg - outstanding s <= Z.of_nat n ->
  send_fill (n + k) cfg tries s = send_fill n cfg tries s.
Proof.
  revert tries s. induction n as [|n IH]; intros tries s Hi Hn.
  - destruct k; [done|]. cbn [Nat.add send_fill].
    by replace (_ <? _) with false by (symmetry; bool_to_prop; lia).
  - cbn [Nat.add send_fill]. case_if; [|done]. bool_to_prop.
    destruct (send_one_inv (tries 0%nat) s Hi) as (s1 & d & more & -> & Hi1 & _ & Ho1 & _); [done|].
    cbn [mbind outcome_bind]. destruct more; [|done]. rewrite IH by (done || lia). done.
Qed.

Lemma record_late_call rcode st : exists k, record_late rcode st = exec_call st k /\ unresolved_delta k = -1.
Proof.
  unfold record_late. repeat case_if;
    [exists (CallRcodes 1 0 0 0 0)|exists (CallRcodes 0 1 0 0 0)|exists (CallRcodes 0 0 1 0 0)
    |exists (CallRcodes 0 0 0 1 0)|exists (CallRcodes 0 0 0 0 1)]; done.
Qed.

Lemma recv_stats rcode rtt (late : bool) st : counters_in_range st ->
  let st' := if late then record_response rcode rtt st else record_late rcode st in
  counters_in_range st' /\ unresolved st' = (unresolved st - 1) mod 2 ^ 64.
Proof.
  intros Hr. cbn zeta. destruct late.
  - split; [by apply (exec_call_range (CallResponse rcode rtt))|]. by apply unresolved_response.
  - destruct (record_late_call rcode st) as (k & -> & Hk).
    split; [by apply exec_call_range|]. rewrite unresolved_call by done. by rewrite Hk.
Qed.

Lemma recv_one_inv recv_ns s msg :
  Forall (in_u 8) msg -> cl_inv cfg base s ->
  cl_inv cfg base (recv_one cfg recv_ns s msg) /\ leak (recv_one cfg recv_ns s msg) = leak s.
Proof.
  intros Hm Hi. pose proof Hi as [Hsl Hid Hix Hb Hl Hgate Hst Hbal]. unfold recv_one.
  set (buf := take _ msg). case_if; [by split|]. bool_to_prop.
  set (id := from_be_bytes16 _ _). destruct (negb _) eqn:Ev; [|by split]. bool_to_prop.
  assert (Hidr : in_u 16 id).
  { assert (Hbuf : Forall (in_u 8) buf) by by apply Forall_take.
    rewrite Forall_lookup in Hbuf.
    pose proof (Hbuf 0%nat _ (list_lookup_lookup_total_lt buf 0 ltac:(lia))) as H0'.
    pose proof (Hbuf 1%nat _ (list_lookup_lookup_total_lt buf 1 ltac:(lia))) as H1'.
    unfold in_u, id, from_be_bytes16 in *. change (2 ^ 8) with 256 in *. change (2 ^ 16) with 65536. lia. }
  pose proof (outstanding_pos s id Hi Ev) as Ho.
  assert (Hso : sat_sub (outstanding s) 1 = outstanding s - 1) by (unfold sat_sub; lia).
  assert (Hocc : occupied (store id 0 (slots s)) = occupied (slots s) - 1).
  { rewrite occupied_store by by apply id_in_table. unfold occ at 1.
    replace (_ =? 0) with false by (symmetry; bool_to_prop; lia). cbn. lia. }
  destruct (recv_stats (Z.land (buf !!! 3%nat) 15) (Z.max (sat_sub recv_ns (slot (slots s) id) / 1000) 1)
              (sat_sub recv_ns (slot (slots s) id) <=? timeout_ns cfg) (stats s) Hst) as [Hr1 Hr2].
  split.
  - constructor; cbn [slots outstanding next_id tmpl_idx sbuf stats with_slots]; try done.
    + by rewrite length_store.
    + unfold leak in *. cbn [slots outstanding with_slots]. lia.
    + lia.
    + rewrite Hr2, Hbal, Hso, Zminus_mod_idemp_l. f_equal. lia.
  - unfold leak. cbn [slots outstanding with_slots]. lia.
Qed.

Lemma sweep_inv e s : cl_inv cfg base s -> cl_inv cfg base (sweep cfg e s) /\ leak (sweep cfg e s) = leak s.
Proof.
  intros Hi. pose proof Hi as [Hsl Hid Hix Hb Hl Hgate Hst Hbal]. unfold sweep. case_if; [|by split].
  pose proof (occupied_sweep (fun v => timeout_ns cfg <=? sat_sub (e_sweep_ns e) v) (slots s)) as Ho.
  pose proof (length_sweep (fun v => timeout_ns cfg <=? sat_sub (e_sweep_ns e) v) (slots s)) as Hlen.
  unfold shared_sweep. destruct (sweep_table _ (slots s)) as [freed sl] eqn:E. cbn [fst snd] in *.
  pose proof (occupied_nonneg sl).
  assert (0 <= freed).
  { inversion E; subst. apply zsum_nonneg. intros v _. unfold sweep_slot. case_if; cbn; lia. }
  assert (Hso : sat_sub (outstanding s) freed = outstanding s - freed) by (unfold sat_sub, leak in *; lia).
  destruct (inc_timeouts_stats (Z.to_nat freed) (stats s) Hst) as [Hr Hu].
  split.
  - constructor; cbn [slots outstanding next_id tmpl_idx sbuf stats with_slots]; try done; try lia.
    + unfold leak in *. cbn [slots outstanding with_slots]. lia.
    + rewrite Hu, Hbal, Hso, Zminus_mod_idemp_l. f_equal. lia.
  - unfold leak. cbn [slots outstanding with_slots]. lia.
Qed.

(** The datagrams of a turn are bytes. *)
Definition env_ok (e : cl_env) : Prop := Forall (Forall (in_u 8)) (e_recv e).

Lemma recv_all_inv recv_ns msgs s :
  Forall (Forall (in_u 8)) msgs -> cl_inv cfg base s ->
  cl_inv cfg base (fold_left (recv_one cfg recv_ns) msgs s) /\
  leak (fold_left (recv_one cfg recv_ns) msgs s) = leak s.
Proof.
  intros Hm. revert s. induction Hm as [|m ms Hm Hms IH]; intros s Hi; cbn [fold_left]; [done|].
  destruct (recv_one_inv recv_ns s m Hm Hi) as [Hi1 Hl1].
  destruct (IH _ Hi1) as [Hi2 Hl2]. split; [done|lia].
Qed.

Lemma cl_turn_inv e s : env_ok e -> cl_inv cfg base s ->
  exists s' ds, cl_turn cfg e s = Done (s', ds) /\ cl_inv cfg base s' /\
    leak s <= leak s' /\ Forall is_query ds.
Proof.
  intros He Hi. unfold cl_turn. destruct (update_rate_inv e s Hi) as [Hi1 Hl1].
  set (s1 := update_rate cfg e s) in *.
  destruct (send_fill_inv (Z.to_nat (max_outstanding cfg - outstanding s1)) (e_tries e) s1 Hi1)
    as (s2 & ds & -> & Hi2 & Hl2 & _ & Hd). cbn [mbind outcome_bind].
  destruct (recv_all_inv (e_recv_ns e) (e_recv e) s2 He Hi2) as [Hi3 Hl3].
  destruct (sweep_inv e _ Hi3) as [Hi4 Hl4].
  eexists _, ds. split; [done|]. split; [done|]. split; [lia|done].
Qed.

Lemma cl_run_inv es s : Forall env_ok es -> cl_inv cfg base s ->
  exists s' ds, cl_run cfg es s = Done (s', ds) /\ cl_inv cfg base s' /\
    leak s <= leak s' /\ Forall is_query ds.
Proof.
  intros Hes. revert s. induction Hes as [|e es He Hes IH]; intros s Hi; cbn [cl_run].
  { exists s, []. split_and!; try done; lia. }
  destruct (cl_turn_inv e s He Hi) as (s1 & d1 & -> & Hi1 & Hl1 & Hd1). cbn [mbind outcome_bind].
  destruct (IH s1 Hi1) as (s2 & d2 & -> & Hi2 & Hl2 & Hd2). cbn [mbind outcome_bind].
  exists s2, (d1 ++ d2). split; [done|]. split; [done|]. split; [lia|]. by apply Forall_app.
Qed.

End Invariant.

Lemma cl_init_inv cfg rand_id rand_idx q now st :
  1 <= max_outstanding cfg -> in_u 16 rand_id -> 0 <= rand_idx -> counters_in_range st ->
  cl_inv cfg (unresolved st) (cl_init rand_id rand_idx q now st).
Proof.
  intros Hm Hid Hix Hst. unfold cl_init.
  constructor; cbn [slots outstanding next_id tmpl_idx sbuf stats].
  - apply length_replicate.
  - done.
  - done.
  - reflexivity.
  - unfold leak. cbn [slots outstanding]. rewrite occupied_new. lia.
  - lia.
  - done.
  - rewrite Z.add_0_r, Z.mod_small; [done|apply unresolved_range].
Qed.

(** ** Theorems *)

(** C6. The closed loop, for every behaviour of the kernel and of the clock: no
    turn panics; never more than [max_outstanding] queries are outstanding, and
    never fewer than the table holds; every query sent is at every moment
    completed, timed out or outstanding, exactly once (64-bit counters); and every
    datagram sent is a [build_query] of the pool. *)
Theorem closed_loop_accounting cfg entries es rand_id rand_idx q now st :
  from_pairs entries = Done (wire_pool cfg) ->
  Forall (fun e => Z.of_nat (length (as_bytes e.1)) <= 494) entries ->
  1 <= max_outstanding cfg -> in_u 16 rand_id -> 0 <= rand_idx -> counters_in_range st ->
  Forall env_ok es ->
  exists s out, cl_run cfg es (cl_init rand_id rand_idx q now st) = Done (s, out) /\
    0 <= occupied (slots s) <= outstanding s /\ outstanding s <= max_outstanding cfg /\
    unresolved (stats s) = (unresolved st + outstanding s) mod 2 ^ 64 /\
    Forall (is_query entries) out.
Proof.
  intros Hp Hn Hm Hid Hix Hst Hes.
  destruct (cl_run_inv cfg entries Hp Hn (unresolved st) es (cl_init rand_id rand_idx q now st) Hes)
    as (s & out & Hr & Hi & _ & Hq); [by apply cl_init_inv|].
  exists s, out. destruct Hi as [Hsl _ _ _ Hl Hg _ Hb]. unfold leak in Hl.
  pose proof (occupied_nonneg (slots s)). split; [done|]. split; [lia|]. done.
Qed.

(** The gate never closes for good: in every reachable state whose table is
    empty (all replies in, or swept) the worker can send, and a turn in which the
    kernel accepts the first datagram and no rate is set does send one. *)
Theorem closed_loop_never_stalls cfg entries es rand_id rand_idx q now st s out e :
  from_pairs entries = Done (wire_pool cfg) ->
  Forall (fun e => Z.of_nat (length (as_bytes e.1)) <= 494) entries ->
  1 <= max_outstanding cfg -> in_u 16 rand_id -> 0 <= rand_idx -> counters_in_range st ->
  Forall env_ok es -> cl_run cfg es (cl_init rand_id rand_idx q now st) = Done (s, out) ->
  occupied (slots s) = 0 -> env_ok e -> qps (update_rate cfg e s) = 0 ->
  at_res (e_tries e 0%nat) = SendOk ->
  exists s' d ds, cl_turn cfg e s = Done (s', d :: ds) /\ is_query entries d.
Proof.
  intros Hp Hn Hm Hid Hix Hst Hes Hr Ho He Hq Ha.
  destruct (cl_run_inv cfg entries Hp Hn (unresolved st) es (cl_init rand_id rand_idx q now st) Hes)
    as (s0 & out0 & Hr0 & Hi & _ & _); [by apply cl_init_inv|].
  rewrite Hr in Hr0. inversion Hr0; subst s0 out0; clear Hr0.
  destruct (update_rate_inv cfg (unresolved st) e s Hi) as [Hi1 Hl1]. unfold cl_turn.
  assert (Hout : outstanding (update_rate cfg e s) = outstanding s)
    by (unfold update_rate; by case_if).
  set (s1 := update_rate cfg e s) in *.
  pose proof (inv_leak _ _ _ Hi) as Hl. unfold leak in Hl.
  assert (Hlt : outstanding s1 < max_outstanding cfg) by lia.
  destruct (Z.to_nat (max_outstanding cfg - outstanding s1)) as [|fuel] eqn:Ef; [lia|].
  cbn [send_fill]. replace (_ <? _) with true by (symmetry; bool_to_prop; lia).
  destruct (send_one_inv cfg entries Hp Hn (unresolved st) (e_tries e 0%nat) s1 Hi1 Hlt)
    as (s2 & d & more & Hs & Hi2 & _ & _ & Hd). rewrite Hs. cbn [mbind outcome_bind].
  assert (exists dg, d = Some dg /\ more = true) as (dg & -> & ->).
  { unfold send_one in Hs. rewrite Hq, Ha in Hs. cbn [Z.gtb Z.compare andb] in Hs.
    destruct (write_with_index _ _ _ _) as [[buf n]|]; [|done]. cbn [mbind outcome_bind] in Hs.
    inversion Hs; subst. by eexists. }
  destruct (send_fill_inv cfg entries Hp Hn (unresolved st) fuel (fun n => e_tries e (S n)) s2 Hi2)
    as (s3 & ds & -> & _). cbn [mbind outcome_bind option_list app].
  eexists _, dg, ds. split; [done|]. by inversion Hd.
Qed.

(** A query whose id comes round again before its slot is freed is counted
    twice in [outstanding] and can leave it only once: sending over an occupied
    slot adds one to the surplus of [outstanding] over the table, and no later turn
    (reply, late reply or sweep) ever takes a unit of that surplus back. *)
Theorem closed_loop_leak cfg entries base s :
  from_pairs entries = Done (wire_pool cfg) ->
  Forall (fun e => Z.of_nat (length (as_bytes e.1)) <= 494) entries ->
  cl_inv cfg base s ->
  (forall a s' d, send_one cfg a s = Done (s', Some d, true) ->
     leak s' = leak s + occ (slot (slots s) (next_id s))) /\
  (forall es s' out, Forall env_ok es -> cl_run cfg es s = Done (s', out) -> leak s <= leak s').
Proof.
  intros Hp Hn Hi. split.
  - intros a s' d Hs. unfold send_one in Hs. case_if_in Hs; [done|].
    destruct (write_with_index _ _ _ _) as [[buf n]|]; [|done]. cbn [mbind outcome_bind] in Hs.
    destruct (at_res a); try done. inversion Hs; subst. unfold leak. cbn [slots outstanding].
    unfold shared_insert. destruct Hi as [Hsl Hid _ _ _ _ _ _].
    rewrite occupied_store by by apply id_in_table.
    assert (occ (Z.max (at_send a) 1) = 1) by (unfold occ; ifs_lia). lia.
  - intros es s' out Hes Hr. destruct (cl_run_inv cfg entries Hp Hn base es s Hes Hi)
      as (s0 & out0 & Hr0 & _ & Hl & _). rewrite Hr in Hr0. by inversion Hr0; subst.
Qed.

End ClosedLoop.

(** ** A run that leaks

    Two outstanding queries at most, one query per microsecond, every reply half a
    microsecond later, and one reply (to the first query) that never comes: after
    one round of the 65536 ids, 66 ms, that is long before the time-out of 5 s could
    free the slot, the id of the lost query is reused. *)

Definition ex_pairs1 : list (str * Z) := [(lit "a.com", 1)].

Definition ex_cfg : cl_config :=
  mkConfig (mkPool [build_wire_template (lit "a.com") 1]) 2 5000000000 false.

Definition ex_stats : StatsCollector exact_hist := stats_new.

Definition ok_try : attempt := mkAttempt 0 1 SendOk 1.

Definition reply (n : Z) : list Z := [n / 256; n mod 256; 0x81; 0x80; 0; 1; 0; 0; 0; 0; 0; 0].

(** Send while the gate allows; the replies to [ids] arrive. *)
Definition ex_turn (ids : list Z) : cl_env := mkEnv 0 0 (fun _ => ok_try) (reply <$> ids) 1 0 0 0.

(** The same, [k] microseconds after the start. *)
Definition turn_at (k : Z) (ids : list Z) : cl_env :=
  mkEnv 0 0 (fun _ => mkAttempt (1000 * k) (1000 * k) SendOk (1000 * k + 100)) (reply <$> ids)
    (1000 * k + 500) (1000 * k + 600) (1000 * k + 700) (1000 * k + 800).

(** The first turn sends ids 0 and 1 and only the reply to 1 arrives; the turns
    that follow send one query each, and its reply arrives; the last one, when
    65536 ids have been used, sends id 0 again. *)
Definition lossy_run : list cl_env :=
  turn_at 1 [1] :: ((fun n => turn_at n [n]) <$> seqZ 2 65534) ++ [turn_at 65536 []].

Lemma ex_names : Forall (fun e => Z.of_nat (length (as_bytes e.1)) <= 494) ex_pairs1.
Proof. constructor; [vm_compute; discriminate|constructor]. Qed.

Lemma ex_stats_range : counters_in_range ex_stats.
Proof. intros c. destruct c; cbn; unfold in_u; lia. Qed.

Lemma replies_ok ids : Forall (in_u 16) ids -> Forall (Forall (in_u 8)) (reply <$> ids).
Proof.
  intros Hids. apply Forall_fmap. eapply Forall_impl; [exact Hids|]. intros n Hn. unfold in_u in Hn.
  change (2 ^ 16) with 65536 in Hn.
  repeat constructor; unfold in_u; change (2 ^ 8) with 256; try lia;
    Z.to_euclidean_division_equations; lia.
Qed.

Lemma ex_turn_ok ids : Forall (in_u 16) ids -> env_ok (ex_turn ids).
Proof. apply replies_ok. Qed.

Lemma lossy_run_ok : Forall env_ok lossy_run.
Proof.
  constructor; [apply (replies_ok [1]); repeat constructor; unfold in_u; lia|].
  apply Forall_app. split; [|constructor; [apply (replies_ok []); constructor|constructor]].
  apply Forall_fmap, Forall_forall. intros n Hn. apply elem_of_seqZ in Hn.
  apply (replies_ok [n]). repeat constructor; unfold in_u; change (2 ^ 16) with 65536; lia.
Qed.

Lemma ex_write idx id buf :
  0 <= idx -> in_u 16 id -> Z.of_nat (length buf) = MAX_QUERY ->
  exists buf' n, write_with_index (wire_pool ex_cfg) idx id buf = Done (buf', n) /\
    Z.of_nat (length buf') = MAX_QUERY.
Proof.
  intros Hi Hid Hb.
  destruct (write_with_index_total ex_pairs1 (wire_pool ex_cfg) idx id buf)
    as (buf' & n & nm & qt & Hw & _ & Hl & _); try done; [exact ex_names|].
  exists buf', n. split; [done|]. by rewrite Hl.
Qed.

Lemma reply_id n : from_be_bytes16 (reply n !!! 0%nat) (reply n !!! 1%nat) = n.
Proof. cbn. apply from_to_be16. Qed.

Lemma store_free t n v : (Z.to_nat n < length t)%nat -> slot t n = 0 -> store n 0 (store n v t) = t.
Proof.
  intros Hn Hs. unfold store, slot in *. rewrite list_insert_insert_eq. apply list_insert_id.
  destruct (lookup_lt_is_Some_2 t _ Hn) as [x Hx]. rewrite Hx in *. cbn in Hs. by rewrite Hs.
Qed.

Lemma table_new_slot n : slot table_new n = 0.
Proof.
  unfold slot, table_new. generalize TABLE_SIZE (Z.to_nat n). intros k i.
  destruct (replicate k 0 !! i) eqn:E; [|done]. apply lookup_replicate in E as [-> _]. done.
Qed.

(** The table with the query of id 0, sent at [v], alone in it. *)
Abbreviation only_zero v := (store 0 v table_new).

Lemma length_lost v : length (only_zero v) = TABLE_SIZE.
Proof. rewrite length_store. apply length_replicate. Qed.

Lemma lost_free v n : 0 < n -> slot (only_zero v) n = 0.
Proof. intros. rewrite slot_store_other by lia. apply table_new_slot. Qed.

(** A sweep before the time-out of the lost query finds nothing. *)
Lemma sweep_nothing now timeout v : sat_sub now v < timeout ->
  shared_sweep now timeout (only_zero v) = (0, only_zero v).
Proof.
  intros Hv. unfold shared_sweep, sweep_table.
  assert (He : forall x, x ∈ only_zero v -> sweep_slot (fun v => timeout <=? sat_sub now v) x = (x, 0)).
  { intros x Hx. unfold store in Hx. apply list_elem_of_lookup in Hx as [i Hx].
    apply list_lookup_insert_Some in Hx as [(_ & <- & _)|[_ Hx]]; unfold sweep_slot.
    - case_if; [bool_to_prop; lia|done].
    - unfold table_new in Hx. apply lookup_replicate in Hx as [-> _]. done. }
  revert He. generalize (only_zero v). intros t He. f_equal.
  - induction t as [|x t IH]; [done|]. rewrite zsum_cons, He by left. cbn [snd].
    rewrite IH; [done|]. intros y Hy. apply He. by right.
  - induction t as [|x t IH]; [done|]. rewrite fmap_cons, He by left. cbn [fst]. f_equal.
    apply IH. intros y Hy. apply He. by right.
Qed.

(** One query goes out, whatever else is in flight. *)
Lemma ex_send k s :
  1 <= k -> qps s = 0 -> 0 <= tmpl_idx s -> in_u 16 (next_id s) -> Z.of_nat (length (sbuf s)) = MAX_QUERY ->
  exists b d, Z.of_nat (length b) = MAX_QUERY /\
    send_one ex_cfg (mkAttempt (1000 * k) (1000 * k) SendOk (1000 * k + 100)) s =
    Done (mkCl (store (next_id s) (1000 * k) (slots s)) (outstanding s + 1) (wadd 16 (next_id s) 1)
            (wadd 64 (tmpl_idx s) 1) b 0 (step s) (next_send s) (last_sweep s)
            (inc_sent (stats s) : StatsCollector exact_hist), Some d, true).
Proof.
  intros Hk Hq Hix Hid Hb. unfold send_one. rewrite Hq. cbn [Z.gtb Z.compare andb].
  destruct (ex_write (tmpl_idx s) (next_id s) (sbuf s) Hix Hid Hb) as (b & n & -> & Hb').
  exists b. eexists. split; [done|]. cbn [mbind outcome_bind at_res at_send at_after slots outstanding
    next_id tmpl_idx sbuf qps step next_send last_sweep stats]. unfold shared_insert.
  rewrite Z.max_l by lia. by rewrite ?Hq.
Qed.

(** Its reply arrives: the table is as before. *)
Lemma ex_recv k n t s :
  1 <= k -> in_u 16 n -> length t = TABLE_SIZE -> slot t n = 0 -> slots s = store n (1000 * k) t ->
  recv_one ex_cfg (1000 * k + 500) s (reply n) =
  with_slots t (sat_sub (outstanding s) 1)
    (record_response 0 1 (stats s) : StatsCollector exact_hist) s.
Proof.
  intros Hk Hn Ht Hfree Hs. unfold recv_one. change (take _ (reply n)) with (reply n).
  change (Z.of_nat (length (reply n)) <? 4) with false. cbn match.
  rewrite reply_id. rewrite Hs, slot_store_same by by apply id_in_table.
  replace (1000 * k =? 0) with false by (symmetry; bool_to_prop; lia). cbn match.
  replace (sat_sub (1000 * k + 500) (1000 * k)) with 500 by (unfold sat_sub; lia).
  by rewrite store_free by by apply id_in_table || done.
Qed.

(** [K] queries sent, the first of them alone in the table, all others answered. *)
Record lost_zero (K : Z) (s : cl_state (H := exact_hist)) : Prop := mkLost {
  lz_slots : slots s = only_zero 1000;
  lz_out : outstanding s = 1;
  lz_id : next_id s = K mod 65536;
  lz_qps : qps s = 0;
  lz_idx : 0 <= tmpl_idx s;
  lz_buf : Z.of_nat (length (sbuf s)) = MAX_QUERY;
  lz_sent : sent (stats s) = K;
  lz_completed : completed (stats s) = K - 1;
  lz_timeouts : timeouts (stats s) = 0
}.

(** The sweep at the end of a turn, while the lost query is not out of time. *)
Lemma ex_sweep k ids v s : 0 <= k <= 65536 -> 0 <= v -> slots s = only_zero v -> 0 <= outstanding s ->
  exists l, sweep ex_cfg (turn_at k ids) s =
    (mkCl (slots s) (outstanding s) (next_id s) (tmpl_idx s) (sbuf s) (qps s) (step s) (next_send s) l
      (stats s) : cl_state (H := exact_hist)).
Proof.
  intros Hk Hv Hs Ho. unfold sweep. case_if; [|exists (last_sweep s); by destruct s].
  cbn [turn_at e_sweep_ns timeout_ns ex_cfg e_sweep_end]. rewrite Hs, sweep_nothing by (unfold sat_sub; lia).
  exists (1000 * k + 800). cbn [inc_timeouts Z.to_nat]. unfold with_slots, sat_sub. cbn.
  by rewrite Z.sub_0_r, Z.max_r by lia.
Qed.

(** Another id is sent and answered. *)
Lemma ping_turn n s : lost_zero n s -> 1 < n < 65536 ->
  exists s' d, cl_turn ex_cfg (turn_at n [n]) s = Done (s', d) /\ lost_zero (n + 1) s'.
Proof.
  intros [Hs Ho Hid Hq Hix Hb Hse Hco Hti] Hn. rewrite Z.mod_small in Hid by lia.
  assert (Hn16 : in_u 16 n) by (unfold in_u; lia).
  unfold cl_turn. change (update_rate ex_cfg (turn_at n [n]) s) with s.
  rewrite Ho. change (Z.to_nat (max_outstanding ex_cfg - 1)) with 1%nat.
  cbn [send_fill]. rewrite Ho. change (1 <? max_outstanding ex_cfg) with true. cbn match.
  destruct (ex_send n s) as (b & d & Hb' & Hsend); [lia|done|done|by rewrite Hid|done|].
  change (e_tries (turn_at n [n]) 0%nat) with (mkAttempt (1000 * n) (1000 * n) SendOk (1000 * n + 100)).
  rewrite Hsend. cbn [mbind outcome_bind send_fill option_list app].
  change (e_recv (turn_at n [n])) with [reply n]. change (e_recv_ns (turn_at n [n])) with (1000 * n + 500).
  cbn [fold_left]. rewrite Hid, Hs, Ho.
  rewrite (ex_recv n n (only_zero 1000)) by (done || lia || apply length_lost || (apply lost_free; lia)).
  match goal with |- context [sweep ex_cfg _ ?x] => destruct (ex_sweep n [n] 1000 x) as [l ->] end;
    [lia|lia|done|done|].
  eexists _, _. split; [reflexivity|].
  constructor; cbn [slots outstanding next_id qps tmpl_idx sbuf stats with_slots]; try done.
  - apply (wadd_range 64). lia.
  - change (wadd 64 (sent (stats s)) 1 = n + 1). rewrite Hse. unfold wadd. apply Z.mod_small. lia.
  - change (wadd 64 (completed (stats s)) 1 = n + 1 - 1). rewrite Hco. unfold wadd.
    rewrite Z.mod_small; lia.
Qed.

Lemma cl_run_app {H} `{HdrHistogram H} cfg es es' (s : cl_state (H := H)) :
  cl_run cfg (es ++ es') s =
  ('(s1, o1) ← cl_run cfg es s; '(s2, o2) ← cl_run cfg es' s1; Done (s2, o1 ++ o2)).
Proof.
  revert s. induction es as [|e es IH]; intros s; cbn [app cl_run].
  - cbn. by destruct (cl_run cfg es' s) as [[s2 o2]|].
  - destruct (cl_turn cfg e s) as [[s1 o1]|]; [|done]. cbn [mbind outcome_bind]. rewrite IH.
    destruct (cl_run cfg es s1) as [[s2 o2]|]; [|done]. cbn [mbind outcome_bind].
    destruct (cl_run cfg es' s2) as [[s3 o3]|]; [|done]. cbn. by rewrite app_assoc.
Qed.

(** A round of answered queries. *)
Lemma ping_round k n s : lost_zero n s -> 1 < n -> n + Z.of_nat k <= 65536 ->
  exists s' out, cl_run ex_cfg ((fun n => turn_at n [n]) <$> seqZ n (Z.of_nat k)) s = Done (s', out) /\
    lost_zero (n + Z.of_nat k) s'.
Proof.
  revert n s. induction k as [|k IH]; intros n s Hs Hn Hk.
  { exists s, []. rewrite Z.add_0_r. done. }
  rewrite seqZ_cons by lia. rewrite fmap_cons. cbn [cl_run].
  destruct (ping_turn n s Hs) as (s1 & d1 & -> & Hs1); [lia|]. cbn [mbind outcome_bind].
  destruct (IH (Z.succ n) s1) as (s2 & d2 & Hr & Hs2); [exact Hs1|lia|lia|].
  replace (Z.pred (Z.of_nat (S k))) with (Z.of_nat k) by lia.
  rewrite Hr. cbn [mbind outcome_bind]. exists s2, (d1 ++ d2). split; [done|].
  replace (n + Z.of_nat (S k)) with (Z.succ n + Z.of_nat k) by lia. done.
Qed.

(** The first turn: two queries, one reply. *)
Lemma first_turn : exists s d,
  cl_turn ex_cfg (turn_at 1 [1]) (cl_init 0 0 0 0 ex_stats) = Done (s, d) /\ lost_zero 2 s.
Proof.
  unfold cl_turn. set (s0 := cl_init 0 0 0 0 ex_stats). change (update_rate ex_cfg (turn_at 1 [1]) s0) with s0.
  change (Z.to_nat (max_outstanding ex_cfg - outstanding s0)) with 2%nat.
  cbn [send_fill]. change (outstanding s0 <? max_outstanding ex_cfg) with true. cbn match.
  destruct (ex_send 1 s0) as (b1 & d1 & Hb1 & Hs1); [lia|done|cbn; lia|unfold in_u; cbn; lia|done|].
  change (e_tries (turn_at 1 [1]) 0%nat) with (mkAttempt (1000 * 1) (1000 * 1) SendOk (1000 * 1 + 100)).
  change (e_tries (turn_at 1 [1]) 1%nat) with (mkAttempt (1000 * 1) (1000 * 1) SendOk (1000 * 1 + 100)).
  rewrite Hs1. clear Hs1. cbn [mbind outcome_bind]. set (s1 := mkCl _ _ _ _ _ _ _ _ _ _).
  change (outstanding s1 <? max_outstanding ex_cfg) with true. cbn match.
  destruct (ex_send 1 s1) as (b2 & d2 & Hb2 & Hs2);
    [lia|done|vm_compute; discriminate|unfold in_u; vm_compute; split; [discriminate|reflexivity]|done|].
  rewrite Hs2. clear Hs2. cbn [mbind outcome_bind option_list app].
  change (e_recv (turn_at 1 [1])) with [reply 1]. change (e_recv_ns (turn_at 1 [1])) with (1000 * 1 + 500).
  cbn [fold_left].
  rewrite (ex_recv 1 1 (only_zero 1000)) by (done || lia || apply length_lost || (apply lost_free; lia) || (unfold in_u; lia)).
  match goal with |- context [sweep ex_cfg _ ?x] => destruct (ex_sweep 1 [1] 1000 x) as [l ->] end;
    [lia|lia|done|done|].
  eexists _, _. split; [reflexivity|].
  constructor; cbn [slots outstanding next_id qps tmpl_idx sbuf stats with_slots]; try done.
Qed.

(** The last turn: the query that takes the slot of the lost one. *)
Lemma last_turn s : lost_zero 65536 s ->
  exists s' d, cl_turn ex_cfg (turn_at 65536 []) s = Done (s', d) /\
    outstanding s' = 2 /\ slots s' = only_zero 65536000 /\
    sent (stats s') = 65537 /\ completed (stats s') = 65535 /\ timeouts (stats s') = 0.
Proof.
  intros [Hs Ho Hid Hq Hix Hb Hse Hco Hti]. rewrite Z.mod_same in Hid by lia.
  unfold cl_turn. change (update_rate ex_cfg (turn_at 65536 []) s) with s.
  rewrite Ho. change (Z.to_nat (max_outstanding ex_cfg - 1)) with 1%nat.
  cbn [send_fill]. rewrite Ho. change (1 <? max_outstanding ex_cfg) with true. cbn match.
  destruct (ex_send 65536 s) as (b & d & Hb' & Hsend); [lia|done|done|rewrite Hid; unfold in_u; lia|done|].
  change (e_tries (turn_at 65536 []) 0%nat) with (mkAttempt (1000 * 65536) (1000 * 65536) SendOk (1000 * 65536 + 100)).
  rewrite Hsend. cbn [mbind outcome_bind send_fill option_list app].
  change (e_recv (turn_at 65536 [])) with ([] : list (list Z)). cbn [fold_left].
  rewrite Hid, Hs, Ho.
  assert (Hst : store 0 (1000 * 65536) (only_zero 1000) = only_zero 65536000)
    by (unfold store; change (1000 * 65536) with 65536000; apply list_insert_insert_eq).
  rewrite Hst.
  match goal with |- context [sweep ex_cfg _ ?x] => destruct (ex_sweep 65536 [] 65536000 x) as [l ->] end;
    [lia|lia|reflexivity|cbn [outstanding]; lia|].
  eexists _, _. split; [reflexivity|]. cbn [slots outstanding stats].
  split; [reflexivity|]. split; [reflexivity|]. split; [|by split].
  change (wadd 64 (sent (stats s)) 1 = 65537). by rewrite Hse.
Qed.

Lemma occupied_only_zero v : v <> 0 -> occupied (only_zero v) = 1.
Proof.
  intros Hv. rewrite occupied_store, table_new_slot, occupied_new
    by (apply id_in_table; [apply length_replicate|unfold in_u; lia]).
  unfold occ. replace (v =? 0) with false by (symmetry; bool_to_prop; lia). reflexivity.
Qed.

(** C36. A lost reply can cost a place of the gate for ever.  With two outstanding
    queries allowed, one query per microsecond, and every reply but the first one
    arriving half a microsecond after its query, [lossy_run] ends in a state that
    has sent 65537 queries, completed 65535 and timed none out, whose [outstanding]
    is at the limit of two while the table holds one query, since the last query
    overwrote the slot of the lost one.  From there on, whatever the kernel, the
    server and the clock do, the worker runs on and has at most one query in its
    table: half of the concurrency asked for is gone. *)
Theorem closed_loop_leak_reachable :
  Forall env_ok lossy_run /\
  exists s out, cl_run ex_cfg lossy_run (cl_init 0 0 0 0 ex_stats) = Done (s, out) /\
    sent (stats s) = 65537 /\ completed (stats s) = 65535 /\ timeouts (stats s) = 0 /\
    outstanding s = 2 /\ max_outstanding ex_cfg = 2 /\ occupied (slots s) = 1 /\
    forall es, Forall env_ok es ->
      exists s' out', cl_run ex_cfg es s = Done (s', out') /\
        outstanding s' <= 2 /\ occupied (slots s') <= 1.
Proof.
  split; [exact lossy_run_ok|].
  assert (exists s out, cl_run ex_cfg lossy_run (cl_init 0 0 0 0 ex_stats) = Done (s, out) /\
    outstanding s = 2 /\ slots s = only_zero 65536000 /\
    sent (stats s) = 65537 /\ completed (stats s) = 65535 /\ timeouts (stats s) = 0)
    as (s & out & Hr & Ho & Hsl & Hse & Hco & Hti).
  { destruct first_turn as (s1 & d1 & Ht1 & Hs1).
    destruct (ping_round (Z.to_nat 65534) 2 s1 Hs1) as (s2 & d2 & Hr & Hs2); [lia|lia|].
    rewrite Z2Nat.id in Hr, Hs2 by lia. destruct (last_turn s2 Hs2) as (s3 & d3 & Ht3 & Hs3).
    unfold lossy_run. rewrite app_comm_cons, cl_run_app. cbn [cl_run]. rewrite Ht1.
    cbn [mbind outcome_bind]. rewrite Hr. cbn [mbind outcome_bind]. rewrite Ht3.
    cbn [mbind outcome_bind]. eexists _, _. split; [reflexivity|exact Hs3]. }
  exists s, out. assert (Hocc : occupied (slots s) = 1) by (rewrite Hsl; by apply occupied_only_zero).
  do 6 (split; [first [exact Hr|exact Hse|exact Hco|exact Hti|exact Ho|reflexivity]|]).
  split; [exact Hocc|]. intros es Hes.
  destruct (cl_run_inv ex_cfg ex_pairs1 eq_refl ex_names (unresolved ex_stats) lossy_run
    (cl_init 0 0 0 0 ex_stats) lossy_run_ok) as (s0 & out0 & Hr0 & Hi & _ & _);
    [apply cl_init_inv; [cbn; lia|unfold in_u; lia|lia|exact ex_stats_range]|].
  rewrite Hr in Hr0. inversion Hr0; subst s0 out0; clear Hr0.
  destruct (cl_run_inv ex_cfg ex_pairs1 eq_refl ex_names _ es s Hes Hi) as (s' & out' & Hr' & Hi' & Hl & _).
  exists s', out'. split; [done|]. pose proof (inv_gate _ _ _ Hi') as Hg. cbn in Hg.
  unfold leak in Hl. split; lia.
Qed.

(** ** Witnesses *)

Lemma closed_loop_accounting_witness :
  exists s out, cl_run ex_cfg [ex_turn [5]; ex_turn [6; 7]] (cl_init 5 0 0 0 ex_stats) = Done (s, out) /\
    outstanding s <= 2.
Proof.
  destruct (closed_loop_accounting ex_cfg ex_pairs1 [ex_turn [5]; ex_turn [6; 7]] 5 0 0 0 ex_stats)
    as (s & out & Hr & _ & Hg & _);
    [reflexivity|exact ex_names|cbn; lia|unfold in_u; lia|lia|exact ex_stats_range| |].
  - constructor; [|constructor; [|constructor]]; apply ex_turn_ok; repeat constructor; unfold in_u; lia.
  - exists s, out. split; [exact Hr|exact Hg].
Defined.

Lemma closed_loop_never_stalls_witness :
  exists s' d ds, cl_turn ex_cfg (ex_turn []) (cl_init 5 0 0 0 ex_stats) = Done (s', d :: ds).
Proof.
  destruct (closed_loop_never_stalls ex_cfg ex_pairs1 [] 5 0 0 0 ex_stats (cl_init 5 0 0 0 ex_stats) []
              (ex_turn [])) as (s' & d & ds & Ht & _);
    [reflexivity|exact ex_names|cbn; lia|unfold in_u; lia|lia|exact ex_stats_range|constructor|
     reflexivity|exact occupied_new|constructor|reflexivity|reflexivity|].
  exists s', d, ds. exact Ht.
Defined.

Lemma closed_loop_leak_witness :
  exists s' out, cl_run ex_cfg [ex_turn [5]] (cl_init 5 0 0 0 ex_stats) = Done (s', out) /\
    leak (cl_init 5 0 0 0 ex_stats) <= leak s'.
Proof.
  assert (Hi : cl_inv ex_cfg (unresolved ex_stats) (cl_init 5 0 0 0 ex_stats)).
  { apply cl_init_inv; [cbn; lia|unfold in_u; lia|lia|exact ex_stats_range]. }
  assert (He : Forall env_ok [ex_turn [5]]).
  { constructor; [|constructor]. apply ex_turn_ok. repeat constructor; unfold in_u; lia. }
  destruct (cl_run_inv ex_cfg ex_pairs1 eq_refl ex_names _ _ _ He Hi) as (s' & out & Hr & _).
  exists s', out. split; [exact Hr|].
  exact (proj2 (closed_loop_leak ex_cfg ex_pairs1 (unresolved ex_stats) (cl_init 5 0 0 0 ex_stats)
     eq_refl ex_names Hi) [ex_turn [5]] s' out He Hr).
Defined.
