(* ===== verification/UdpFlood.v ===== *)
(** * The flood and ramp UDP workers

    Models [throughput_udp_tx] and [throughput_udp_rx] of [src/transport/udp.rs]:
    the pair of threads of a worker without an outstanding gate.  The sender writes
    batches of 64 queries and hands them to [sendmmsg]; the receiver drains the
    socket, counts every datagram by its response code and, in ramp mode, turns the
    send times the sender left in the shared table into latency samples.

    What the kernel and the clock answer in one turn is a [tx_env] or an [rx_env].
    Each turn is the state change of a thread that runs alone; that the two threads
    share the table safely is [InFlight.inflight_conservation].

    The theorems: every datagram the kernel accepted is counted as sent, once, by
    the end of the run; a batch registers exactly the ids the kernel accepted, each
    under the id its datagram carries; every datagram received is counted once, and
    no latency sample exceeds the 200 ms horizon. *)

From Stdlib Require Import ZArith Lia Bool String.
From stdpp Require Import base numbers option list.
From S2P Require Import Prelude Float64 RustStr Dns Query Stats InFlight.

Open Scope Z_scope.

Definition TX_BATCH : Z := 64.
Definition FLUSH_STATS : Z := 16.
Definition MAX_MSG_SIZE : Z := 512.
Definition TIMEOUT_CHECK_INTERVAL : Z := 10000000.

(** ** The sender *)

Record tx_env : Set := mkTxEnv {
  t_qps : Z;        (* qps_per_worker *)
  t_qps_now : Z;    (* the clock when the rate changed *)
  t_due_now : Z;    (* the clock at the pacing test *)
  t_send_ns : Z;
  t_sent : Z;       (* what sendmmsg returned: -1, or the number it took *)
  t_after : Z;
  t_flush_ns : Z    (* the collector's clock at a flush *)
}.

Section Sender.
Context {H : Type} `{HdrHistogram H}.

Record tx_state : Type := mkTx {
  local_sent : Z;
  next_id : Z;
  tmpl_idx : Z;
  batch_ctr : Z;
  next_batch : Z;
  last_qps : Z;
  batch_interval : Z;
  tx_flat : list (list Z);   (* TX_BATCH buffers of MAX_QUERY bytes *)
  tx_table : list Z;
  tx_stats : StatsCollector H
}.

Definition tx_init (rand_id rand_idx now : Z) (t : list Z) (st : StatsCollector H) : tx_state :=
  mkTx 0 rand_id rand_idx 0 now 0 0
    (replicate (Z.to_nat TX_BATCH) (replicate (Z.to_nat MAX_QUERY) 0)) t st.

(** Pacing: a new rate restarts the schedule; without a rate every turn is due. *)
Definition pace (track : bool) (e : tx_env) (s : tx_state) : tx_state * bool :=
  if track then
    let s :=
      if negb (t_qps e =? last_qps s) then
        mkTx (local_sent s) (next_id s) (tmpl_idx s) (batch_ctr s) (t_qps_now e) (t_qps e)
          (if t_qps e >? 0
           then dur_from_secs_f64 (f64_div (f64_of_Z TX_BATCH) (f64_of_Z (t_qps e))) else 0)
          (tx_flat s) (tx_table s) (tx_stats s)
      else s in
    (s, (t_qps e =? 0) || (next_batch s <=? t_due_now e))
  else (s, true).

(** The loop that fills the batch: the buffers after it, and each datagram. *)
Fixpoint write_batch (pool : WireQueryPool) (idx id : Z) (bufs : list (list Z))
  : outcome (list (list Z) * list (list Z)) :=
  match bufs with
  | [] => Done ([], [])
  | slot :: rest =>
      '(buf, qlen) ← write_with_index pool idx id slot;
      '(bufs', ds) ← write_batch pool (wadd 64 idx 1) (wadd 16 id 1) rest;
      Done (buf :: bufs', take (Z.to_nat qlen) buf :: ds)
  end.

(** The loop that registers the first [n] ids of the batch. *)
Fixpoint register (n : nat) (id send_ns : Z) (t : list Z) : list Z :=
  match n with
  | O => t
  | S n' => register n' (wadd 16 id 1) send_ns (shared_insert id send_ns t)
  end.

(** The ids after [n] of [id], as the counter advances. *)
Fixpoint advance_id (w : Z) (n : nat) (id : Z) : Z :=
  match n with O => id | S n' => advance_id w n' (wadd w id 1) end.

(** Behind schedule: no burst to catch up. *)
Definition next_slot (track : bool) (q interval next now : Z) : Z :=
  if track && (q >? 0) then
    let next := next + interval in
    if next <? now then now else next
  else next.

Definition send_batch (pool : WireQueryPool) (track : bool) (e : tx_env) (s : tx_state)
  : outcome (tx_state * list (list Z)) :=
  let batch_start_id := next_id s in
  '(bufs, ds) ← write_batch pool (tmpl_idx s) (next_id s) (tx_flat s);
  let n := length (tx_flat s) in
  let send_ns := if track then t_send_ns e else 0 in
  let sent := t_sent e in
  let ls := if sent >? 0 then wadd 64 (local_sent s) sent else local_sent s in
  let tbl := if (sent >? 0) && track then register (Z.to_nat sent) batch_start_id send_ns (tx_table s)
             else tx_table s in
  Done (mkTx ls (advance_id 16 n (next_id s)) (advance_id 64 n (tmpl_idx s)) (wadd 64 (batch_ctr s) 1)
          (next_slot track (last_qps s) (batch_interval s) (next_batch s) (t_after e))
          (last_qps s) (batch_interval s) bufs tbl (tx_stats s),
        take (Z.to_nat sent) ds).

Definition flush (e : tx_env) (s : tx_state) : tx_state :=
  mkTx 0 (next_id s) (tmpl_idx s) (batch_ctr s) (next_batch s) (last_qps s) (batch_interval s)
    (tx_flat s) (tx_table s) (inc_sent_n (local_sent s) (t_flush_ns e) (tx_stats s)).

(** One turn: the datagrams the kernel took are the output. *)
Definition tx_turn (pool : WireQueryPool) (track : bool) (e : tx_env) (s : tx_state)
  : outcome (tx_state * list (list Z)) :=
  let '(s, due) := pace track e s in
  '(s, out) ← (if (due : bool) then send_batch pool track e s else Done (s, []));
  Done (if (batch_ctr s mod FLUSH_STATS =? 0) && (local_sent s >? 0) then flush e s else s, out).

(** The turns up to the shutdown, then the last flush ([last] is its clock). *)
Fixpoint tx_run (pool : WireQueryPool) (track : bool) (es : list tx_env) (last : tx_env) (s : tx_state)
  : outcome (tx_state * list (list Z)) :=
  match es with
  | [] => Done (if local_sent s >? 0 then flush last s else s, [])
  | e :: es' =>
      '(s, out) ← tx_turn pool track e s;
      '(s, out') ← tx_run pool track es' last s;
      Done (s, out ++ out')
  end.

End Sender.

(** ** The receiver *)

Record rx_env : Set := mkRxEnv {
  r_sweep_now : Z;
  r_sweep_ns : Z;
  r_sweep_end : Z;
  r_poll : Z;              (* what poll returned *)
  r_recv : list (list Z);  (* the datagrams of recvmmsg, none when n <= 0 *)
  r_clock : nat -> Z       (* the clock at each datagram *)
}.

Section Receiver.
Context {H : Type} `{HdrHistogram H}.

Record rx_state : Type := mkRx {
  rc : list Z;             (* noerror, nxdomain, servfail, refused, other *)
  since_flush : Z;
  rx_last_sweep : Z;
  rx_table : list Z;
  rx_stats : StatsCollector H
}.

Definition rx_init (now : Z) (t : list Z) (st : StatsCollector H) : rx_state :=
  mkRx [0; 0; 0; 0; 0] 0 now t st.

(** The class of a datagram; one that is no response counts as other. *)
Definition rc_index (buf : list Z) : nat :=
  match resp_rcode <$> parse_response buf with
  | Some r => if r =? 0 then 0%nat else if r =? 3 then 1%nat else if r =? 2 then 2%nat
              else if r =? 5 then 3%nat else 4%nat
  | None => 4%nat
  end.

(** The latency part: what is recorded for a reply, and the table after. *)
Definition rx_latency (track : bool) (horizon recv_ns : Z) (buf : list Z) (t : list Z)
  : list call * list Z :=
  if track && (2 <=? Z.of_nat (length buf)) then
    let id := from_be_bytes16 (buf !!! 0%nat) (buf !!! 1%nat) in
    let '(r, t) := shared_take id recv_ns t in
    match r with
    | Some rtt_ns =>
        ([if rtt_ns <=? horizon then CallLatency (Z.max (rtt_ns / 1000) 1) else CallTimeout], t)
    | None => ([], t)
    end
  else ([], t).

Definition rx_msg (track : bool) (horizon recv_ns : Z) (msg : list Z) (s : rx_state) : rx_state * list call :=
  let buf := take (Z.to_nat MAX_MSG_SIZE) msg in
  let idx := rc_index buf in
  let rc' := alter (fun x => wadd 64 x 1) idx (rc s) in
  let '(calls, t) := rx_latency track horizon recv_ns buf (rx_table s) in
  (mkRx rc' (since_flush s) (rx_last_sweep s) t (fold_left exec_call calls (rx_stats s)), calls).

Fixpoint rx_msgs (track : bool) (horizon : Z) (clock : nat -> Z) (msgs : list (list Z)) (s : rx_state)
  : rx_state * list call :=
  match msgs with
  | [] => (s, [])
  | m :: ms =>
      let '(s, k) := rx_msg track horizon (clock 0%nat) m s in
      let '(s, ks) := rx_msgs track horizon (fun n => clock (S n)) ms s in
      (s, k ++ ks)
  end.

Definition rx_flush (s : rx_state) : rx_state :=
  mkRx [0; 0; 0; 0; 0] 0 (rx_last_sweep s) (rx_table s)
    (record_rcodes (rc s !!! 0%nat) (rc s !!! 1%nat) (rc s !!! 2%nat) (rc s !!! 3%nat)
       (rc s !!! 4%nat) (rx_stats s)).

(** The sweep of stale slots, every 10 ms in ramp mode. *)
Definition rx_sweep (track : bool) (horizon : Z) (e : rx_env) (s : rx_state) : rx_state :=
  if track && (TIMEOUT_CHECK_INTERVAL <=? sat_sub (r_sweep_now e) (rx_last_sweep s)) then
    let '(expired, t) := shared_sweep (r_sweep_ns e) horizon (rx_table s) in
    mkRx (rc s) (since_flush s) (r_sweep_end e) t
      (fold_left exec_call (replicate (Z.to_nat expired) CallTimeout) (rx_stats s))
  else s.

(** [timeout_ns.min(200_000_000)] *)
Definition lat_horizon (timeout_ns : Z) : Z := Z.min timeout_ns 200000000.

Definition rx_turn (track : bool) (timeout_ns : Z) (e : rx_env) (s : rx_state) : rx_state * list call :=
  let horizon := lat_horizon timeout_ns in
  let s := rx_sweep track horizon e s in
  if r_poll e <=? 0 then (s, [])
  else match r_recv e with
       | [] => (s, [])
       | msgs =>
           let '(s, ks) := rx_msgs track horizon (r_clock e) msgs s in
           let s := mkRx (rc s) (since_flush s + 1) (rx_last_sweep s) (rx_table s) (rx_stats s) in
           (if FLUSH_STATS <=? since_flush s then rx_flush s else s, ks)
       end.

(** The turns up to the shutdown, then the last flush. *)
Fixpoint rx_run (track : bool) (timeout_ns : Z) (es : list rx_env) (s : rx_state) : rx_state * list call :=
  match es with
  | [] => (if existsb (fun x => x >? 0) (rc s) then rx_flush s else s, [])
  | e :: es' =>
      let '(s, ks) := rx_turn track timeout_ns e s in
      let '(s, ks') := rx_run track timeout_ns es' s in
      (s, ks ++ ks')
  end.

End Receiver.

(** ** Lemmas on the sender *)

Lemma advance_id_spec w n id : 0 <= w -> in_u w id -> advance_id w n id = (id + Z.of_nat n) mod 2 ^ w.
Proof.
  intros Hw. revert id. induction n as [|n IH]; intros id Hid; cbn [advance_id].
  - rewrite Z.add_0_r, Z.mod_small; [done|exact Hid].
  - rewrite IH by by apply wadd_range. unfold wadd. rewrite Zplus_mod_idemp_l. f_equal. lia.
Qed.

Section SenderProofs.
Context {H : Type} `{HdrHistogram H}.
Variable pool : WireQueryPool.
Variable entries : list (str * Z).
Hypothesis pool_from : from_pairs entries = Done pool.
Hypothesis names_fit : Forall (fun e => Z.of_nat (length (as_bytes e.1)) <= 494) entries.

Definition full_buf (b : list Z) : Prop := Z.of_nat (length b) = MAX_QUERY.

(** The batch is written: the [k]-th datagram is a query with the [k]-th id. *)
Lemma write_batch_total bufs idx id :
  Forall full_buf bufs -> 0 <= idx -> in_u 16 id ->
  exists bufs' ds, write_batch pool idx id bufs = Done (bufs', ds) /\
    Forall full_buf bufs' /\ length bufs' = length bufs /\ length ds = length bufs /\
    forall k d, ds !! k = Some d ->
      exists nm qt, (nm, qt) ∈ entries /\ d = build_query ((id + Z.of_nat k) mod 2 ^ 16) nm qt.
Proof.
  intros Hb. revert idx id. induction Hb as [|b bufs Hb Hbs IH]; intros idx id Hix Hid; cbn [write_batch].
  { exists [], []. split_and!; try done. }
  destruct (write_with_index_total entries pool idx id b)
    as (b' & n & nm & qt & -> & _ & Hl & Hin & Hq); try done. cbn [mbind outcome_bind].
  destruct (IH (wadd 64 idx 1) (wadd 16 id 1)) as (bufs' & ds & -> & Hf & Hl1 & Hl2 & Hds);
    [apply (wadd_range 64); lia|by apply wadd_range|]. cbn [mbind outcome_bind].
  exists (b' :: bufs'), (take (Z.to_nat n) b' :: ds). split; [done|]. split.
  { constructor; [|done]. unfold full_buf. by rewrite Hl. }
  split; [by cbn; rewrite Hl1|]. split; [by cbn; rewrite Hl2|].
  intros [|k] d Hk.
  - inversion Hk; subst. exists nm, qt. split; [done|]. rewrite Hq. f_equal.
    rewrite Z.add_0_r, Z.mod_small; [done|exact Hid].
  - destruct (Hds k d Hk) as (nm' & qt' & Hin' & ->). exists nm', qt'. split; [done|]. f_equal.
    unfold wadd. rewrite Zplus_mod_idemp_l. f_equal. lia.
Qed.

(** What every turn of the sender keeps. *)
Record tx_inv (s : tx_state (H := H)) : Prop := mkTxInv {
  tx_inv_bufs : Forall full_buf (tx_flat s);
  tx_inv_n : Z.of_nat (length (tx_flat s)) = TX_BATCH;
  tx_inv_id : in_u 16 (next_id s);
  tx_inv_idx : in_u 64 (tmpl_idx s);
  tx_inv_local : in_u 64 (local_sent s);
  tx_inv_stats : counters_in_range (tx_stats s)
}.

(** Sent and not yet flushed, together. *)
Definition tx_total (s : tx_state (H := H)) : Z := (get Sent (tx_stats s) + local_sent s) mod 2 ^ 64.

(** [sendmmsg] takes at most the batch. *)
Definition tx_env_ok (e : tx_env) : Prop := t_sent e <= TX_BATCH.

Lemma pace_inv track e s : tx_inv s ->
  tx_inv (pace track e s).1 /\ tx_total (pace track e s).1 = tx_total s.
Proof. intros [? ? ? ? ? ?]. unfold pace. destruct track; [|done]. by case_if. Qed.

Lemma send_batch_total track e s : tx_inv s -> tx_env_ok e ->
  exists s' out, send_batch pool track e s = Done (s', out) /\ tx_inv s' /\
    tx_total s' = (tx_total s + Z.of_nat (length out)) mod 2 ^ 64 /\
    Z.of_nat (length out) = Z.max 0 (t_sent e) /\
    (forall k d, out !! k = Some d -> exists nm qt, (nm, qt) ∈ entries /\
       d = build_query ((next_id s + Z.of_nat k) mod 2 ^ 16) nm qt) /\
    tx_table s' = if (t_sent e >? 0) && track
                  then register (length out) (next_id s) (t_send_ns e) (tx_table s) else tx_table s.
Proof.
  intros [Hb Hn Hid Hix Hl Hst] He. unfold tx_env_ok, TX_BATCH in *. unfold send_batch.
  destruct (write_batch_total (tx_flat s) (tmpl_idx s) (next_id s) Hb)
    as (bufs & ds & -> & Hb' & Hl1 & Hl2 & Hds); [unfold in_u in *; lia|done|].
  cbn [mbind outcome_bind]. eexists _, _. split; [reflexivity|].
  assert (Hlen : Z.of_nat (length (take (Z.to_nat (t_sent e)) ds)) = Z.max 0 (t_sent e)).
  { rewrite length_take, Hl2. lia. }
  split; [|split; [|split; [done|split]]].
  - constructor; cbn [tx_flat next_id tmpl_idx local_sent tx_stats].
    + done.
    + by rewrite Hl1.
    + rewrite advance_id_spec by (done || lia). apply Z.mod_pos_bound. lia.
    + rewrite advance_id_spec by (done || lia). apply Z.mod_pos_bound. lia.
    + case_if; [by apply wadd_range|done].
    + done.
  - unfold tx_total. cbn [tx_stats local_sent]. rewrite Hlen, Zplus_mod_idemp_l.
    destruct (t_sent e >? 0) eqn:E; bool_to_prop.
    + unfold wadd. rewrite Zplus_mod_idemp_r. f_equal. lia.
    + f_equal. lia.
  - intros k d Hk. apply lookup_take_Some in Hk as [Hk _]. by apply Hds.
  - cbn [tx_table]. rewrite length_take, Hl2. destruct (t_sent e >? 0) eqn:E; [|done]. bool_to_prop.
    destruct track; [|done]. cbn [andb]. f_equal. lia.
Qed.

Lemma flush_inv e s : tx_inv s ->
  tx_inv (flush e s) /\ tx_total (flush e s) = tx_total s /\ local_sent (flush e s) = 0.
Proof.
  intros [Hb Hn Hid Hix Hl Hst]. split; [|split; [|done]].
  - constructor; cbn [tx_flat next_id tmpl_idx local_sent tx_stats flush]; try done.
    exact (exec_call_range (CallSentN (local_sent s) (t_flush_ns e)) _ Hst).
  - unfold tx_total. cbn [flush tx_stats local_sent].
    change (inc_sent_n ?n ?t ?st) with (exec_call st (CallSentN n t)).
    rewrite exec_call_get by done. change (call_delta Sent (CallSentN ?n ?t)) with (n + 0).
    rewrite Z.add_0_r, Z.mod_mod by lia. f_equal. lia.
Qed.

Lemma tx_turn_total track e s : tx_inv s -> tx_env_ok e ->
  exists s' out, tx_turn pool track e s = Done (s', out) /\ tx_inv s' /\
    tx_total s' = (tx_total s + Z.of_nat (length out)) mod 2 ^ 64.
Proof.
  intros Hi He. unfold tx_turn. destruct (pace_inv track e s Hi) as [Hi1 Ht1].
  destruct (pace track e s) as [s1 due]. cbn [fst] in *.
  assert (Hbody : exists s2 out, (if due then send_batch pool track e s1 else Done (s1, [])) = Done (s2, out) /\
            tx_inv s2 /\ tx_total s2 = (tx_total s1 + Z.of_nat (length out)) mod 2 ^ 64).
  { destruct due.
    - destruct (send_batch_total track e s1 Hi1 He) as (s2 & out & ? & ? & ? & _). by exists s2, out.
    - exists s1, []. split; [done|]. split; [done|]. cbn [length]. rewrite Z.add_0_r. unfold tx_total.
      by rewrite Z.mod_mod by lia. }
  destruct Hbody as (s2 & out & -> & Hi2 & Ht2). cbn [mbind outcome_bind].
  eexists _, out. split; [reflexivity|]. rewrite <- Ht1. case_if; [|done].
  destruct (flush_inv e s2 Hi2) as (Hi3 & Ht3 & _). split; [done|]. by rewrite Ht3.
Qed.

Lemma tx_run_total track es last s : tx_inv s -> Forall tx_env_ok es ->
  exists s' out, tx_run pool track es last s = Done (s', out) /\ tx_inv s' /\
    tx_total s' = (tx_total s + Z.of_nat (length out)) mod 2 ^ 64 /\ local_sent s' = 0.
Proof.
  intros Hi Hes. revert s Hi. induction Hes as [|e es He Hes IH]; intros s Hi; cbn [tx_run].
  - eexists _, []. split; [reflexivity|]. cbn [length]. rewrite Z.add_0_r.
    assert (Hm : tx_total s mod 2 ^ 64 = tx_total s) by (unfold tx_total; by rewrite Z.mod_mod by lia).
    rewrite Hm. destruct (local_sent s >? 0) eqn:E; bool_to_prop.
    + by apply flush_inv.
    + pose proof (tx_inv_local s Hi) as Hl. unfold in_u in Hl. split; [done|]. split; [done|lia].
  - destruct (tx_turn_total track e s Hi He) as (s1 & o1 & -> & Hi1 & Ht1). cbn [mbind outcome_bind].
    destruct (IH s1 Hi1) as (s2 & o2 & -> & Hi2 & Ht2 & Hl2). cbn [mbind outcome_bind].
    exists s2, (o1 ++ o2). split; [done|]. split; [done|]. split; [|done].
    rewrite Ht2, Ht1, Zplus_mod_idemp_l, length_app. f_equal. lia.
Qed.

End SenderProofs.

(** Registering [n] consecutive ids. *)
Lemma register_slots n id ns t id' :
  length t = TABLE_SIZE -> in_u 16 id -> in_u 16 id' -> Z.of_nat n <= 65536 ->
  slot (register n id ns t) id' =
  if (id' - id) mod 2 ^ 16 <? Z.of_nat n then Z.max ns 1 else slot t id'.
Proof.
  revert id t. induction n as [|n IH]; intros id t Ht Hid Hid' Hn; cbn [register].
  { replace (_ <? _) with false; [done|]. symmetry. bool_to_prop. apply Z.mod_pos_bound. lia. }
  rewrite IH; [|unfold shared_insert; by rewrite length_store|by apply wadd_range|done|lia].
  unfold shared_insert, wadd, in_u in *. rewrite <- Zminus_mod_idemp_r, Zminus_mod_idemp_r, Zminus_mod_idemp_r.
  change (2 ^ 16) with 65536 in *.
  destruct (decide (id' = id)) as [->|Hne].
  - rewrite slot_store_same by (apply id_in_table; [done|unfold in_u; lia]).
    replace ((id - id) mod 65536 <? _) with true; [by case_if|].
    symmetry. rewrite Z.sub_diag. bool_to_prop. change (0 mod 65536) with 0. lia.
  - rewrite slot_store_other by lia.
    assert (Hd : (id' - (id + 1)) mod 65536 = (id' - id) mod 65536 - 1).
    { Z.to_euclidean_division_equations. lia. }
    rewrite Hd. assert (0 < (id' - id) mod 65536 < 65536) by (Z.to_euclidean_division_equations; lia).
    replace ((id' - id) mod 65536 <? Z.of_nat (S n)) with ((id' - id) mod 65536 - 1 <? Z.of_nat n); [done|].
    apply eq_true_iff_eq. rewrite !Z.ltb_lt. lia.
Qed.

(** ** Lemmas on the receiver *)

Section ReceiverProofs.
Context {H : Type} `{HdrHistogram H}.
Implicit Types s : rx_state (H := H).

Record rx_inv s : Prop := mkRxInv {
  rx_inv_rc : length (rc s) = 5%nat;
  rx_inv_range : Forall (in_u 64) (rc s);
  rx_inv_stats : counters_in_range (rx_stats s)
}.

(** Completions counted and not yet flushed, together. *)
Definition rx_total s : Z := (get Completed (rx_stats s) + zsum id (rc s)) mod 2 ^ 64.

(** The calls of the latency part: a sample within the horizon, or a loss. *)
Definition latency_call (k : call) : Prop :=
  match k with
  | CallLatency v => 1 <= v <= 200000
  | CallTimeout => True
  | _ => False
  end.

Lemma latency_call_stats ks (st : StatsCollector H) :
  Forall latency_call ks -> counters_in_range st ->
  counters_in_range (fold_left exec_call ks st) /\
  get Completed (fold_left exec_call ks st) = get Completed st /\
  (balanced st -> balanced (fold_left exec_call ks st)).
Proof.
  intros Hks. revert st. induction Hks as [|k ks Hk Hks IH]; intros st Hst; cbn [fold_left]; [done|].
  destruct (IH (exec_call st k)) as (H1 & H2 & H3); [by apply exec_call_range|].
  split; [done|]. rewrite H2, exec_call_get by done.
  assert (Hd : call_delta Completed k = 0) by by destruct k.
  rewrite Hd, Z.add_0_r, Z.mod_small by apply Hst. split; [done|].
  intros Hb. apply H3, exec_call_balanced; try done. by destruct k.
Qed.

Lemma rx_latency_calls track horizon recv_ns buf t :
  horizon <= 200000000 -> Forall latency_call (rx_latency track horizon recv_ns buf t).1.
Proof.
  intros Hh. unfold rx_latency. case_if; [|constructor].
  unfold shared_take. destruct (negb _); cbn [fst]; [|constructor].
  constructor; [|constructor]. set (rtt := sat_sub _ _). case_if; cbn; [|done]. bool_to_prop.
  assert (0 <= rtt) by apply sat_sub_nonneg. Z.to_euclidean_division_equations. lia.
Qed.

Lemma zsum_alter_inc i l : (i < length l)%nat -> Forall (in_u 64) l ->
  Forall (in_u 64) (alter (fun x => wadd 64 x 1) i l) /\
  zsum id (alter (fun x => wadd 64 x 1) i l) mod 2 ^ 64 = (zsum id l + 1) mod 2 ^ 64.
Proof.
  intros Hi Hl. destruct (lookup_lt_is_Some_2 l i Hi) as [x Hx].
  assert (Ha : alter (fun x => wadd 64 x 1) i l = <[i := wadd 64 x 1]> l).
  { apply list_eq. intros j. destruct (decide (j = i)) as [->|Hne].
    - rewrite list_lookup_alter_eq, list_lookup_insert_eq, Hx by done. done.
    - rewrite list_lookup_alter_ne, list_lookup_insert_ne by done. done. }
  rewrite Ha. split.
  - apply Forall_insert; [done|by apply wadd_range].
  - rewrite (zsum_insert id l i x) by done. unfold id, wadd.
    rewrite Zplus_mod_idemp_r. f_equal. lia.
Qed.

Lemma rc_index_lt buf : (rc_index buf < 5)%nat.
Proof. unfold rc_index. destruct (_ <$> _); repeat case_if; lia. Qed.

Lemma rx_msg_inv track horizon recv_ns m s s' ks :
  horizon <= 200000000 -> rx_msg track horizon recv_ns m s = (s', ks) -> rx_inv s ->
  rx_inv s' /\ rx_total s' = (rx_total s + 1) mod 2 ^ 64 /\
  (balanced (rx_stats s) -> balanced (rx_stats s')) /\ Forall latency_call ks.
Proof.
  intros Hh Hm [Hl Hr Hst]. unfold rx_msg in Hm.
  set (buf := take _ m) in Hm. pose proof (rx_latency_calls track horizon recv_ns buf (rx_table s) Hh) as Hc.
  destruct (rx_latency _ _ _ _ _) as [calls t]. cbn [fst] in Hc. inversion Hm; subst s' ks; clear Hm.
  destruct (latency_call_stats calls (rx_stats s) Hc Hst) as (H1 & H2 & H3).
  destruct (zsum_alter_inc (rc_index buf) (rc s)) as [H4 H5]; [rewrite Hl; apply rc_index_lt|done|].
  split; [|split; [|done]].
  - constructor; cbn [rc rx_stats]; [by rewrite length_alter|done|done].
  - unfold rx_total. cbn [rc rx_stats]. rewrite H2, Zplus_mod_idemp_l.
    rewrite <- Zplus_mod_idemp_r, H5, Zplus_mod_idemp_r. f_equal. lia.
Qed.

Lemma rx_msgs_inv track horizon clock ms s s' ks :
  horizon <= 200000000 -> rx_msgs track horizon clock ms s = (s', ks) -> rx_inv s ->
  rx_inv s' /\ rx_total s' = (rx_total s + Z.of_nat (length ms)) mod 2 ^ 64 /\
  (balanced (rx_stats s) -> balanced (rx_stats s')) /\ Forall latency_call ks.
Proof.
  intros Hh. revert clock s ks. induction ms as [|m ms IH]; intros clock s ks Hm Hi; cbn [rx_msgs] in Hm.
  { inversion Hm; subst. split; [done|]. split; [|done]. unfold rx_total. cbn [length].
    by rewrite Z.add_0_r, Z.mod_mod by lia. }
  destruct (rx_msg track horizon (clock 0%nat) m s) as [s1 k1] eqn:E1.
  destruct (rx_msg_inv _ _ _ _ _ _ _ Hh E1 Hi) as (Hi1 & Ht1 & Hb1 & Hk1).
  destruct (rx_msgs track horizon _ ms s1) as [s2 k2] eqn:E2. inversion Hm; subst.
  destruct (IH _ _ _ E2 Hi1) as (Hi2 & Ht2 & Hb2 & Hk2).
  split; [done|]. split; [|split; [auto|by apply Forall_app]].
  rewrite Ht2, Ht1, Zplus_mod_idemp_l. cbn [length]. f_equal. lia.
Qed.

Lemma rx_flush_inv s : rx_inv s ->
  rx_inv (rx_flush s) /\ rx_total (rx_flush s) = rx_total s /\
  get Completed (rx_stats (rx_flush s)) = rx_total s /\
  (balanced (rx_stats s) -> balanced (rx_stats (rx_flush s))).
Proof.
  intros [Hl Hr Hst]. destruct (rc s) as [|a [|b [|c [|d [|e [|? ?]]]]]] eqn:Erc; try done.
  assert (Hk : call_ok (CallRcodes a b c d e)) by (cbn; by rewrite !Forall_cons in Hr; destruct_ands).
  set (k := CallRcodes a b c d e) in *.
  assert (Hf : rx_stats (rx_flush s) = exec_call (rx_stats s) k) by (unfold rx_flush; by rewrite Erc).
  assert (Hc : get Completed (exec_call (rx_stats s) k) = rx_total s).
  { rewrite exec_call_get by done. unfold k. rewrite rcodes_completed, Zplus_mod_idemp_r by done.
    unfold rx_total. rewrite Erc. f_equal. cbn. unfold id. lia. }
  assert (Hrange : counters_in_range (rx_stats (rx_flush s))) by (rewrite Hf; by apply exec_call_range).
  split; [|split; [|split]].
  - constructor; [done| |done]. repeat constructor; unfold in_u; cbn; lia.
  - unfold rx_total at 1. rewrite Hf, Hc. cbn [rx_flush rc]. change (zsum id [0; 0; 0; 0; 0]) with 0.
    rewrite Z.add_0_r. unfold rx_total. by rewrite Z.mod_mod by lia.
  - by rewrite Hf.
  - rewrite Hf. by apply exec_call_balanced.
Qed.

Lemma rx_sweep_inv track horizon e s : rx_inv s ->
  rx_inv (rx_sweep track horizon e s) /\ rx_total (rx_sweep track horizon e s) = rx_total s /\
  (balanced (rx_stats s) -> balanced (rx_stats (rx_sweep track horizon e s))).
Proof.
  intros [Hl Hr Hst]. unfold rx_sweep. case_if; [|by split].
  destruct (shared_sweep _ _ _) as [n t].
  destruct (latency_call_stats (replicate (Z.to_nat n) CallTimeout) (rx_stats s)) as (H1 & H2 & H3);
    [by apply Forall_replicate|done|].
  split; [by constructor|]. split; [|done]. unfold rx_total. cbn [rx_stats rc]. by rewrite H2.
Qed.

(** The datagrams that a turn reads. *)
Definition received (e : rx_env) : list (list Z) := if r_poll e <=? 0 then [] else r_recv e.

Lemma rx_turn_inv track timeout_ns e s s' ks :
  rx_turn track timeout_ns e s = (s', ks) -> rx_inv s ->
  rx_inv s' /\ rx_total s' = (rx_total s + Z.of_nat (length (received e))) mod 2 ^ 64 /\
  (balanced (rx_stats s) -> balanced (rx_stats s')) /\ Forall latency_call ks.
Proof.
  intros Ht Hi. unfold rx_turn in Ht. set (horizon := lat_horizon timeout_ns) in Ht.
  assert (Hh : horizon <= 200000000) by (subst horizon; unfold lat_horizon; lia).
  destruct (rx_sweep_inv track horizon e s Hi) as (Hi0 & Ht0 & Hb0).
  set (s0 := rx_sweep track horizon e s) in *. unfold received.
  assert (Hnil : (s0, []) = (s', ks) -> rx_inv s' /\ rx_total s' = (rx_total s + Z.of_nat (length (@nil (list Z)))) mod 2 ^ 64 /\
            (balanced (rx_stats s) -> balanced (rx_stats s')) /\ Forall latency_call ks).
  { intros [= <- <-]. split; [done|]. split; [|done]. rewrite Ht0. cbn [length]. rewrite Z.add_0_r.
    unfold rx_total. by rewrite Z.mod_mod by lia. }
  destruct (r_poll e <=? 0); [by apply Hnil|]. destruct (r_recv e) as [|m ms]; [by apply Hnil|].
  destruct (rx_msgs track horizon (r_clock e) (m :: ms) s0) as [s1 k1] eqn:E1.
  destruct (rx_msgs_inv _ _ _ _ _ _ _ Hh E1 Hi0) as (Hi1 & Ht1 & Hb1 & Hk1).
  set (s2 := mkRx (rc s1) (since_flush s1 + 1) (rx_last_sweep s1) (rx_table s1) (rx_stats s1)) in Ht.
  assert (Hi2 : rx_inv s2) by (destruct Hi1; by constructor).
  assert (Ht2 : rx_total s2 = rx_total s1) by done.
  inversion Ht; subst s' ks; clear Ht. rewrite <- Ht0, <- Ht1. case_if.
  - destruct (rx_flush_inv s2 Hi2) as (Hi3 & Ht3 & _ & Hb3). split; [done|]. split; [by rewrite Ht3|].
    split; [auto|done].
  - split; [done|]. split; [done|]. split; [auto|done].
Qed.

Lemma zsum_none_pos l : Forall (in_u 64) l -> existsb (fun x => x >? 0) l = false -> zsum id l = 0.
Proof.
  induction 1 as [|x l Hx Hl IH]; [done|]. cbn [existsb]. intros E. apply orb_false_iff in E as [E1 E2].
  rewrite zsum_cons, IH by done. unfold in_u, id in *. rewrite Z.gtb_ltb in E1. bool_to_prop. lia.
Qed.

Lemma rx_run_inv track timeout_ns es s s' ks :
  rx_run track timeout_ns es s = (s', ks) -> rx_inv s ->
  get Completed (rx_stats s') =
    (rx_total s + zsum (fun e => Z.of_nat (length (received e))) es) mod 2 ^ 64 /\
  (balanced (rx_stats s) -> balanced (rx_stats s')) /\ Forall latency_call ks.
Proof.
  revert s ks. induction es as [|e es IH]; intros s ks Hr Hi; cbn [rx_run] in Hr.
  - inversion Hr; subst s' ks; clear Hr. cbn [zsum foldr]. rewrite Z.add_0_r.
    assert (Hm : rx_total s mod 2 ^ 64 = rx_total s) by (unfold rx_total; by rewrite Z.mod_mod by lia).
    rewrite Hm. destruct (existsb _ (rc s)) eqn:E.
    + destruct (rx_flush_inv s Hi) as (_ & _ & Hc & Hb). done.
    + split; [|done]. unfold rx_total. destruct Hi as [Hl Hrg Hst].
      rewrite (zsum_none_pos _ Hrg E), Z.add_0_r, Z.mod_small; [done|apply Hst].
  - destruct (rx_turn track timeout_ns e s) as [s1 k1] eqn:E1.
    destruct (rx_turn_inv _ _ _ _ _ _ E1 Hi) as (Hi1 & Ht1 & Hb1 & Hk1).
    destruct (rx_run track timeout_ns es s1) as [s2 k2] eqn:E2. inversion Hr; subst.
    destruct (IH _ _ E2 Hi1) as (Hc2 & Hb2 & Hk2). rewrite zsum_cons.
    split; [|split; [auto|by apply Forall_app]].
    rewrite Hc2, Ht1, Zplus_mod_idemp_l. f_equal. lia.
Qed.

End ReceiverProofs.

(** ** Theorems *)

(** The flood sender loses no count: for every behaviour of the kernel and of
    the clock it does not panic, and when the run is over the collector's [sent] has
    grown by exactly the number of datagrams the kernel took (modulo 2^64), the
    batched local count being empty. *)
Theorem flood_tx_counts {H} `{HdrHistogram H} pool entries track es last rand_id rand_idx now t
    (st : StatsCollector H) :
  from_pairs entries = Done pool ->
  Forall (fun e => Z.of_nat (length (as_bytes e.1)) <= 494) entries ->
  in_u 16 rand_id -> in_u 64 rand_idx -> counters_in_range st -> Forall tx_env_ok es ->
  exists s out, tx_run pool track es last (tx_init rand_id rand_idx now t st) = Done (s, out) /\
    get Sent (tx_stats s) = (get Sent st + Z.of_nat (length out)) mod 2 ^ 64 /\ local_sent s = 0.
Proof.
  intros Hp Hn Hid Hix Hst Hes.
  assert (Hi : tx_inv (tx_init rand_id rand_idx now t st)).
  { constructor; cbn [tx_init tx_flat next_id tmpl_idx local_sent tx_stats]; try done.
    by apply Forall_replicate. }
  destruct (tx_run_total pool entries Hp Hn track es last _ Hi Hes) as (s & out & Hr & Hi' & Ht & Hl).
  exists s, out. split; [done|]. split; [|done]. unfold tx_total in Ht.
  rewrite Hl, !Z.add_0_r in Ht. cbn [tx_init tx_stats local_sent] in Ht.
  rewrite Zplus_mod_idemp_l in Ht. rewrite <- Ht, Z.mod_small; [done|].
  apply (tx_inv_stats s Hi').
Qed.

(** A paced batch registers what it sent, and only that: the datagrams the
    kernel took are queries with consecutive ids from the batch's first, the shared
    table holds the batch's send time under exactly those ids, and every other slot
    is as it was. *)
Theorem flood_tx_registers {H} `{HdrHistogram H} pool entries e (s : tx_state (H := H)) :
  from_pairs entries = Done pool ->
  Forall (fun e => Z.of_nat (length (as_bytes e.1)) <= 494) entries ->
  tx_inv s -> length (tx_table s) = TABLE_SIZE -> tx_env_ok e -> 0 < t_sent e ->
  exists s' out, send_batch pool true e s = Done (s', out) /\
    Z.of_nat (length out) = t_sent e /\
    (forall k d, out !! k = Some d -> exists nm qt, (nm, qt) ∈ entries /\
       d = build_query ((next_id s + Z.of_nat k) mod 2 ^ 16) nm qt) /\
    forall id, in_u 16 id ->
      slot (tx_table s') id =
      if (id - next_id s) mod 2 ^ 16 <? t_sent e then Z.max (t_send_ns e) 1 else slot (tx_table s) id.
Proof.
  intros Hp Hn Hi Ht He Hs.
  destruct (send_batch_total pool entries Hp Hn true e s Hi He) as (s' & out & Hr & _ & _ & Hl & Hd & Htb).
  exists s', out. rewrite Z.max_r in Hl by lia. split; [done|]. split; [done|]. split; [done|].
  intros id Hid. rewrite Htb. replace (t_sent e >? 0) with true by (symmetry; rewrite Z.gtb_ltb; bool_to_prop; lia).
  cbn [andb]. unfold tx_env_ok, TX_BATCH in He.
  rewrite register_slots by (done || lia || apply (tx_inv_id s Hi)). by rewrite Hl.
Qed.

(** The flood receiver counts every datagram it reads exactly once, under
    exactly one response code (modulo 2^64), whatever the datagrams hold and however
    the reads and flushes fall; and every latency it records is between 1 us and
    the 200 ms horizon, so that a reused id cannot poison the percentiles. *)
Theorem flood_rx_counts {H} `{HdrHistogram H} track timeout_ns es now t (st : StatsCollector H) s ks :
  counters_in_range st -> rx_run track timeout_ns es (rx_init now t st) = (s, ks) ->
  get Completed (rx_stats s) =
    (get Completed st + zsum (fun e => Z.of_nat (length (received e))) es) mod 2 ^ 64 /\
  (balanced st -> balanced (rx_stats s)) /\
  Forall (fun k => match k with CallLatency v => 1 <= v <= 200000 | CallTimeout => True | _ => False end) ks.
Proof.
  intros Hst Hr.
  assert (Hi : rx_inv (rx_init now t st)).
  { constructor; [done| |done]. repeat constructor; unfold in_u; cbn; lia. }
  destruct (rx_run_inv _ _ _ _ _ _ Hr Hi) as (Hc & Hb & Hk).
  split; [|done]. rewrite Hc. unfold rx_total. cbn [rx_init rx_stats rc].
  change (zsum id [0; 0; 0; 0; 0]) with 0. by rewrite Z.add_0_r, Zplus_mod_idemp_l.
Qed.

(** ** Witnesses *)

Definition ex_pool : WireQueryPool := mkPool [build_wire_template (lit "a.com") 1].
Definition ex_pairs1 : list (str * Z) := [(lit "a.com", 1)].
Definition ex_stats : StatsCollector exact_hist := stats_new.

Lemma ex_flood_stats_range : counters_in_range ex_stats.
Proof. intros c. destruct c; cbn; unfold in_u; lia. Qed.

Lemma ex_flood_names : Forall (fun e => Z.of_nat (length (as_bytes e.1)) <= 494) ex_pairs1.
Proof. constructor; [vm_compute; discriminate|constructor]. Qed.

Definition ex_env (n : Z) : tx_env := mkTxEnv 0 0 0 700 n 800 900.

Lemma flood_tx_counts_witness :
  exists s out, tx_run ex_pool true [ex_env 64; ex_env (-1); ex_env 10] (ex_env 0)
                  (tx_init 65500 0 0 table_new ex_stats) = Done (s, out) /\
    get Sent (tx_stats s) = (0 + Z.of_nat (length out)) mod 2 ^ 64.
Proof.
  destruct (flood_tx_counts ex_pool ex_pairs1 true [ex_env 64; ex_env (-1); ex_env 10] (ex_env 0)
              65500 0 0 table_new ex_stats) as (s & out & Hr & Hs & _);
    [reflexivity|exact ex_flood_names|unfold in_u; lia|unfold in_u; lia|exact ex_flood_stats_range| |].
  - repeat constructor; vm_compute; discriminate.
  - exists s, out. split; [exact Hr|exact Hs].
Defined.

Lemma ex_tx_inv : tx_inv (tx_init 65500 0 0 table_new ex_stats).
Proof.
  constructor; cbn [tx_init tx_flat next_id tmpl_idx local_sent tx_stats];
    [by apply Forall_replicate|reflexivity|unfold in_u; lia|unfold in_u; lia|unfold in_u; lia|
     exact ex_flood_stats_range].
Qed.

Lemma flood_tx_registers_witness :
  exists s' out, send_batch ex_pool true (ex_env 64) (tx_init 65500 0 0 table_new ex_stats) = Done (s', out) /\
    slot (tx_table s') 3 = 700 /\ slot (tx_table s') 40 = 0.
Proof.
  destruct (flood_tx_registers ex_pool ex_pairs1 (ex_env 64) (tx_init 65500 0 0 table_new ex_stats))
    as (s' & out & Hr & _ & _ & Ht);
    [reflexivity|exact ex_flood_names|exact ex_tx_inv|apply length_replicate|vm_compute; discriminate|reflexivity|].
  exists s', out. split; [exact Hr|]. split.
  - rewrite Ht by (unfold in_u; lia). reflexivity.
  - rewrite Ht by (unfold in_u; lia). vm_compute. reflexivity.
Defined.

Definition ex_rx_env : rx_env :=
  mkRxEnv 0 0 0 1 [[0; 3; 0x81; 0x83; 0; 1; 0; 0; 0; 0; 0; 0]; [1; 2]; []] (fun _ => 900000).

Lemma flood_rx_counts_witness :
  exists s ks, rx_run true 5000000000 [ex_rx_env; ex_rx_env] (rx_init 0 [0; 0; 0; 500] ex_stats) = (s, ks) /\
    get Completed (rx_stats s) = 6.
Proof.
  destruct (rx_run true 5000000000 [ex_rx_env; ex_rx_env] (rx_init 0 [0; 0; 0; 500] ex_stats))
    as [s ks] eqn:E.
  exists s, ks. split; [reflexivity|].
  destruct (flood_rx_counts true 5000000000 [ex_rx_env; ex_rx_env] 0 [0; 0; 0; 500] ex_stats s ks
              ex_flood_stats_range E) as [Hc _].
  rewrite Hc. reflexivity.
Defined.
