(* ===== verification/UdpUnified.v ===== *)
(** * The single-thread UDP worker with the hashed table

    Models [unified_udp_worker] of [src/transport/udp.rs] (the single-thread loop
    the two-thread paths superseded): send when the rate and the gate allow, wait
    with [poll] or a spin that reads one datagram, drain, sweep, and at the end of
    the run count what is left in the table as lost.

    The comment of the code promises [sent == completed + lost].  The theorem: it
    holds at the end of every run, for every behaviour of the kernel and of the
    clock, as long as the table has fewer slots than there are ids (that is, for
    [max_outstanding] up to 32768), because then an id never comes round while its
    own query is still in the table. *)

From Stdlib Require Import ZArith Lia Bool String.
From stdpp Require Import base numbers option list.
From S2P Require Import Prelude Float64 RustStr Dns Query Stats InFlight.

Open Scope Z_scope.

Module Unified.

Definition RECV_BATCH : Z := 64.
Definition TIMEOUT_CHECK_INTERVAL : Z := 10000000.

Inductive send_result : Set := SendOk | WouldBlock | SendFailed.

(** What the kernel and the clock answer in one turn. *)
Record env : Set := mkEnv {
  u_qps : Z;
  u_now : Z;                       (* the clock at the top of the turn *)
  u_send_ns : Z;
  u_res : send_result;
  u_spin : option (list Z * Z);    (* the datagram the spin read, and when *)
  u_recv : list (list Z);          (* the datagrams of recvmmsg, none when n <= 0 *)
  u_recv_ns : Z;
  u_sweep_ns : Z
}.

Section Worker.
Context {H : Type} `{HdrHistogram H}.

Record state : Type := mkState {
  in_flight : list (Z * Z);
  local_inflight : Z;
  global_in_flight : Z;
  next_id : Z;
  tmpl_idx : Z;
  last_qps : Z;
  send_interval : Z;
  next_send : Z;
  last_timeout_check : Z;
  single_buf : list Z;
  stats : StatsCollector H
}.

Definition init (max_outstanding rand_id rand_idx now global : Z) (st : StatsCollector H) : state :=
  mkState (Legacy.new (Z.max max_outstanding 1024)) 0 global rand_id rand_idx 0 0 now now
    (replicate (Z.to_nat MAX_QUERY) 0) st.

(** The in-flight table, the two counters and the collector change together. *)
Definition with_flight (t : list (Z * Z)) (l g : Z) (st : StatsCollector H) (s : state) : state :=
  mkState t l g (next_id s) (tmpl_idx s) (last_qps s) (send_interval s) (next_send s)
    (last_timeout_check s) (single_buf s) st.

(** The rate limiter. *)
Definition update_rate (e : env) (s : state) : state :=
  if negb (u_qps e =? last_qps s) then
    mkState (in_flight s) (local_inflight s) (global_in_flight s) (next_id s) (tmpl_idx s) (u_qps e)
      (if u_qps e >? 0 then dur_from_secs_f64 (f64_div (f64_of_Z 1) (f64_of_Z (u_qps e))) else 0)
      (u_now e) (last_timeout_check s) (single_buf s) (stats s)
  else s.

Definition outstanding_ok (max_outstanding : Z) (s : state) : bool :=
  if max_outstanding >? 0 then local_inflight s <? max_outstanding else true.

(** A query that was sent: an eviction is a loss. *)
Definition record_sent (e : env) (s : state) : state :=
  let '(evicted, t) := Legacy.insert_id (next_id s) (u_send_ns e) (in_flight s) in
  let s := match evicted with
           | Some _ => with_flight t (sat_sub (local_inflight s) 1) (wsub 64 (global_in_flight s) 1)
                         (inc_timeout (stats s)) s
           | None => with_flight t (local_inflight s) (global_in_flight s) (stats s) s
           end in
  let s := with_flight (in_flight s) (local_inflight s + 1) (wadd 64 (global_in_flight s) 1)
             (inc_sent (stats s)) s in
  let ns := if u_qps e >? 0 then
              let ns := next_send s + send_interval s in
              if ns <? u_now e then u_now e + send_interval s else ns
            else next_send s in
  mkState (in_flight s) (local_inflight s) (global_in_flight s) (wadd 16 (next_id s) 1) (tmpl_idx s)
    (last_qps s) (send_interval s) ns (last_timeout_check s) (single_buf s) (stats s).

(** Step 1: send when a slot is available. *)
Definition try_send (pool : WireQueryPool) (max_outstanding : Z) (e : env) (s : state)
  : outcome (state * list (list Z)) :=
  if outstanding_ok max_outstanding s && ((u_qps e =? 0) || (next_send s <=? u_now e)) then
    '(buf, qlen) ← write_with_index pool (tmpl_idx s) (next_id s) (single_buf s);
    let s := mkState (in_flight s) (local_inflight s) (global_in_flight s) (next_id s)
               (wadd 64 (tmpl_idx s) 1) (last_qps s) (send_interval s) (next_send s)
               (last_timeout_check s) buf (stats s) in
    Done (match u_res e with
          | SendOk => (record_sent e s, [take (Z.to_nat qlen) buf])
          | WouldBlock => (s, [])
          | SendFailed => (with_flight (in_flight s) (local_inflight s) (global_in_flight s)
                             (inc_error (stats s)) s, [])
          end)
  else Done (s, []).

(** A datagram: at least the id must be there. *)
Definition recv_one (recv_ns : Z) (s : state) (buf : list Z) : state :=
  let len := Z.of_nat (length buf) in
  if len <? 2 then s
  else
    let id := from_be_bytes16 (buf !!! 0%nat) (buf !!! 1%nat) in
    let rcode := if 4 <=? len then Z.land (buf !!! 3%nat) 0x0f else 0 in
    match Legacy.take id recv_ns (in_flight s) with
    | (Some rtt_ns, t) =>
        with_flight t (sat_sub (local_inflight s) 1) (wsub 64 (global_in_flight s) 1)
          (record_response rcode (Z.max (rtt_ns / 1000) 1) (stats s)) s
    | (None, _) => s
    end.

(** Step 2: less than a millisecond to wait is spent reading the socket. *)
Definition poll_us (e : env) (s : state) : Z :=
  if (u_qps e >? 0) && (u_now e <? next_send s) then (next_send s - u_now e) / 1000 else 0.

Definition spin (e : env) (s : state) : state :=
  if (0 <? poll_us e s) && (poll_us e s <? 1000) then
    match u_spin e with
    | Some (buf, recv_ns) => recv_one recv_ns s buf
    | None => s
    end
  else s.

(** Step 4: the sweep; a time-out is a loss, never a sample. *)
Definition sweep (timeout_ns : Z) (e : env) (s : state) : state :=
  if TIMEOUT_CHECK_INTERVAL <=? sat_sub (u_now e) (last_timeout_check s) then
    let '(expired, t) := Legacy.sweep (u_sweep_ns e) timeout_ns (in_flight s) in
    let n := length expired in
    let s := with_flight t (sat_sub (local_inflight s) (Z.of_nat n))
               (sat_sub (global_in_flight s) (Z.of_nat n)) (inc_timeouts n (stats s)) s in
    mkState (in_flight s) (local_inflight s) (global_in_flight s) (next_id s) (tmpl_idx s) (last_qps s)
      (send_interval s) (next_send s) (u_now e) (single_buf s) (stats s)
  else s.

Definition turn (pool : WireQueryPool) (max_outstanding timeout_ns : Z) (e : env) (s : state)
  : outcome (state * list (list Z)) :=
  let s := update_rate e s in
  '(s, out) ← try_send pool max_outstanding e s;
  let s := spin e s in
  let s := fold_left (recv_one (u_recv_ns e)) (u_recv e) s in
  Done (sweep timeout_ns e s, out).

(** The end of the run: what is still in flight is lost. *)
Definition finish (now_ns : Z) (s : state) : state :=
  let '(remaining, t) := Legacy.drain now_ns (in_flight s) in
  let n := length remaining in
  with_flight t (local_inflight s) (sat_sub (global_in_flight s) (Z.of_nat n))
    (inc_timeouts n (stats s)) s.

Fixpoint run (pool : WireQueryPool) (max_outstanding timeout_ns : Z) (es : list env) (end_ns : Z) (s : state)
  : outcome (state * list (list Z)) :=
  match es with
  | [] => Done (finish end_ns s, [])
  | e :: es' =>
      '(s, out) ← turn pool max_outstanding timeout_ns e s;
      '(s, out') ← run pool max_outstanding timeout_ns es' end_ns s;
      Done (s, out ++ out')
  end.

(** ** Invariant

    [cap] is the size of the table, [base] what the collector had unresolved and
    [g0] the other workers' share of the global counter. *)

Record inv (max_outstanding cap base g0 : Z) (s : state) : Prop := mkInv {
  inv_wf : Legacy.wf (in_flight s);
  inv_cap : Z.of_nat (length (in_flight s)) = cap;
  inv_window : forall i q t, in_flight s !! i = Some (q, t) -> t <> 0 ->
    in_u 16 q /\ 1 <= (next_id s - q) mod 2 ^ 16 <= cap;
  inv_id : in_u 16 (next_id s);
  inv_idx : 0 <= tmpl_idx s;
  inv_buf : Z.of_nat (length (single_buf s)) = MAX_QUERY;
  inv_local : local_inflight s = Legacy.n_pending (in_flight s);
  inv_global : global_in_flight s = g0 + Legacy.n_pending (in_flight s);
  inv_stats : counters_in_range (stats s);
  inv_balance : unresolved (stats s) = (base + Legacy.n_pending (in_flight s)) mod 2 ^ 64;
  inv_gate : 0 < max_outstanding -> local_inflight s <= max_outstanding
}.

Section Invariant.
Variable pool : WireQueryPool.
Variable entries : list (str * Z).
Hypothesis pool_from : from_pairs entries = Done pool.
Hypothesis names_fit : Forall (fun e => Z.of_nat (length (as_bytes e.1)) <= 494) entries.
Variables max_outstanding cap base g0 timeout_ns : Z.
Hypothesis cap_small : cap < 65536.
Hypothesis g0_small : 0 <= g0 < 2 ^ 63.

(** The clock has advanced when a query is sent. *)
Definition env_ok (e : env) : Prop := 0 < u_send_ns e.

Lemma u_update_rate_inv e s : inv max_outstanding cap base g0 s ->
  inv max_outstanding cap base g0 (update_rate e s) /\ local_inflight (update_rate e s) = local_inflight s.
Proof. intros [? ? ? ? ? ? ? ? ? ? ?]. unfold update_rate. case_if; by split. Qed.

Lemma n_small s : inv max_outstanding cap base g0 s -> 0 <= Legacy.n_pending (in_flight s) <= cap.
Proof. intros Hi. rewrite <- (inv_cap _ _ _ _ _ Hi). apply Legacy.n_pending_range. Qed.

(** The slot of the next id is free, or holds another id. *)
Lemma next_slot_other s q t : inv max_outstanding cap base g0 s ->
  Legacy.get (in_flight s) (next_id s) = (q, t) -> t <> 0 -> q <> next_id s.
Proof.
  intros Hi Hg Ht ->. pose proof (Legacy.get_lookup _ (next_id s) (inv_wf _ _ _ _ _ Hi)) as Hl.
  rewrite Hg in Hl. destruct (inv_window _ _ _ _ _ Hi _ _ _ Hl Ht) as [_ Hw].
  rewrite Z.sub_diag in Hw. change (0 mod 2 ^ 16) with 0 in Hw. lia.
Qed.

(** The entries that survive an insertion stay within one table of the next id. *)
Lemma window_insert s t' : inv max_outstanding cap base g0 s ->
  forall i q t, <[Legacy.index (in_flight s) (next_id s) := (next_id s, t')]> (in_flight s) !! i = Some (q, t) ->
  t <> 0 -> in_u 16 q /\ 1 <= (wadd 16 (next_id s) 1 - q) mod 2 ^ 16 <= cap.
Proof.
  intros Hi i q t Hl Ht. pose proof (inv_id _ _ _ _ _ Hi) as Hid.
  pose proof (inv_cap _ _ _ _ _ Hi) as Hcap. pose proof (inv_wf _ _ _ _ _ Hi) as Hwf.
  unfold wadd. rewrite Zminus_mod_idemp_l.
  assert (H256 : 256 <= cap).
  { destruct Hwf as [(k & Hk & Hlen) _]. assert (2 ^ 8 <= 2 ^ k) by (apply Z.pow_le_mono_r; lia). lia. }
  apply list_lookup_insert_Some in Hl as [(<- & [= <- <-] & _)|(Hne & Hl)].
  - split; [done|]. replace (next_id s + 1 - next_id s) with 1 by lia. change (1 mod 2 ^ 16) with 1. lia.
  - destruct (inv_window _ _ _ _ _ Hi _ _ _ Hl Ht) as [Hq Hw]. split; [done|].
    destruct Hwf as [Hk Hs]. destruct (Hs _ _ _ Hl Ht) as [_ Hidx].
    assert (Hd : (next_id s - q) mod 2 ^ 16 <> cap).
    { intros Hd. apply Hne. rewrite <- Hidx. unfold Legacy.index. rewrite !Legacy.land_size_mod by done.
      rewrite Hcap. f_equal. destruct Hk as (k & Hk8 & Hk). rewrite Hcap in Hk.
      assert (Hdiv : (cap | 2 ^ 16)).
      { rewrite Hk. assert (k < 16). { apply (Z.pow_lt_mono_r_iff 2); [lia|lia|]. rewrite <- Hk. lia. }
        exists (2 ^ (16 - k)). rewrite <- Z.pow_add_r by lia. f_equal. lia. }
      destruct Hdiv as [m Hm]. rewrite Z.mod_eq in Hd by lia.
      remember ((next_id s - q) / 2 ^ 16) as d eqn:Ed. clear Ed.
      assert (Hmd : 2 ^ 16 * d = m * d * cap) by (rewrite Hm; ring).
      replace (next_id s) with (q + (1 + m * d) * cap) by lia.
      by rewrite Z.mod_add by lia. }
    unfold in_u in *. change (2 ^ 16) with 65536 in *. Z.to_euclidean_division_equations. lia.
Qed.

Lemma record_sent_inv e s : env_ok e -> inv max_outstanding cap base g0 s ->
  (0 < max_outstanding -> local_inflight s < max_outstanding) ->
  inv max_outstanding cap base g0 (record_sent e s).
Proof.
  intros He Hi Hgate. pose proof (n_small s Hi) as Hn. pose proof Hi as [Hwf Hcap Hw Hid Hix Hb Hl Hg Hst Hbal _].
  unfold record_sent, Legacy.insert_id. destruct (Legacy.get (in_flight s) (next_id s)) as [q t] eqn:Eg.
  cbn [fst snd]. unfold env_ok in He.
  pose proof (Legacy.n_pending_update (in_flight s) (next_id s) (next_id s) (u_send_ns e) Hwf) as Hnp.
  rewrite Eg in Hnp. cbn [snd] in Hnp.
  assert (Ho : occ (u_send_ns e) = 1) by (unfold occ; ifs_lia). rewrite Ho in Hnp.
  assert (Hwf' : Legacy.wf (<[Legacy.index (in_flight s) (next_id s) := (next_id s, u_send_ns e)]> (in_flight s))).
  { apply Legacy.wf_update; [done|]. intros _. unfold in_u in Hid. split; [lia|done]. }
  assert (Hid' : in_u 16 (wadd 16 (next_id s) 1)) by by apply wadd_range.
  destruct (t =? 0) eqn:Et; cbn [negb andb]; bool_to_prop.
  - subst t. cbn in Hnp. constructor; cbn [in_flight local_inflight global_in_flight next_id tmpl_idx single_buf stats with_flight]; try done.
    + by rewrite length_insert.
    + by apply window_insert.
    + lia.
    + rewrite wadd_small by (change (2 ^ 64) with (2 * 2 ^ 63); lia). lia.
    + by apply (exec_call_range CallSent).
    + rewrite unresolved_sent, Hbal, Zplus_mod_idemp_l by done. f_equal. lia.
    + lia.
  - pose proof (next_slot_other s q t Hi Eg Et) as Hne.
    replace (q =? next_id s) with false by (symmetry; bool_to_prop; lia). cbn [negb].
    assert (Hpos : 1 <= Legacy.n_pending (in_flight s)) by (apply (Legacy.get_pending _ (next_id s) Hwf); by rewrite Eg).
    assert (Hocc : occ t = 1) by (unfold occ; ifs_lia). rewrite Hocc in Hnp.
    assert (Hsat : sat_sub (local_inflight s) 1 + 1 = local_inflight s) by (unfold sat_sub; lia).
    constructor; cbn [in_flight local_inflight global_in_flight next_id tmpl_idx single_buf stats with_flight]; try done.
    + by rewrite length_insert.
    + by apply window_insert.
    + lia.
    + rewrite wsub_small by (change (2 ^ 64) with (2 * 2 ^ 63); lia).
      rewrite wadd_small by (change (2 ^ 64) with (2 * 2 ^ 63); lia). lia.
    + apply (exec_call_range CallSent), (exec_call_range CallTimeout). done.
    + rewrite unresolved_sent by by apply (exec_call_range CallTimeout).
      rewrite unresolved_timeout, Hbal by done.
      rewrite Zminus_mod_idemp_l, Zplus_mod_idemp_l. f_equal. lia.
    + lia.
Qed.

Lemma take_window s id : inv max_outstanding cap base g0 s ->
  forall i q t, <[Legacy.index (in_flight s) id := (0, 0)]> (in_flight s) !! i = Some (q, t) ->
  t <> 0 -> in_u 16 q /\ 1 <= (next_id s - q) mod 2 ^ 16 <= cap.
Proof.
  intros Hi i q t Hl Ht. apply list_lookup_insert_Some in Hl as [(_ & [= <- <-] & _)|(_ & Hl)]; [done|].
  by apply (inv_window _ _ _ _ _ Hi i q t).
Qed.

Lemma u_recv_one_inv recv_ns s buf : inv max_outstanding cap base g0 s ->
  inv max_outstanding cap base g0 (recv_one recv_ns s buf).
Proof.
  intros Hi. pose proof (n_small s Hi) as Hn. pose proof Hi as [Hwf Hcap Hw Hid Hix Hb Hl Hg Hst Hbal Hgate].
  unfold recv_one. case_if; [done|]. set (id := from_be_bytes16 _ _).
  unfold Legacy.take. destruct (Legacy.get (in_flight s) id) as [q t] eqn:Eg. cbn [fst snd].
  destruct (negb (t =? 0) && (q =? id)) eqn:E; [|done]. bool_to_prop.
  pose proof (Legacy.n_pending_update (in_flight s) id 0 0 Hwf) as Hnp. rewrite Eg in Hnp. cbn [snd] in Hnp.
  assert (Hocc : occ t = 1) by (unfold occ; ifs_lia). rewrite Hocc in Hnp. change (occ 0) with 0 in Hnp.
  pose proof (Legacy.n_pending_range (<[Legacy.index (in_flight s) id := (0, 0)]> (in_flight s))) as [Hpos _].
  assert (Hsat : sat_sub (local_inflight s) 1 = local_inflight s - 1) by (unfold sat_sub; lia).
  constructor; cbn [in_flight local_inflight global_in_flight next_id tmpl_idx single_buf stats with_flight]; try done.
  - by apply Legacy.wf_update.
  - by rewrite length_insert.
  - by apply take_window.
  - lia.
  - rewrite wsub_small by (change (2 ^ 64) with (2 * 2 ^ 63); lia). lia.
  - match goal with |- counters_in_range (record_response ?r ?v _) => by apply (exec_call_range (CallResponse r v)) end.
  - rewrite unresolved_response, Hbal, Zminus_mod_idemp_l by done. f_equal. lia.
  - lia.
Qed.

(** The entries that a clearing loop leaves were there before. *)
Lemma clear_lookup p now slots i q t :
  (Legacy.clear_slots p now slots).2 !! i = Some (q, t) -> t <> 0 -> slots !! i = Some (q, t).
Proof.
  destruct (Legacy.clear_slots_spec p now slots) as [-> _]. rewrite list_lookup_fmap. intros Hl Ht.
  destruct (slots !! i) as [[q0 t0]|]; [|done]. cbn in Hl. by case_if_in Hl; inversion Hl; subst.
Qed.

Lemma clear_length p now slots : length (Legacy.clear_slots p now slots).2 = length slots.
Proof. destruct (Legacy.clear_slots_spec p now slots) as [-> _]. apply length_fmap. Qed.

Lemma u_sweep_inv e s : inv max_outstanding cap base g0 s -> inv max_outstanding cap base g0 (sweep timeout_ns e s).
Proof.
  intros Hi. pose proof (n_small s Hi) as Hn. pose proof Hi as [Hwf Hcap Hw Hid Hix Hb Hl Hg Hst Hbal Hgate].
  unfold sweep. case_if; [|done]. unfold Legacy.sweep. set (p := fun t => timeout_ns <=? _).
  pose proof (Legacy.clear_slots_pending p (u_sweep_ns e) (in_flight s)) as Hc.
  pose proof (clear_lookup p (u_sweep_ns e) (in_flight s)) as Hlk.
  pose proof (clear_length p (u_sweep_ns e) (in_flight s)) as Hlen.
  destruct (Legacy.clear_slots p (u_sweep_ns e) (in_flight s)) as [ages t]. cbn [fst snd] in *.
  destruct (Hc Hwf) as (Hwf' & _ & Hnp). pose proof (Legacy.n_pending_range t) as [Hpos _].
  destruct (inc_timeouts_stats (length ages) (stats s) Hst) as [Hr Hu].
  constructor; cbn [in_flight local_inflight global_in_flight next_id tmpl_idx single_buf stats with_flight]; try done.
  - by rewrite Hlen.
  - intros i q t0 Hi0 Ht0. apply (Hw i q t0); [by apply Hlk|done].
  - unfold sat_sub. lia.
  - unfold sat_sub. lia.
  - rewrite Hu, Hbal, Zminus_mod_idemp_l. f_equal. lia.
  - unfold sat_sub. lia.
Qed.

Lemma try_send_inv e s : env_ok e -> inv max_outstanding cap base g0 s ->
  exists s' out, try_send pool max_outstanding e s = Done (s', out) /\ inv max_outstanding cap base g0 s'.
Proof.
  intros He Hi. pose proof Hi as [Hwf Hcap Hw Hid Hix Hb Hl Hg Hst Hbal Hgate]. unfold try_send.
  destruct (outstanding_ok max_outstanding s && _) eqn:E; [|by eexists _, _].
  apply andb_true_iff in E as [Eo _].
  destruct (write_with_index_total entries pool (tmpl_idx s) (next_id s) (single_buf s))
    as (buf & n & nm & qt & -> & _ & Hlen & _); try done. cbn [mbind outcome_bind].
  set (s1 := mkState _ _ _ _ _ _ _ _ _ _ _).
  assert (Hi1 : inv max_outstanding cap base g0 s1).
  { constructor; cbn [s1 in_flight local_inflight global_in_flight next_id tmpl_idx single_buf stats]; try done.
    - apply (wadd_range 64). lia.
    - by rewrite Hlen. }
  destruct (u_res e).
  - eexists _, _. split; [reflexivity|]. apply record_sent_inv; [done|done|].
    intros Hm. unfold outstanding_ok in Eo.
    replace (max_outstanding >? 0) with true in Eo by (symmetry; rewrite Z.gtb_ltb; bool_to_prop; lia).
    bool_to_prop. done.
  - by eexists _, _.
  - eexists _, _. split; [reflexivity|].
    constructor; cbn [s1 in_flight local_inflight global_in_flight next_id tmpl_idx single_buf stats with_flight];
      try done; try (by apply Hi1).
    by apply (exec_call_range CallError).
Qed.

Lemma spin_inv e s : inv max_outstanding cap base g0 s -> inv max_outstanding cap base g0 (spin e s).
Proof.
  intros Hi. unfold spin. case_if; [|done]. destruct (u_spin e) as [[buf r]|]; [|done].
  by apply u_recv_one_inv.
Qed.

Lemma u_recv_all_inv recv_ns msgs s : inv max_outstanding cap base g0 s ->
  inv max_outstanding cap base g0 (fold_left (recv_one recv_ns) msgs s).
Proof.
  revert s. induction msgs as [|m ms IH]; intros s Hi; cbn [fold_left]; [done|].
  apply IH. by apply u_recv_one_inv.
Qed.

Lemma u_turn_inv e s : env_ok e -> inv max_outstanding cap base g0 s ->
  exists s' out, turn pool max_outstanding timeout_ns e s = Done (s', out) /\ inv max_outstanding cap base g0 s'.
Proof.
  intros He Hi. unfold turn. destruct (u_update_rate_inv e s Hi) as [Hi1 _].
  destruct (try_send_inv e _ He Hi1) as (s2 & out & -> & Hi2). cbn [mbind outcome_bind].
  eexists _, out. split; [reflexivity|]. apply u_sweep_inv.
  apply u_recv_all_inv. by apply spin_inv.
Qed.

(** The end of the run resolves what is left. *)
Lemma finish_resolves now s : inv max_outstanding cap base g0 s ->
  unresolved (stats (finish now s)) = base mod 2 ^ 64 /\ global_in_flight (finish now s) = g0 /\
  counters_in_range (stats (finish now s)).
Proof.
  intros Hi. pose proof Hi as [Hwf Hcap Hw Hid Hix Hb Hl Hg Hst Hbal Hgate]. unfold finish, Legacy.drain.
  pose proof (Legacy.clear_slots_pending (fun _ => true) now (in_flight s)) as Hc.
  destruct (Legacy.clear_slots_spec (fun _ => true) now (in_flight s)) as [Hs _].
  destruct (Legacy.clear_slots (fun _ => true) now (in_flight s)) as [ages t]. cbn [fst snd] in *.
  destruct (Hc Hwf) as (_ & _ & Hnp).
  assert (Hz : Legacy.n_pending t = 0).
  { subst t. unfold Legacy.n_pending. rewrite zsum_fmap. clear.
    induction (in_flight s) as [|[q t] rest IH]; [done|]. rewrite zsum_cons, IH. cbn [snd].
    destruct (t =? 0) eqn:E; cbn [negb andb snd]; [|done]. unfold occ. by rewrite E. }
  destruct (inc_timeouts_stats (length ages) (stats s) Hst) as [Hr Hu].
  cbn [with_flight stats global_in_flight]. split; [|split; [unfold sat_sub; lia|done]].
  rewrite Hu, Hbal, Zminus_mod_idemp_l. f_equal. lia.
Qed.

Lemma run_resolves es end_ns s : Forall env_ok es -> inv max_outstanding cap base g0 s ->
  exists s' out, run pool max_outstanding timeout_ns es end_ns s = Done (s', out) /\
    unresolved (stats s') = base mod 2 ^ 64 /\ global_in_flight s' = g0.
Proof.
  intros Hes. revert s. induction Hes as [|e es He Hes IH]; intros s Hi; cbn [run].
  - destruct (finish_resolves end_ns s Hi) as (Hu & Hg & _). by eexists _, [].
  - destruct (u_turn_inv e s He Hi) as (s1 & o1 & -> & Hi1). cbn [mbind outcome_bind].
    destruct (IH s1 Hi1) as (s2 & o2 & -> & Hu & Hg). cbn [mbind outcome_bind]. by eexists _, _.
Qed.

End Invariant.

(** ** Theorem *)

(** [sent == completed + lost]: when a run of the single-thread worker is
    over, every query it sent has been counted as completed or as timed out, exactly
    once, whatever the kernel and the clock did (collisions in the table, replies
    that never came, duplicates and strays included), and the shared counter of
    queries in flight is back to the other workers' share; no turn panics. *)
Theorem unified_worker_resolves pool entries max_outstanding timeout_ns es end_ns
    rand_id rand_idx now g0 (st : StatsCollector H) :
  from_pairs entries = Done pool ->
  Forall (fun e => Z.of_nat (length (as_bytes e.1)) <= 494) entries ->
  0 <= max_outstanding <= 32768 -> in_u 16 rand_id -> 0 <= rand_idx -> 0 <= g0 < 2 ^ 63 ->
  counters_in_range st -> Forall env_ok es ->
  exists s out, run pool max_outstanding timeout_ns es end_ns
                  (init max_outstanding rand_id rand_idx now g0 st) = Done (s, out) /\
    unresolved (stats s) = unresolved st /\ global_in_flight s = g0.
Proof.
  intros Hp Hn Hm Hid Hix Hg Hst Hes.
  set (tbl := Legacy.new (Z.max max_outstanding 1024)).
  assert (Hcap : Z.of_nat (length tbl) < 65536).
  { subst tbl. unfold Legacy.new, Legacy.next_power_of_two. rewrite length_replicate.
    assert (Hlog : Z.log2_up (Z.max max_outstanding 1024) <= 15) by (apply Z.log2_up_le_pow2; lia).
    pose proof (Z.log2_up_nonneg (Z.max max_outstanding 1024)).
    assert (2 ^ Z.log2_up (Z.max max_outstanding 1024) <= 2 ^ 15) by (apply Z.pow_le_mono_r; lia).
    repeat case_if; lia. }
  destruct (run_resolves pool entries Hp Hn max_outstanding (Z.of_nat (length tbl)) (unresolved st) g0
              timeout_ns Hcap Hg es end_ns (init max_outstanding rand_id rand_idx now g0 st) Hes)
    as (s & out & Hr & Hu & Hgl).
  - constructor; cbn [init in_flight local_inflight global_in_flight next_id tmpl_idx single_buf stats]; try done.
    + apply Legacy.new_wf.
    + intros i q t Hl Ht. unfold Legacy.new in Hl. apply lookup_replicate in Hl as [[= _ ->] _]. done.
    + by rewrite Legacy.n_pending_new.
    + rewrite Legacy.n_pending_new. lia.
    + rewrite Legacy.n_pending_new, Z.add_0_r, Z.mod_small; [done|apply unresolved_range].
    + lia.
  - exists s, out. split; [done|]. rewrite Hu, Z.mod_small; [done|apply unresolved_range].
Qed.

End Worker.

(** ** Witness *)

Definition ex_pool : WireQueryPool := mkPool [build_wire_template (lit "a.com") 1].
Definition ex_pairs1 : list (str * Z) := [(lit "a.com", 1)].
Definition ex_stats : StatsCollector exact_hist := stats_new.

Definition ex_env (now : Z) (msgs : list (list Z)) : env := mkEnv 0 now now SendOk None msgs now now.

Lemma unified_worker_resolves_witness :
  exists s out, run ex_pool 100 1000000 [ex_env 10 []; ex_env 20 [[0; 8; 0x81; 0x80]; [0; 9]]; ex_env 20000000 []]
                  30000000 (init 100 8 0 0 0 ex_stats) = Done (s, out) /\
    unresolved (stats s) = 0.
Proof.
  destruct (unified_worker_resolves ex_pool ex_pairs1 100 1000000
              [ex_env 10 []; ex_env 20 [[0; 8; 0x81; 0x80]; [0; 9]]; ex_env 20000000 []]
              30000000 8 0 0 0 ex_stats) as (s & out & Hr & Hu & _);
    [reflexivity| |lia|unfold in_u; lia|lia|lia| | |].
  - constructor; [vm_compute; discriminate|constructor].
  - intros c. destruct c; cbn; unfold in_u; lia.
  - repeat constructor.
  - exists s, out. split; [exact Hr|]. rewrite Hu. reflexivity.
Defined.

End Unified.
