(* ===== verification/Stream.v ===== *)
(** * DNS over TCP and TLS

    Models [run_tcp_worker] of [src/transport/tcp.rs] and [run_dot_worker] of
    [src/transport/dot.rs]: each iteration connects, writes one query behind its
    two-byte length (RFC 1035, section 4.2.2), reads one length-prefixed reply and
    counts it, all under one time-out.  The TLS session is a byte stream like the
    TCP connection.

    What the peer sends arrives in pieces of any size; [Stall] is the deadline
    passing, [Broken] an error or the end of the stream.  The theorems: a framed
    message is read back whole, whatever the pieces; a run of either worker counts
    every iteration once, as a completion, an error or a time-out, except those
    answered by something that is not a response. *)

From Stdlib Require Import ZArith Lia Bool String.
From stdpp Require Import base numbers option list.
From S2P Require Import Prelude RustStr Dns Query Stats.

Open Scope Z_scope.

Module Stream.

(** ** Reading a stream *)

Inductive event : Set :=
| Data (bytes : list Z)
| Stall
| Broken.

(** How an awaited operation ends: with a value, with an error, or not before the
    deadline. *)
Inductive io (A : Type) : Type :=
| IoOk (a : A)
| IoErr
| IoTimeout.
Arguments IoOk {A} _.
Arguments IoErr {A}.
Arguments IoTimeout {A}.

(** The operations of an [async] block in order; the first that fails ends it. *)
Definition io_bind {A B} (m : io A) (k : A -> io B) : io B :=
  match m with IoOk a => k a | IoErr => IoErr | IoTimeout => IoTimeout end.

(** [read_exact] of [n] bytes: [acc] is what has arrived and was not yet read.  The
    result is the bytes, what is left of [acc], and the events to come; when
    nothing comes any more the deadline passes. *)
Fixpoint read_exact (n : nat) (acc : list Z) (evs : list event) : io (list Z * list Z * list event) :=
  if (n <=? length acc)%nat then IoOk (take n acc, drop n acc, evs)
  else match evs with
       | Data b :: evs' => read_exact n (acc ++ b) evs'
       | Broken :: _ => IoErr
       | Stall :: _ | [] => IoTimeout
       end.

(** The length, then as many bytes. *)
Definition read_reply (evs : list event) : io (list Z) :=
  io_bind (read_exact 2 [] evs) (fun '(len_buf, rest, evs) =>
    let resp_len := from_be_bytes16 (len_buf !!! 0%nat) (len_buf !!! 1%nat) in
    io_bind (read_exact (Z.to_nat resp_len) rest evs) (fun '(resp_buf, _, _) => IoOk resp_buf)).

(** The bytes of a query on the stream: the length is cut to 16 bits. *)
Definition framed (qbytes : list Z) : list Z := to_be_bytes16 (as_u 16 (Z.of_nat (length qbytes))) ++ qbytes.

(** ** One iteration *)

(** What the network and the clock do in one iteration. *)
Record env : Set := mkEnv {
  e_connect : io unit;           (* the connection; for TLS, the handshake too *)
  e_write : io unit;             (* the two writes and the flush *)
  e_events : list event;         (* what the peer sends *)
  e_rtt : Z                      (* microseconds, when a reply is complete *)
}.

Section Workers.
Context {H : Type} `{HdrHistogram H} {S : Type} `{QuerySource S}.

Record state : Type := mkState {
  id : Z;
  query_source : S;
  draws : rng;
  stats : StatsCollector H
}.

(** From the written query to the counted reply; the query was sent once it is
    flushed, also when no reply comes. *)
Definition exchange (e : env) (st : StatsCollector H) : StatsCollector H * io unit :=
  match e_write e with
  | IoOk _ =>
      let st := inc_sent st in
      match read_reply (e_events e) with
      | IoOk resp_buf =>
          (match parse_response resp_buf with
           | Some resp => record_response (resp_rcode resp) (e_rtt e) st
           | None => st
           end, IoOk tt)
      | IoErr => (st, IoErr)
      | IoTimeout => (st, IoTimeout)
      end
  | IoErr => (st, IoErr)
  | IoTimeout => (st, IoTimeout)
  end.

(** The result of the block under the time-out. *)
Definition conclude (r : io unit) (st : StatsCollector H) : StatsCollector H :=
  match r with IoOk _ => st | IoErr => inc_error st | IoTimeout => inc_timeout st end.

(** An iteration of the TCP worker: a failed connection is counted and does not
    use up an id; the result is the bytes handed to the stream. *)
Definition tcp_turn (e : env) (s : state) : outcome (state * list Z) :=
  match e_connect e with
  | IoErr => Done (mkState (id s) (query_source s) (draws s) (inc_error (stats s)), [])
  | IoTimeout => Done (mkState (id s) (query_source s) (draws s) (inc_timeout (stats s)), [])
  | IoOk _ =>
      '(entry, src, r) ← next (query_source s) (draws s);
      let qbytes := build_query (id s) (name entry) (qtype entry) in
      let '(st, res) := exchange e (stats s) in
      Done (mkState (wadd 16 (id s) 1) src r (conclude res st), framed qbytes)
  end.

(** An iteration of the DoT worker: the connection and the handshake are part of
    the block under the time-out. *)
Definition dot_turn (e : env) (s : state) : outcome (state * list Z) :=
  match e_connect e with
  | IoErr => Done (mkState (wadd 16 (id s) 1) (query_source s) (draws s) (inc_error (stats s)), [])
  | IoTimeout => Done (mkState (wadd 16 (id s) 1) (query_source s) (draws s) (inc_timeout (stats s)), [])
  | IoOk _ =>
      '(entry, src, r) ← next (query_source s) (draws s);
      let qbytes := build_query (id s) (name entry) (qtype entry) in
      let '(st, res) := exchange e (stats s) in
      Done (mkState (wadd 16 (id s) 1) src r (conclude res st), framed qbytes)
  end.

(** The loop, until the shutdown flag ends it. *)
Fixpoint run_with (turn : env -> state -> outcome (state * list Z)) (es : list env) (s : state)
  : outcome (state * list (list Z)) :=
  match es with
  | [] => Done (s, [])
  | e :: es' =>
      '(s, out) ← turn e s;
      '(s, outs) ← run_with turn es' s;
      Done (s, out :: outs)
  end.

Definition run_tcp_worker (es : list env) (s : state) : outcome (state * list (list Z)) := run_with tcp_turn es s.

(** An invalid server name ends the DoT worker at once, without a count. *)
Definition run_dot_worker (name_ok : bool) (es : list env) (s : state) : outcome (state * list (list Z)) :=
  if name_ok then run_with dot_turn es s else Done (s, []).

End Workers.

(** ** Reading back what was framed *)

(** The bytes of a sequence of events, up to the first that is not data. *)
Fixpoint arrived (evs : list event) : list Z :=
  match evs with Data b :: evs' => b ++ arrived evs' | _ => [] end.

(** Enough bytes are read whole, and what follows is still to come. *)
Lemma read_exact_enough n acc evs : (n <= length (acc ++ arrived evs))%nat ->
  exists rest evs', read_exact n acc evs = IoOk (take n (acc ++ arrived evs), rest, evs') /\
    rest ++ arrived evs' = drop n (acc ++ arrived evs).
Proof.
  revert acc. induction evs as [|ev evs IH]; intros acc Hn; cbn [read_exact];
    (destruct (Nat.leb_spec n (length acc)) as [E|E];
     [eexists _, _; split; [by rewrite take_app_le|by rewrite drop_app_le]|]).
  - cbn [arrived] in Hn. rewrite app_nil_r in Hn. lia.
  - destruct ev as [b| |]; cbn [arrived] in Hn |- *; [|rewrite app_nil_r in Hn; lia..].
    destruct (IH (acc ++ b)) as (rest & evs' & He & Hd); rewrite <- app_assoc in *; [done|].
    exists rest, evs'. split; [done|]. by rewrite Hd.
Qed.

(** Too few bytes are not. *)
Lemma read_exact_short n acc evs : (length (acc ++ arrived evs) < n)%nat ->
  read_exact n acc evs = IoErr \/ read_exact n acc evs = IoTimeout.
Proof.
  revert acc. induction evs as [|ev evs IH]; intros acc Hn; cbn [read_exact];
    (replace (n <=? length acc)%nat with false by (symmetry; apply Nat.leb_gt; rewrite length_app in Hn; lia)).
  - by right.
  - destruct ev as [b| |]; [|by right|by left]. apply IH. by rewrite <- app_assoc.
Qed.

(** The length in front. *)
Lemma be16_head a b l : from_be_bytes16 ((a :: b :: l) !!! 0%nat) ((a :: b :: l) !!! 1%nat) = from_be_bytes16 a b.
Proof. reflexivity. Qed.

(** ** What a run counts *)

Section Accounting.
Context {H : Type} `{HdrHistogram H} {S : Type} `{QuerySourceLaws S}.

(** An iteration that is answered by something that is not a response. *)
Definition ignored (e : env) : Z :=
  match e_connect e, e_write e, read_reply (e_events e) with
  | IoOk _, IoOk _, IoOk b => if parse_response b is Some _ then 0 else 1
  | _, _, _ => 0
  end.

(** What an iteration adds to a counter. *)
Record added (st st' : StatsCollector H) (sent completed errors timeouts : Z) : Prop := mkAdded {
  ad_range : counters_in_range st';
  ad_sent : get Sent st' = (get Sent st + sent) mod 2 ^ 64;
  ad_completed : get Completed st' = (get Completed st + completed) mod 2 ^ 64;
  ad_errors : get Errors st' = (get Errors st + errors) mod 2 ^ 64;
  ad_timeouts : get Timeouts st' = (get Timeouts st + timeouts) mod 2 ^ 64
}.

Lemma added_call st k : counters_in_range st ->
  added st (exec_call st k) (call_delta Sent k) (call_delta Completed k) (call_delta Errors k) (call_delta Timeouts k).
Proof. intros Hr. constructor; [by apply exec_call_range|by apply exec_call_get..]. Qed.

Lemma added_refl st : counters_in_range st -> added st st 0 0 0 0.
Proof. intros Hr. constructor; [done|..]; rewrite Z.add_0_r; symmetry; apply Z.mod_small, Hr. Qed.

Lemma added_trans st st1 st2 a b c d a' b' c' d' : added st st1 a b c d -> added st1 st2 a' b' c' d' ->
  added st st2 (a + a') (b + b') (c + c') (d + d').
Proof.
  intros [A0 A1 A2 A3 A4] [B0 B1 B2 B3 B4].
  constructor; [done|rewrite B1, A1|rewrite B2, A2|rewrite B3, A3|rewrite B4, A4];
    rewrite Zplus_mod_idemp_l; f_equal; lia.
Qed.

(** A response counts as one completion and nothing else here. *)
Lemma added_response st rcode rtt : counters_in_range st -> added st (record_response rcode rtt st) 0 1 0 0.
Proof.
  intros Hr. pose proof (added_call st (CallResponse rcode rtt) Hr) as Ha.
  assert (E : call_delta Sent (CallResponse rcode rtt) = 0 /\ call_delta Completed (CallResponse rcode rtt) = 1 /\
              call_delta Errors (CallResponse rcode rtt) = 0 /\ call_delta Timeouts (CallResponse rcode rtt) = 0).
  { unfold call_delta, actions_of, rcode_counter. repeat case_if; by split_and!. }
  destruct E as (E1 & E2 & E3 & E4). rewrite E1, E2, E3, E4 in Ha. exact Ha.
Qed.

(** The block of an iteration that has its connection: sent at most once, then one
    of a completion, an error, a time-out, or nothing. *)
Lemma exchange_added e st st' r : counters_in_range st -> exchange e st = (st', r) ->
  exists sent completed errors timeouts, added st (conclude r st') sent completed errors timeouts /\
    0 <= completed <= sent /\ 0 <= errors /\ 0 <= timeouts /\ sent <= 1 /\
    completed + errors + timeouts +
      (match e_write e, read_reply (e_events e) with
       | IoOk _, IoOk b => if parse_response b is Some _ then 0 else 1
       | _, _ => 0
       end) = 1 /\
    (match e_write e, read_reply (e_events e) with
       | IoOk _, IoOk b => if parse_response b is Some _ then 0 else 1
       | _, _ => 0
       end) + completed <= sent.
Proof.
  intros Hr. pose proof (added_call st CallSent Hr) as Hsent. cbn [exec_call] in Hsent.
  pose proof (ad_range _ _ _ _ _ _ Hsent) as Hr1. unfold exchange.
  destruct (e_write e) as [w| |]; [|injection 1 as <- <-..].
  - destruct (read_reply (e_events e)) as [b| |]; [|injection 1 as <- <-..].
    + destruct (parse_response b) as [resp|]; injection 1 as <- <-; cbn [conclude].
      * exists 1, 1, 0, 0. split; [|lia]. exact (added_trans _ _ _ _ _ _ _ _ _ _ _ Hsent (added_response _ _ _ Hr1)).
      * exists 1, 0, 0, 0. split; [exact Hsent|lia].
    + exists 1, 0, 1, 0. split; [|lia].
      exact (added_trans _ _ _ _ _ _ _ _ _ _ _ Hsent (added_call _ CallError Hr1)).
    + exists 1, 0, 0, 1. split; [|lia].
      exact (added_trans _ _ _ _ _ _ _ _ _ _ _ Hsent (added_call _ CallTimeout Hr1)).
  - exists 0, 0, 1, 0. split; [exact (added_call _ CallError Hr)|lia].
  - exists 0, 0, 0, 1. split; [exact (added_call _ CallTimeout Hr)|lia].
Qed.

(** A turn of either worker. *)
Record turned (e : env) (s s' : state (H := H) (S := S)) (out : list Z) : Prop := mkTurned {
  tn_source : source_ok (query_source s');
  tn_query : out = [] \/ exists nm qt, out = framed (build_query (id s) nm qt);
  tn_counts : exists sent completed errors timeouts,
    added (stats s) (stats s') sent completed errors timeouts /\ 0 <= completed /\ 0 <= errors /\ 0 <= timeouts /\
    sent <= 1 /\ completed + ignored e <= sent /\ completed + errors + timeouts + ignored e = 1
}.

Lemma connected_turn e s : source_ok (query_source s) -> counters_in_range (stats s) -> e_connect e = IoOk tt ->
  exists s' out, ('(entry, src, r) ← next (query_source s) (draws s);
     let '(st, res) := exchange e (stats s) in
     Done (mkState (wadd 16 (id s) 1) src r (conclude res st),
           framed (build_query (id s) (name entry) (qtype entry)))) = Done (s', out) /\ turned e s s' out.
Proof.
  intros Hs Hr Hc. destruct (next_total (query_source s) (draws s) Hs) as (en & src & r & -> & Hok).
  cbn [mbind outcome_bind]. destruct (exchange e (stats s)) as [st res] eqn:E. eexists _, _. split; [reflexivity|].
  constructor; cbn [query_source stats id]; [done|right; by eexists _, _|].
  destruct (exchange_added e (stats s) st res Hr E) as (a & b & c & d & Ha & H1' & H2' & H3' & H4' & H5' & H6').
  exists a, b, c, d. split; [exact Ha|]. unfold ignored. rewrite Hc. lia.
Qed.

Lemma unconnected e s s' k : source_ok (query_source s) -> counters_in_range (stats s) ->
  e_connect e = IoErr /\ k = CallError \/ e_connect e = IoTimeout /\ k = CallTimeout ->
  query_source s' = query_source s -> stats s' = exec_call (stats s) k -> turned e s s' [].
Proof.
  intros Hs Hr Hk Eq Es. constructor; [by rewrite Eq|by left|].
  pose proof (added_call (stats s) k Hr) as Ha. rewrite Es. unfold ignored.
  destruct Hk as [[-> ->]|[-> ->]]; eexists _, _, _, _; (split; [exact Ha|]); vm_compute; intuition discriminate.
Qed.

Lemma tcp_turned e s : source_ok (query_source s) -> counters_in_range (stats s) ->
  exists s' out, tcp_turn e s = Done (s', out) /\ turned e s s' out.
Proof.
  intros Hs Hr. unfold tcp_turn. destruct (e_connect e) as [[]| |] eqn:E.
  - by apply connected_turn.
  - eexists _, _. split; [reflexivity|]. apply (unconnected e s _ CallError); try done. by left.
  - eexists _, _. split; [reflexivity|]. apply (unconnected e s _ CallTimeout); try done. by right.
Qed.

Lemma dot_turned e s : source_ok (query_source s) -> counters_in_range (stats s) ->
  exists s' out, dot_turn e s = Done (s', out) /\ turned e s s' out.
Proof.
  intros Hs Hr. unfold dot_turn. destruct (e_connect e) as [[]| |] eqn:E.
  - by apply connected_turn.
  - eexists _, _. split; [reflexivity|]. apply (unconnected e s _ CallError); try done. by left.
  - eexists _, _. split; [reflexivity|]. apply (unconnected e s _ CallTimeout); try done. by right.
Qed.

(** What the iterations of a run add up to. *)
Definition counted_run (es : list env) (s s' : state (H := H) (S := S)) : Prop :=
  exists sent completed errors timeouts, added (stats s) (stats s') sent completed errors timeouts /\
    0 <= completed /\ 0 <= errors /\ 0 <= timeouts /\
    completed + zsum ignored es <= sent <= Z.of_nat (length es) /\
    completed + errors + timeouts + zsum ignored es = Z.of_nat (length es).

Lemma run_counted turn es s :
  (forall e s, source_ok (query_source s) -> counters_in_range (stats s) ->
     exists s' out, turn e s = Done (s', out) /\ turned e s s' out) ->
  source_ok (query_source s) -> counters_in_range (stats s) ->
  exists s' outs, run_with turn es s = Done (s', outs) /\ length outs = length es /\ counted_run es s s'.
Proof.
  intros Ht. revert s. induction es as [|e es IH]; intros s Hs Hr; cbn [run_with].
  { exists s, []. split; [reflexivity|]. split; [done|]. exists 0, 0, 0, 0. split; [by apply added_refl|]. cbn. lia. }
  destruct (Ht e s Hs Hr) as (s1 & out & -> & [Hs1 _ (a & b & c & d & Ha & Hcnt)]). cbn [mbind outcome_bind].
  destruct (IH s1 Hs1 (ad_range _ _ _ _ _ _ Ha)) as (s2 & outs & -> & Hl & (a' & b' & c' & d' & Ha' & Hcnt')).
  cbn [mbind outcome_bind]. eexists s2, _. split; [reflexivity|]. split; [cbn [length]; by rewrite Hl|].
  exists (a + a'), (b + b'), (c + c'), (d + d'). split; [by eapply added_trans|].
  rewrite zsum_cons. cbn [length]. lia.
Qed.

End Accounting.

(** ** Theorems *)

(** C31. Framing: a message of up to 65535 bytes behind its two-byte length is read
    back exactly, however the stream cuts it into pieces and whatever follows it;
    and when fewer bytes arrive, the read ends in an error or in the time-out,
    never with a shorter message. *)
Theorem framed_roundtrip (msg rest : list Z) (evs : list event) :
  Z.of_nat (length msg) < 65536 ->
  (arrived evs = framed msg ++ rest -> read_reply evs = IoOk msg) /\
  (forall k, (k < length (framed msg))%nat -> arrived evs = take k (framed msg) ->
     read_reply evs = IoErr \/ read_reply evs = IoTimeout).
Proof.
  intros Hlen. unfold framed, to_be_bytes16. rewrite as_u_small by (unfold in_u; change (2 ^ 16) with 65536; lia).
  set (n := Z.of_nat (length msg)). cbn [app length]. split.
  - intros Ha. unfold read_reply.
    destruct (read_exact_enough 2 [] evs) as (r & evs' & -> & Hr); [cbn [app]; rewrite Ha; cbn [length]; lia|].
    cbn [app] in Hr |- *. rewrite Ha in Hr |- *. cbn [app take drop] in Hr |- *. rewrite drop_0 in Hr. cbn [io_bind].
    rewrite be16_head, from_to_be16. unfold n. rewrite Nat2Z.id.
    destruct (read_exact_enough (length msg) r evs') as (r2 & evs2 & -> & _); [rewrite Hr, length_app; lia|].
    cbn [io_bind]. by rewrite Hr, take_app_length.
  - intros k Hk Ha. unfold read_reply. destruct (decide (k < 2)%nat) as [H2|H2].
    + destruct (read_exact_short 2 [] evs) as [-> | ->]; [|by left|by right]. cbn [app]. rewrite Ha, length_take. lia.
    + destruct k as [|[|k]]; [lia..|].
      destruct (read_exact_enough 2 [] evs) as (r & evs' & -> & Hr); [cbn [app]; rewrite Ha; cbn [take length]; lia|].
      cbn [app] in Hr |- *. rewrite Ha in Hr |- *. cbn [take drop] in Hr |- *. rewrite drop_0 in Hr. cbn [io_bind].
      rewrite be16_head, from_to_be16. unfold n. rewrite Nat2Z.id.
      destruct (read_exact_short (length msg) r evs') as [-> | ->]; [|by left|by right]. rewrite Hr, length_take. lia.
Qed.

(** C32. Accounting of a whole run, TCP and TLS: no iteration panics, each is counted
    once as a completion, an error or a time-out, and the only ones counted as none
    are those answered by a well-framed message that is not a response; a completed
    or ignored query was counted as sent. *)
Theorem stream_accounting {H} `{HdrHistogram H} {S} `{QuerySourceLaws S} es (s : state (H := H) (S := S)) :
  source_ok (query_source s) -> counters_in_range (stats s) ->
  (exists s' outs, run_tcp_worker es s = Done (s', outs) /\ length outs = length es /\ counted_run es s s') /\
  (exists s' outs, run_dot_worker true es s = Done (s', outs) /\ length outs = length es /\ counted_run es s s') /\
  run_dot_worker false es s = Done (s, []).
Proof.
  intros Hs Hr. split; [|split].
  - by apply run_counted; [apply tcp_turned|..].
  - by apply run_counted; [apply dot_turned|..].
  - reflexivity.
Qed.

(** ** Witnesses *)

(** A reply of sixteen bytes in four pieces. *)
Definition ex_msg : list Z := [0xBE; 0xEF; 0x81; 0x83; 0; 0; 0; 0; 0; 0; 0; 0; 1; 2; 3; 4].
Definition ex_events : list event := [Data [0]; Data [16; 0xBE]; Data (drop 1 (take 10 ex_msg)); Data (drop 10 ex_msg ++ [9; 9]); Stall].

Lemma framed_roundtrip_witness : read_reply ex_events = IoOk ex_msg.
Proof. apply (framed_roundtrip ex_msg [9; 9] ex_events); [vm_compute; reflexivity|reflexivity]. Defined.

Definition ex_state : state (H := exact_hist) (S := FileQuerySource) :=
  mkState 65535 (mkFile [mkEntry (lit "a.com") 1] 0) (fun _ => 0) stats_new.

(** A refused connection, a reply, a reply that is a query, a reset. *)
Definition ex_envs : list env :=
  [mkEnv IoErr (IoOk tt) [] 0; mkEnv (IoOk tt) (IoOk tt) ex_events 120;
   mkEnv (IoOk tt) (IoOk tt) [Data [0; 12]; Data (replicate 12 0)] 120; mkEnv (IoOk tt) (IoOk tt) [Data [0; 12]; Broken] 0].

Lemma stream_accounting_witness :
  exists s' outs, run_tcp_worker ex_envs ex_state = Done (s', outs) /\ counted_run ex_envs ex_state s' /\
    (sent (stats s'), completed (stats s'), errors (stats s')) = (3, 1, 2).
Proof.
  destruct (stream_accounting ex_envs ex_state) as ((s' & outs & Hr & _ & Hc) & _ & _).
  - split; [discriminate|]. split; vm_compute; congruence.
  - intros c. destruct c; vm_compute; split; congruence.
  - exists s', outs. split; [exact Hr|]. split; [exact Hc|].
    assert (Hv : run_tcp_worker ex_envs ex_state = Done (s', outs)) by exact Hr. vm_compute in Hv.
    injection Hv as <- <-. reflexivity.
Defined.

End Stream.
