(* ===== verification/WireLatency.v ===== *)
(** * The wire-latency probe

    Models [src/transport/wire_latency.rs]: [ts_to_ns], [extract_timestamp],
    [read_tx_timestamp], [recv_with_timestamp] and [probe], a serial ping-pong that
    subtracts the kernel's transmit stamp of a query from the receive stamp of a
    reply.

    The socket is two queues: the error queue, where transmit stamps appear, and
    the receive queue.  What the kernel and the server do in an iteration is its
    [env].  As poll(2) documents, [POLLERR] is reported whatever was asked for, so
    the wait for a reply returns at once while a stamp is in the error queue;
    [recvmsg] without flags then blocks until a datagram comes, however long the
    wait was meant to be.

    The theorems: the report is the sorted sample at its minimum, at the integer
    parts of 0.50, 0.95 and 0.99 times the count, and at its maximum (the [f64]
    index never misses), and every send is accounted for; the probe returns when no
    stray stamp is in the error queue, and blocks for good when there is one and no
    datagram comes; with the queues in step every exchange is measured, and after
    one reply that came late no further exchange is, since a reply is not matched
    with its query. *)

From Stdlib Require Import ZArith Lia Bool String Sorting.Sorted.
From stdpp Require Import base numbers option sorting list.
From S2P Require Import Prelude Float64 RustStr Dns Query.

Open Scope Z_scope.

Module Wire.

(** ** Time stamps of the kernel *)

Record timespec : Set := mkTs { tv_sec : Z; tv_nsec : Z }.

Definition ts_to_ns (t : timespec) : Z :=
  wadd 64 (wmul 64 (as_u 64 (tv_sec t)) 1000000000) (as_u 64 (tv_nsec t)).

(** [scm_timestamping]: software, deprecated, raw hardware. *)
Record ScmTimestamping : Set := mkScm { ts0 : timespec; ts1 : timespec; ts2 : timespec }.

(** A control message; [cmsg_data] is what its data reads as. *)
Record cmsghdr : Set := mkCmsg { cmsg_level : Z; cmsg_type : Z; cmsg_data : ScmTimestamping }.

Definition SOL_SOCKET : Z := 1.
Definition SCM_TIMESTAMPING : Z := 37.

(** The loop over the control messages of a [msghdr]. *)
Fixpoint extract_timestamp (control : list cmsghdr) : option Z :=
  match control with
  | [] => None
  | c :: control' =>
      if (cmsg_level c =? SOL_SOCKET) && (cmsg_type c =? SCM_TIMESTAMPING) then
        let hw := ts_to_ns (ts2 (cmsg_data c)) in
        let sw := ts_to_ns (ts0 (cmsg_data c)) in
        if negb (hw =? 0) then Some hw
        else if negb (sw =? 0) then Some sw
        else extract_timestamp control'
      else extract_timestamp control'
  end.

(** What [recvmsg] delivers: the length of the payload and the control messages. *)
Record message : Set := mkMsg { m_len : Z; m_control : list cmsghdr }.

(** [recvmsg] with [MSG_ERRQUEUE | MSG_DONTWAIT]. *)
Definition read_tx_timestamp (errq : list message) : option Z * list message :=
  match errq with
  | [] => (None, [])
  | m :: errq' => (extract_timestamp (m_control m), errq')
  end.

(** The wait for the transmit stamp: one poll of a millisecond and one read per
    round, with what has come to the error queue by then, until the budget of the
    wait ends it. *)
Fixpoint wait_tx (polls : list (list message)) (errq : list message) : option Z * list message :=
  match polls with
  | [] => (None, errq)
  | arrived :: polls' =>
      match read_tx_timestamp (errq ++ arrived) with
      | (Some t, errq') => (Some t, errq')
      | (None, errq') => wait_tx polls' errq'
      end
  end.

(** ** One iteration *)

(** What the clock, the kernel and the server do. *)
Record env : Set := mkEnv {
  e_deadline : bool;               (* the wall-clock budget is used up *)
  e_send : bool;                   (* [send] succeeds *)
  e_polls : list (list message);   (* stamps, per round of the wait for one *)
  e_stamps : list message;         (* stamps that come after that wait *)
  e_arrived : list message;        (* datagrams that came since the last iteration *)
  e_eintr : bool;                  (* [poll] is interrupted *)
  e_error : bool;                  (* an error is pending on the socket (ICMP) *)
  e_reply : option (Z * message)   (* the next datagram and the milliseconds until it comes *)
}.

Inductive control : Set := Continue | Break | Blocked.

(** [recvmsg] without flags: [None] when it never returns. *)
Definition reading (m : message) : option (Z * Z) :=
  if m_len m <=? 0 then None else (fun ts => (ts, m_len m)) <$> extract_timestamp (m_control m).

Definition recv_with_timestamp (e : env) (rxq : list message) : option (option (Z * Z) * list message) :=
  if e_error e then Some (None, rxq)
  else match rxq with
       | m :: rxq' => Some (reading m, rxq')
       | [] => (fun '(_, m) => (reading m, [])) <$> e_reply e
       end.

(** [poll] for [POLLIN] up to [reply_ms]: true when it reports something. *)
Definition poll_reply (reply_ms : Z) (e : env) (errq rxq : list message) : bool :=
  if e_eintr e then false
  else e_error e || negb (is_empty errq) || negb (is_empty rxq) ||
       match e_reply e with Some (ms, _) => ms <? reply_ms | None => false end.

Definition reply_ms_of (timeout_ms : Z) : Z := Z.min (Z.max timeout_ms 1) 250.

Section Probe.
Context {S : Type} `{QuerySource S}.

Record state : Type := mkState {
  id : Z;
  query_source : S;
  draws : rng;
  errq : list message;
  rxq : list message;
  rtts_ns : list Z;
  tx_missing : Z;
  no_reply : Z;
  sent_total : Z
}.

(** The reply of the query whose transmit stamp is [tx_ts]. *)
Definition await_reply (reply_ms : Z) (e : env) (tx_ts : Z) (s : state) : control * state :=
  if poll_reply reply_ms e (errq s) (rxq s) then
    match recv_with_timestamp e (rxq s) with
    | None => (Blocked, s)
    | Some (r, rxq') =>
        let rtts := match r with
                    | Some (rx_ts, _) => if rx_ts >? tx_ts then rtts_ns s ++ [rx_ts - tx_ts] else rtts_ns s
                    | None => rtts_ns s
                    end in
        (Continue, mkState (id s) (query_source s) (draws s) (errq s) rxq' rtts
                           (tx_missing s) (no_reply s) (sent_total s))
    end
  else (Continue, mkState (id s) (query_source s) (draws s) (errq s) (rxq s) (rtts_ns s)
                          (tx_missing s) (no_reply s + 1) (sent_total s)).

(** The body of the loop; the result also has the query handed to [send]. *)
Definition turn (reply_ms : Z) (e : env) (s : state) : outcome (control * state * list Z) :=
  if e_deadline e then Done (Break, s, [])
  else
    '(entry, src, r) ← next (query_source s) (draws s);
    let q := build_query (id s) (name entry) (qtype entry) in
    let id' := wadd 16 (id s) 1 in
    let rxq' := rxq s ++ e_arrived e in
    if negb (e_send e) then
      Done (Continue, mkState id' src r (errq s) rxq' (rtts_ns s) (tx_missing s) (no_reply s) (sent_total s), q)
    else
      let '(tx, errq') := wait_tx (e_polls e) (errq s) in
      let errq' := errq' ++ e_stamps e in
      match tx with
      | None =>
          Done (Continue, mkState id' src r errq' rxq' (rtts_ns s) (tx_missing s + 1) (no_reply s) (sent_total s + 1), q)
      | Some tx_ts =>
          Done (await_reply reply_ms e tx_ts
                  (mkState id' src r errq' rxq' (rtts_ns s) (tx_missing s) (no_reply s) (sent_total s + 1)), q)
      end.

(** The loop over [0..count], an [env] per iteration. *)
Fixpoint run (reply_ms : Z) (es : list env) (s : state) : outcome (control * state) :=
  match es with
  | [] => Done (Continue, s)
  | e :: es' =>
      '(c, s, _) ← turn reply_ms e s;
      match c with
      | Continue => run reply_ms es' s
      | Break | Blocked => Done (c, s)
      end
  end.

(** ** The report *)

Record WireLatencyResult : Type := mkResult {
  samples : Z; hw : bool; min_us : f64; p50_us : f64; p95_us : f64; p99_us : f64; max_us : f64
}.

(** Nanoseconds as microseconds. *)
Definition us (ns : Z) : f64 := f64_div (f64_of_Z ns) (f64_lit 1000 1).

(** The closure [pct]; an index out of range panics. *)
Definition pct (l : list Z) (p : f64) : outcome f64 :=
  let n := Z.of_nat (length l) in
  match l !! Z.to_nat (Z.min (f64_as_u 64 (f64_mul (f64_of_Z n) p)) (n - 1)) with
  | Some x => Done (us x)
  | None => Panic
  end.

Definition report (rtts : list Z) : outcome WireLatencyResult :=
  let l := merge_sort Z.le rtts in
  p50 ← pct l (f64_lit 50 100);
  p95 ← pct l (f64_lit 95 100);
  p99 ← pct l (f64_lit 99 100);
  match l !! 0%nat, l !! (length l - 1)%nat with
  | Some lo, Some hi => Done (mkResult (Z.of_nat (length l)) false (us lo) p50 p95 p99 (us hi))
  | _, _ => Panic
  end.

(** ** [probe] *)

Inductive probe_error : Set :=
| BindFailed
| ConnectFailed
| TimestampingFailed
| NoSamples (sent_total tx_missing no_reply : Z).

(** What the kernel answers when the socket is set up; [set_ts] is [setsockopt]
    with the flags. *)
Record setup : Set := mkSetup { bind_ok : bool; connect_ok : bool; set_ts : Z -> bool }.

Definition flags_hw : Z :=
  fold_left Z.lor [Z.shiftl 1 0; Z.shiftl 1 2; Z.shiftl 1 6; Z.shiftl 1 1; Z.shiftl 1 3; Z.shiftl 1 4;
                   Z.shiftl 1 7; Z.shiftl 1 11] 0.

(** [None] when the probe never returns. *)
Definition probe (k : setup) (src : S) (r : rng) (id0 timeout_ms : Z) (es : list env)
  : outcome (option (result WireLatencyResult probe_error)) :=
  if negb (bind_ok k) then Done (Some (Err BindFailed))
  else if negb (connect_ok k) then Done (Some (Err ConnectFailed))
  else if negb (set_ts k flags_hw) then Done (Some (Err TimestampingFailed))
  else
    '(c, s) ← run (reply_ms_of timeout_ms) es (mkState id0 src r [] [] [] 0 0 0);
    match c with
    | Blocked => Done None
    | Continue | Break =>
        if is_empty (rtts_ns s) then Done (Some (Err (NoSamples (sent_total s) (tx_missing s) (no_reply s))))
        else res ← report (rtts_ns s); Done (Some (Ok res))
    end.

End Probe.

(** ** Stamps *)

Lemma ts_to_ns_range t : 0 <= ts_to_ns t < 2 ^ 64.
Proof. apply wadd_range. lia. Qed.

Lemma extract_timestamp_range control t : extract_timestamp control = Some t -> 0 < t < 2 ^ 64.
Proof.
  induction control as [|c control IH]; cbn [extract_timestamp]; [discriminate|].
  pose proof (ts_to_ns_range (ts0 (cmsg_data c))). pose proof (ts_to_ns_range (ts2 (cmsg_data c))).
  repeat case_if; [injection 1 as <-; bool_to_prop; lia..|done|done].
Qed.

Lemma reading_range m t n : reading m = Some (t, n) -> 0 < t < 2 ^ 64.
Proof.
  unfold reading. case_if; [discriminate|]. destruct (extract_timestamp (m_control m)) eqn:E; [|discriminate].
  injection 1 as <- _. by eapply extract_timestamp_range.
Qed.

Lemma wait_tx_range polls errq t errq' : wait_tx polls errq = (Some t, errq') -> 0 < t < 2 ^ 64.
Proof.
  revert errq. induction polls as [|a polls IH]; intros errq; cbn [wait_tx]; [discriminate|].
  unfold read_tx_timestamp. destruct (errq ++ a) as [|m q]; [apply IH|].
  destruct (extract_timestamp (m_control m)) eqn:E; [|apply IH].
  injection 1 as <- _. by eapply extract_timestamp_range.
Qed.

(** With at most one stamp to come, the wait leaves none behind. *)
Lemma wait_tx_drains polls errq : (length (errq ++ concat polls) <= 1)%nat ->
  length polls <> 0%nat \/ errq = [] -> (wait_tx polls errq).2 = [].
Proof.
  revert errq. induction polls as [|a polls IH]; intros errq Hl Hp; cbn [wait_tx concat] in *.
  { destruct Hp as [Hp| ->]; done. }
  rewrite app_assoc in Hl. unfold read_tx_timestamp. destruct (errq ++ a) as [|m q] eqn:E.
  - apply IH; [by rewrite app_nil_l|by right].
  - cbn [length app] in Hl. rewrite length_app in Hl.
    assert (q = []) as -> by (destruct q; [done|cbn in Hl; lia]).
    destruct (extract_timestamp (m_control m)); [done|]. apply IH; [cbn [app]; lia|by right].
Qed.

(** ** The counters of a run *)

Section Tally.
Context {S : Type} `{QuerySourceLaws S}.

Record tally (s : state (S := S)) : Prop := mkTally {
  tl_source : source_ok (query_source s);
  tl_counts : 0 <= tx_missing s /\ 0 <= no_reply s /\
    Z.of_nat (length (rtts_ns s)) + tx_missing s + no_reply s <= sent_total s;
  tl_samples : Forall (fun x => 0 < x < 2 ^ 64) (rtts_ns s)
}.

Lemma await_reply_tally reply_ms e tx_ts s c s' : 0 < tx_ts < 2 ^ 64 ->
  source_ok (query_source s) -> Forall (fun x => 0 < x < 2 ^ 64) (rtts_ns s) ->
  0 <= tx_missing s /\ 0 <= no_reply s /\ Z.of_nat (length (rtts_ns s)) + tx_missing s + no_reply s < sent_total s ->
  await_reply reply_ms e tx_ts s = (c, s') -> tally s' /\ sent_total s' = sent_total s.
Proof.
  intros Ht Hs Hf Hc. unfold await_reply. case_if.
  2: { injection 1 as <- <-. split; [|done]. constructor; cbn; [done|lia|done]. }
  destruct (recv_with_timestamp e (rxq s)) as [[r q]|] eqn:E; injection 1 as <- <-; (split; [|done]).
  2: { constructor; [done|lia|done]. }
  constructor; cbn; [done|..]; (destruct r as [[rx n]|]; [case_if|]); try done; rewrite ?length_app; cbn [length]; try lia.
  apply Forall_app_2; [done|]. apply Forall_singleton. rewrite Z.gtb_ltb in *. bool_to_prop.
  enough (0 < rx < 2 ^ 64) by lia. revert E. unfold recv_with_timestamp. case_if; [discriminate|].
  destruct (rxq s) as [|m q'].
  - destruct (e_reply e) as [[ms m]|]; [|discriminate]. cbn. injection 1 as E _. by eapply reading_range.
  - injection 1 as E _. by eapply reading_range.
Qed.

Lemma turn_tally reply_ms e s : tally s ->
  exists c s' q, turn reply_ms e s = Done (c, s', q) /\ tally s' /\ sent_total s <= sent_total s' <= sent_total s + 1.
Proof.
  intros [Hs Hc Hf]. unfold turn. case_if.
  { eexists _, _, _. split; [reflexivity|]. split; [done|lia]. }
  destruct (next_total (query_source s) (draws s) Hs) as (en & src & r & -> & Hok). cbn [mbind outcome_bind].
  case_if.
  { eexists _, _, _. split; [reflexivity|]. split; [by constructor|cbn; lia]. }
  destruct (wait_tx (e_polls e) (errq s)) as [[tx|] q] eqn:E.
  - destruct (await_reply reply_ms e tx _) as [c s'] eqn:E2. eexists _, _, _. split; [reflexivity|].
    apply await_reply_tally in E2 as [Ht ->]; cbn; [split; [done|lia]|by eapply wait_tx_range|done|done|lia].
  - eexists _, _, _. split; [reflexivity|]. split; [constructor; cbn; [done|lia|done]|cbn; lia].
Qed.

Lemma run_tally reply_ms es s : tally s ->
  exists c s', run reply_ms es s = Done (c, s') /\ tally s' /\
    sent_total s <= sent_total s' <= sent_total s + Z.of_nat (length es).
Proof.
  revert s. induction es as [|e es IH]; intros s Hs; cbn [run length].
  { eexists _, _. split; [reflexivity|]. split; [done|lia]. }
  destruct (turn_tally reply_ms e s Hs) as (c & s1 & q & -> & Hs1 & Hn). cbn [mbind outcome_bind].
  destruct c; [|eexists _, _; split; [reflexivity|split; [done|lia]]..].
  destruct (IH s1 Hs1) as (c & s2 & -> & Hs2 & Hn2). eexists _, _. split; [reflexivity|]. split; [done|lia].
Qed.

End Tally.

(** ** The percentiles *)

Lemma pct_floor l num p : f64_as_u 64 (f64_mul (f64_of_Z (Z.of_nat (length l))) p) = num * Z.of_nat (length l) / 100 ->
  0 <= num < 100 -> l <> [] -> pct l p = Done (us (l !!! Z.to_nat (num * Z.of_nat (length l) / 100))).
Proof.
  intros Hp Hnum Hl. unfold pct. rewrite Hp. set (n := Z.of_nat (length l)).
  assert (0 < n) by (unfold n; destruct l; cbn; [done|lia]).
  assert (0 <= num * n / 100 <= n - 1) as Hk.
  { split; [apply Z.div_pos; lia|]. enough (num * n / 100 < n) by lia. apply Z.div_lt_upper_bound; nia. }
  rewrite Z.min_l by lia. by rewrite list_lookup_lookup_total_lt by (unfold n in *; lia).
Qed.

(** The entries of the report, by index in the sorted sample. *)
Definition report_of (l : list Z) : WireLatencyResult :=
  let n := length l in
  let at_pct num := us (l !!! Z.to_nat (num * Z.of_nat n / 100)) in
  mkResult (Z.of_nat n) false (us (l !!! 0%nat)) (at_pct 50) (at_pct 95) (at_pct 99) (us (l !!! (n - 1)%nat)).

Lemma report_spec rtts : rtts <> [] -> Z.of_nat (length rtts) < 2 ^ 45 ->
  report rtts = Done (report_of (merge_sort Z.le rtts)).
Proof.
  intros Hne Hlen. unfold report. set (l := merge_sort Z.le rtts).
  assert (length l = length rtts) as Hll by (unfold l; by rewrite merge_sort_Permutation).
  assert (l <> []) as Hl by (intros E; rewrite E in Hll; by destruct rtts).
  assert (0 < length l)%nat by (destruct l; [done|cbn; lia]).
  rewrite (pct_floor l 50 (f64_lit 50 100)) by (lia || done || (apply f64_mul_050_floor; lia)).
  rewrite (pct_floor l 95 (f64_lit 95 100)) by (lia || done || (apply f64_mul_095_floor; lia)).
  rewrite (pct_floor l 99 (f64_lit 99 100)) by (lia || done || (apply f64_mul_099_floor; lia)).
  cbn [mbind outcome_bind]. unfold report_of.
  by rewrite (list_lookup_lookup_total_lt l 0), (list_lookup_lookup_total_lt l (length l - 1)) by lia.
Qed.

(** ** Returning *)

Section Returns.
Context {S : Type} `{QuerySourceLaws S}.

(** The stamps of an iteration: at most one, and none after the wait. *)
Definition orderly (e : env) : Prop := (length (concat (e_polls e)) <= 1)%nat /\ e_stamps e = [].

Lemma orderly_turn reply_ms e (s : state (S := S)) c s' q : orderly e -> errq s = [] ->
  turn reply_ms e s = Done (c, s', q) -> c <> Blocked /\ errq s' = [].
Proof.
  intros [Hl Hst] Hq. unfold turn. case_if; [by injection 1 as <- <- <-|].
  destruct (next _ _) as [[[en src] r]|]; [|discriminate]. cbn [mbind outcome_bind].
  case_if; [by injection 1 as <- <- <-|]. pose proof (wait_tx_drains (e_polls e) (errq s)) as Hd.
  rewrite Hq in Hd |- *. specialize (Hd Hl (or_intror eq_refl)).
  destruct (wait_tx (e_polls e) []) as [tx q'] eqn:E. cbn in Hd. subst q'. rewrite Hst. cbn [app].
  destruct tx as [tx|]; [|by injection 1 as <- <- <-].
  unfold await_reply, poll_reply, recv_with_timestamp. cbn [errq rxq negb is_empty].
  destruct (e_eintr e); [by injection 1 as <- <- <-|].
  destruct (e_error e); cbn [orb]; [by injection 1 as <- <- <-|].
  destruct (rxq s ++ e_arrived e) as [|m rx]; cbn [orb is_empty negb]; [|by injection 1 as <- <- <-].
  destruct (e_reply e) as [[ms m]|]; [|by injection 1 as <- <- <-].
  cbn [fmap option_fmap option_map]. case_if; by injection 1 as <- <- <-.
Qed.

Lemma orderly_run reply_ms es (s : state (S := S)) c s' : Forall orderly es -> errq s = [] ->
  run reply_ms es s = Done (c, s') -> c <> Blocked.
Proof.
  intros Hes. revert s. induction Hes as [|e es He Hes IH]; intros s Hq; cbn [run].
  { by injection 1 as <- <-. }
  destruct (turn reply_ms e s) as [[[c1 s1] q]|] eqn:E; [|discriminate]. cbn [mbind outcome_bind].
  apply orderly_turn in E as [Hc Hq1]; [|done..]. destruct c1; [by apply IH|by injection 1 as <- <-|done].
Qed.

End Returns.

(** ** Exchanges *)

(** An exchange with a prompt server: the stamp of the query comes to the error
    queue, the reply to the receive queue. *)
Definition prompt (x : message * message) : env := mkEnv false true [[x.1]] [] [x.2] false false None.

(** The stamps [tx] and [rx] of an exchange. *)
Definition stamped (x : message * message) (tx rx : Z) : Prop :=
  extract_timestamp (m_control x.1) = Some tx /\ reading x.2 = Some (rx, m_len x.2).

(** Exchanges one after another, the first after [t], and their round-trip times. *)
Inductive serial : Z -> list (message * message) -> list Z -> Prop :=
| serial_nil t : serial t [] []
| serial_cons t x tx rx xs rtts : stamped x tx rx -> t < tx -> tx < rx -> serial rx xs rtts ->
    serial t (x :: xs) (rx - tx :: rtts).

Section Exchanges.
Context {S : Type} `{QuerySourceLaws S}.

Lemma prompt_turn reply_ms x tx rx (s : state (S := S)) : stamped x tx rx ->
  source_ok (query_source s) -> errq s = [] ->
  exists s' q, turn reply_ms (prompt x) s = Done (Continue, s', q) /\
    source_ok (query_source s') /\ errq s' = [] /\ rxq s' = drop 1 (rxq s ++ [x.2]) /\
    sent_total s' = sent_total s + 1 /\ no_reply s' = no_reply s /\ tx_missing s' = tx_missing s /\
    rtts_ns s' = match reading (hd x.2 (rxq s)) with
                 | Some (r, _) => if r >? tx then rtts_ns s ++ [r - tx] else rtts_ns s
                 | None => rtts_ns s
                 end.
Proof.
  intros [Htx Hrx] Hs Hq. unfold turn, prompt.
  cbn [e_deadline e_send e_polls e_stamps e_arrived negb].
  destruct (next_total (query_source s) (draws s) Hs) as (en & src & r & -> & Hok). cbn [mbind outcome_bind].
  rewrite Hq. cbn [wait_tx read_tx_timestamp app]. rewrite Htx. cbn [app].
  unfold await_reply, poll_reply, recv_with_timestamp. cbn [errq rxq e_eintr e_error is_empty negb orb].
  destruct (rxq s) as [|m rxq'] eqn:E; cbn [app is_empty negb orb hd drop];
    (eexists _, _; split; [reflexivity|]; by rewrite ?drop_0).
Qed.

(** In step: every exchange gives its round-trip time. *)
Lemma in_step reply_ms t xs rtts (s : state (S := S)) : serial t xs rtts ->
  source_ok (query_source s) -> errq s = [] -> rxq s = [] ->
  exists s', run reply_ms (prompt <$> xs) s = Done (Continue, s') /\ rtts_ns s' = rtts_ns s ++ rtts /\
    sent_total s' = sent_total s + Z.of_nat (length xs) /\ no_reply s' = no_reply s /\ tx_missing s' = tx_missing s.
Proof.
  intros Hx. revert s. induction Hx as [t|t x tx rx xs rtts Hst Ht Hlt Hx IH]; intros s Hs Hq Hr.
  { exists s. rewrite app_nil_r. cbn. split_and!; try done. lia. }
  destruct (prompt_turn reply_ms x tx rx s Hst Hs Hq) as (s1 & q & E & Hs1 & Hq1 & Hr1 & Hn1 & Hno & Htm & Hrt).
  cbn [fmap list_fmap run]. rewrite E. cbn [mbind outcome_bind].
  rewrite Hr in Hr1, Hrt. cbn [hd app drop] in Hr1, Hrt. destruct Hst as [_ Hrx]. rewrite Hrx in Hrt.
  replace (rx >? tx) with true in Hrt by (symmetry; rewrite Z.gtb_ltb; bool_to_prop; lia).
  destruct (IH s1 Hs1 Hq1 Hr1) as (s2 & -> & Hrt2 & Hn2 & Hno2 & Htm2). exists s2.
  split; [done|]. rewrite Hrt2, Hrt, <- app_assoc. cbn [length]. split_and!; [done|lia|congruence..].
Qed.

(** One behind: every exchange reads the reply of the one before. *)
Lemma one_behind reply_ms t xs rtts late (s : state (S := S)) : serial t xs rtts ->
  source_ok (query_source s) -> errq s = [] -> rxq s = [late] -> reading late = Some (t, m_len late) ->
  exists s', run reply_ms (prompt <$> xs) s = Done (Continue, s') /\ rtts_ns s' = rtts_ns s /\
    sent_total s' = sent_total s + Z.of_nat (length xs) /\ no_reply s' = no_reply s /\ tx_missing s' = tx_missing s.
Proof.
  intros Hx. revert late s. induction Hx as [t|t x tx rx xs rtts Hst Ht Hlt Hx IH]; intros late s Hs Hq Hr Hlate.
  { exists s. cbn. split_and!; try done. lia. }
  destruct (prompt_turn reply_ms x tx rx s Hst Hs Hq) as (s1 & q & E & Hs1 & Hq1 & Hr1 & Hn1 & Hno & Htm & Hrt).
  cbn [fmap list_fmap run]. rewrite E. cbn [mbind outcome_bind].
  rewrite Hr in Hr1, Hrt. cbn [hd app drop] in Hr1, Hrt. rewrite Hlate in Hrt.
  replace (t >? tx) with false in Hrt by (symmetry; rewrite Z.gtb_ltb; bool_to_prop; lia).
  destruct Hst as [_ Hrx].
  destruct (IH x.2 s1 Hs1 Hq1 Hr1 Hrx) as (s2 & -> & Hrt2 & Hn2 & Hno2 & Htm2). exists s2.
  split; [done|]. cbn [length]. split_and!; [congruence|lia|congruence..].
Qed.

End Exchanges.

(** ** Theorems *)

Lemma sorted_mono (l : list Z) i j : StronglySorted Z.le l -> (i <= j < length l)%nat -> l !!! i <= l !!! j.
Proof.
  intros Hs [Hij Hj]. destruct (decide (i = j)) as [-> |Hne]; [lia|].
  apply (StronglySorted_app_1_elem_of Z.le (take j l) (drop j l)); [by rewrite take_drop|..].
  - apply list_elem_of_lookup. exists i. rewrite lookup_take_lt by lia. apply list_lookup_lookup_total_lt. lia.
  - apply list_elem_of_lookup. exists 0%nat. rewrite lookup_drop, Nat.add_0_r. by apply list_lookup_lookup_total_lt.
Qed.

(** The samples behind the five figures of a report. *)
Definition figures (l : list Z) : list Z :=
  let at_pct num := l !!! Z.to_nat (num * Z.of_nat (length l) / 100) in
  [l !!! 0%nat; at_pct 50; at_pct 95; at_pct 99; l !!! (length l - 1)%nat].

Lemma figures_sorted l : l <> [] -> StronglySorted Z.le l -> Sorted Z.le (figures l).
Proof.
  intros Hl Hs. assert (0 < length l)%nat by (destruct l; [done|cbn; lia]). unfold figures.
  set (n := Z.of_nat (length l)) in *.
  assert (0 <= 50 * n / 100 <= 95 * n / 100 /\ 95 * n / 100 <= 99 * n / 100 <= n - 1) as Hi.
  { split_and!; try (apply Z.div_pos; lia); try (apply Z.div_le_mono; lia).
    enough (99 * n / 100 < n) by lia. apply Z.div_lt_upper_bound; lia. }
  repeat constructor; apply sorted_mono; try done; lia.
Qed.

(** The result of the probe, once the socket is set up: the loop ends with some
    samples and counters, every send is a sample, a missing stamp, a missing reply
    or was dropped, and all samples are positive 64-bit differences.  Without a
    sample the result is the error with the counters; otherwise it is the count and
    the sorted sample at its first place, at the integer parts of 50, 95 and 99
    per cent of the count, and at its last place, in increasing order: the
    floating-point index is exact and never out of range. *)
Theorem probe_report {S} `{QuerySourceLaws S} k (src : S) r id0 timeout_ms es :
  source_ok src -> bind_ok k && connect_ok k && set_ts k flags_hw = true -> Z.of_nat (length es) < 2 ^ 45 ->
  exists c s, run (reply_ms_of timeout_ms) es (mkState id0 src r [] [] [] 0 0 0) = Done (c, s) /\
    Forall (fun x => 0 < x < 2 ^ 64) (rtts_ns s) /\
    Z.of_nat (length (rtts_ns s)) + tx_missing s + no_reply s <= sent_total s <= Z.of_nat (length es) /\
    (c = Blocked -> probe k src r id0 timeout_ms es = Done None) /\
    (c <> Blocked -> rtts_ns s = [] ->
      probe k src r id0 timeout_ms es = Done (Some (Err (NoSamples (sent_total s) (tx_missing s) (no_reply s))))) /\
    (c <> Blocked -> rtts_ns s <> [] ->
      exists l, l ≡ₚ rtts_ns s /\ StronglySorted Z.le l /\ Sorted Z.le (figures l) /\
        exists res, probe k src r id0 timeout_ms es = Done (Some (Ok res)) /\
          samples res = Z.of_nat (length l) /\
          [min_us res; p50_us res; p95_us res; p99_us res; max_us res] = us <$> figures l).
Proof.
  intros Hs Hk Hlen. apply andb_true_iff in Hk as [Hk K3]. apply andb_true_iff in Hk as [K1 K2].
  set (s0 := mkState id0 src r [] [] [] 0 0 0).
  destruct (run_tally (reply_ms_of timeout_ms) es s0) as (c & s & E & [_ Hc Hf] & Hn).
  { constructor; cbn; [done|lia|by constructor]. }
  exists c, s. split; [done|]. split; [done|]. cbn [s0 sent_total] in Hn. split; [lia|].
  unfold probe. rewrite K1, K2, K3. cbn [negb]. fold s0. rewrite E. cbn [mbind outcome_bind].
  split_and!; [by intros ->|intros Hb Hr; rewrite Hr; by destruct c|]. intros Hb Hr.
  assert (StronglySorted Z.le (merge_sort Z.le (rtts_ns s))) as Hss
    by (apply (StronglySorted_merge_sort _); intros a b; lia).
  assert (merge_sort Z.le (rtts_ns s) ≡ₚ rtts_ns s) as Hp by apply merge_sort_Permutation.
  exists (merge_sort Z.le (rtts_ns s)). split; [done|]. split; [done|].
  split; [apply figures_sorted; [|done]; intros E0; rewrite E0 in Hp; by apply Permutation_nil in Hp|].
  exists (report_of (merge_sort Z.le (rtts_ns s))). split; [|done].
  rewrite report_spec by (done || lia). destruct (rtts_ns s) eqn:Er; [done|]. by destruct c.
Qed.

(** C33. When the probe returns: if every iteration's stamps are orderly (at most one,
    delivered while the iteration waits for it), the probe returns, whatever the
    server does.  If a stamp is left in the error queue when the reply is awaited
    and no datagram comes, the iteration never ends, whatever the time-outs: the
    poll reports the stamp and the receive blocks. *)
Theorem probe_returns {S} `{QuerySourceLaws S} :
  (forall k (src : S) r id0 timeout_ms es, source_ok src -> Z.of_nat (length es) < 2 ^ 45 -> Forall orderly es ->
     exists res, probe k src r id0 timeout_ms es = Done (Some res)) /\
  (forall reply_ms e (s : state (S := S)) tx stamps, source_ok (query_source s) ->
     e_deadline e = false -> e_send e = true -> e_eintr e = false -> e_error e = false -> e_reply e = None ->
     rxq s ++ e_arrived e = [] -> wait_tx (e_polls e) (errq s) = (Some tx, stamps) -> stamps ++ e_stamps e <> [] ->
     exists s' q, turn reply_ms e s = Done (Blocked, s', q)).
Proof.
  split.
  - intros k src r id0 timeout_ms es Hs Hlen Ho. unfold probe. repeat (case_if; [by eexists|]).
    set (s0 := mkState id0 src r [] [] [] 0 0 0).
    destruct (run_tally (reply_ms_of timeout_ms) es s0) as (c & s & E & [_ Hc _] & Hn).
    { constructor; cbn; [done|lia|by constructor]. }
    rewrite E. cbn [mbind outcome_bind s0 sent_total] in Hn |- *.
    apply orderly_run in E; [|done|done].
    enough (exists res, (if is_empty (rtts_ns s) then Done (Some (Err (NoSamples (sent_total s) (tx_missing s) (no_reply s))))
       else res ← report (rtts_ns s); Done (Some (Ok res))) = Done (Some res)) by (by destruct c).
    destruct (rtts_ns s) eqn:Er; [by eexists|]. cbn [is_empty]. rewrite report_spec; [by eexists|done|lia].
  - intros reply_ms e s tx stamps Hs E1 E2 E3 E4 E5 E6 E7 E8. unfold turn. rewrite E1, E2.
    destruct (next_total (query_source s) (draws s) Hs) as (en & src & r & -> & Hok). cbn [mbind outcome_bind negb].
    rewrite E7. unfold await_reply, poll_reply, recv_with_timestamp. cbn [errq rxq]. rewrite E3, E4, E5, E6.
    destruct (stamps ++ e_stamps e) eqn:E; [done|]. by eexists _, _.
Qed.

(** C12. What prompt exchanges measure.  With both queues empty, a series of exchanges
    each answered before the next gives exactly their round-trip times.  With the
    reply of an earlier query still in the receive queue the same series gives no
    sample at all, however long it is: each iteration reads the reply of the one
    before, which is older than its own query, and the loss is in no counter. *)
Theorem probe_alignment {S} `{QuerySourceLaws S} reply_ms t xs rtts (s : state (S := S)) :
  serial t xs rtts -> source_ok (query_source s) -> errq s = [] ->
  (rxq s = [] ->
     exists s', run reply_ms (prompt <$> xs) s = Done (Continue, s') /\ rtts_ns s' = rtts_ns s ++ rtts /\
       sent_total s' = sent_total s + Z.of_nat (length xs) /\ no_reply s' = no_reply s /\ tx_missing s' = tx_missing s) /\
  (forall late, rxq s = [late] -> reading late = Some (t, m_len late) ->
     exists s', run reply_ms (prompt <$> xs) s = Done (Continue, s') /\ rtts_ns s' = rtts_ns s /\
       sent_total s' = sent_total s + Z.of_nat (length xs) /\ no_reply s' = no_reply s /\ tx_missing s' = tx_missing s).
Proof.
  intros Hx Hs Hq. split.
  - intros Hr. by eapply in_step.
  - intros late Hr Hl. by eapply one_behind.
Qed.

(** ** Witnesses *)

(** A message with the software stamp [ns]. *)
Definition sw (ns : Z) : message :=
  mkMsg 44 [mkCmsg 0 8 (mkScm (mkTs 9 9) (mkTs 0 0) (mkTs 9 9));
            mkCmsg SOL_SOCKET SCM_TIMESTAMPING (mkScm (mkTs (ns / 1000000000) (ns mod 1000000000)) (mkTs 0 0) (mkTs 0 0))].

Definition ex_source : FileQuerySource := mkFile [mkEntry (lit "a.com") 1] 0.
Definition ex_xs : list (message * message) := [(sw 2000000000, sw 2000040000); (sw 2000100000, sw 2000190000)].
Definition ex_setup : setup := mkSetup true true (fun v => v =? 2271).

Lemma ex_source_ok : source_ok ex_source.
Proof. split; [discriminate|]. split; vm_compute; congruence. Qed.

Lemma probe_report_witness :
  exists l res, l ≡ₚ [40000; 90000] /\ Sorted Z.le (figures l) /\
    probe ex_setup ex_source (fun _ => 0) 65535 3000 (prompt <$> ex_xs) = Done (Some (Ok res)) /\ samples res = 2.
Proof.
  destruct (probe_report ex_setup ex_source (fun _ => 0) 65535 3000 (prompt <$> ex_xs))
    as (c & s & E & _ & _ & _ & _ & Hok); [exact ex_source_ok|reflexivity|vm_compute; reflexivity|].
  assert (Hv : Done (c, s) = run (reply_ms_of 3000) (prompt <$> ex_xs) (mkState 65535 ex_source (fun _ => 0) [] [] [] 0 0 0))
    by (symmetry; exact E).
  vm_compute in Hv. injection Hv as -> ->.
  destruct Hok as (l & Hp & _ & Hfig & res & Hpr & Hsm & _); [discriminate|discriminate|].
  exists l, res. split; [exact Hp|]. split; [exact Hfig|]. split; [exact Hpr|].
  rewrite Hsm, Hp. reflexivity.
Defined.

(** A stamp that comes after the wait, and no reply. *)
Definition ex_stray : env := mkEnv false true [[sw 5]] [sw 6] [] false false None.

Lemma probe_returns_witness :
  (exists res, probe ex_setup ex_source (fun _ => 0) 65535 3000 (prompt <$> ex_xs) = Done (Some res)) /\
  (exists s' q, turn 250 ex_stray (mkState 0 ex_source (fun _ => 0) [] [] [] 0 0 0) = Done (Blocked, s', q)).
Proof.
  split.
  - apply (proj1 probe_returns); [exact ex_source_ok|vm_compute; reflexivity|].
    repeat constructor.
  - apply (proj2 probe_returns) with 5 []; try reflexivity; [exact ex_source_ok|discriminate].
Defined.

Lemma ex_serial : serial 1000000000 ex_xs [40000; 90000].
Proof.
  apply (serial_cons _ _ 2000000000 2000040000); [by split|lia|lia|].
  apply (serial_cons _ _ 2000100000 2000190000); [by split|lia|lia|]. constructor.
Qed.

Lemma probe_alignment_witness :
  (exists s', run 250 (prompt <$> ex_xs) (mkState 0 ex_source (fun _ => 0) [] [] [] 0 0 0) = Done (Continue, s') /\
     rtts_ns s' = [40000; 90000]) /\
  (exists s', run 250 (prompt <$> ex_xs) (mkState 0 ex_source (fun _ => 0) [] [sw 1000000000] [] 0 0 0) = Done (Continue, s') /\
     rtts_ns s' = [] /\ sent_total s' = 2).
Proof.
  split.
  - destruct (probe_alignment 250 1000000000 ex_xs [40000; 90000] (mkState 0 ex_source (fun _ => 0) [] [] [] 0 0 0))
      as [Ha _]; [exact ex_serial|exact ex_source_ok|reflexivity|].
    destruct Ha as (s' & E & Hr & _); [reflexivity|]. exists s'. split; [exact E|exact Hr].
  - destruct (probe_alignment 250 1000000000 ex_xs [40000; 90000] (mkState 0 ex_source (fun _ => 0) [] [sw 1000000000] [] 0 0 0))
      as [_ Hb]; [exact ex_serial|exact ex_source_ok|reflexivity|].
    destruct (Hb (sw 1000000000)) as (s' & E & Hr & Hn & _); [reflexivity|reflexivity|].
    exists s'. split; [exact E|]. split; [exact Hr|exact Hn].
Defined.

End Wire.
