(* ===== verification/Frame.v ===== *)
(** * Ethernet frames of the AF_XDP path

    Models [src/transport/xdp/frame.rs] (the header template, the per-frame patch,
    MAC and ARP parsing) and [parse_dns_from_frame] of
    [src/transport/xdp/receiver.rs].

    The theorems: for every address, port, VLAN id and payload length the IPv4
    header that [write_header] leaves has a valid checksum (RFC 1071, computed by
    the code's own [ipv4_checksum]); the frame is laid out as the standards say,
    tagged or not, and a tag shifts everything after the MAC addresses by four bytes
    and changes nothing else; the receiver's parser gives the id and the code of a
    response that the writer put in, and nothing for a query; a MAC address is read back from its text. *)

From Stdlib Require Import ZArith Lia Bool String.
From stdpp Require Import base numbers option list.
From S2P Require Import Prelude RustStr Dns.

Open Scope Z_scope.

Definition ETH_HDR : Z := 14.
Definition IPV4_HDR : Z := 20.
Definition IPV6_HDR : Z := 40.
Definition UDP_HDR : Z := 8.
Definition VLAN_HDR : Z := 4.
Definition OUTER_HDR : Z := ETH_HDR + IPV4_HDR + UDP_HDR.
Definition OUTER_HDR_MAX : Z := OUTER_HDR + VLAN_HDR.
Definition ETH_P_IP : Z := 0x0800.
Definition ETH_P_IPV6 : Z := 0x86DD.
Definition PROTO_UDP : Z := 17.

(** [buf[off..off + src.len()].copy_from_slice(src)] and [buf[i] = v], within
    bounds. *)
Definition copy_at (off : Z) (src buf : list Z) : list Z :=
  take (Z.to_nat off) buf ++ src ++ drop (Z.to_nat off + length src) buf.
Definition set_at (i v : Z) (buf : list Z) : list Z := <[Z.to_nat i := v]> buf.
Definition byte_at (buf : list Z) (i : Z) : Z := buf !!! Z.to_nat i.

(** The two bytes of a 16-bit value: [(x >> 8) as u8] and [x as u8]. *)
Definition hi8 (x : Z) : Z := as_u 8 (Z.shiftr x 8).
Definition lo8 (x : Z) : Z := as_u 8 x.

(** ** The template *)

(** [vlan_from_env]: the value of [DNSMARK_VLAN], 0 meaning untagged. *)
Definition vlan_from_env (var : option str) : option Z :=
  match var with
  | None => None
  | Some s => match parse_u 16 (trim s) with
              | Some v => if negb (v =? 0) then Some v else None
              | None => None
              end
  end.

Record FrameHeader : Set := mkHeader {
  tpl : list Z;
  outer : Z;
  l2 : Z;
  ip_base_sum : Z
}.

(** The sum of [n] big-endian words from offset [off] (a [u32]). *)
Fixpoint sum_words (n : nat) (off : Z) (buf : list Z) : Z :=
  match n with
  | O => 0
  | S n' => from_be_bytes16 (byte_at buf off) (byte_at buf (off + 1)) + sum_words n' (off + 2) buf
  end.

Definition new_with_vlan (src_mac dst_mac src_ip dst_ip : list Z) (src_port dst_port : Z)
    (vlan : option Z) : FrameHeader :=
  let l2 := match vlan with Some _ => ETH_HDR + VLAN_HDR | None => ETH_HDR end in
  let outer := l2 + IPV4_HDR + UDP_HDR in
  let tpl := replicate (Z.to_nat OUTER_HDR_MAX) 0 in
  let tpl := copy_at 0 dst_mac tpl in
  let tpl := copy_at 6 src_mac tpl in
  let tpl :=
    match vlan with
    | Some vid =>
        let tpl := copy_at 12 (to_be_bytes16 0x8100) tpl in
        let tpl := copy_at 14 (to_be_bytes16 (Z.land vid 0x0FFF)) tpl in
        copy_at 16 [0x08; 0x00] tpl
    | None => copy_at 12 [0x08; 0x00] tpl
    end in
  let tpl := set_at l2 0x45 tpl in
  let tpl := set_at (l2 + 6) 0x40 tpl in
  let tpl := set_at (l2 + 8) 64 tpl in
  let tpl := set_at (l2 + 9) 17 tpl in
  let tpl := copy_at (l2 + 12) src_ip tpl in
  let tpl := copy_at (l2 + 16) dst_ip tpl in
  let tpl := set_at (l2 + IPV4_HDR) (hi8 src_port) tpl in
  let tpl := set_at (l2 + IPV4_HDR + 1) (lo8 src_port) tpl in
  let tpl := set_at (l2 + IPV4_HDR + 2) (hi8 dst_port) tpl in
  let tpl := set_at (l2 + IPV4_HDR + 3) (lo8 dst_port) tpl in
  mkHeader tpl outer l2 (sum_words 10 l2 tpl).

Definition new (src_mac dst_mac src_ip dst_ip : list Z) (src_port dst_port : Z)
    (var : option str) : FrameHeader :=
  new_with_vlan src_mac dst_mac src_ip dst_ip src_port dst_port (vlan_from_env var).

(** ** Per frame *)

(** [(sum & 0xFFFF) + (sum >> 16)] *)
Definition fold16 (sum : Z) : Z := Z.land sum 0xFFFF + Z.shiftr sum 16.

(** [!(x as u16)] *)
Definition not16 (x : Z) : Z := u16_max - as_u 16 x.

Definition write_header (h : FrameHeader) (out : list Z) (dns_len : Z) : outcome (list Z * Z) :=
  let l2 := l2 h in
  let total := outer h + dns_len in
  let udp_len := as_u 16 (UDP_HDR + dns_len) in
  let ip_tot := wadd 16 IPV4_HDR udp_len in
  if Z.of_nat (length out) <? outer h then Panic
  else
    let out := copy_at 0 (take (Z.to_nat (outer h)) (tpl h)) out in
    let out := set_at (l2 + 2) (hi8 ip_tot) out in
    let out := set_at (l2 + 3) (lo8 ip_tot) out in
    let sum := ip_base_sum h + ip_tot in
    let sum := fold16 sum in
    let sum := fold16 sum in
    let cksum := not16 sum in
    let out := set_at (l2 + 10) (hi8 cksum) out in
    let out := set_at (l2 + 11) (lo8 cksum) out in
    let out := set_at (l2 + IPV4_HDR + 4) (hi8 udp_len) out in
    let out := set_at (l2 + IPV4_HDR + 5) (lo8 udp_len) out in
    Done (out, total).

Definition write_frame (h : FrameHeader) (out dns : list Z) : outcome (list Z * Z) :=
  let total := outer h + Z.of_nat (length dns) in
  if Z.of_nat (length out) <? total then Panic
  else write_header h (copy_at (outer h) dns out) (Z.of_nat (length dns)).

Definition set_src_port (h : FrameHeader) (out : list Z) (port : Z) : list Z :=
  let out := set_at (l2 h + IPV4_HDR) (hi8 port) out in
  set_at (l2 h + IPV4_HDR + 1) (lo8 port) out.

(** The [while] loop of [ipv4_checksum]: a 32-bit sum has no carry left after
    three turns. *)
Fixpoint fold_carry (fuel : nat) (sum : Z) : Z :=
  match fuel with
  | O => sum
  | S fuel' => if negb (Z.shiftr sum 16 =? 0) then fold_carry fuel' (fold16 sum) else sum
  end.

Definition ipv4_checksum (hdr : list Z) : Z :=
  not16 (fold_carry 3 (sum_words (length hdr / 2) 0 hdr)).

(** ** MAC addresses and the ARP table *)

Definition parse_mac (s : str) : option (list Z) :=
  let p := split_char c_colon s in
  if negb (Z.of_nat (length p) =? 6) then None
  else mapM (from_str_radix 16 8) p.

(** [local_mac]: [content] is what the file of the interface holds, if it can
    be read. *)
Definition local_mac (content : option str) : option (list Z) :=
  match content with
  | None => None
  | Some s => parse_mac (trim s)
  end.

(** [Ipv4Addr::to_string] *)
Definition ipv4_to_string (octets : list Z) : str := join c_dot (display_u <$> octets).

(** The loop of [lookup_arp] over the lines: a line that ends early, and an
    incomplete entry, end the search. *)
Fixpoint arp_lines (target : str) (ls : list str) : option (list Z) :=
  match ls with
  | [] => None
  | line :: ls' =>
      match split_whitespace line with
      | [] => None
      | ip :: c =>
          if negb (str_eqb ip target) then arp_lines target ls'
          else match c with
               | _hw :: flags :: c =>
                   if str_eqb flags (lit "0x0") then None
                   else match c with
                        | mac :: _ => parse_mac mac
                        | [] => None
                        end
               | _ => None
               end
      end
  end.

Definition lookup_arp (content : option str) (server : list Z) : option (list Z) :=
  match content with
  | None => None
  | Some s => arp_lines (ipv4_to_string server) (drop 1 (lines s))
  end.

(** [resolve_server_mac]: [arp n] is what the table holds at the [n]-th look;
    the first, then one after each of forty waits. *)
Fixpoint resolve_loop (n : nat) (arp : nat -> option str) (server : list Z) : option (list Z) :=
  match n with
  | O => None
  | S n' => match lookup_arp (arp 0%nat) server with
            | Some m => Some m
            | None => resolve_loop n' (fun k => arp (S k)) server
            end
  end.

Definition resolve_server_mac (arp : nat -> option str) (server : list Z) : option (list Z) :=
  resolve_loop 41 arp server.

(** ** The receiver's parser *)

Definition parse_dns_from_frame (frame : list Z) : option (Z * Z) :=
  let len := Z.of_nat (length frame) in
  if len <? ETH_HDR + 2 then None
  else
    let word i := from_be_bytes16 (byte_at frame i) (byte_at frame (i + 1)) in
    if (word 12 =? 0x8100) && (len <? ETH_HDR + 4) then None
    else
      let '(l2, eth_type) := if word 12 =? 0x8100 then (ETH_HDR + 4, word 16) else (ETH_HDR, word 12) in
      let ip_hdr_len :=
        if eth_type =? ETH_P_IP then
          if len <? l2 + IPV4_HDR then None
          else if negb (byte_at frame (l2 + 9) =? PROTO_UDP) then None
          else
            let ihl := Z.land (byte_at frame l2) 0xF * 4 in
            if ihl <? IPV4_HDR then None else Some ihl
        else if eth_type =? ETH_P_IPV6 then
          if len <? l2 + IPV6_HDR then None
          else if negb (byte_at frame (l2 + 6) =? PROTO_UDP) then None
          else Some IPV6_HDR
        else None in
      match ip_hdr_len with
      | None => None
      | Some n =>
          let dns_off := l2 + n + UDP_HDR in
          if len <? dns_off + 12 then None
          else (fun r => (resp_id r, resp_rcode r)) <$> parse_response (drop (Z.to_nat dns_off) frame)
      end.

Arguments hi8 : simpl never.
Arguments lo8 : simpl never.
Arguments fold16 : simpl never.
Arguments not16 : simpl never.
Arguments as_u : simpl never.
Arguments wadd : simpl never.
Arguments from_be_bytes16 : simpl never.

(** ** The layout, by the standards *)

Definition eth_header (dst src : list Z) (vlan : option Z) : list Z :=
  dst ++ src ++
  match vlan with
  | Some vid => [0x81; 0x00; Z.land vid 0x0FFF / 256; Z.land vid 0x0FFF mod 256; 0x08; 0x00]
  | None => [0x08; 0x00]
  end.

Definition ip_header (src dst : list Z) (total cksum : Z) : list Z :=
  [0x45; 0; hi8 total; lo8 total; 0; 0; 0x40; 0; 64; 17; hi8 cksum; lo8 cksum] ++ src ++ dst.

Definition udp_header (src_port dst_port len : Z) : list Z :=
  [hi8 src_port; lo8 src_port; hi8 dst_port; lo8 dst_port; hi8 len; lo8 len; 0; 0].

(** The checksum the code writes for a total length. *)
Definition checksum_of (src dst : list Z) (total : Z) : Z :=
  not16 (fold16 (fold16 (sum_words 10 0 (ip_header src dst 0 0) + total))).

Definition is_mac (m : list Z) : Prop := length m = 6%nat /\ Forall (in_u 8) m.
Definition is_ip (a : list Z) : Prop := length a = 4%nat /\ Forall (in_u 8) a.

Lemma copy_at_0 src out : copy_at 0 src out = src ++ drop (length src) out.
Proof. done. Qed.

Lemma write_header_layout src_mac dst_mac src_ip dst_ip src_port dst_port vlan out n :
  length src_mac = 6%nat -> length dst_mac = 6%nat -> length src_ip = 4%nat -> length dst_ip = 4%nat ->
  let h := new_with_vlan src_mac dst_mac src_ip dst_ip src_port dst_port vlan in
  let len := as_u 16 (UDP_HDR + n) in
  let tot := wadd 16 IPV4_HDR len in
  outer h <= Z.of_nat (length out) ->
  write_header h out n =
  Done (eth_header dst_mac src_mac vlan ++ ip_header src_ip dst_ip tot (checksum_of src_ip dst_ip tot) ++
        udp_header src_port dst_port len ++ drop (Z.to_nat (outer h)) out, outer h + n).
Proof.
  intros H1 H2 H3 H4.
  destruct src_mac as [|s0 [|s1 [|s2 [|s3 [|s4 [|s5 [|]]]]]]]; try done.
  destruct dst_mac as [|d0 [|d1 [|d2 [|d3 [|d4 [|d5 [|]]]]]]]; try done.
  destruct src_ip as [|a0 [|a1 [|a2 [|a3 [|]]]]]; try done.
  destruct dst_ip as [|b0 [|b1 [|b2 [|b3 [|]]]]]; try done.
  intros h len tot Hout. unfold write_header.
  replace (Z.of_nat (length out) <? outer h) with false by (symmetry; bool_to_prop; lia).
  rewrite copy_at_0.
  destruct vlan as [vid|].
  - change (outer h) with 46. change (length (take (Z.to_nat 46) (tpl h))) with 46%nat.
    change (Z.to_nat 46) with 46%nat.
    generalize (drop 46 out). intros rest. subst h. cbn. done.
  - change (outer h) with 42. change (length (take (Z.to_nat 42) (tpl h))) with 42%nat.
    change (Z.to_nat 42) with 42%nat.
    generalize (drop 42 out). intros rest. subst h. cbn. done.
Qed.

(** ** One's-complement sums *)

Lemma fold16_spec x : 0 <= x -> fold16 x = x mod 65536 + x / 65536.
Proof.
  intros Hx. unfold fold16. change 0xFFFF with (Z.ones 16). rewrite Z.land_ones, Z.shiftr_div_pow2 by lia.
  done.
Qed.

(** A fold keeps the sum modulo 65535, and keeps it positive. *)
Lemma fold16_cong x : 0 <= x -> exists k, fold16 x = x - 65535 * k /\ 0 <= k.
Proof.
  intros Hx. rewrite fold16_spec by done. exists (x / 65536).
  pose proof (Z.div_mod x 65536). split; [lia|apply Z.div_pos; lia].
Qed.

Lemma fold16_bounds x : 0 <= x < 2 ^ 32 ->
  0 <= fold16 x <= 131070 /\ (0 < x -> 0 < fold16 x) /\ (x <= 131070 -> fold16 x <= 65535).
Proof.
  intros Hx. rewrite fold16_spec by lia. change (2 ^ 32) with 4294967296 in Hx.
  Z.to_euclidean_division_equations. lia.
Qed.

Lemma shiftr16_zero x : 0 <= x -> (Z.shiftr x 16 =? 0) = (x <? 65536).
Proof.
  intros Hx. rewrite Z.shiftr_div_pow2 by lia. change (2 ^ 16) with 65536.
  apply eq_true_iff_eq. rewrite Z.eqb_eq, Z.ltb_lt. Z.to_euclidean_division_equations. lia.
Qed.

(** Three turns leave no carry. *)
Lemma fold_carry_done x : 0 <= x < 2 ^ 32 ->
  exists k, fold_carry 3 x = x - 65535 * k /\ 0 <= fold_carry 3 x < 65536 /\ (0 < x -> 0 < fold_carry 3 x).
Proof.
  intros Hx. cbn [fold_carry]. rewrite shiftr16_zero by lia.
  destruct (x <? 65536) eqn:E0; cbn [negb]; bool_to_prop; [exists 0; lia|].
  destruct (fold16_bounds x Hx) as (B1 & P1 & _). destruct (fold16_cong x) as (k1 & C1 & K1); [lia|].
  rewrite shiftr16_zero by lia.
  destruct (fold16 x <? 65536) eqn:E1; cbn [negb]; bool_to_prop; [exists k1; lia|].
  destruct (fold16_bounds (fold16 x)) as (B2 & P2 & T2); [lia|].
  destruct (fold16_cong (fold16 x)) as (k2 & C2 & K2); [lia|].
  rewrite shiftr16_zero by lia.
  replace (fold16 (fold16 x) <? 65536) with true by (symmetry; bool_to_prop; lia). cbn [negb].
  exists (k1 + k2). lia.
Qed.

Lemma be16_hi_lo x : in_u 16 x -> from_be_bytes16 (hi8 x) (lo8 x) = x.
Proof.
  unfold in_u, from_be_bytes16, hi8, lo8, as_u. change (2 ^ 16) with 65536. change (2 ^ 8) with 256.
  intros Hx. rewrite Z.shiftr_div_pow2 by lia. change (2 ^ 8) with 256.
  rewrite (Z.mod_small (x / 256)) by (Z.to_euclidean_division_equations; lia).
  pose proof (Z.div_mod x 256). lia.
Qed.

Lemma be16_range a b : in_u 8 a -> in_u 8 b -> 0 <= from_be_bytes16 a b <= 65535.
Proof. unfold in_u, from_be_bytes16. change (2 ^ 8) with 256. lia. Qed.

Lemma ip_header_words a0 a1 a2 a3 b0 b1 b2 b3 t c :
  sum_words 10 0 (ip_header [a0; a1; a2; a3] [b0; b1; b2; b3] t c) =
  from_be_bytes16 69 0 + (from_be_bytes16 (hi8 t) (lo8 t) + (from_be_bytes16 0 0 +
  (from_be_bytes16 64 0 + (from_be_bytes16 64 17 + (from_be_bytes16 (hi8 c) (lo8 c) +
  (from_be_bytes16 a0 a1 + (from_be_bytes16 a2 a3 + (from_be_bytes16 b0 b1 +
  (from_be_bytes16 b2 b3 + 0))))))))).
Proof. reflexivity. Qed.

(** The words of an IPv4 header, with the two fields the sender fills. *)
Lemma ip_header_sum src dst total cksum : is_ip src -> is_ip dst -> in_u 16 total -> in_u 16 cksum ->
  sum_words 10 0 (ip_header src dst total cksum) =
    sum_words 10 0 (ip_header src dst 0 0) + total + cksum /\
  17664 <= sum_words 10 0 (ip_header src dst 0 0) <= 8 * 65535.
Proof.
  intros [Hs1 Hs2] [Hd1 Hd2] Ht Hc.
  destruct src as [|a0 [|a1 [|a2 [|a3 [|]]]]]; try done.
  destruct dst as [|b0 [|b1 [|b2 [|b3 [|]]]]]; try done.
  rewrite !Forall_cons in Hs2, Hd2. destruct_ands. rewrite !ip_header_words.
  rewrite !be16_hi_lo by (done || (unfold in_u; lia)).
  change (from_be_bytes16 69 0) with 17664. change (from_be_bytes16 0 0) with 0.
  change (from_be_bytes16 64 0) with 16384. change (from_be_bytes16 64 17) with 16401.
  assert (0 <= from_be_bytes16 a0 a1 <= 65535) by by apply be16_range.
  assert (0 <= from_be_bytes16 a2 a3 <= 65535) by by apply be16_range.
  assert (0 <= from_be_bytes16 b0 b1 <= 65535) by by apply be16_range.
  assert (0 <= from_be_bytes16 b2 b3 <= 65535) by by apply be16_range.
  lia.
Qed.

Lemma not16_small x : 0 <= x < 65536 -> not16 x = 65535 - x.
Proof.
  intros Hx. unfold not16. rewrite as_u_small by (unfold in_u; change (2 ^ 16) with 65536; lia). done.
Qed.

(** The checksum of a header with the checksum in place is zero. *)
Lemma checksum_valid src dst total : is_ip src -> is_ip dst -> in_u 16 total ->
  ipv4_checksum (ip_header src dst total (checksum_of src dst total)) = 0.
Proof.
  intros Hs Hd Ht. set (ck := checksum_of src dst total).
  assert (Hlen : (length (ip_header src dst total ck) / 2)%nat = 10%nat).
  { destruct Hs as [Hs _], Hd as [Hd _]. unfold ip_header. rewrite !length_app, Hs, Hd. reflexivity. }
  set (base := sum_words 10 0 (ip_header src dst 0 0)).
  destruct (ip_header_sum src dst 0 0 Hs Hd) as [_ Hb]; [unfold in_u; lia|unfold in_u; lia|]. fold base in Hb.
  assert (Ht' : 0 <= total < 65536) by exact Ht.
  destruct (fold16_bounds (base + total)) as (B1 & P1 & _); [lia|].
  destruct (fold16_cong (base + total)) as (k1 & C1 & _); [lia|].
  destruct (fold16_bounds (fold16 (base + total))) as (B2 & P2 & T2); [lia|].
  destruct (fold16_cong (fold16 (base + total))) as (k2 & C2 & _); [lia|].
  assert (Hck : ck = 65535 - fold16 (fold16 (base + total))).
  { subst ck. unfold checksum_of. fold base. apply not16_small. lia. }
  assert (Hck16 : in_u 16 ck) by (unfold in_u; change (2 ^ 16) with 65536; lia).
  destruct (ip_header_sum src dst total ck Hs Hd Ht Hck16) as [Hsum _]. fold base in Hsum.
  unfold ipv4_checksum. rewrite Hlen, Hsum.
  destruct (fold_carry_done (base + total + ck)) as (k & Ck & Bk & Pk); [lia|].
  rewrite not16_small by lia. lia.
Qed.

(** ** Whole frames *)

Lemma outer_vlan src_mac dst_mac src_ip dst_ip src_port dst_port vlan :
  outer (new_with_vlan src_mac dst_mac src_ip dst_ip src_port dst_port vlan) =
  if vlan is Some _ then 46 else 42.
Proof. by destruct vlan. Qed.

Lemma length_copy_at off src out :
  (Z.to_nat off + length src <= length out)%nat -> length (copy_at off src out) = length out.
Proof. intros. unfold copy_at. rewrite !length_app, length_take, length_drop. lia. Qed.

Lemma drop_copy_at off src out :
  (Z.to_nat off + length src <= length out)%nat ->
  drop (Z.to_nat off) (copy_at off src out) = src ++ drop (Z.to_nat off + length src) out.
Proof.
  intros. unfold copy_at. rewrite drop_app_length'; [done|]. rewrite length_take. lia.
Qed.

(** The bytes of a frame for a payload. *)
Definition frame_bytes (src_mac dst_mac src_ip dst_ip : list Z) (src_port dst_port : Z) (vlan : option Z)
    (dns : list Z) : list Z :=
  let n := Z.of_nat (length dns) in
  eth_header dst_mac src_mac vlan ++
  ip_header src_ip dst_ip (28 + n) (checksum_of src_ip dst_ip (28 + n)) ++
  udp_header src_port dst_port (8 + n) ++ dns.

Lemma write_frame_bytes src_mac dst_mac src_ip dst_ip src_port dst_port vlan out dns :
  length src_mac = 6%nat -> length dst_mac = 6%nat -> length src_ip = 4%nat -> length dst_ip = 4%nat ->
  let h := new_with_vlan src_mac dst_mac src_ip dst_ip src_port dst_port vlan in
  let total := outer h + Z.of_nat (length dns) in
  Z.of_nat (length dns) <= 65507 -> total <= Z.of_nat (length out) ->
  write_frame h out dns =
  Done (frame_bytes src_mac dst_mac src_ip dst_ip src_port dst_port vlan dns ++ drop (Z.to_nat total) out, total).
Proof.
  intros H1 H2 H3 H4 h total Hn Hout.
  assert (Ho : 0 <= outer h) by (subst h; rewrite outer_vlan; by destruct vlan).
  assert (Hb : (Z.to_nat (outer h) + length dns <= length out)%nat) by (subst total; lia).
  unfold write_frame. fold total. replace (_ <? total) with false by (symmetry; bool_to_prop; lia).
  pose proof (length_copy_at (outer h) dns out Hb) as Hlen.
  pose proof (write_header_layout src_mac dst_mac src_ip dst_ip src_port dst_port vlan
                (copy_at (outer h) dns out) (Z.of_nat (length dns)) H1 H2 H3 H4) as Hl.
  cbn zeta in Hl. fold h in Hl. rewrite Hl by (rewrite Hlen; lia). clear Hl.
  rewrite drop_copy_at by done. unfold frame_bytes, UDP_HDR, IPV4_HDR.
  rewrite as_u_small by (unfold in_u; change (2 ^ 16) with 65536; lia).
  rewrite wadd_small by (change (2 ^ 16) with 65536; lia).
  replace (20 + (8 + Z.of_nat (length dns))) with (28 + Z.of_nat (length dns)) by lia.
  rewrite <- !app_assoc. subst total. do 7 f_equal. lia.
Qed.

Lemma frame_bytes_length src_mac dst_mac src_ip dst_ip src_port dst_port vlan dns :
  length src_mac = 6%nat -> length dst_mac = 6%nat -> length src_ip = 4%nat -> length dst_ip = 4%nat ->
  Z.of_nat (length (frame_bytes src_mac dst_mac src_ip dst_ip src_port dst_port vlan dns)) =
  (if vlan is Some _ then 46 else 42) + Z.of_nat (length dns).
Proof.
  intros H1 H2 H3 H4. unfold frame_bytes, eth_header, ip_header, udp_header. rewrite !length_app, H1, H2, H3, H4.
  destruct vlan; cbn [length]; lia.
Qed.

(** Changing the source port of a stamped frame. *)
Lemma set_src_port_bytes src_mac dst_mac src_ip dst_ip p p' dst_port vlan dns rest :
  length src_mac = 6%nat -> length dst_mac = 6%nat -> length src_ip = 4%nat -> length dst_ip = 4%nat ->
  set_src_port (new_with_vlan src_mac dst_mac src_ip dst_ip p dst_port vlan)
    (frame_bytes src_mac dst_mac src_ip dst_ip p dst_port vlan dns ++ rest) p' =
  frame_bytes src_mac dst_mac src_ip dst_ip p' dst_port vlan dns ++ rest.
Proof.
  intros H1 H2 H3 H4.
  destruct src_mac as [|s0 [|s1 [|s2 [|s3 [|s4 [|s5 [|]]]]]]]; try done.
  destruct dst_mac as [|d0 [|d1 [|d2 [|d3 [|d4 [|d5 [|]]]]]]]; try done.
  destruct src_ip as [|a0 [|a1 [|a2 [|a3 [|]]]]]; try done.
  destruct dst_ip as [|b0 [|b1 [|b2 [|b3 [|]]]]]; try done.
  by destruct vlan.
Qed.

(** The parser finds the payload of a frame the writer made. *)
Lemma parse_frame_bytes src_mac dst_mac src_ip dst_ip src_port dst_port vlan dns :
  length src_mac = 6%nat -> length dst_mac = 6%nat -> length src_ip = 4%nat -> length dst_ip = 4%nat ->
  (12 <= length dns)%nat ->
  parse_dns_from_frame (frame_bytes src_mac dst_mac src_ip dst_ip src_port dst_port vlan dns) =
  (fun r => (resp_id r, resp_rcode r)) <$> parse_response dns.
Proof.
  intros H1 H2 H3 H4 Hn. unfold parse_dns_from_frame.
  rewrite frame_bytes_length by done.
  set (fr := frame_bytes _ _ _ _ _ _ _ _).
  destruct src_mac as [|s0 [|s1 [|s2 [|s3 [|s4 [|s5 [|]]]]]]]; try done.
  destruct dst_mac as [|d0 [|d1 [|d2 [|d3 [|d4 [|d5 [|]]]]]]]; try done.
  destruct src_ip as [|a0 [|a1 [|a2 [|a3 [|]]]]]; try done.
  destruct dst_ip as [|b0 [|b1 [|b2 [|b3 [|]]]]]; try done.
  unfold ETH_HDR, IPV4_HDR, UDP_HDR, IPV6_HDR.
  destruct vlan as [vid|].
  - replace (46 + _ <? 14 + 2) with false by (symmetry; bool_to_prop; lia).
    change (from_be_bytes16 (byte_at fr 12) (byte_at fr (12 + 1))) with 33024.
    replace (46 + _ <? 14 + 4) with false by (symmetry; bool_to_prop; lia).
    change (from_be_bytes16 (byte_at fr 16) (byte_at fr (16 + 1))) with 2048.
    change (33024 =? 33024) with true. cbn [andb]. change (2048 =? ETH_P_IP) with true. cbn match.
    replace (46 + _ <? 14 + 4 + 20) with false by (symmetry; bool_to_prop; lia).
    change (byte_at fr (14 + 4 + 9)) with 17. change (byte_at fr (14 + 4)) with 69.
    change (17 =? PROTO_UDP) with true. cbn [negb]. change (Z.land 69 15 * 4) with 20. change (20 <? 20) with false. cbn match.
    replace (46 + _ <? 14 + 4 + 20 + 8 + 12) with false by (symmetry; bool_to_prop; lia).
    done.
  - replace (42 + _ <? 14 + 2) with false by (symmetry; bool_to_prop; lia).
    change (from_be_bytes16 (byte_at fr 12) (byte_at fr (12 + 1))) with 2048.
    change (2048 =? 33024) with false. cbn [andb]. change (2048 =? ETH_P_IP) with true. cbn match.
    replace (42 + _ <? 14 + 20) with false by (symmetry; bool_to_prop; lia).
    change (byte_at fr (14 + 9)) with 17. change (byte_at fr 14) with 69.
    change (17 =? PROTO_UDP) with true. cbn [negb]. change (Z.land 69 15 * 4) with 20. change (20 <? 20) with false. cbn match.
    replace (42 + _ <? 14 + 20 + 8 + 12) with false by (symmetry; bool_to_prop; lia).
    done.
Qed.

(** ** MAC addresses *)

(** The text of a MAC address: six groups of two hexadecimal digits. *)
Definition mac_text (m : list Z) : str := join c_colon (format_hex 2 <$> m).

Lemma hex2_parse b : in_u 8 b -> from_str_radix 16 8 (format_hex 2 b) = Some b.
Proof.
  unfold in_u. change (2 ^ 8) with 256. intros Hb. unfold format_hex, from_str_radix. cbn [digits_fixed app].
  assert (Hd1 : 0 <= b / 16 mod 16 < 16) by (apply Z.mod_pos_bound; lia).
  assert (Hd0 : 0 <= b mod 16 < 16) by (apply Z.mod_pos_bound; lia).
  replace (digit_char (b / 16 mod 16) =? c_plus) with false
    by (symmetry; unfold digit_char, c_plus; bool_to_prop; ifs_lia).
  cbn [digits_value]. rewrite !to_digit_digit_char by lia.
  replace (0 * 16 + b / 16 mod 16 <? 2 ^ 8) with true by (symmetry; bool_to_prop; change (2 ^ 8) with 256; lia).
  replace ((0 * 16 + b / 16 mod 16) * 16 + b mod 16) with b
    by (rewrite (Z.mod_small (b / 16)) by (Z.to_euclidean_division_equations; lia);
        pose proof (Z.div_mod b 16); lia).
  by replace (b <? 2 ^ 8) with true by (symmetry; bool_to_prop; change (2 ^ 8) with 256; lia).
Qed.

Lemma hex2_no_colon b : in_u 8 b -> no_char (Z.eqb c_colon) (format_hex 2 b).
Proof.
  unfold in_u. change (2 ^ 8) with 256. intros Hb. unfold format_hex, no_char. cbn [digits_fixed app].
  pose proof (Z.mod_pos_bound (b / 16) 16). pose proof (Z.mod_pos_bound b 16).
  repeat constructor; unfold digit_char, c_colon; bool_to_prop; ifs_lia.
Qed.

Lemma mapM_hex m : Forall (in_u 8) m -> mapM (from_str_radix 16 8) (format_hex 2 <$> m) = Some m.
Proof.
  induction 1 as [|b m Hb Hm IH]; [done|]. rewrite fmap_cons. cbn [mapM].
  rewrite hex2_parse by done. cbn. by rewrite IH.
Qed.

(** ** Theorems *)

(** C29. For all addresses, ports, VLAN ids and payloads up to 65507 bytes,
    [write_frame] leaves a frame laid out as IEEE 802.3/802.1Q, RFC 791 and RFC 768
    say (lengths and payload offset included) followed by what the buffer held, its
    IPv4 header checksum is valid, and a VLAN tag inserts four bytes after the MAC
    addresses and changes nothing else; a buffer that is too short panics. *)
Theorem write_frame_valid src_mac dst_mac src_ip dst_ip src_port dst_port vlan out dns :
  is_mac src_mac -> is_mac dst_mac -> is_ip src_ip -> is_ip dst_ip ->
  Z.of_nat (length dns) <= 65507 ->
  let h := new_with_vlan src_mac dst_mac src_ip dst_ip src_port dst_port vlan in
  let n := Z.of_nat (length dns) in
  let total := outer h + n in
  exists ip,
    write_frame h out dns =
      (if Z.of_nat (length out) <? total then Panic
       else Done (eth_header dst_mac src_mac vlan ++ ip ++ udp_header src_port dst_port (8 + n) ++ dns ++
                  drop (Z.to_nat total) out, total)) /\
    (exists ck, ip = ip_header src_ip dst_ip (28 + n) ck) /\ ipv4_checksum ip = 0 /\
    total = (if vlan is Some _ then 18 else 14) + 28 + n /\
    (forall vid, eth_header dst_mac src_mac (Some vid) =
       take 12 (eth_header dst_mac src_mac None) ++ [0x81; 0x00] ++ to_be_bytes16 (Z.land vid 0x0FFF) ++
       drop 12 (eth_header dst_mac src_mac None)).
Proof.
  intros [H1 _] [H2 _] H3 H4 Hn h n total.
  exists (ip_header src_ip dst_ip (28 + n) (checksum_of src_ip dst_ip (28 + n))).
  split; [|split; [|split; [|split]]].
  - destruct (_ <? total) eqn:E; [unfold write_frame; fold n total; by rewrite E|]. bool_to_prop.
    destruct H3 as [H3 _], H4 as [H4 _].
    pose proof (write_frame_bytes src_mac dst_mac src_ip dst_ip src_port dst_port vlan out dns H1 H2 H3 H4) as Hw.
    cbn zeta in Hw. fold h n total in Hw. rewrite Hw by done. unfold frame_bytes. fold n.
    by rewrite <- !app_assoc.
  - by eexists.
  - apply checksum_valid; [done|done|]. unfold in_u. change (2 ^ 16) with 65536. lia.
  - subst total h. rewrite outer_vlan. destruct vlan; lia.
  - intros vid. unfold eth_header.
    rewrite !(app_assoc dst_mac), take_app_length', drop_app_length' by (rewrite length_app; lia).
    done.
Qed.

(** C30. The receiver's frame parser inverts the writer: on a frame made for a
    payload of at least twelve bytes, tagged or not and with any source port patched
    in by [set_src_port], it returns the id of the payload's first two bytes and the
    low four bits of its fourth when the payload's QR bit is set, and nothing when it
    is not: in particular a query that [build_query] made, which can come back from
    the wire, is never taken for a response. *)
Theorem parse_written_frame src_mac dst_mac src_ip dst_ip src_port dst_port port vlan out dns out' total :
  is_mac src_mac -> is_mac dst_mac -> is_ip src_ip -> is_ip dst_ip ->
  (12 <= length dns)%nat -> Z.of_nat (length dns) <= 65507 ->
  let h := new_with_vlan src_mac dst_mac src_ip dst_ip src_port dst_port vlan in
  write_frame h out dns = Done (out', total) ->
  let parsed := parse_dns_from_frame (take (Z.to_nat total) (set_src_port h out' port)) in
  (forall b0 b1 b2 b3 rest, dns = b0 :: b1 :: b2 :: b3 :: rest -> in_u 8 b2 -> in_u 8 b3 ->
     parsed = if Z.testbit b2 7 then Some (b0 * 256 + b1, b3 mod 16) else None) /\
  (forall id nm qt, dns = build_query id nm qt -> parsed = None).
Proof.
  intros [H1 _] [H2 _] [H3 _] [H4 _] Hn Hn2 h Hw parsed.
  assert (Hp : parsed = (fun r => (resp_id r, resp_rcode r)) <$> parse_response dns); cycle 1.
  { clearbody parsed. subst parsed. split.
    - intros b0 b1 b2 b3 rest -> B2 B3. rewrite parse_response_bits by (done || (cbn [length] in Hn; lia)).
      by destruct (Z.testbit b2 7).
    - intros id nm qt ->. by rewrite parse_response_query. }
  unfold parsed. clear parsed.
  assert (Hout : outer h + Z.of_nat (length dns) <= Z.of_nat (length out)).
  { unfold write_frame in Hw. case_if_in Hw; [done|]. bool_to_prop. done. }
  pose proof (write_frame_bytes src_mac dst_mac src_ip dst_ip src_port dst_port vlan out dns H1 H2 H3 H4 Hn2) as Hb.
  cbn zeta in Hb. fold h in Hb. rewrite Hb in Hw by done. clear Hb.
  assert (Ho : outer h = if vlan is Some _ then 46 else 42) by apply outer_vlan.
  rewrite Ho in Hw. injection Hw as <- <-. subst h. rewrite set_src_port_bytes by done. rewrite take_app_length'.
  - by apply parse_frame_bytes.
  - pose proof (frame_bytes_length src_mac dst_mac src_ip dst_ip port dst_port vlan dns H1 H2 H3 H4) as Hl.
    lia.
Qed.

(** [parse_mac] reads back the text of every MAC address, and rejects text
    that does not have six groups. *)
Theorem parse_mac_roundtrip m s :
  is_mac m -> length (split_char c_colon s) <> 6%nat ->
  parse_mac (mac_text m) = Some m /\ parse_mac s = None.
Proof.
  intros [Hl Hm] Hs. unfold parse_mac, mac_text. split.
  - rewrite split_join.
    + rewrite length_fmap, Hl. cbn. by apply mapM_hex.
    + by destruct m.
    + apply Forall_fmap. eapply Forall_impl; [exact Hm|]. intros b. apply hex2_no_colon.
  - by replace (_ =? 6) with false by (symmetry; bool_to_prop; lia).
Qed.

(** ** Witnesses *)

Definition ex_mac1 : list Z := [0x00; 0x11; 0x22; 0x33; 0x44; 0x55].
Definition ex_mac2 : list Z := [0xAA; 0xBB; 0xCC; 0xDD; 0xEE; 0xFF].

Ltac bytes := split; [reflexivity|repeat constructor; unfold in_u; lia].

Lemma write_frame_valid_witness :
  exists ip, write_frame (new_with_vlan ex_mac1 ex_mac2 [10; 8; 0; 2] [10; 8; 0; 1] 12345 53 (Some 2126))
               (replicate 64 0) [113] =
    Done (eth_header ex_mac2 ex_mac1 (Some 2126) ++ ip ++ udp_header 12345 53 9 ++ [113] ++ replicate 17 0, 47) /\
    ipv4_checksum ip = 0.
Proof.
  destruct (write_frame_valid ex_mac1 ex_mac2 [10; 8; 0; 2] [10; 8; 0; 1] 12345 53 (Some 2126)
              (replicate 64 0) [113]) as (ip & Hw & _ & Hc & _);
    [bytes|bytes|bytes|bytes|cbn; lia|].
  exists ip. split; [exact Hw|exact Hc].
Defined.

(** A reply, and a query that is reflected. *)
Lemma parse_written_frame_witness :
  let h := new_with_vlan ex_mac1 ex_mac2 [10; 8; 0; 2] [10; 8; 0; 1] 12345 53 None in
  exists out' total out'' total',
    write_frame h (replicate 64 0) (0xBE :: 0xEF :: 0x81 :: 0x83 :: replicate 8 0) = Done (out', total) /\
    parse_dns_from_frame (take (Z.to_nat total) (set_src_port h out' 4242)) = Some (0xBEEF, 3) /\
    write_frame h (replicate 64 0) (build_query 7 [] 1) = Done (out'', total') /\
    parse_dns_from_frame (take (Z.to_nat total') (set_src_port h out'' 4242)) = None.
Proof.
  eexists _, _, _, _. split; [reflexivity|]. split; [|split; [reflexivity|]].
  - destruct (parse_written_frame ex_mac1 ex_mac2 [10; 8; 0; 2] [10; 8; 0; 1] 12345 53 4242 None
            (replicate 64 0) (0xBE :: 0xEF :: 0x81 :: 0x83 :: replicate 8 0) _ _
            ltac:(bytes) ltac:(bytes) ltac:(bytes) ltac:(bytes) ltac:(cbn; lia) ltac:(cbn; lia) eq_refl) as [H _].
    rewrite (H _ _ _ _ _ eq_refl ltac:(unfold in_u; lia) ltac:(unfold in_u; lia)). reflexivity.
  - destruct (parse_written_frame ex_mac1 ex_mac2 [10; 8; 0; 2] [10; 8; 0; 1] 12345 53 4242 None
            (replicate 64 0) (build_query 7 [] 1) _ _
            ltac:(bytes) ltac:(bytes) ltac:(bytes) ltac:(bytes) ltac:(cbn; lia) ltac:(cbn; lia) eq_refl) as [_ H].
    exact (H 7 [] 1 eq_refl).
Defined.

Lemma parse_mac_roundtrip_witness :
  parse_mac (lit "aa:bb:cc:dd:ee:ff") = Some ex_mac2 /\ parse_mac (lit "aa:bb") = None.
Proof.
  refine (parse_mac_roundtrip ex_mac2 (lit "aa:bb") _ _); [bytes|vm_compute; discriminate].
Defined.
