(* ===== verification/Ring.v ===== *)
(** * AF_XDP rings and the UMEM layout

    Models [src/transport/xdp/umem.rs]: [AddrRing] (fill and completion rings),
    [DescRing] (receive and transmit rings) and the split of the UMEM frames that
    [Umem::new] makes.

    A ring is the memory the two sides share: the free-running 32-bit producer and
    consumer indices and the slots.  The specification is a bounded FIFO queue,
    [contents]; the theorem is that the index arithmetic (which wraps at 32 bits
    and masks by the size) implements it, and the worker is proved against the
    queue.  Memory ordering (the fences) is not modelled: each operation is one
    step. *)

From Stdlib Require Import ZArith Lia Bool.
From stdpp Require Import base numbers option list.
From S2P Require Import Prelude.

Open Scope Z_scope.

(** ** Constants *)

Definition FRAME_SIZE : Z := 2048.
Definition FRAME_COUNT : Z := 16384.
Definition RING_SIZE : Z := 4096.
Definition XDP_RING_NEED_WAKEUP : Z := 1.

Record XdpDesc : Set := mkDesc { d_addr : Z; d_len : Z; d_options : Z }.

Global Instance XdpDesc_inhabited : Inhabited XdpDesc := populate (mkDesc 0 0 0).

(** ** Rings *)

Record ring (A : Type) : Type := mkRing {
  producer : Z;
  consumer : Z;
  flags : Z;
  descs : list A;
  size : Z;
  mask : Z
}.
Arguments mkRing {A} _ _ _ _ _ _.
Arguments producer {A} _.
Arguments consumer {A} _.
Arguments flags {A} _.
Arguments descs {A} _.
Arguments size {A} _.
Arguments mask {A} _.

Section Operations.
Context {A : Type} `{Inhabited A}.

(** [idx.wrapping_add(i) & mask] *)
Definition slot_index (r : ring A) (base i : Z) : nat := Z.to_nat (Z.land (wadd 32 base i) (mask r)).

(** The loop that writes [xs] from index [base + i] on. *)
Fixpoint write_slots (r : ring A) (base i : Z) (xs : list A) (ds : list A) : list A :=
  match xs with
  | [] => ds
  | x :: xs' => write_slots r base (i + 1) xs' (<[slot_index r base i := x]> ds)
  end.

(** [enqueue_batch] of [AddrRing]. *)
Definition enqueue_batch (r : ring A) (xs : list A) : Z * ring A :=
  let prod := producer r in
  let cons := consumer r in
  let free := wsub 32 (size r) (wsub 32 prod cons) in
  let n := Z.min (Z.of_nat (length xs)) free in
  let ds := write_slots r prod 0 (take (Z.to_nat n) xs) (descs r) in
  (n, mkRing (wadd 32 prod n) cons (flags r) ds (size r) (mask r)).

(** [produce_tx] of [DescRing]: the same, but the index is stored only when
    something was written. *)
Definition produce_tx (r : ring A) (xs : list A) : Z * ring A :=
  let prod := producer r in
  let cons := consumer r in
  let free := wsub 32 (size r) (wsub 32 prod cons) in
  let n := Z.min (Z.of_nat (length xs)) free in
  let ds := write_slots r prod 0 (take (Z.to_nat n) xs) (descs r) in
  (n, mkRing (if n >? 0 then wadd 32 prod n else prod) cons (flags r) ds (size r) (mask r)).

(** The loop that reads [n] slots from the consumer on. *)
Definition read_slots (r : ring A) (n : Z) : list A :=
  (fun i => descs r !!! slot_index r (consumer r) (Z.of_nat i)) <$> seq 0 (Z.to_nat n).

(** [dequeue_all] of [AddrRing]; [consume_rx] of [DescRing] is the same. *)
Definition dequeue_all (r : ring A) : list A * ring A :=
  let prod := producer r in
  let cons := consumer r in
  let available := wsub 32 prod cons in
  (read_slots r available,
   mkRing prod (if available >? 0 then wadd 32 cons available else cons) (flags r) (descs r)
     (size r) (mask r)).

Definition consume_rx (r : ring A) : list A * ring A :=
  let prod := producer r in
  let cons := consumer r in
  let available := wsub 32 prod cons in
  if available =? 0 then ([], r)
  else (read_slots r available,
        mkRing prod (wadd 32 cons available) (flags r) (descs r) (size r) (mask r)).

Definition needs_wakeup (r : ring A) : bool := negb (Z.land (flags r) XDP_RING_NEED_WAKEUP =? 0).

(** ** What the kernel does at its end *)

(** The kernel takes one element from a ring the program fills. *)
Definition kernel_take (r : ring A) : ring A :=
  mkRing (producer r) (wadd 32 (consumer r) 1) (flags r) (descs r) (size r) (mask r).

(** The kernel puts one element in a ring the program drains. *)
Definition kernel_put (x : A) (r : ring A) : ring A := (enqueue_batch r [x]).2.

(** ** The specification: a bounded queue *)

Definition contents (r : ring A) : list A := read_slots r (wsub 32 (producer r) (consumer r)).

Record ring_ok (r : ring A) : Prop := mkRingOk {
  ok_size : exists k, 0 <= k <= 31 /\ size r = 2 ^ k;
  ok_mask : mask r = size r - 1;
  ok_descs : Z.of_nat (length (descs r)) = size r;
  ok_prod : in_u 32 (producer r);
  ok_cons : in_u 32 (consumer r);
  ok_fill : wsub 32 (producer r) (consumer r) <= size r
}.

(** ** Lemmas *)

Lemma slot_index_mod r base i : ring_ok r -> 0 <= base -> 0 <= i ->
  slot_index r base i = Z.to_nat ((base + i) mod size r).
Proof.
  intros Hr Hb Hi. destruct (ok_size r Hr) as (k & Hk & Hs). unfold slot_index. rewrite (ok_mask r Hr), Hs.
  replace (2 ^ k - 1) with (Z.ones k) by (rewrite Z.ones_equiv; lia). rewrite Z.land_ones by lia.
  unfold wadd. f_equal. apply Z.mod_mod_divide.
  exists (2 ^ (32 - k)). rewrite <- Z.pow_add_r by lia. f_equal. lia.
Qed.

Lemma size_pos r : ring_ok r -> 0 < size r <= 2 ^ 31.
Proof.
  intros Hr. destruct (ok_size r Hr) as (k & Hk & ->).
  split; [apply Z.pow_pos_nonneg; lia|apply Z.pow_le_mono_r; lia].
Qed.

Lemma slot_index_lt r base i : ring_ok r -> 0 <= base -> 0 <= i -> (slot_index r base i < length (descs r))%nat.
Proof.
  intros Hr Hb Hi. rewrite slot_index_mod by done. pose proof (size_pos r Hr). pose proof (ok_descs r Hr).
  pose proof (Z.mod_pos_bound (base + i) (size r)). lia.
Qed.

Lemma length_write_slots r base i xs ds : length (write_slots r base i xs ds) = length ds.
Proof. revert i ds. induction xs as [|x xs IH]; intros i ds; cbn; [done|]. by rewrite IH, length_insert. Qed.

(** Two offsets less than a ring apart have different slots. *)
Lemma mod_near n a b : 0 < n -> a <> b -> Z.abs (a - b) < n -> a mod n <> b mod n.
Proof.
  intros Hn Hne Hd He. pose proof (Z.div_mod a n). pose proof (Z.div_mod b n).
  assert (a - b = n * (a / n - b / n)) by lia.
  destruct (Z.eq_dec (a / n) (b / n)); [nia|]. assert (1 <= Z.abs (a / n - b / n)) by lia. nia.
Qed.

(** A slot after the writes: the element written there, or what it held. *)
Lemma write_slots_lookup r base i xs ds j :
  ring_ok r -> 0 <= base -> 0 <= i -> Z.of_nat (length ds) = size r ->
  Z.of_nat (length xs) <= size r -> 0 <= j < size r -> 
  write_slots r base i xs ds !!! Z.to_nat ((base + i + j) mod size r) =
  if j <? Z.of_nat (length xs) then xs !!! Z.to_nat j else ds !!! Z.to_nat ((base + i + j) mod size r).
Proof.
  intros Hr Hb. revert i ds j. induction xs as [|x xs IH]; intros i ds j Hi Hds Hxs Hj; cbn [write_slots length].
  { replace (j <? _) with false; [done|]. symmetry. bool_to_prop. lia. }
  cbn [length] in Hxs. pose proof (size_pos r Hr) as Hsz. rewrite slot_index_mod by done.
  pose proof (Z.mod_pos_bound (base + i) (size r)).
  assert (Hl : forall m, 0 <= m -> (Z.to_nat (m mod size r) < length ds)%nat).
  { intros m Hm. pose proof (Z.mod_pos_bound m (size r)). lia. }
  destruct (decide (j = 0)) as [->|Hj0].
  - replace (0 <? _) with true by (symmetry; bool_to_prop; lia). rewrite Z.add_0_r.
    assert (He : (base + (i + 1) + (size r - 1)) mod size r = (base + i) mod size r).
    { replace (base + (i + 1) + (size r - 1)) with (base + i + 1 * size r) by lia. apply Z.mod_add. lia. }
    pose proof (IH (i + 1) (<[Z.to_nat ((base + i) mod size r) := x]> ds) (size r - 1)) as Hlast.
    rewrite He in Hlast. rewrite Hlast by (rewrite ?length_insert; lia).
    replace (size r - 1 <? Z.of_nat (length xs)) with false by (symmetry; bool_to_prop; lia).
    rewrite list_lookup_total_insert_eq; [done|by apply Hl; lia].
  - replace (base + i + j) with (base + (i + 1) + (j - 1)) by lia.
    rewrite IH by (rewrite ?length_insert; lia).
    replace (j - 1 <? Z.of_nat (length xs)) with (j <? Z.of_nat (S (length xs)))
      by (apply eq_true_iff_eq; rewrite !Z.ltb_lt; lia).
    destruct (j <? Z.of_nat (S (length xs))) eqn:E.
    + replace (Z.to_nat j) with (S (Z.to_nat (j - 1))) by lia. done.
    + rewrite list_lookup_total_insert_ne; [done|].
      intros He. apply Z2Nat.inj in He; [|lia|apply Z.mod_pos_bound; lia].
      revert He. apply mod_near; lia.
Qed.

(** Element [i] of the contents. *)
Lemma contents_lookup r i : ring_ok r -> (i < Z.to_nat (wsub 32 (producer r) (consumer r)))%nat ->
  contents r !! i = Some (descs r !!! Z.to_nat ((consumer r + Z.of_nat i) mod size r)).
Proof.
  intros Hr Hi. unfold contents, read_slots. rewrite list_lookup_fmap, lookup_seq_lt by done. cbn.
  rewrite slot_index_mod; [done|done| |lia]. pose proof (ok_cons r Hr). unfold in_u in *. lia.
Qed.

Lemma contents_length r : length (contents r) = Z.to_nat (wsub 32 (producer r) (consumer r)).
Proof. unfold contents, read_slots. by rewrite length_fmap, length_seq. Qed.

Lemma contents_length_Z r : Z.of_nat (length (contents r)) = wsub 32 (producer r) (consumer r).
Proof. rewrite contents_length. pose proof (wsub_range 32 (producer r) (consumer r)). unfold in_u in *. lia. Qed.

(** The producer index is the consumer index plus the number of elements. *)
Lemma producer_mod r : ring_ok r ->
  producer r mod size r = (consumer r + wsub 32 (producer r) (consumer r)) mod size r.
Proof.
  intros Hr. destruct (ok_size r Hr) as (k & Hk & Hs).
  assert (Hd : (size r | 2 ^ 32)).
  { rewrite Hs. exists (2 ^ (32 - k)). rewrite <- Z.pow_add_r by lia. f_equal. lia. }
  pose proof (size_pos r Hr).
  rewrite <- (Z.mod_mod_divide (producer r) (2 ^ 32) (size r)) by done.
  rewrite <- (Z.mod_mod_divide (consumer r + _) (2 ^ 32) (size r)) by done.
  unfold wsub. rewrite Zplus_mod_idemp_r. do 2 f_equal. lia.
Qed.

Lemma wsub_wadd w a b n : 0 <= w -> wsub w (wadd w a n) b = (wsub w a b + n) mod 2 ^ w.
Proof.
  intros Hw. unfold wsub, wadd. rewrite Zminus_mod_idemp_l, Zplus_mod_idemp_l. f_equal. lia.
Qed.

(** The slot of a producer offset, seen from the consumer. *)
Lemma offset_mod r i j : ring_ok r ->
  (exists c, wsub 32 (producer r) (consumer r) + j = i + c * size r) ->
  (producer r + 0 + j) mod size r = (consumer r + i) mod size r.
Proof.
  intros Hr (c & Hc). pose proof (size_pos r Hr). rewrite Z.add_0_r, <- Zplus_mod_idemp_l, producer_mod by done.
  rewrite Zplus_mod_idemp_l.
  replace (consumer r + wsub 32 (producer r) (consumer r) + j) with (consumer r + i + c * size r) by lia.
  apply Z.mod_add. lia.
Qed.

(** The indices after an enqueue. *)
Lemma enqueue_indices r xs : ring_ok r ->
  let av := wsub 32 (producer r) (consumer r) in
  let n := Z.min (Z.of_nat (length xs)) (size r - av) in
  let r' := mkRing (wadd 32 (producer r) n) (consumer r) (flags r)
              (write_slots r (producer r) 0 (take (Z.to_nat n) xs) (descs r)) (size r) (mask r) in
  enqueue_batch r xs = (n, r') /\ 0 <= n <= size r - av /\
  wsub 32 (producer r') (consumer r') = av + n /\ ring_ok r'.
Proof.
  intros Hr av n r'. pose proof (size_pos r Hr) as Hsz.
  pose proof (wsub_range 32 (producer r) (consumer r)) as Hav. unfold in_u in Hav.
  pose proof (ok_fill r Hr) as Hfill. fold av in Hav, Hfill.
  assert (Hn : 0 <= n <= size r - av) by lia.
  assert (Hav' : wsub 32 (producer r') (consumer r') = av + n).
  { cbn [r' producer consumer]. rewrite wsub_wadd by lia. fold av. apply Z.mod_small. lia. }
  split; [|split; [exact Hn|split; [exact Hav'|]]].
  - unfold enqueue_batch. fold av. rewrite wsub_small by lia. reflexivity.
  - constructor; cbn [r' producer consumer descs size mask].
    + apply (ok_size r Hr).
    + apply (ok_mask r Hr).
    + rewrite length_write_slots. apply (ok_descs r Hr).
    + by apply wadd_range.
    + apply (ok_cons r Hr).
    + change (wsub 32 (wadd 32 (producer r) n) (consumer r)) with (wsub 32 (producer r') (consumer r')).
      rewrite Hav'. lia.
Qed.

Lemma enqueue_spec r xs n r' : ring_ok r -> enqueue_batch r xs = (n, r') ->
  ring_ok r' /\ size r' = size r /\ flags r' = flags r /\
  n = Z.min (Z.of_nat (length xs)) (size r - Z.of_nat (length (contents r))) /\
  contents r' = contents r ++ take (Z.to_nat n) xs.
Proof.
  intros Hr He. pose proof (size_pos r Hr) as Hsz.
  destruct (enqueue_indices r xs Hr) as (He' & Hn & Hav' & Hr'). cbn zeta in *.
  rewrite He' in He. injection He as <- <-. clear He'.
  pose proof (wsub_range 32 (producer r) (consumer r)) as Hav. unfold in_u in Hav.
  set (av := wsub 32 (producer r) (consumer r)) in *. set (n := Z.min _ _) in *. set (r' := mkRing _ _ _ _ _ _) in *.
  assert (Hlen : length (take (Z.to_nat n) xs) = Z.to_nat n) by (rewrite length_take; lia).
  split; [done|]. split; [done|]. split; [done|]. split; [rewrite contents_length_Z; done|].
  apply list_eq. intros i. destruct (decide (Z.of_nat i < av + n)) as [Hi|Hi].
  2:{ rewrite !lookup_ge_None_2; [done| |].
      - rewrite length_app, Hlen, contents_length. fold av. lia.
      - rewrite contents_length, Hav'. lia. }
  rewrite contents_lookup by (done || (rewrite Hav'; lia)). cbn [r' descs consumer size].
  assert (Hlook : forall j, 0 <= j < size r -> (exists c, av + j = Z.of_nat i + c * size r) ->
    write_slots r (producer r) 0 (take (Z.to_nat n) xs) (descs r) !!!
      Z.to_nat ((consumer r + Z.of_nat i) mod size r) =
    if j <? n then take (Z.to_nat n) xs !!! Z.to_nat j
    else descs r !!! Z.to_nat ((consumer r + Z.of_nat i) mod size r)).
  { intros j Hj Hc. rewrite <- (offset_mod r (Z.of_nat i) j Hr Hc).
    rewrite write_slots_lookup; [|done|apply (ok_prod r Hr)|lia|apply (ok_descs r Hr)|lia|done].
    rewrite Hlen. by rewrite Z2Nat.id by lia. }
  destruct (decide (Z.of_nat i < av)) as [Hiav|Hiav].
  - rewrite (Hlook (Z.of_nat i - av + size r)) by (lia || (exists 1; lia)).
    replace (_ <? n) with false by (symmetry; bool_to_prop; lia).
    rewrite lookup_app_l by (rewrite contents_length; fold av; lia).
    rewrite contents_lookup by (done || (fold av; lia)). done.
  - rewrite (Hlook (Z.of_nat i - av)) by (lia || (exists 0; lia)).
    replace (_ <? n) with true by (symmetry; bool_to_prop; lia).
    rewrite lookup_app_r by (rewrite contents_length; fold av; lia).
    rewrite contents_length. fold av.
    replace (Z.to_nat (Z.of_nat i - av)) with (i - Z.to_nat av)%nat by lia.
    rewrite list_lookup_lookup_total_lt; [done|]. rewrite Hlen. lia.
Qed.

Lemma produce_enqueue r xs : ring_ok r -> produce_tx r xs = enqueue_batch r xs.
Proof.
  intros Hr. unfold produce_tx, enqueue_batch. set (n := Z.min _ _).
  assert (0 <= n).
  { pose proof (wsub_range 32 (size r) (wsub 32 (producer r) (consumer r))). unfold in_u in *. lia. }
  destruct (n >? 0) eqn:E; [done|]. rewrite Z.gtb_ltb in E. bool_to_prop. assert (n = 0) as -> by lia.
  do 2 f_equal. unfold wadd. rewrite Z.add_0_r, Z.mod_small; [done|apply (ok_prod r Hr)].
Qed.

(** A ring whose consumer has moved on by [k]. *)
Lemma consumer_advance r k : ring_ok r -> 0 <= k <= wsub 32 (producer r) (consumer r) ->
  let r' := mkRing (producer r) (wadd 32 (consumer r) k) (flags r) (descs r) (size r) (mask r) in
  ring_ok r' /\ contents r' = drop (Z.to_nat k) (contents r).
Proof.
  intros Hr Hk r'. pose proof (wsub_range 32 (producer r) (consumer r) ltac:(lia)) as Hrange. unfold in_u in Hrange.
  set (av := wsub 32 (producer r) (consumer r)) in *.
  pose proof (size_pos r Hr) as Hsz. pose proof (ok_fill r Hr) as Hf. fold av in Hf.
  assert (Hav' : wsub 32 (producer r') (consumer r') = av - k).
  { cbn [r' producer consumer]. unfold wsub, wadd. rewrite Zminus_mod_idemp_r.
    replace (producer r - (consumer r + k)) with (producer r - consumer r - k) by lia.
    rewrite <- Zminus_mod_idemp_l. fold (wsub 32 (producer r) (consumer r)). fold av. apply Z.mod_small. lia. }
  assert (Hr' : ring_ok r').
  { destruct Hr as [H1 H2 H3 H4 H5 H6]. constructor; cbn [r' producer consumer descs size mask]; try done.
    - by apply wadd_range.
    - change (wsub 32 (producer r) (wadd 32 (consumer r) k)) with (wsub 32 (producer r') (consumer r')). lia. }
  split; [done|]. apply list_eq. intros i. rewrite lookup_drop.
  destruct (decide (Z.of_nat i < av - k)) as [Hi|Hi].
  2:{ rewrite !lookup_ge_None_2; [done| |]; rewrite contents_length; rewrite ?Hav'; fold av; lia. }
  rewrite !contents_lookup by (done || (rewrite ?Hav'; fold av; lia)).
  cbn [r' descs consumer size]. do 3 f_equal. destruct (ok_size r Hr) as (m & Hm & Hs).
  unfold wadd. rewrite Hs. assert (Hd : (2 ^ m | 2 ^ 32)).
  { exists (2 ^ (32 - m)). rewrite <- Z.pow_add_r by lia. f_equal. lia. }
  rewrite <- (Zplus_mod_idemp_l ((consumer r + k) mod 2 ^ 32)), Z.mod_mod_divide, Zplus_mod_idemp_l by done.
  f_equal. lia.
Qed.

Lemma consume_spec r xs r' : ring_ok r -> consume_rx r = (xs, r') ->
  ring_ok r' /\ size r' = size r /\ flags r' = flags r /\ xs = contents r /\ contents r' = [].
Proof.
  intros Hr Hc. unfold consume_rx in Hc. pose proof (wsub_range 32 (producer r) (consumer r)) as Hav. unfold in_u in Hav.
  destruct (_ =? 0) eqn:E; bool_to_prop; injection Hc as <- <-.
  - assert (Hnil : contents r = []).
    { apply nil_length_inv. rewrite contents_length, E. done. }
    by rewrite Hnil.
  - destruct (consumer_advance r (wsub 32 (producer r) (consumer r)) Hr) as [Hok Hd]; [lia|].
    split; [done|]. split; [done|]. split; [done|]. split; [done|].
    rewrite Hd. apply drop_ge. rewrite contents_length. done.
Qed.

Lemma dequeue_consume r : ring_ok r -> dequeue_all r = consume_rx r.
Proof.
  intros Hr. unfold dequeue_all, consume_rx. pose proof (wsub_range 32 (producer r) (consumer r)) as Hav.
  unfold in_u in Hav. destruct (_ =? 0) eqn:E; bool_to_prop.
  - rewrite E. cbn [read_slots Z.to_nat seq fmap list_fmap Z.gtb Z.compare]. by destruct r.
  - by replace (_ >? 0) with true by (symmetry; rewrite Z.gtb_ltb; bool_to_prop; lia).
Qed.

Lemma kernel_take_spec r x l : ring_ok r -> contents r = x :: l ->
  ring_ok (kernel_take r) /\ size (kernel_take r) = size r /\ contents (kernel_take r) = l.
Proof.
  intros Hr Hc. destruct (consumer_advance r 1 Hr) as [Hok Hd].
  { rewrite <- contents_length_Z, Hc. cbn [length]. lia. }
  split; [exact Hok|]. split; [reflexivity|]. unfold kernel_take. rewrite Hd, Hc. reflexivity.
Qed.

Lemma kernel_put_spec r x : ring_ok r -> Z.of_nat (length (contents r)) < size r ->
  ring_ok (kernel_put x r) /\ size (kernel_put x r) = size r /\
  contents (kernel_put x r) = contents r ++ [x].
Proof.
  intros Hr Hl. unfold kernel_put. destruct (enqueue_batch r [x]) as [n r'] eqn:E.
  destruct (enqueue_spec r [x] n r' Hr E) as (Hok & Hs & _ & Hn & Hc). cbn [length] in Hn.
  split; [exact Hok|]. split; [exact Hs|]. cbn [snd]. rewrite Hc. replace n with 1 by lia. reflexivity.
Qed.

End Operations.

(** ** The UMEM *)

Definition HUGE_2M : Z := 2 * 1024 * 1024.

(** The length mapped: the frames, rounded up to huge pages. *)
Definition area_len : Z :=
  let raw_len := wmul 32 FRAME_COUNT FRAME_SIZE in
  Z.land (raw_len + HUGE_2M - 1) (Z.lnot (HUGE_2M - 1)).

(** [(a..b).map(|i| (i * FRAME_SIZE) as u64)] *)
Definition frame_addrs (a b : Z) : list Z := (fun i => as_u 64 (wmul 32 i FRAME_SIZE)) <$> seqZ a (b - a).

Definition rx_addrs : list Z := frame_addrs 0 RING_SIZE.
Definition tx_frames : list Z := frame_addrs RING_SIZE FRAME_COUNT.

(** A mapped ring is empty, with its indices at the same value. *)
Definition fresh_ring {A} (x : A) (n : Z) : ring A :=
  mkRing 0 0 0 (replicate (Z.to_nat n) x) n (n - 1).

(** [Umem::new], once the kernel has accepted the area and the rings: the
    receive frames are in the fill ring, the others are the transmit pool. *)
Definition umem_new : ring Z * ring Z * list Z :=
  let fill := fresh_ring 0 RING_SIZE in
  let comp := fresh_ring 0 RING_SIZE in
  let fill := (enqueue_batch fill rx_addrs).2 in
  (fill, comp, tx_frames).

Lemma fresh_ring_ok {A} `{Inhabited A} (x : A) k : 0 <= k <= 31 ->
  ring_ok (fresh_ring x (2 ^ k)) /\ contents (fresh_ring x (2 ^ k)) = [].
Proof.
  intros Hk. assert (0 < 2 ^ k) by (apply Z.pow_pos_nonneg; lia). split; [|done].
  constructor; cbn [fresh_ring producer consumer descs size mask].
  - by exists k.
  - done.
  - rewrite length_replicate. lia.
  - unfold in_u. lia.
  - unfold in_u. lia.
  - change (wsub 32 0 0) with 0. lia.
Qed.

Lemma frame_addr_small i : 0 <= i < FRAME_COUNT -> as_u 64 (wmul 32 i FRAME_SIZE) = i * FRAME_SIZE.
Proof.
  unfold FRAME_COUNT, FRAME_SIZE. intros Hi. unfold as_u, wmul.
  rewrite (Z.mod_small (i * 2048)) by lia. apply Z.mod_small. lia.
Qed.

Lemma elem_of_frame_addrs a b x : 0 <= a -> b <= FRAME_COUNT ->
  x ∈ frame_addrs a b <-> exists i, a <= i < b /\ x = i * FRAME_SIZE.
Proof.
  intros Ha Hb. unfold frame_addrs. rewrite list_elem_of_fmap. setoid_rewrite elem_of_seqZ. split.
  - intros (i & -> & Hi). exists i. split; [lia|]. apply frame_addr_small. lia.
  - intros (i & Hi & ->). exists i. split; [|lia]. symmetry. apply frame_addr_small. lia.
Qed.

Lemma NoDup_frame_addrs a b : 0 <= a -> b <= FRAME_COUNT -> NoDup (frame_addrs a b).
Proof.
  intros Ha Hb. unfold frame_addrs. apply NoDup_fmap_2_strong; [|apply NoDup_seqZ].
  intros i j Hi Hj. rewrite elem_of_seqZ in Hi, Hj. rewrite !frame_addr_small by lia.
  unfold FRAME_SIZE. lia.
Qed.

Lemma rx_tx_NoDup : NoDup (rx_addrs ++ tx_frames).
Proof.
  unfold rx_addrs, tx_frames. apply NoDup_app.
  split; [apply NoDup_frame_addrs; unfold RING_SIZE, FRAME_COUNT; lia|].
  split; [|apply NoDup_frame_addrs; unfold RING_SIZE, FRAME_COUNT; lia].
  intros x Hx Hy. apply elem_of_frame_addrs in Hx as (i & Hi & ->); [|unfold RING_SIZE, FRAME_COUNT; lia..].
  apply elem_of_frame_addrs in Hy as (j & Hj & He); [|unfold RING_SIZE, FRAME_COUNT; lia..].
  unfold FRAME_SIZE in He. lia.
Qed.

Lemma length_frame_addrs a b : length (frame_addrs a b) = Z.to_nat (b - a).
Proof. unfold frame_addrs. by rewrite length_fmap, length_seqZ. Qed.

Lemma rx_addrs_length : length rx_addrs = Z.to_nat RING_SIZE.
Proof. unfold rx_addrs. rewrite length_frame_addrs. f_equal. Qed.

Lemma tx_frames_length : length tx_frames = Z.to_nat (FRAME_COUNT - RING_SIZE).
Proof. unfold tx_frames. apply length_frame_addrs. Qed.

Lemma umem_new_spec fill comp frames : umem_new = (fill, comp, frames) ->
  ring_ok fill /\ ring_ok comp /\ size fill = RING_SIZE /\ contents fill = rx_addrs /\
  contents comp = [] /\ frames = tx_frames.
Proof.
  unfold umem_new. change (fresh_ring 0 RING_SIZE) with (fresh_ring 0 (2 ^ 12)).
  rewrite !pair_equal_spec. intros ((<- & <-) & <-).
  destruct (fresh_ring_ok 0 12) as [Hf Hc]; [lia|].
  destruct (enqueue_batch (fresh_ring 0 (2 ^ 12)) rx_addrs) as [n fill] eqn:E.
  destruct (enqueue_spec _ _ _ _ Hf E) as (H1 & Hs & _ & Hn & H2). cbn [snd].
  split; [exact H1|]. split; [exact Hf|]. split; [exact Hs|]. split; [|split; [exact Hc|reflexivity]].
  rewrite H2, Hc. cbn [app]. apply take_ge. rewrite Hn, Hc, rx_addrs_length.
  cbn [fresh_ring size length]. unfold RING_SIZE. lia.
Qed.

(** ** Theorems *)

(** C9. The rings refine a bounded FIFO queue, at every value of the
    free-running 32-bit indices (wrap-around included): a put appends the longest
    prefix that fits and returns its length, a drain returns everything in order
    and leaves the ring empty, and the ring stays well formed; the kernel's take
    removes the oldest element. *)
Theorem ring_refines_queue {A} `{Inhabited A} (r : ring A) (xs : list A) :
  ring_ok r ->
  let room := size r - Z.of_nat (length (contents r)) in
  let n := Z.min (Z.of_nat (length xs)) room in
  (exists r', enqueue_batch r xs = (n, r') /\ produce_tx r xs = (n, r') /\ ring_ok r' /\
     size r' = size r /\ contents r' = contents r ++ take (Z.to_nat n) xs) /\
  (exists r', dequeue_all r = (contents r, r') /\ consume_rx r = (contents r, r') /\ ring_ok r' /\
     size r' = size r /\ contents r' = []) /\
  0 <= room /\
  (contents r <> [] -> ring_ok (kernel_take r) /\ contents (kernel_take r) = tail (contents r)).
Proof.
  intros Hr room n. split; [|split; [|split]].
  - destruct (enqueue_batch r xs) as [n' r'] eqn:E. destruct (enqueue_spec r xs n' r' Hr E) as (H1 & H2 & _ & H3 & H4).
    exists r'. rewrite produce_enqueue, E by done. subst n'. done.
  - destruct (consume_rx r) as [ys r'] eqn:E. destruct (consume_spec r ys r' Hr E) as (H1 & H2 & _ & H3 & H4).
    exists r'. rewrite dequeue_consume, E by done. subst ys. done.
  - subst room. rewrite contents_length_Z. pose proof (ok_fill r Hr). lia.
  - intros Hne. destruct (contents r) as [|x l] eqn:E; [done|].
    destruct (kernel_take_spec r x l Hr E) as (H1 & _ & H2). done.
Qed.

(** The split of the UMEM: the fill ring gets all [RING_SIZE] receive
    frames, in order; the receive frames and the transmit pool are disjoint, without
    repetition, aligned to the frame size and inside the mapped area. *)
Theorem umem_partition :
  let '(fill, comp, pool) := umem_new in
  ring_ok fill /\ ring_ok comp /\ contents fill = rx_addrs /\ contents comp = [] /\
  NoDup (contents fill ++ pool) /\
  Z.of_nat (length (contents fill)) = RING_SIZE /\ Z.of_nat (length pool) = FRAME_COUNT - RING_SIZE /\
  forall a, a ∈ contents fill ++ pool ->
    0 <= a /\ a mod FRAME_SIZE = 0 /\ a + FRAME_SIZE <= area_len.
Proof.
  destruct umem_new as [[fill comp] frames] eqn:E.
  destruct (umem_new_spec _ _ _ E) as (H1 & Hf & _ & Hfill & Hc & ->).
  rewrite Hfill. split; [exact H1|]. split; [exact Hf|]. split; [reflexivity|]. split; [exact Hc|].
  split; [exact rx_tx_NoDup|]. split; [rewrite rx_addrs_length; reflexivity|].
  split; [rewrite tx_frames_length; reflexivity|].
  intros a Ha. assert (exists i, 0 <= i < FRAME_COUNT /\ a = i * FRAME_SIZE) as (i & Hi & ->).
  { unfold rx_addrs, tx_frames in Ha.
    apply elem_of_app in Ha as [Ha|Ha];
      (apply elem_of_frame_addrs in Ha as (i & Hi & ->); [|unfold FRAME_COUNT, RING_SIZE; lia..]);
      exists i; (split; [|reflexivity]); unfold FRAME_COUNT, RING_SIZE in *; lia. }
  change area_len with 33554432. unfold FRAME_SIZE, FRAME_COUNT in *. split; [lia|].
  split; [apply Z.mod_mul; lia|lia].
Qed.

Lemma ring_refines_queue_witness :
  exists r', enqueue_batch (mkRing (2 ^ 32 - 1) (2 ^ 32 - 2) 0 [10; 20; 30; 40] 4 3) [1; 2; 3; 4] = (3, r') /\
    contents r' = [30; 1; 2; 3].
Proof.
  destruct (ring_refines_queue (mkRing (2 ^ 32 - 1) (2 ^ 32 - 2) 0 [10; 20; 30; 40] 4 3) [1; 2; 3; 4])
    as ((r' & He & _ & _ & _ & Hc) & _).
  - constructor; cbn [producer consumer descs size mask]; try reflexivity.
    + exists 2. split; [lia|reflexivity].
    + unfold in_u. lia.
    + unfold in_u. lia.
    + vm_compute. discriminate.
  - exists r'. split; [exact He|]. rewrite Hc. vm_compute. reflexivity.
Defined.
