(* ===== verification/XskSocket.v ===== *)
(** * AF_XDP sockets: creation, mappings and clean-up

    Models the set-up of [src/transport/xdp/umem.rs] ([get_mmap_offsets],
    [mmap_addr_ring], [mmap_desc_ring], [Umem::new], [mbind_to_node], the drops) and
    [src/transport/xdp/socket.rs] ([create_xsk_socket], [XskSocket::extract_tx]), with
    the choice between zero-copy and copy mode of
    [src/transport/xdp/receiver.rs] ([do_start_xdp_receive_path]).

    The code acquires a descriptor and up to five mappings one system call at a
    time, and returns early when one fails.  The model is a state and error monad
    whose state is what is held; what the kernel answers is an argument.

    The theorems: exactly what is still held after a success, after a drop and after
    each failure; a queue is opened in copy mode only when zero-copy failed; every
    index and descriptor a ring access touches, and every frame, lies inside its
    mapping. *)

From Stdlib Require Import ZArith Lia Bool.
From stdpp Require Import base numbers option list.
From S2P Require Import Prelude Ring.

Open Scope Z_scope.

Module Xsk.

(** ** Constants of the kernel interface *)

Definition AF_XDP : Z := 44.
Definition XDP_RX_RING : Z := 2.
Definition XDP_TX_RING : Z := 3.
Definition XDP_UMEM_FILL_RING : Z := 5.
Definition XDP_UMEM_COMPLETION_RING : Z := 6.
Definition XDP_PGOFF_RX_RING : Z := 0.
Definition XDP_PGOFF_TX_RING : Z := 0x80000000.
Definition XDP_UMEM_PGOFF_FILL_RING : Z := 0x100000000.
Definition XDP_UMEM_PGOFF_COMPLETION_RING : Z := 0x180000000.
Definition XDP_ZEROCOPY : Z := Z.shiftl 1 2.
Definition XDP_COPY : Z := Z.shiftl 1 1.
Definition XDP_USE_NEED_WAKEUP : Z := Z.shiftl 1 3.

Record XdpUmemReg : Set := mkReg {
  reg_addr : Z; reg_len : Z; reg_chunk_size : Z; reg_headroom : Z; reg_flags : Z; reg_tx_metadata_len : Z
}.

Record XdpRingOffsets : Set := mkOffsets { o_producer : Z; o_consumer : Z; o_desc : Z; o_flags : Z }.

Record XdpMmapOffsets : Set := mkMmapOffsets {
  o_rx : XdpRingOffsets; o_tx : XdpRingOffsets; o_fr : XdpRingOffsets; o_cr : XdpRingOffsets
}.

Record SockaddrXdp : Set := mkSockaddr {
  sxdp_family : Z; sxdp_flags : Z; sxdp_ifindex : Z; sxdp_queue_id : Z; sxdp_shared_umem_fd : Z
}.

(** What the kernel answers to the calls of one attempt. *)
Record kernel : Type := mkKernel {
  k_socket : bool;
  k_mmap_area : bool -> Z -> option Z;        (* with huge pages or not, the length *)
  k_umem_reg : XdpUmemReg -> bool;
  k_set_ring : Z -> Z -> bool;                (* [setsockopt] with an option and a size *)
  k_offsets : option XdpMmapOffsets;          (* to [Umem::new] *)
  k_offsets_again : option XdpMmapOffsets;    (* to [create_xsk_socket] *)
  k_mmap_ring : Z -> Z -> option Z;           (* page offset and length *)
  k_bind : SockaddrXdp -> bool
}.

(** ** What is held *)

Inductive resource : Set :=
| Fd
| Area
| RingMap (pgoff : Z).

Global Instance resource_eq_dec : EqDecision resource.
Proof. solve_decision. Defined.

(** An attempt to open a queue, with or without zero-copy, and what it holds. *)
Abbreviation attempt := (Z * bool)%type.
Abbreviation held := (attempt * resource)%type.

Inductive xsk_error : Set :=
| SocketFailed
| UmemMmapFailed
| UmemRegFailed
| RingSizeFailed (opt : Z)
| UmemOffsetsFailed
| OffsetsFailed
| RingMmapFailed (pgoff : Z)
| BindFailed.

(** Code that acquires and releases, and can fail. *)
Definition sys (A : Type) : Type := list held -> result A xsk_error * list held.

Global Instance sys_ret : MRet sys := fun A a live => (Ok a, live).
Global Instance sys_bind : MBind sys := fun A B k m live =>
  match m live with
  | (Ok a, live') => k a live'
  | (Err e, live') => (Err e, live')
  end.

Definition fail {A} (e : xsk_error) : sys A := fun live => (Err e, live).
Definition acquire (h : held) : sys unit := fun live => (Ok tt, h :: live).
Definition release (h : held) : sys unit := fun live => (Ok tt, base.filter (fun h' => h' <> h) live).

(** [inspect_err], and the drop of a value in scope at an early return. *)
Definition inspect_err {A} (m : sys A) (cleanup : sys unit) : sys A := fun live =>
  match m live with
  | (Ok a, live') => (Ok a, live')
  | (Err e, live') => (Err e, (cleanup live').2)
  end.

Definition check (ok : bool) (e : xsk_error) : sys unit := if ok then mret tt else fail e.

(** ** Rings ([umem.rs]) *)

(** [AddrRing] and [DescRing]: pointers into a mapping. *)
Record ring_map : Set := mkRingMap {
  r_map : Z; r_mapsize : Z; r_producer : Z; r_consumer : Z; r_flags : Z; r_descs : Z; r_size : Z; r_mask : Z
}.

Definition zeroed : ring_map := mkRingMap 0 0 0 0 0 0 0 0.

Definition sizeof_u64 : Z := 8.
Definition sizeof_XdpDesc : Z := 16.

Section Attempt.
Context (k : kernel) (at_ : attempt).

Definition get_mmap_offsets (answer : option XdpMmapOffsets) (e : xsk_error) : sys XdpMmapOffsets :=
  match answer with Some o => mret o | None => fail e end.

Definition get_rx_tx_offsets : sys (XdpRingOffsets * XdpRingOffsets) :=
  o ← get_mmap_offsets (k_offsets_again k) OffsetsFailed;
  mret (o_rx o, o_tx o).

(** [mmap_addr_ring] and [mmap_desc_ring], which differ in the size of an entry. *)
Definition mmap_ring (elem pgoff : Z) (off : XdpRingOffsets) (size : Z) : sys ring_map :=
  let mapsize := wadd 64 (o_desc off) (wmul 64 size elem) in
  match k_mmap_ring k pgoff mapsize with
  | None => fail (RingMmapFailed pgoff)
  | Some map =>
      _ ← acquire (at_, RingMap pgoff);
      mret (mkRingMap map mapsize (map + o_producer off) (map + o_consumer off) (map + o_flags off)
              (map + o_desc off) size (wsub 32 size 1))
  end.

Definition mmap_addr_ring : Z -> XdpRingOffsets -> Z -> sys ring_map := mmap_ring sizeof_u64.
Definition mmap_desc_ring : Z -> XdpRingOffsets -> Z -> sys ring_map := mmap_ring sizeof_XdpDesc.

(** The loop that sets the sizes of two rings. *)
Fixpoint set_rings (opts : list Z) (cleanup : sys unit) : sys unit :=
  match opts with
  | [] => mret tt
  | opt :: opts' =>
      _ ← inspect_err (check (k_set_ring k opt RING_SIZE) (RingSizeFailed opt)) cleanup;
      set_rings opts' cleanup
  end.

(** ** [Umem] *)

Record Umem : Type := mkUmem {
  u_area : Z; u_area_len : Z;
  u_fill : ring_map; u_comp : ring_map;
  u_fill_ring : ring Z; u_comp_ring : ring Z     (* what the rings hold *)
}.

Definition Umem_new : sys (Umem * list Z) :=
  let area_opt := match k_mmap_area k true area_len with
                  | Some a => Some a
                  | None => k_mmap_area k false area_len
                  end in
  match area_opt with
  | None => fail UmemMmapFailed
  | Some area =>
      _ ← acquire (at_, Area);
      let unmap := release (at_, Area) in
      _ ← inspect_err (check (k_umem_reg k (mkReg area area_len FRAME_SIZE 0 0 0)) UmemRegFailed) unmap;
      _ ← set_rings [XDP_UMEM_FILL_RING; XDP_UMEM_COMPLETION_RING] unmap;
      offsets ← get_mmap_offsets (k_offsets k) UmemOffsetsFailed;
      fill ← inspect_err (mmap_addr_ring XDP_UMEM_PGOFF_FILL_RING (o_fr offsets) RING_SIZE) unmap;
      comp ← inspect_err (mmap_addr_ring XDP_UMEM_PGOFF_COMPLETION_RING (o_cr offsets) RING_SIZE) unmap;
      let '(fill_ring, comp_ring, tx_pool) := umem_new in
      mret (mkUmem area area_len fill comp fill_ring comp_ring, tx_pool)
  end.

(** ** [XskSocket] *)

Record XskSocket : Type := mkXsk {
  x_umem : Umem; x_rx : ring_map; x_tx : ring_map; x_tx_pool : list Z
}.

Definition close_fd : sys unit := release (at_, Fd).
Definition drop_umem : sys unit := release (at_, Area).

(** The fields are dropped after the socket's own [drop]; the rings have none. *)
Definition drop_socket : sys unit := _ ← close_fd; drop_umem.

Definition create_xsk_socket (ifindex : Z) : sys XskSocket :=
  if negb (k_socket k) then fail SocketFailed
  else
    _ ← acquire (at_, Fd);
    '(umem, tx_pool) ← inspect_err Umem_new close_fd;
    (* [umem] is dropped by every early return from here on *)
    inspect_err
      (_ ← set_rings [XDP_RX_RING; XDP_TX_RING] close_fd;
       '(rx_off, tx_off) ← get_rx_tx_offsets;
       rx ← inspect_err (mmap_desc_ring XDP_PGOFF_RX_RING rx_off RING_SIZE) close_fd;
       tx ← inspect_err (mmap_desc_ring XDP_PGOFF_TX_RING tx_off RING_SIZE) close_fd;
       let bind_flags := Z.lor XDP_USE_NEED_WAKEUP (if at_.2 then XDP_ZEROCOPY else XDP_COPY) in
       _ ← inspect_err (check (k_bind k (mkSockaddr AF_XDP bind_flags ifindex at_.1 0)) BindFailed) close_fd;
       mret (mkXsk umem rx tx tx_pool))
      drop_umem.

End Attempt.

(** The transmit side is taken out of the socket before the receiver gets it. *)
Definition extract_tx (s : XskSocket) : (ring_map * ring_map * list Z) * XskSocket :=
  ((x_tx s, u_comp (x_umem s), x_tx_pool s),
   mkXsk (mkUmem (u_area (x_umem s)) (u_area_len (x_umem s)) (u_fill (x_umem s)) zeroed
            (u_fill_ring (x_umem s)) (u_comp_ring (x_umem s)))
         (x_rx s) zeroed []).

(** Zero-copy first, copy mode when that fails; [answers] is what the kernel says to
    the attempt with and to the one without. *)
Definition open_queue (answers : bool -> kernel) (ifindex q : Z) (live : list held)
  : result (bool * XskSocket) xsk_error * list held :=
  match create_xsk_socket (answers true) (q, true) ifindex live with
  | (Ok s, live') => (Ok (true, s), live')
  | (Err _, live') =>
      match create_xsk_socket (answers false) (q, false) ifindex live' with
      | (Ok s, live'') => (Ok (false, s), live'')
      | (Err e, live'') => (Err e, live'')
      end
  end.

(** ** [mbind_to_node]: the node mask it passes, if it makes the call *)

Definition nodemask (node : Z) : option (list Z) :=
  if 16 <=? node / 64 then None
  else Some (<[Z.to_nat (node / 64) := Z.shiftl 1 (node mod 64)]> (replicate 16 0)).

(** ** What is held after each outcome *)

(** The resources of a socket, the latest first. *)
Definition ring_maps : list resource :=
  RingMap <$> [XDP_PGOFF_TX_RING; XDP_PGOFF_RX_RING; XDP_UMEM_PGOFF_COMPLETION_RING; XDP_UMEM_PGOFF_FILL_RING].

Definition owned : list resource := ring_maps ++ [Area; Fd].

(** What stays behind when the creation fails. *)
Definition leak (e : xsk_error) : list resource :=
  match e with
  | SocketFailed | UmemMmapFailed | UmemRegFailed => []
  | UmemOffsetsFailed => [Area]
  | OffsetsFailed => drop 2 ring_maps ++ [Fd]
  | BindFailed => ring_maps
  | RingSizeFailed opt =>
      if (opt =? XDP_RX_RING) || (opt =? XDP_TX_RING) then drop 2 ring_maps else []
  | RingMmapFailed pgoff =>
      if pgoff =? XDP_UMEM_PGOFF_FILL_RING then []
      else if pgoff =? XDP_UMEM_PGOFF_COMPLETION_RING then drop 3 ring_maps
      else if pgoff =? XDP_PGOFF_RX_RING then drop 2 ring_maps
      else drop 1 ring_maps
  end.

Lemma filter_other t r (live : list held) : Forall (fun h => h.1 <> t) live ->
  base.filter (fun h => h <> (t, r)) live = live.
Proof.
  intros Hl. induction Hl as [|h live Hh Hl IH]; [done|]. rewrite filter_cons_True, IH; [done|].
  intros ->. by apply Hh.
Qed.

(** Computes what a release leaves. *)
Ltac held_simpl :=
  repeat first [ rewrite filter_cons_True by discriminate
               | rewrite filter_cons_False by (intros Hn; by apply Hn) ];
  repeat match goal with H : Forall _ ?l |- _ => rewrite (filter_other _ _ l H) end.

(** Runs the code up to the next question to the kernel. *)
Ltac run_sys :=
  cbv beta iota zeta delta [mbind sys_bind mret sys_ret acquire release close_fd drop_umem fail inspect_err check
    set_rings get_mmap_offsets get_rx_tx_offsets mmap_addr_ring mmap_desc_ring mmap_ring negb fst snd].

(** A failure leaves what [leak] says. *)
Ltac failed := cbn [fst snd]; held_simpl; split; [reflexivity|done].

Lemma Umem_new_held k t live : Forall (fun h => h.1 <> t) live ->
  match Umem_new k t ((t, Fd) :: live) with
  | (Ok (u, pool), live') => live' = (pair t <$> drop 2 owned) ++ live /\
      u_area_len u = area_len /\ (u_fill_ring u, u_comp_ring u, pool) = umem_new
  | (Err e, live') => live' = (pair t <$> leak e) ++ (t, Fd) :: live /\ e <> OffsetsFailed
  end.
Proof.
  intros Hl. unfold Umem_new.
  destruct (match k_mmap_area k true area_len with Some a => _ | None => _ end) as [area|]; [|done].
  run_sys. destruct (k_umem_reg k _); [|failed].
  destruct (k_set_ring k XDP_UMEM_FILL_RING RING_SIZE); [|failed].
  destruct (k_set_ring k XDP_UMEM_COMPLETION_RING RING_SIZE); [|failed].
  destruct (k_offsets k) as [o|]; [|done].
  destruct (k_mmap_ring k XDP_UMEM_PGOFF_FILL_RING _) as [m1|]; [|failed].
  destruct (k_mmap_ring k XDP_UMEM_PGOFF_COMPLETION_RING _) as [m2|]; [|failed].
  by destruct umem_new as [[fr cr] pool].
Qed.

Lemma leak_no_fd t e live : e <> OffsetsFailed -> Forall (fun h => h.1 <> t) live ->
  (close_fd t ((pair t <$> leak e) ++ (t, Fd) :: live)).2 = (pair t <$> leak e) ++ live.
Proof.
  intros He Hl. run_sys. destruct e; cbn [leak]; try done; repeat case_if; cbn [fmap list_fmap app drop ring_maps];
    by held_simpl.
Qed.

Lemma create_held k t ifindex live : Forall (fun h => h.1 <> t) live ->
  match create_xsk_socket k t ifindex live with
  | (Ok s, live') => live' = (pair t <$> owned) ++ live /\ (drop_socket t live').2 = (pair t <$> ring_maps) ++ live
  | (Err e, live') => live' = (pair t <$> leak e) ++ live
  end.
Proof.
  intros Hl. unfold create_xsk_socket. destruct (k_socket k); [|done]. cbn [negb].
  pose proof (Umem_new_held k t live Hl) as Hu.
  unfold mbind at 1, sys_bind at 1, acquire at 1. unfold mbind at 1, sys_bind at 1, inspect_err at 1.
  destruct (Umem_new k t ((t, Fd) :: live)) as [[[u pool]|e] live1].
  2: { destruct Hu as [-> He]. by apply leak_no_fd. }
  destruct Hu as (-> & _). change ((pair t <$> drop 2 owned) ++ live) with
    ((t, RingMap XDP_UMEM_PGOFF_COMPLETION_RING) :: (t, RingMap XDP_UMEM_PGOFF_FILL_RING) :: (t, Area) :: (t, Fd) :: live).
  run_sys. destruct (k_set_ring k XDP_RX_RING RING_SIZE); [|cbn [snd]; by held_simpl].
  destruct (k_set_ring k XDP_TX_RING RING_SIZE); [|cbn [snd]; by held_simpl].
  destruct (k_offsets_again k) as [o|]; [|cbn [snd]; by held_simpl].
  destruct (k_mmap_ring k XDP_PGOFF_RX_RING _) as [m1|]; [|cbn [snd]; by held_simpl].
  destruct (k_mmap_ring k XDP_PGOFF_TX_RING _) as [m2|]; [|cbn [snd]; by held_simpl].
  destruct (k_bind k _); [|cbn [snd]; by held_simpl].
  split; [reflexivity|]. unfold drop_socket. run_sys. cbn [snd]. by held_simpl.
Qed.

(** ** Shapes *)

(** A ring mapped at [map]. *)
Definition ring_at (elem map : Z) (off : XdpRingOffsets) : ring_map :=
  mkRingMap map (wadd 64 (o_desc off) (wmul 64 RING_SIZE elem)) (map + o_producer off) (map + o_consumer off)
    (map + o_flags off) (map + o_desc off) RING_SIZE (wsub 32 RING_SIZE 1).

(** A new socket: where its rings are, and what is in its memory. *)
Record fresh_socket (k : kernel) (s : XskSocket) : Prop := mkFresh {
  fs_offsets : exists o o' m1 m2 m3 m4, k_offsets k = Some o /\ k_offsets_again k = Some o' /\
    u_fill (x_umem s) = ring_at sizeof_u64 m1 (o_fr o) /\ u_comp (x_umem s) = ring_at sizeof_u64 m2 (o_cr o) /\
    x_rx s = ring_at sizeof_XdpDesc m3 (o_rx o') /\ x_tx s = ring_at sizeof_XdpDesc m4 (o_tx o');
  fs_area : u_area_len (x_umem s) = area_len;
  fs_frames : (u_fill_ring (x_umem s), u_comp_ring (x_umem s), x_tx_pool s) = umem_new
}.

(** A successful step of the code. *)
Lemma bind_ok {A B} (m : sys A) (f : A -> sys B) live b live' : mbind f m live = (Ok b, live') ->
  exists a live1, m live = (Ok a, live1) /\ f a live1 = (Ok b, live').
Proof. unfold mbind, sys_bind. destruct (m live) as [[a|e] live1]; [by eexists _, _|done]. Qed.

Lemma inspect_ok {A} (m : sys A) c live a live' : inspect_err m c live = (Ok a, live') -> m live = (Ok a, live').
Proof. unfold inspect_err. by destruct (m live) as [[a1|e] live1]. Qed.

Lemma mmap_ring_ok k t elem pgoff off live r live' : mmap_ring k t elem pgoff off RING_SIZE live = (Ok r, live') ->
  exists map, r = ring_at elem map off.
Proof.
  unfold mmap_ring. destruct (k_mmap_ring k pgoff _) as [map|]; [|done]. intros Hb.
  apply bind_ok in Hb as (u & live1 & _ & Hr). injection Hr as <- _. by exists map.
Qed.

(** Takes the first step out of a successful run. *)
Ltac step_ok H x E := apply bind_ok in H as (x & ? & E & H); try apply inspect_ok in E.

Lemma Umem_new_ok k t live u pool live' : Umem_new k t live = (Ok (u, pool), live') ->
  exists o m1 m2, k_offsets k = Some o /\ u_fill u = ring_at sizeof_u64 m1 (o_fr o) /\
    u_comp u = ring_at sizeof_u64 m2 (o_cr o) /\ u_area_len u = area_len /\
    (u_fill_ring u, u_comp_ring u, pool) = umem_new.
Proof.
  unfold Umem_new. destruct (match k_mmap_area k true area_len with Some a => _ | None => _ end) as [area|]; [|done].
  intros Hr. step_ok Hr a E1. step_ok Hr b E2. step_ok Hr c E3. step_ok Hr o E4. step_ok Hr m1 E5. step_ok Hr m2 E6.
  apply mmap_ring_ok in E5 as [a1 ->]. apply mmap_ring_ok in E6 as [a2 ->].
  unfold get_mmap_offsets in E4. destruct (k_offsets k) as [o'|]; [|done]. injection E4 as -> _.
  destruct umem_new as [[fr cr] frames]. injection Hr as <- <- _. by exists o, a1, a2.
Qed.

Lemma create_ok k t ifindex live s live' : create_xsk_socket k t ifindex live = (Ok s, live') -> fresh_socket k s.
Proof.
  unfold create_xsk_socket. destruct (k_socket k); [|done]. cbn [negb]. intros Hr. step_ok Hr a E1. step_ok Hr u E2.
  destruct u as [u pool]. apply Umem_new_ok in E2 as (o & m1 & m2 & Ho & Hf & Hc & Ha & Hfr).
  apply inspect_ok in Hr. step_ok Hr b E3. step_ok Hr off E4. destruct off as [ro to].
  step_ok Hr rx E5. step_ok Hr tx E6. step_ok Hr c E7. injection Hr as <- _.
  apply mmap_ring_ok in E5 as [a3 ->]. apply mmap_ring_ok in E6 as [a4 ->].
  unfold get_rx_tx_offsets, get_mmap_offsets in E4. destruct (k_offsets_again k) as [o'|] eqn:Ho'; [|done].
  injection E4 as <- <- _. constructor; cbn; [|done|done]. by exists o, o', m1, m2, a3, a4.
Qed.

(** ** Accesses *)

Definition in_map (r : ring_map) (a n : Z) : Prop := r_map r <= a /\ a + n <= r_map r + r_mapsize r.

(** The index words and every descriptor an index can select, the index being
    masked first. *)
Definition accesses_ok (elem : Z) (r : ring_map) : Prop :=
  in_map r (r_producer r) 4 /\ in_map r (r_consumer r) 4 /\ in_map r (r_flags r) 4 /\
  r_size r = RING_SIZE /\ forall idx, in_u 32 idx -> in_map r (r_descs r + elem * Z.land idx (r_mask r)) elem.

(** What the kernel documents of its offsets: the index words precede the
    descriptors. *)
Definition offsets_ok (o : XdpRingOffsets) : Prop :=
  0 <= o_producer o /\ 0 <= o_consumer o /\ 0 <= o_flags o /\
  o_producer o + 4 <= o_desc o /\ o_consumer o + 4 <= o_desc o /\ o_flags o + 4 <= o_desc o /\ o_desc o < 2 ^ 32.

Lemma ring_at_ok elem map off : offsets_ok off -> 0 < elem <= 16 -> accesses_ok elem (ring_at elem map off).
Proof.
  intros Ho He. unfold offsets_ok, accesses_ok, in_map, ring_at in *. cbn [r_map r_mapsize r_producer r_consumer r_flags r_size r_mask r_descs].
  unfold wadd, wmul, RING_SIZE. rewrite (Z.mod_small (4096 * elem)) by lia.
  rewrite (Z.mod_small (o_desc off + _)) by lia. split_and!; try lia. intros idx Hidx.
  change (wsub 32 4096 1) with (Z.ones 12). rewrite Z.land_ones by lia.
  pose proof (Z.mod_pos_bound idx (2 ^ 12)). change (2 ^ 12) with 4096 in *. nia.
Qed.

(** ** Theorems *)

(** What the resources [l] of the attempt [t] are, tagged. *)
Definition of_attempt (t : attempt) (l : list resource) : list held := pair t <$> l.

(** C35. Resources of a queue.  Zero-copy is tried first and the copy mode only when
    that fails; a socket that is returned holds its descriptor, its memory and four
    ring mappings; a failed attempt leaves exactly what [leak] says, which is
    nothing only up to the registration of the memory: later failures leave the
    ring mappings made so far, the memory when its own offsets cannot be read, and
    the descriptor when the offsets of the receive and transmit rings cannot. *)
Theorem open_queue_resources answers ifindex q live : Forall (fun h => h.1.1 <> q) live ->
  match open_queue answers ifindex q live with
  | (Ok (true, _), live') => live' = of_attempt (q, true) owned ++ live
  | (Ok (false, _), live') =>
      exists e, (create_xsk_socket (answers true) (q, true) ifindex live).1 = Err e /\
        live' = of_attempt (q, false) owned ++ of_attempt (q, true) (leak e) ++ live
  | (Err e', live') =>
      exists e, (create_xsk_socket (answers true) (q, true) ifindex live).1 = Err e /\
        live' = of_attempt (q, false) (leak e') ++ of_attempt (q, true) (leak e) ++ live
  end.
Proof.
  intros Hl. unfold open_queue.
  assert (forall zc, Forall (fun h => h.1 <> (q, zc)) live) as Hz.
  { intros zc. eapply Forall_impl; [exact Hl|]. intros [[q' z'] r] Hq [=]. by apply Hq. }
  pose proof (create_held (answers true) (q, true) ifindex live (Hz true)) as H1.
  destruct (create_xsk_socket (answers true) (q, true) ifindex live) as [[s|e] live1]; [apply H1|]. subst live1.
  pose proof (create_held (answers false) (q, false) ifindex ((pair (q, true) <$> leak e) ++ live)) as H2.
  destruct (create_xsk_socket (answers false) (q, false) ifindex _) as [[s|e'] live2];
    (exists e; split; [done|]; apply H2; apply Forall_app_2; [|done]; apply Forall_fmap, Forall_true; intros r [=]).
Qed.

(** Bounds.  With offsets as the kernel documents them, every index word and every
    descriptor that the four rings of a new socket can select lies inside its
    mapping, and every frame of the fill ring and of the transmit pool inside the
    memory. *)
Theorem socket_in_bounds k t ifindex live s live' :
  create_xsk_socket k t ifindex live = (Ok s, live') ->
  (forall o, k_offsets k = Some o \/ k_offsets_again k = Some o ->
     offsets_ok (o_rx o) /\ offsets_ok (o_tx o) /\ offsets_ok (o_fr o) /\ offsets_ok (o_cr o)) ->
  accesses_ok sizeof_u64 (u_fill (x_umem s)) /\ accesses_ok sizeof_u64 (u_comp (x_umem s)) /\
  accesses_ok sizeof_XdpDesc (x_rx s) /\ accesses_ok sizeof_XdpDesc (x_tx s) /\
  contents (u_fill_ring (x_umem s)) = rx_addrs /\ contents (u_comp_ring (x_umem s)) = [] /\
  forall a, a ∈ contents (u_fill_ring (x_umem s)) ++ x_tx_pool s -> 0 <= a /\ a + FRAME_SIZE <= u_area_len (x_umem s).
Proof.
  intros Hc Ho. apply create_ok in Hc as [(o & o' & m1 & m2 & m3 & m4 & E1 & E2 & -> & -> & -> & ->) Ha Hf].
  destruct (Ho o) as (_ & _ & O1 & O2); [by left|]. destruct (Ho o') as (O3 & O4 & _ & _); [by right|].
  symmetry in Hf. destruct (umem_new_spec _ _ _ Hf) as (_ & _ & _ & Hfill & Hcomp & ->).
  split_and!; try (apply ring_at_ok; [done|unfold sizeof_u64, sizeof_XdpDesc; lia]); [done|done|].
  intros a. rewrite Hfill, Ha, elem_of_app. change area_len with (FRAME_COUNT * FRAME_SIZE).
  unfold rx_addrs, tx_frames. rewrite !elem_of_frame_addrs by (unfold RING_SIZE, FRAME_COUNT; lia).
  unfold RING_SIZE, FRAME_COUNT, FRAME_SIZE. intros [(i & Hi & ->)|(i & Hi & ->)]; lia.
Qed.

(** The mask of [mbind_to_node] has the bit of the node and no other. *)
Lemma nodemask_bit node l b : 0 <= node -> 0 <= b < 1024 -> nodemask node = Some l ->
  Z.testbit (l !!! Z.to_nat (b / 64)) (b mod 64) = (b =? node).
Proof.
  intros Hn Hb. unfold nodemask. case_if; [discriminate|]. intros Hl. bool_to_prop.
  assert (l = <[Z.to_nat (node / 64) := Z.shiftl 1 (node mod 64)]> (replicate 16 0)) as -> by congruence.
  pose proof (Z.mod_pos_bound node 64). pose proof (Z.mod_pos_bound b 64).
  assert (0 <= node / 64 < 16) by (split; [apply Z.div_pos|]; lia).
  assert (0 <= b / 64 < 16) by (split; [apply Z.div_pos; lia|apply Z.div_lt_upper_bound; lia]).
  pose proof (Z.div_mod node 64). pose proof (Z.div_mod b 64).
  destruct (decide (b / 64 = node / 64)) as [E|E].
  - rewrite E, list_lookup_total_insert_eq by (rewrite length_replicate; lia).
    rewrite Z.shiftl_1_l, Z.pow2_bits_eqb by lia. apply Bool.eq_iff_eq_true. rewrite !Z.eqb_eq. lia.
  - rewrite list_lookup_total_insert_ne by lia. rewrite lookup_total_replicate_2 by lia. rewrite Z.bits_0.
    symmetry. bool_to_prop. intros ->. lia.
Qed.

(** ** Witnesses *)

Definition ex_ring_offsets : XdpRingOffsets := mkOffsets 0 64 192 128.
Definition ex_offsets : XdpMmapOffsets := mkMmapOffsets ex_ring_offsets ex_ring_offsets ex_ring_offsets ex_ring_offsets.

(** A kernel without huge pages that binds in copy mode only. *)
Definition ex_kernel (again : option XdpMmapOffsets) : kernel :=
  mkKernel true (fun huge _ => if huge then None else Some 0x7f0000000000) (fun _ => true) (fun _ _ => true)
    (Some ex_offsets) again (fun pgoff _ => Some (0x7e0000000000 + pgoff))
    (fun a => Z.land (sxdp_flags a) XDP_ZEROCOPY =? 0).

(** The fall-back leaves the four mappings of the attempt with zero-copy. *)
Lemma open_queue_resources_witness :
  exists s, open_queue (fun _ => ex_kernel (Some ex_offsets)) 2 0 [] =
    (Ok (false, s), of_attempt (0, false) owned ++ of_attempt (0, true) ring_maps ++ []).
Proof.
  pose proof (open_queue_resources (fun _ => ex_kernel (Some ex_offsets)) 2 0 [] ltac:(constructor)) as Hr.
  destruct (open_queue (fun _ => ex_kernel (Some ex_offsets)) 2 0 []) as [[[[] s]|e] live'] eqn:E;
    unfold open_queue, create_xsk_socket, Umem_new in E; destruct umem_new as [[fr cr] pool]; cbn in E; try discriminate E.
  destruct Hr as (e & He & ->). unfold create_xsk_socket, Umem_new in He. destruct umem_new as [[fr' cr'] pool'].
  cbn in He. injection He as <-. exists s. reflexivity.
Defined.

Lemma socket_in_bounds_witness :
  exists s live', create_xsk_socket (ex_kernel (Some ex_offsets)) (0, false) 2 [] = (Ok s, live') /\
    accesses_ok sizeof_XdpDesc (x_tx s).
Proof.
  destruct (create_xsk_socket (ex_kernel (Some ex_offsets)) (0, false) 2 []) as [[s|e] live'] eqn:E.
  - exists s, live'. split; [reflexivity|].
    assert (Hb := socket_in_bounds _ _ _ _ _ _ E). apply Hb. intros o Ho.
    assert (o = ex_offsets) as -> by (destruct Ho; cbn in *; congruence).
    unfold offsets_ok. cbn. lia.
  - unfold create_xsk_socket, Umem_new in E. destruct umem_new as [[fr cr] pool]. cbn in E. discriminate E.
Defined.

End Xsk.
