(* ===== verification/Loader.v ===== *)
(** * The eBPF loader

    Models [src/transport/xdp/loader.rs]: the netlink message of
    [force_detach_xdp], [XdpHandle::load] and [register_socket].  The [aya] crate and
    the kernel are arguments: what each of their calls answers.

    The theorems: the detach message is read back, by the netlink layout, as one
    request to take the program off the interface, its length fields consistent; a
    load that succeeds cleared the interface before it attached, in driver mode
    unless only the generic mode is accepted, and one that fails before the attach
    reached nothing but the detach. *)

From Stdlib Require Import ZArith Lia Bool.
From stdpp Require Import base numbers option list.
From S2P Require Import Prelude.

Open Scope Z_scope.

Module Loader.

(** ** Native-endian bytes (the targets are little-endian) *)

Fixpoint to_ne_bytes (n : nat) (z : Z) : list Z :=
  match n with
  | O => []
  | S n' => z mod 256 :: to_ne_bytes n' (z / 256)
  end.

Definition u16_bytes (z : Z) : list Z := to_ne_bytes 2 (as_u 16 z).
Definition u32_bytes (z : Z) : list Z := to_ne_bytes 4 (as_u 32 z).

(** ** The detach message *)

Definition RTM_NEWLINK : Z := 16.
Definition NLM_F_REQUEST : Z := 0x01.
Definition NLM_F_ACK : Z := 0x04.
Definition IFLA_XDP : Z := 43.
Definition IFLA_XDP_FD : Z := 1.
Definition NLA_F_NESTED : Z := 0x8000.
Definition AF_UNSPEC : Z := 0.

(** The buffer before the length is patched in. *)
Definition detach_body (ifindex : Z) : list Z :=
  let inner_len := 4 + 4 in
  let nest_len := 4 + inner_len in
  u32_bytes 0 ++ u16_bytes RTM_NEWLINK ++ u16_bytes (Z.lor NLM_F_REQUEST NLM_F_ACK) ++ u32_bytes 1 ++ u32_bytes 0 ++
  [AF_UNSPEC] ++ [0] ++ u16_bytes 0 ++ u32_bytes ifindex ++ u32_bytes 0 ++ u32_bytes 0 ++
  u16_bytes nest_len ++ u16_bytes (Z.lor IFLA_XDP NLA_F_NESTED) ++
  u16_bytes inner_len ++ u16_bytes IFLA_XDP_FD ++ u32_bytes (-1).

(** [buf[0..4].copy_from_slice(&total.to_ne_bytes())] *)
Definition detach_msg (ifindex : Z) : list Z :=
  let buf := detach_body ifindex in
  let total := Z.of_nat (length buf) in
  u32_bytes total ++ drop 4 buf.

(** [force_detach_xdp]: what is sent, if anything; [ifindex] is
    [if_nametoindex] ([None] when the name holds a NUL). *)
Definition force_detach_xdp (ifindex : option Z) (socket_ok : bool) : option (list Z) :=
  match ifindex with
  | None => None
  | Some i => if i =? 0 then None else if socket_ok then Some (detach_msg i) else None
  end.

(** ** [XdpHandle::load] *)

Inductive mode : Set := DRV_MODE | SKB_MODE.

Inductive load_error : Set :=
| SetrlimitFailed | LoadFailed | SectionNotFound | TypeMismatch | ProgLoadFailed | AttachFailed.

(** What [aya] and the kernel answer. *)
Record backend : Set := mkBackend {
  setrlimit_ok : bool;
  ebpf_load_ok : bool;
  has_program : bool;
  is_xdp : bool;
  prog_load_ok : bool;
  attach_ok : mode -> bool
}.

(** What reaches the interface, in order. *)
Inductive effect : Set := Detach (msg : list Z) | Attach (m : mode) (ok : bool).

Definition load (b : backend) (ifindex : option Z) (socket_ok : bool) : list effect * result mode load_error :=
  if negb (setrlimit_ok b) then ([], Err SetrlimitFailed)
  else if negb (ebpf_load_ok b) then ([], Err LoadFailed)
  else if negb (has_program b) then ([], Err SectionNotFound)
  else if negb (is_xdp b) then ([], Err TypeMismatch)
  else if negb (prog_load_ok b) then ([], Err ProgLoadFailed)
  else
    let pre := match force_detach_xdp ifindex socket_ok with Some m => [Detach m] | None => [] end in
    if attach_ok b DRV_MODE then (pre ++ [Attach DRV_MODE true], Ok DRV_MODE)
    else if attach_ok b SKB_MODE then (pre ++ [Attach DRV_MODE false; Attach SKB_MODE true], Ok SKB_MODE)
    else (pre ++ [Attach DRV_MODE false; Attach SKB_MODE false], Err AttachFailed).

(** ** [register_socket]: the map from queues to sockets *)

Inductive register_error : Set := MapNotFound | NotXskMap | SetFailed (queue_id : Z).

Definition register_socket (has_map is_xskmap : bool) (set_ok : Z -> Z -> bool) (queue_id sock_fd : Z)
    (xsks : list (Z * Z)) : result (list (Z * Z)) register_error :=
  if negb has_map then Err MapNotFound
  else if negb is_xskmap then Err NotXskMap
  else if set_ok queue_id sock_fd then Ok ((queue_id, sock_fd) :: base.filter (fun e => e.1 <> queue_id) xsks)
  else Err (SetFailed queue_id).

(** ** Reading a netlink message *)

Fixpoint from_ne_bytes (l : list Z) : Z :=
  match l with [] => 0 | b :: l' => b + 256 * from_ne_bytes l' end.

Lemma from_to_ne n z : 0 <= z < 256 ^ Z.of_nat n -> from_ne_bytes (to_ne_bytes n z) = z.
Proof.
  revert z. induction n as [|n IH]; intros z Hz; cbn [to_ne_bytes from_ne_bytes].
  - cbn in Hz. lia.
  - rewrite Nat2Z.inj_succ, Z.pow_succ_r in Hz by lia. rewrite IH.
    + pose proof (Z.div_mod z 256). lia.
    + split; [apply Z.div_pos; lia|apply Z.div_lt_upper_bound; lia].
Qed.

Lemma to_ne_length n z : length (to_ne_bytes n z) = n.
Proof. revert z. induction n as [|n IH]; intros z; cbn; [done|by rewrite IH]. Qed.

(** The next [n] bytes as a number, and the rest. *)
Definition word (n : nat) (l : list Z) : option (Z * list Z) :=
  if (n <=? length l)%nat then Some (from_ne_bytes (take n l), drop n l) else None.

(** An attribute: its length, its type, and a payload that the length covers. *)
Definition attr (l : list Z) : option (Z * list Z * list Z) :=
  '(len, l) ← word 2 l;
  '(ty, l) ← word 2 l;
  if (4 <=? len) && (len - 4 <=? Z.of_nat (length l))
  then Some (ty, take (Z.to_nat (len - 4)) l, drop (Z.to_nat (len - 4)) l) else None.

(** A link request whose only attribute is a nested one with a single word. *)
Record link_request : Set := mkLink {
  l_type : Z; l_flags : Z; l_ifindex : Z; l_attr : Z; l_inner : Z; l_value : Z
}.

(** Reads it by [struct nlmsghdr], [struct ifinfomsg] and [struct rtattr]; [None] when
    a length does not fit. *)
Definition read_link_request (msg : list Z) : option link_request :=
  '(total, l) ← word 4 msg;
  '(ty, l) ← word 2 l;
  '(flags, l) ← word 2 l;
  '(_, l) ← word 4 l;
  '(_, l) ← word 4 l;
  '(_, l) ← word 4 l;
  '(ifindex, l) ← word 4 l;
  '(_, l) ← word 4 l;
  '(_, l) ← word 4 l;
  '(nest, payload, rest) ← attr l;
  '(inner, value, rest') ← attr payload;
  '(v, rest'') ← word 4 value;
  if (total =? Z.of_nat (length msg)) && (Nat.eqb (length (rest ++ rest' ++ rest'')) 0)
  then Some (mkLink ty flags ifindex nest inner v) else None.

(** Four bytes stand for the index. *)
Lemma u32_bytes_shape z : 0 <= z < 2 ^ 32 ->
  exists b0 b1 b2 b3, u32_bytes z = [b0; b1; b2; b3] /\ from_ne_bytes [b0; b1; b2; b3] = z.
Proof.
  intros Hz. unfold u32_bytes. rewrite as_u_small by done. eexists _, _, _, _. split; [reflexivity|].
  by apply (from_to_ne 4).
Qed.

(** ** Theorems *)

(** The message to detach, for every interface index: read by the kernel's layout
    it is one acknowledged request to change that link whose single attribute is
    the nested [IFLA_XDP] with the file descriptor -1, that is, no program; its
    lengths cover exactly the 44 bytes.  Nothing is sent when the interface does not
    exist or no socket can be opened. *)
Theorem detach_message i socket_ok : 0 < i < 2 ^ 31 ->
  force_detach_xdp (Some i) true = Some (detach_msg i) /\ length (detach_msg i) = 44%nat /\
  read_link_request (detach_msg i) =
    Some (mkLink RTM_NEWLINK 5 i (IFLA_XDP + NLA_F_NESTED) IFLA_XDP_FD (2 ^ 32 - 1)) /\
  force_detach_xdp None socket_ok = None /\ force_detach_xdp (Some 0) socket_ok = None /\
  force_detach_xdp (Some i) false = None.
Proof.
  intros Hi. unfold force_detach_xdp. replace (i =? 0) with false by (symmetry; bool_to_prop; lia).
  unfold detach_msg, detach_body. destruct (u32_bytes_shape i) as (b0 & b1 & b2 & b3 & -> & Hb); [lia|].
  split_and!; [reflexivity|reflexivity| |reflexivity..].
  transitivity (Some (mkLink RTM_NEWLINK 5 (from_ne_bytes [b0; b1; b2; b3]) (IFLA_XDP + NLA_F_NESTED) IFLA_XDP_FD (2 ^ 32 - 1)));
    [reflexivity|by rewrite Hb].
Qed.

(** Loading: when the load succeeds the interface was cleared first, if it exists and
    a netlink socket could be opened, and the program is attached in driver mode, or
    in generic mode only after driver mode was refused.  When it fails before the
    attach nothing reached the interface; when it fails at the attach both modes were
    refused. *)
Lemma load_effects b ifindex socket_ok :
  let pre := match force_detach_xdp ifindex socket_ok with Some m => [Detach m] | None => [] end in
  match load b ifindex socket_ok with
  | (es, Ok DRV_MODE) => attach_ok b DRV_MODE = true /\ es = pre ++ [Attach DRV_MODE true]
  | (es, Ok SKB_MODE) => attach_ok b DRV_MODE = false /\ attach_ok b SKB_MODE = true /\
      es = pre ++ [Attach DRV_MODE false; Attach SKB_MODE true]
  | (es, Err AttachFailed) => es = pre ++ [Attach DRV_MODE false; Attach SKB_MODE false] /\
      forall m, attach_ok b m = false
  | (es, Err _) => es = []
  end.
Proof.
  unfold load. repeat (case_if; [done|]). destruct (attach_ok b DRV_MODE) eqn:E1; [done|].
  destruct (attach_ok b SKB_MODE) eqn:E2; [done|]. split; [done|]. by intros [].
Qed.

(** The last socket registered for a queue is the one the program redirects to. *)
Lemma register_lookup has_map is_xskmap set_ok q fd xsks xsks' :
  register_socket has_map is_xskmap set_ok q fd xsks = Ok xsks' ->
  (q, fd) ∈ xsks' /\ forall fd', (q, fd') ∈ xsks' -> fd' = fd.
Proof.
  unfold register_socket. repeat case_if; try discriminate. injection 1 as <-. split; [by left|].
  intros fd' [[= ->]|Hin]%elem_of_cons; [done|]. apply list_elem_of_filter in Hin as [Hne _]. by destruct Hne.
Qed.

Lemma detach_message_witness : length (detach_msg 3) = 44%nat /\
  read_link_request (detach_msg 3) = Some (mkLink 16 5 3 (43 + 0x8000) 1 (2 ^ 32 - 1)).
Proof. destruct (detach_message 3 true) as (_ & Hl & Hr & _); [lia|]. split; [exact Hl|exact Hr]. Defined.

End Loader.
