(* ===== verification/XdpWorker.v ===== *)
(** * The unified AF_XDP worker

    Models [xdp_unified_worker] of [src/transport/xdp/receiver.rs]: one thread per
    NIC queue that reclaims the completed transmissions, decides how many queries
    to send (token bucket and gate), writes them straight into UMEM frames, submits
    them, drains the received frames and gives them back to the kernel, and sweeps
    the shared in-flight table.

    The worker and the kernel share four rings and the UMEM; [xstep] is their
    interleaving: a turn of the worker, or one move of the kernel (take a
    transmission, complete one, take a receive frame, deliver one), or a change of
    the shared table and counters by the other workers.  The address
    of a delivered frame may lie inside its chunk; the kernel aligns the addresses
    it takes back, so chunks are what is conserved.

    The theorems: the ids of different workers never meet; in every reachable state
    each UMEM frame is in exactly one place, so that the worker never writes a
    frame the NIC may still be reading and the fill ring never overflows; every
    submitted frame is a valid Ethernet/IPv4/UDP frame that carries a query of the
    pool with an id of the worker's range. *)

From Stdlib Require Import ZArith Lia Bool String.
From stdpp Require Import base numbers option relations list.
From S2P Require Import Prelude Float64 RustStr Dns Query Stats InFlight Frame Ring.

Open Scope Z_scope.

Module Xdp.

Definition TX_BATCH : Z := 64.
Definition LAT_SAMPLE_MASK : Z := 0x3F.
Definition FLUSH_N : Z := 1024.
Definition SPORT_BASE : Z := 10000.
Definition SPORT_SPREAD : Z := 2048.
Definition RC_FLUSH : Z := 4096.

(** The arguments of a worker. *)
Record config : Set := mkConfig {
  hdr : FrameHeader;
  wire_pool : WireQueryPool;
  worker_id : Z;
  num_workers : Z;
  max_outstanding : Z;
  timeout_ns : Z;
  firehose : bool;
  track_latency : bool
}.

Definition nw (cfg : config) : Z := Z.max (num_workers cfg) 1.
Definition id_span (cfg : config) : Z := Z.max (65536 / nw cfg) 1.
Definition id_base (cfg : config) : Z := as_u 16 ((worker_id cfg mod nw cfg) * id_span cfg).

(** The id of the query with counter [id_ctr]. *)
Definition query_id (cfg : config) (id_ctr : Z) : Z :=
  wadd 16 (id_base cfg) (as_u 16 (id_ctr mod id_span cfg)).

(** What the clock and the rate say in one turn. *)
Record env : Set := mkEnv {
  e_stall_due : bool;        (* two seconds since the last stall check *)
  e_qps : Z;
  e_refill : Z;              (* the clock at the refill of the bucket *)
  e_insert : nat -> Z;       (* the table's clock at each registration *)
  e_take : nat -> Z;         (* the table's clock at each match *)
  e_flush : Z;               (* the collector's clock at a flush *)
  e_now : Z;
  e_sweep : Z
}.

Section Worker.
Context {H : Type} `{HdrHistogram H}.

(** The shared memory, the rings, the kernel's frames and the worker's locals.
    [pool] is the free list with the top of the stack first. *)
Record state : Type := mkState {
  mem : Z -> list Z;            (* the bytes of the UMEM frame at a chunk address *)
  pool : list Z;
  tx : ring XdpDesc;
  comp : ring Z;
  rx : ring XdpDesc;
  fill : ring Z;
  k_tx : list Z;                (* transmit frames the kernel holds *)
  k_rx : list Z;                (* receive frames the kernel holds *)
  in_flight : list Z;
  global_in_flight : Z;
  stats : StatsCollector H;
  id_ctr : Z;
  tmpl_idx : Z;
  sport_ctr : Z;
  sub_acc : Z;
  local_egress : Z;
  stall_sub : Z;
  stall_egr : Z;
  stall_warned : bool;
  tokens : f64;
  last_refill : Z;
  rc : list Z;                  (* noerror, nxdomain, servfail, refused, other *)
  rc_acc : Z;
  last_timeout : Z
}.

(** ** 1. Reclaim the completed transmissions *)

Definition reclaim (s : state) : state :=
  let '(done, comp') := dequeue_all (comp s) in
  let n := Z.of_nat (length done) in
  let egr := if is_empty done then local_egress s
             else if FLUSH_N <=? local_egress s + n then 0 else local_egress s + n in
  mkState (mem s) (rev done ++ pool s) (tx s) comp' (rx s) (fill s) (k_tx s) (k_rx s) (in_flight s)
    (global_in_flight s) (stats s) (id_ctr s) (tmpl_idx s) (sport_ctr s) (sub_acc s) egr (stall_sub s)
    (stall_egr s + n) (stall_warned s) (tokens s) (last_refill s) (rc s) (rc_acc s) (last_timeout s).

(** Every two seconds: warn once when less than a fifth of what was submitted
    has left. *)
Definition stall_check (e : env) (s : state) : state :=
  if e_stall_due e then
    let warn := negb (stall_warned s) && (1024 <=? stall_sub s) && (stall_egr s <? stall_sub s / 5) in
    mkState (mem s) (pool s) (tx s) (comp s) (rx s) (fill s) (k_tx s) (k_rx s) (in_flight s)
      (global_in_flight s) (stats s) (id_ctr s) (tmpl_idx s) (sport_ctr s) (sub_acc s) (local_egress s) 0 0
      (stall_warned s || warn) (tokens s) (last_refill s) (rc s) (rc_acc s) (last_timeout s)
  else s.

(** ** 2. How many to send *)

(** [Duration::as_secs_f64] *)
Definition as_secs_f64 (ns : Z) : f64 :=
  f64_add (f64_of_Z (ns / 1000000000)) (f64_div (f64_of_Z (ns mod 1000000000)) (f64_of_Z 1000000000)).

(** The token bucket: refill at the rate, cap at one batch, spend the whole
    tokens. *)
Definition refill (cfg : config) (e : env) (s : state) : Z * f64 * Z :=
  if e_qps e >? 0 then
    let t := f64_min (f64_add (tokens s)
                        (f64_mul (as_secs_f64 (sat_sub (e_refill e) (last_refill s))) (f64_of_Z (e_qps e))))
               (f64_of_Z TX_BATCH) in
    let n := f64_floor t in
    (f64_as_u 64 n, f64_sub t n, e_refill e)
  else (TX_BATCH, tokens s, last_refill s).

Definition gate (cfg : config) (headroom : Z) (s : state) : Z :=
  if max_outstanding cfg >? 0
  then Z.min headroom (sat_sub (max_outstanding cfg) (global_in_flight s))
  else headroom.

(** ** 3. Send a batch *)

(** One frame: the query goes in after the headers, then the headers.  The split
    sender writes the same frame. *)
Definition write_query (cfg : config) (id tmpl : Z) (buf : list Z) : outcome (list Z * Z) :=
  let off := Z.to_nat (outer (hdr cfg)) in
  if (length buf <? off)%nat then Panic
  else
    '(body, dns_len) ← write_with_index (wire_pool cfg) tmpl id (drop off buf);
    write_header (hdr cfg) (take off buf ++ body) dns_len.

(** Then the source port of this packet. *)
Definition build_frame (cfg : config) (id tmpl sport : Z) (buf : list Z) : outcome (list Z * Z) :=
  '(buf, total) ← write_query cfg id tmpl buf;
  Done (set_src_port (hdr cfg) buf sport, total).

Definition sport_of (ctr : Z) : Z := SPORT_BASE + as_u 16 (ctr mod SPORT_SPREAD).

(** The loop over the popped frames: the memory, the descriptors and the ids. *)
Fixpoint fill_frames (cfg : config) (addrs : list Z) (m : Z -> list Z) (idc tmpl sport : Z)
  : outcome ((Z -> list Z) * list XdpDesc * list Z) :=
  match addrs with
  | [] => Done (m, [], [])
  | addr :: addrs' =>
      let id := query_id cfg idc in
      '(buf, total) ← build_frame cfg id tmpl (sport_of sport) (m addr);
      let m' := fun a => if a =? addr then buf else m a in
      '(m'', ds, ids) ← fill_frames cfg addrs' m' (wadd 64 idc 1) (wadd 64 tmpl 1) (wadd 64 sport 1);
      Done (m'', mkDesc addr (as_u 32 total) 0 :: ds, id :: ids)
  end.

(** The registration of the ids the ring took: all of them in the closed loop,
    one in 64 when a ramp samples the latency of a flood. *)
Definition registered (cfg : config) (ids : list Z) : list Z :=
  if negb (firehose cfg) then ids
  else if track_latency cfg then base.filter (fun id => Z.land id LAT_SAMPLE_MASK = 0) ids
  else [].

Fixpoint insert_all (clock : nat -> Z) (ids : list Z) (t : list Z) : list Z :=
  match ids with
  | [] => t
  | id :: ids' => insert_all (fun n => clock (S n)) ids' (xdp_insert (clock 0%nat) id t)
  end.

(** After the ring took [enq] descriptors: register, gate, count. *)
Definition submitted (cfg : config) (e : env) (enq : Z) (ids : list Z) (s : state) : state :=
  if enq >? 0 then
    let t := insert_all (e_insert e) (registered cfg (take (Z.to_nat enq) ids)) (in_flight s) in
    let gated := negb (firehose cfg) && (max_outstanding cfg >? 0) in
    let g := if gated then wadd 64 (global_in_flight s) enq else global_in_flight s in
    let st := if gated then record_inflight g (stats s) else stats s in
    let acc := sub_acc s + enq in
    let '(st, acc) := if FLUSH_N <=? acc then (inc_sent_n acc (e_flush e) st, 0) else (st, acc) in
    mkState (mem s) (pool s) (tx s) (comp s) (rx s) (fill s) (k_tx s) (k_rx s) t g st (id_ctr s)
      (tmpl_idx s) (sport_ctr s) acc (local_egress s) (stall_sub s + enq) (stall_egr s) (stall_warned s)
      (tokens s) (last_refill s) (rc s) (rc_acc s) (last_timeout s)
  else s.

Definition send_batch (cfg : config) (e : env) (headroom : Z) (s : state) : outcome state :=
  if headroom >? 0 then
    let n := Z.to_nat (Z.min headroom (Z.of_nat (length (pool s)))) in
    let addrs := take n (pool s) in
    '(m, ds, ids) ← fill_frames cfg addrs (mem s) (id_ctr s) (tmpl_idx s) (sport_ctr s);
    let k := Z.of_nat n in
    let s := mkState m (drop n (pool s)) (tx s) (comp s) (rx s) (fill s) (k_tx s) (k_rx s) (in_flight s)
               (global_in_flight s) (stats s) (wadd 64 (id_ctr s) k) (wadd 64 (tmpl_idx s) k)
               (wadd 64 (sport_ctr s) k) (sub_acc s) (local_egress s) (stall_sub s) (stall_egr s)
               (stall_warned s) (tokens s) (last_refill s) (rc s) (rc_acc s) (last_timeout s) in
    if is_empty ds then Done s
    else
      let '(enq, tx') := produce_tx (tx s) ds in
      let back := d_addr <$> drop (Z.to_nat enq) ds in
      let s := mkState (mem s) (rev back ++ pool s) tx' (comp s) (rx s) (fill s) (k_tx s) (k_rx s)
                 (in_flight s) (global_in_flight s) (stats s) (id_ctr s) (tmpl_idx s) (sport_ctr s)
                 (sub_acc s) (local_egress s) (stall_sub s) (stall_egr s) (stall_warned s) (tokens s)
                 (last_refill s) (rc s) (rc_acc s) (last_timeout s) in
      Done (submitted cfg e enq ids s)
  else Done s.

(** ** 4. Drain the received frames *)

(** The chunk of an address, and the bytes of a descriptor. *)
Definition chunk (a : Z) : Z := a - a mod FRAME_SIZE.

Definition frame_of (m : Z -> list Z) (d : XdpDesc) : list Z :=
  take (Z.to_nat (d_len d)) (drop (Z.to_nat (d_addr d mod FRAME_SIZE)) (m (chunk (d_addr d)))).

Definition rc_index (rcode : Z) : nat :=
  if rcode =? 0 then 0%nat else if rcode =? 3 then 1%nat else if rcode =? 2 then 2%nat
  else if rcode =? 5 then 3%nat else 4%nat.

Record rx_acc : Type := mkAcc {
  a_rc : list Z;
  a_n : Z;
  a_table : list Z;
  a_stats : StatsCollector H;
  a_completed : Z
}.

(** One frame: counted by code in a flood (with a sampled latency in a ramp),
    matched by id in the closed loop. *)
Definition rx_frame (cfg : config) (clock : Z) (frame : list Z) (a : rx_acc) : rx_acc :=
  match parse_dns_from_frame frame with
  | None => a
  | Some (id, rcode) =>
      if firehose cfg then
        let rc' := alter (fun x => wadd 64 x 1) (rc_index rcode) (a_rc a) in
        if track_latency cfg && (Z.land id LAT_SAMPLE_MASK =? 0) then
          let '(r, t) := xdp_take clock id (a_table a) in
          mkAcc rc' (a_n a + 1) t
            (match r with Some rtt => record_latency_us rtt (a_stats a) | None => a_stats a end)
            (a_completed a)
        else mkAcc rc' (a_n a + 1) (a_table a) (a_stats a) (a_completed a)
      else
        let '(r, t) := xdp_take clock id (a_table a) in
        match r with
        | Some rtt => mkAcc (a_rc a) (a_n a) t (record_response rcode rtt (a_stats a)) (a_completed a + 1)
        | None => mkAcc (a_rc a) (a_n a) t (a_stats a) (a_completed a)
        end
  end.

Fixpoint rx_frames (cfg : config) (clock : nat -> Z) (m : Z -> list Z) (ds : list XdpDesc) (a : rx_acc) : rx_acc :=
  match ds with
  | [] => a
  | d :: ds' => rx_frames cfg (fun n => clock (S n)) m ds' (rx_frame cfg (clock 0%nat) (frame_of m d) a)
  end.

Definition record_rc (l : list Z) (st : StatsCollector H) : StatsCollector H :=
  record_rcodes (l !!! 0%nat) (l !!! 1%nat) (l !!! 2%nat) (l !!! 3%nat) (l !!! 4%nat) st.

(** The frames go back to the fill ring; the counts are flushed, or the gate
    opened, by what was completed. *)
Definition drain (cfg : config) (e : env) (s : state) : state :=
  let '(rxds, rx') := consume_rx (rx s) in
  if is_empty rxds then s
  else
    let a := rx_frames cfg (e_take e) (mem s) rxds
               (mkAcc (rc s) (rc_acc s) (in_flight s) (stats s) 0) in
    let fill' := (enqueue_batch (fill s) (d_addr <$> rxds)).2 in
    let flush := firehose cfg && (RC_FLUSH <=? a_n a) in
    let g := if negb (firehose cfg) && (a_completed a >? 0) && (max_outstanding cfg >? 0)
             then sat_sub (global_in_flight s) (a_completed a) else global_in_flight s in
    mkState (mem s) (pool s) (tx s) (comp s) rx' fill' (k_tx s) (k_rx s) (a_table a) g
      (if flush then record_rc (a_rc a) (a_stats a) else a_stats a) (id_ctr s) (tmpl_idx s) (sport_ctr s)
      (sub_acc s) (local_egress s) (stall_sub s) (stall_egr s) (stall_warned s) (tokens s) (last_refill s)
      (if flush then [0; 0; 0; 0; 0] else a_rc a) (if flush then 0 else a_n a) (last_timeout s).

(** ** 5. Expire the timed-out queries (worker 0 only) *)

Definition sweep (cfg : config) (e : env) (s : state) : state :=
  if (worker_id cfg =? 0) && (10000000 <=? sat_sub (e_now e) (last_timeout s)) then
    let '(expired, t) := sweep_expired (e_sweep e) (timeout_ns cfg) (in_flight s) in
    mkState (mem s) (pool s) (tx s) (comp s) (rx s) (fill s) (k_tx s) (k_rx s) t
      (if (expired >? 0) && (max_outstanding cfg >? 0)
       then sat_sub (global_in_flight s) expired else global_in_flight s)
      (inc_timeouts (Z.to_nat expired) (stats s)) (id_ctr s) (tmpl_idx s) (sport_ctr s) (sub_acc s)
      (local_egress s) (stall_sub s) (stall_egr s) (stall_warned s) (tokens s) (last_refill s) (rc s)
      (rc_acc s) (e_now e)
  else s.

(** ** A turn, and the end of the run *)

Definition with_tokens (t : f64) (now : Z) (s : state) : state :=
  mkState (mem s) (pool s) (tx s) (comp s) (rx s) (fill s) (k_tx s) (k_rx s) (in_flight s)
    (global_in_flight s) (stats s) (id_ctr s) (tmpl_idx s) (sport_ctr s) (sub_acc s) (local_egress s)
    (stall_sub s) (stall_egr s) (stall_warned s) t now (rc s) (rc_acc s) (last_timeout s).

Definition turn (cfg : config) (e : env) (s : state) : outcome state :=
  let s := reclaim s in
  let s := stall_check e s in
  let '(n, t, now) := refill cfg e s in
  let s := with_tokens t now s in
  let headroom := gate cfg n s in
  s ← send_batch cfg e headroom s;
  let s := drain cfg e s in
  Done (sweep cfg e s).

(** How many queries a turn may send. *)
Definition headroom (cfg : config) (e : env) (s : state) : Z :=
  let s := stall_check e (reclaim s) in
  let '(n, t, now) := refill cfg e s in
  gate cfg n (with_tokens t now s).

Definition finish (cfg : config) (flush_ns : Z) (s : state) : state :=
  let '(t, st) := if worker_id cfg =? 0
                  then let '(n, t) := drain_all (in_flight s) in (t, inc_timeouts (Z.to_nat n) (stats s))
                  else (in_flight s, stats s) in
  let st := if sub_acc s >? 0 then inc_sent_n (sub_acc s) flush_ns st else st in
  let st := if rc_acc s >? 0 then record_rc (rc s) st else st in
  mkState (mem s) (pool s) (tx s) (comp s) (rx s) (fill s) (k_tx s) (k_rx s) t (global_in_flight s) st
    (id_ctr s) (tmpl_idx s) (sport_ctr s) (sub_acc s) (local_egress s) (stall_sub s) (stall_egr s)
    (stall_warned s) (tokens s) (last_refill s) (rc s) (rc_acc s) (last_timeout s).

(** ** The worker and the kernel *)

Definition with_kernel (m : Z -> list Z) (tx' : ring XdpDesc) (comp' : ring Z) (rx' : ring XdpDesc)
    (fill' : ring Z) (kt kr : list Z) (s : state) : state :=
  mkState m (pool s) tx' comp' rx' fill' kt kr (in_flight s) (global_in_flight s) (stats s) (id_ctr s)
    (tmpl_idx s) (sport_ctr s) (sub_acc s) (local_egress s) (stall_sub s) (stall_egr s) (stall_warned s)
    (tokens s) (last_refill s) (rc s) (rc_acc s) (last_timeout s).

(** The other workers change the shared table, gate and statistics. *)
Definition with_shared (t : list Z) (g : Z) (st : StatsCollector H) (s : state) : state :=
  mkState (mem s) (pool s) (tx s) (comp s) (rx s) (fill s) (k_tx s) (k_rx s) t g st (id_ctr s)
    (tmpl_idx s) (sport_ctr s) (sub_acc s) (local_egress s) (stall_sub s) (stall_egr s) (stall_warned s)
    (tokens s) (last_refill s) (rc s) (rc_acc s) (last_timeout s).

Inductive xstep (cfg : config) : state -> state -> Prop :=
| x_turn e s s' : turn cfg e s = Done s' -> xstep cfg s s'
| x_tx_take s d ds :
    contents (tx s) = d :: ds ->
    xstep cfg s (with_kernel (mem s) (kernel_take (tx s)) (comp s) (rx s) (fill s)
                   (d_addr d :: k_tx s) (k_rx s) s)
| x_tx_done s a k1 k2 :
    k_tx s = k1 ++ a :: k2 -> Z.of_nat (length (contents (comp s))) < size (comp s) ->
    xstep cfg s (with_kernel (mem s) (tx s) (kernel_put a (comp s)) (rx s) (fill s) (k1 ++ k2) (k_rx s) s)
| x_fill_take s a l :
    contents (fill s) = a :: l ->
    xstep cfg s (with_kernel (mem s) (tx s) (comp s) (rx s) (kernel_take (fill s)) (k_tx s)
                   (chunk a :: k_rx s) s)
| x_rx s a k1 k2 off len bytes :
    k_rx s = k1 ++ a :: k2 -> Z.of_nat (length (contents (rx s))) < size (rx s) ->
    0 <= off < FRAME_SIZE -> 0 <= len -> off + len <= FRAME_SIZE -> Z.of_nat (length bytes) = FRAME_SIZE ->
    xstep cfg s (with_kernel (fun x => if x =? a then bytes else mem s x) (tx s) (comp s)
                   (kernel_put (mkDesc (a + off) len 0) (rx s)) (fill s) (k_tx s) (k1 ++ k2) s)
| x_others s t g st : xstep cfg s (with_shared t g st s).

(** The state before the first turn: the rings as [Umem::new] and the socket
    leave them, the counters offset by the worker's number. *)
Definition init (cfg : config) (m : Z -> list Z) (t : list Z) (g : Z) (st : StatsCollector H) (now : Z) : state :=
  let '(fill, comp, frames) := umem_new in
  mkState m (rev frames) (fresh_ring (mkDesc 0 0 0) RING_SIZE) comp (fresh_ring (mkDesc 0 0 0) RING_SIZE)
    fill [] [] t g st 0 (worker_id cfg) (wmul 64 (worker_id cfg) 257) 0 0 0 0 false f64_zero now
    [0; 0; 0; 0; 0] 0 now.

End Worker.

(** ** Ids *)

Lemma nw_pos cfg : 1 <= nw cfg.
Proof. unfold nw. lia. Qed.

(** The ids of one worker are the [id_span] ids from its base on. *)
Lemma id_base_val cfg : 0 <= worker_id cfg -> num_workers cfg <= 65536 ->
  id_base cfg = (worker_id cfg mod nw cfg) * id_span cfg /\
  0 <= id_base cfg /\ id_base cfg + id_span cfg <= 65536 /\ 1 <= id_span cfg.
Proof.
  intros Hw Hn. pose proof (nw_pos cfg). assert (nw cfg <= 65536) by (unfold nw; lia).
  pose proof (Z.mod_pos_bound (worker_id cfg) (nw cfg)).
  assert (Hs : 1 <= 65536 / nw cfg) by (apply Z.div_le_lower_bound; lia).
  pose proof (Z.mul_div_le 65536 (nw cfg)).
  assert (id_span cfg = 65536 / nw cfg) as E by (unfold id_span; lia).
  assert ((worker_id cfg mod nw cfg + 1) * id_span cfg <= 65536) by (rewrite E; nia).
  assert (Hb : id_base cfg = (worker_id cfg mod nw cfg) * id_span cfg).
  { unfold id_base. apply as_u_small. unfold in_u. change (2 ^ 16) with 65536. rewrite E in *. nia. }
  rewrite Hb. split_and!; [done|nia|nia|lia].
Qed.

Lemma query_id_val cfg c : 0 <= worker_id cfg -> num_workers cfg <= 65536 ->
  query_id cfg c = id_base cfg + c mod id_span cfg.
Proof.
  intros Hw Hn. destruct (id_base_val cfg Hw Hn) as (_ & H0 & H1 & H2).
  pose proof (Z.mod_pos_bound c (id_span cfg)). unfold query_id.
  rewrite as_u_small by (unfold in_u; change (2 ^ 16) with 65536; lia).
  apply wadd_small. change (2 ^ 16) with 65536. lia.
Qed.

Definition in_range (cfg : config) (id : Z) : Prop := id_base cfg <= id < id_base cfg + id_span cfg.

Lemma query_id_range cfg c : 0 <= worker_id cfg -> num_workers cfg <= 65536 ->
  in_range cfg (query_id cfg c) /\ in_u 16 (query_id cfg c).
Proof.
  intros Hw Hn. destruct (id_base_val cfg Hw Hn) as (_ & H0 & H1 & H2). rewrite query_id_val by done.
  pose proof (Z.mod_pos_bound c (id_span cfg)). unfold in_range, in_u. change (2 ^ 16) with 65536. lia.
Qed.

Lemma sport_range c : 10000 <= sport_of c < 12048.
Proof.
  unfold sport_of, SPORT_BASE, SPORT_SPREAD. pose proof (Z.mod_pos_bound c 2048).
  rewrite as_u_small by (unfold in_u; change (2 ^ 16) with 65536; lia). lia.
Qed.

(** ** What a worker is started with *)

(** The header is built from the addresses, the pool from the source's pairs,
    whose names a query buffer can hold. *)
Record setup : Type := mkSetup {
  src_mac : list Z; dst_mac : list Z; src_ip : list Z; dst_ip : list Z;
  src_port : Z; dst_port : Z; vlan : option Z;
  entries : list (str * Z)
}.

Record started (u : setup) (cfg : config) : Prop := mkStarted {
  st_hdr : hdr cfg = new_with_vlan (src_mac u) (dst_mac u) (src_ip u) (dst_ip u) (src_port u) (dst_port u) (vlan u);
  st_src_mac : length (src_mac u) = 6%nat;
  st_dst_mac : length (dst_mac u) = 6%nat;
  st_src_ip : length (src_ip u) = 4%nat;
  st_dst_ip : length (dst_ip u) = 4%nat;
  st_pool : from_pairs (entries u) = Done (wire_pool cfg);
  st_names : Forall (fun e => Z.of_nat (length (as_bytes e.1)) <= 494) (entries u);
  st_worker : 0 <= worker_id cfg;
  st_workers : num_workers cfg <= 65536
}.

(** A frame that carries a query of the pool, from one of the spread ports, with
    an id of the worker's range. *)
Definition query_frame (u : setup) (cfg : config) (bytes : list Z) : Prop :=
  exists id nm qt sport,
    bytes = frame_bytes (src_mac u) (dst_mac u) (src_ip u) (dst_ip u) sport (dst_port u) (vlan u)
              (build_query id nm qt) /\
    (nm, qt) ∈ entries u /\ in_range cfg id /\ SPORT_BASE <= sport < SPORT_BASE + SPORT_SPREAD.

Lemma write_query_spec u cfg id tmpl buf :
  started u cfg -> in_u 16 id -> 0 <= tmpl -> Z.of_nat (length buf) = FRAME_SIZE ->
  exists nm qt rest, (nm, qt) ∈ entries u /\
    let f := frame_bytes (src_mac u) (dst_mac u) (src_ip u) (dst_ip u) (src_port u) (dst_port u) (vlan u)
               (build_query id nm qt) in
    write_query cfg id tmpl buf = Done (f ++ rest, Z.of_nat (length f)) /\
    length (f ++ rest) = length buf.
Proof.
  intros Hu Hid Ht Hb. unfold write_query, FRAME_SIZE in *. destruct Hu as [-> H1 H2 H3 H4 Hp Hn _ _].
  set (h := new_with_vlan _ _ _ _ _ _ _).
  assert (Ho : outer h = if vlan u is Some _ then 46 else 42) by apply outer_vlan.
  assert (Hob : 42 <= outer h <= 46) by (rewrite Ho; by destruct (vlan u)).
  replace (_ <? _)%nat with false by (symmetry; apply Nat.ltb_ge; lia).
  destruct (write_with_index_long _ _ tmpl id (drop (Z.to_nat (outer h)) buf) Hp Ht Hid)
    as (nm & qt & Hin & Hq & Hw); [rewrite length_drop; unfold MAX_QUERY; lia|done|].
  rewrite Hw. cbn [mbind outcome_bind]. set (q := build_query id nm qt) in *. unfold MAX_QUERY in Hq.
  set (out := take (Z.to_nat (outer h)) buf ++ q ++ _).
  assert (Hout : out = copy_at (outer h) q buf).
  { unfold out, copy_at. by rewrite drop_drop. }
  pose proof (write_frame_bytes (src_mac u) (dst_mac u) (src_ip u) (dst_ip u) (src_port u) (dst_port u) (vlan u)
    buf q H1 H2 H3 H4) as Hf. cbn zeta in Hf. fold h in Hf. unfold write_frame in Hf.
  replace (_ <? _) with false in Hf by (symmetry; bool_to_prop; lia).
  rewrite <- Hout in Hf. rewrite Hf by lia.
  pose proof (frame_bytes_length (src_mac u) (dst_mac u) (src_ip u) (dst_ip u) (src_port u) (dst_port u) (vlan u) q
    H1 H2 H3 H4) as Hl. rewrite <- Ho in Hl.
  eexists nm, qt, _. split; [done|]. cbn zeta. fold q. split; [by rewrite Hl|].
  rewrite length_app, length_drop. lia.
Qed.

Lemma build_frame_spec u cfg id tmpl sport buf :
  started u cfg -> in_u 16 id -> 0 <= tmpl -> Z.of_nat (length buf) = FRAME_SIZE ->
  exists nm qt rest, (nm, qt) ∈ entries u /\
    let f := frame_bytes (src_mac u) (dst_mac u) (src_ip u) (dst_ip u) sport (dst_port u) (vlan u)
               (build_query id nm qt) in
    build_frame cfg id tmpl sport buf = Done (f ++ rest, Z.of_nat (length f)) /\
    length (f ++ rest) = length buf.
Proof.
  intros Hu Hid Ht Hb. destruct (write_query_spec u cfg id tmpl buf Hu Hid Ht Hb) as (nm & qt & rest & Hin & Hw & Hl).
  exists nm, qt, rest. split; [done|]. cbn zeta in *. unfold build_frame. rewrite Hw. cbn [mbind outcome_bind].
  destruct Hu as [-> H1 H2 H3 H4 _ _ _ _]. rewrite set_src_port_bytes by done.
  assert (He : length (frame_bytes (src_mac u) (dst_mac u) (src_ip u) (dst_ip u) (src_port u) (dst_port u) (vlan u)
                 (build_query id nm qt)) =
               length (frame_bytes (src_mac u) (dst_mac u) (src_ip u) (dst_ip u) sport (dst_port u) (vlan u)
                 (build_query id nm qt))).
  { apply Nat2Z.inj. by rewrite !frame_bytes_length. }
  rewrite He. split; [done|]. rewrite <- Hl, !length_app. by rewrite He.
Qed.

(** ** Filling frames *)

Definition desc_ok (u : setup) (cfg : config) (m : Z -> list Z) (d : XdpDesc) : Prop :=
  query_frame u cfg (take (Z.to_nat (d_len d)) (m (d_addr d))).

Definition mem_ok (m : Z -> list Z) : Prop := forall a, Z.of_nat (length (m a)) = FRAME_SIZE.

Lemma fill_frames_spec u cfg addrs m idc tmpl sport :
  started u cfg -> mem_ok m -> NoDup addrs -> 0 <= tmpl ->
  exists m' ds ids, fill_frames cfg addrs m idc tmpl sport = Done (m', ds, ids) /\
    d_addr <$> ds = addrs /\ length ids = length addrs /\ mem_ok m' /\
    (forall a, a ∉ addrs -> m' a = m a) /\ Forall (desc_ok u cfg m') ds /\ Forall (in_range cfg) ids.
Proof.
  intros Hu. revert m idc tmpl sport. induction addrs as [|a addrs IH]; intros m idc tmpl sport Hm Hnd Ht.
  { exists m, [], []. cbn [fill_frames]. split_and!; try done; constructor. }
  apply NoDup_cons in Hnd as [Ha Hnd]. cbn [fill_frames].
  destruct (query_id_range cfg idc (st_worker _ _ Hu) (st_workers _ _ Hu)) as [Hr Hid].
  destruct (build_frame_spec u cfg (query_id cfg idc) tmpl (sport_of sport) (m a) Hu Hid Ht (Hm a))
    as (nm & qt & rest & Hin & Hb & Hlen). cbn zeta in Hb, Hlen. rewrite Hb. cbn [mbind outcome_bind].
  set (f := frame_bytes _ _ _ _ _ _ _ _) in *.
  set (m1 := fun x => if x =? a then f ++ rest else m x).
  assert (Hm1 : mem_ok m1).
  { intros x. unfold m1. destruct (x =? a); [rewrite Hlen|]; apply Hm. }
  destruct (IH m1 (wadd 64 idc 1) (wadd 64 tmpl 1) (wadd 64 sport 1) Hm1 Hnd)
    as (m' & ds & ids & He & Hds & Hids & Hm' & Hsame & Hok & Hrange).
  { pose proof (wadd_range 64 tmpl 1). unfold in_u in *. lia. }
  rewrite He. cbn [mbind outcome_bind]. eexists m', _, _. split; [reflexivity|].
  split; [by cbn; rewrite Hds|]. split; [by cbn; rewrite Hids|]. split; [done|].
  split. { intros x Hx. apply not_elem_of_cons in Hx as [Hxa Hx]. rewrite Hsame by done. unfold m1.
           by replace (x =? a) with false by (symmetry; bool_to_prop; lia). }
  split; [|by constructor]. constructor; [|done]. unfold desc_ok. cbn [d_len d_addr].
  rewrite Hsame by done. unfold m1. rewrite Z.eqb_refl.
  assert (Z.of_nat (length f) <= 2048).
  { pose proof (Hm a) as Hma. unfold FRAME_SIZE in Hma. rewrite length_app in Hlen. lia. }
  rewrite as_u_small by (unfold in_u; change (2 ^ 32) with 4294967296; lia).
  rewrite Nat2Z.id, take_app_length. exists (query_id cfg idc), nm, qt, (sport_of sport).
  split; [done|]. split; [done|]. split; [done|]. pose proof (sport_range sport).
  unfold SPORT_BASE, SPORT_SPREAD. lia.
Qed.

(** ** Where the frames are *)

Section Conservation.
Context {H : Type} `{HdrHistogram H}.

Definition tx_places (s : state (H := H)) : list Z :=
  pool s ++ (d_addr <$> contents (tx s)) ++ k_tx s ++ contents (comp s).

Definition rx_places (s : state (H := H)) : list Z :=
  (chunk <$> contents (fill s)) ++ k_rx s ++ ((fun d => chunk (d_addr d)) <$> contents (rx s)).

Record inv (u : setup) (cfg : config) (s : state (H := H)) : Prop := mkInv {
  i_tx : ring_ok (tx s);
  i_comp : ring_ok (comp s);
  i_rx : ring_ok (rx s);
  i_fill : ring_ok (fill s);
  i_fill_size : size (fill s) = RING_SIZE;
  i_tx_places : tx_places s ≡ₚ tx_frames;
  i_rx_places : rx_places s ≡ₚ rx_addrs;
  i_mem : mem_ok (mem s);
  i_descs : Forall (desc_ok u cfg (mem s)) (contents (tx s));
  i_tmpl : 0 <= tmpl_idx s
}.

(** The part of the state the invariant is about. *)
Lemma inv_same u cfg (s s' : state (H := H)) :
  mem s' = mem s -> pool s' = pool s -> tx s' = tx s -> comp s' = comp s -> rx s' = rx s ->
  fill s' = fill s -> k_tx s' = k_tx s -> k_rx s' = k_rx s -> tmpl_idx s' = tmpl_idx s ->
  inv u cfg s -> inv u cfg s'.
Proof.
  intros E1 E2 E3 E4 E5 E6 E7 E8 E9 Hi. destruct Hi as [I1 I2 I3 I4 I5 I6 I7 I8 I9 I10].
  unfold tx_places in I6. unfold rx_places in I7.
  constructor; unfold tx_places, rx_places; rewrite ?E1, ?E2, ?E3, ?E4, ?E5, ?E6, ?E7, ?E8, ?E9; assumption.
Qed.

Lemma tx_places_NoDup u cfg s : inv u cfg s -> NoDup (tx_places s).
Proof.
  intros Hi. rewrite (i_tx_places _ _ _ Hi). pose proof rx_tx_NoDup as Hn. apply NoDup_app in Hn. tauto.
Qed.

Lemma descs_same u cfg m m' ds :
  (forall a, a ∈ d_addr <$> ds -> m' a = m a) -> Forall (desc_ok u cfg m) ds -> Forall (desc_ok u cfg m') ds.
Proof.
  intros Hm Hf. rewrite Forall_forall in Hf |- *. intros d Hd. unfold desc_ok.
  rewrite Hm by (by apply list_elem_of_fmap_2). by apply Hf.
Qed.

Lemma inv_reclaim u cfg s : inv u cfg s -> inv u cfg (reclaim s).
Proof.
  intros Hi. unfold reclaim. rewrite dequeue_consume by apply (i_comp _ _ _ Hi).
  destruct (consume_rx (comp s)) as [done comp'] eqn:E.
  destruct (consume_spec _ _ _ (i_comp _ _ _ Hi) E) as (Hok & _ & _ & -> & Hc).
  constructor; try apply Hi; cbn [tx comp rx fill pool k_tx k_rx]; [exact Hok|].
  unfold tx_places. cbn [pool tx k_tx comp]. rewrite Hc, <- (i_tx_places _ _ _ Hi). unfold tx_places.
  rewrite <- Permutation_rev. solve_Permutation.
Qed.

Lemma inv_stall u cfg e s : inv u cfg s -> inv u cfg (stall_check e s).
Proof. intros Hi. unfold stall_check. destruct (e_stall_due e); [|done]. eapply inv_same; [..|exact Hi]; reflexivity. Qed.

Lemma inv_tokens u cfg t now s : inv u cfg s -> inv u cfg (with_tokens t now s).
Proof. intros Hi. eapply inv_same; [..|exact Hi]; reflexivity. Qed.

Lemma inv_submitted u cfg e enq ids s : inv u cfg s -> inv u cfg (submitted cfg e enq ids s).
Proof.
  intros Hi. unfold submitted. destruct (enq >? 0); [|done].
  destruct (FLUSH_N <=? _); (eapply inv_same; [..|exact Hi]; reflexivity).
Qed.

Lemma inv_sweep u cfg e s : inv u cfg s -> inv u cfg (sweep cfg e s).
Proof.
  intros Hi. unfold sweep. destruct (_ && _); [|done]. destruct (sweep_expired _ _ _) as [n t].
  eapply inv_same; [..|exact Hi]; reflexivity.
Qed.

Lemma mem_submitted cfg e enq ids (s : state (H := H)) : mem (submitted cfg e enq ids s) = mem s.
Proof. unfold submitted. destruct (enq >? 0); [|done]. by destruct (FLUSH_N <=? _). Qed.

Lemma tx_submitted cfg e enq ids (s : state (H := H)) : tx (submitted cfg e enq ids s) = tx s.
Proof. unfold submitted. destruct (enq >? 0); [|done]. by destruct (FLUSH_N <=? _). Qed.

(** What a turn that may send [room] queries queues: as many as the pool and the
    ring allow. *)
Definition queued (room : Z) (s : state (H := H)) : Z :=
  Z.min (Z.max room 0) (Z.min (Z.of_nat (length (pool s))) (size (tx s) - Z.of_nat (length (contents (tx s))))).

(** The send step: always returns; what it submits are query frames, and the
    frames of the queued descriptors are left alone. *)
Lemma inv_send u cfg e room s : started u cfg -> inv u cfg s ->
  exists s', send_batch cfg e room s = Done s' /\ inv u cfg s' /\
    (forall a, a ∉ pool s -> mem s' a = mem s a) /\
    Z.of_nat (length (contents (tx s'))) = Z.of_nat (length (contents (tx s))) + queued room s.
Proof.
  intros Hu Hi. unfold send_batch, queued.
  assert (Hroom : Z.of_nat (length (contents (tx s))) <= size (tx s)).
  { rewrite contents_length_Z. apply (ok_fill _ (i_tx _ _ _ Hi)). }
  destruct (room >? 0) eqn:Er; rewrite Z.gtb_ltb in Er; bool_to_prop; [|exists s; split_and!; done || lia].
  set (n := Z.to_nat (Z.min room (Z.of_nat (length (pool s))))).
  pose proof (tx_places_NoDup _ _ _ Hi) as Hnd. unfold tx_places in Hnd.
  rewrite <- (take_drop n (pool s)), <- !app_assoc in Hnd. apply NoDup_app in Hnd as (Hnd & Hsep & _).
  destruct (fill_frames_spec u cfg (take n (pool s)) (mem s) (id_ctr s) (tmpl_idx s) (sport_ctr s) Hu
    (i_mem _ _ _ Hi) Hnd (i_tmpl _ _ _ Hi)) as (m & ds & ids & He & Hds & _ & Hm & Hsame & Hok & _).
  rewrite He. cbn [mbind outcome_bind].
  assert (Hdescs : Forall (desc_ok u cfg m) (contents (tx s))).
  { apply (descs_same u cfg (mem s)); [|apply (i_descs _ _ _ Hi)]. intros a Ha. apply Hsame. intros Hc.
    eapply Hsep; [exact Hc|]. apply elem_of_app. right. apply elem_of_app. by left. }
  assert (Hout : forall a, a ∉ pool s -> m a = mem s a).
  { intros a Ha. apply Hsame. intros Hc. apply Ha. rewrite <- (take_drop n (pool s)). apply elem_of_app. by left. }
  assert (Hlen : length ds = n) by (rewrite <- (length_fmap d_addr ds), Hds, length_take; lia).
  set (k := Z.of_nat n). destruct (is_empty ds) eqn:Eds.
  - eexists. split; [reflexivity|]. destruct ds; [|discriminate]. cbn [fmap list_fmap length] in Hds, Hlen.
    split; [|split; [exact Hout|cbn [tx]; lia]].
    constructor; try apply Hi; unfold tx_places; cbn [mem pool tx comp k_tx tmpl_idx]; try assumption.
    + rewrite <- (i_tx_places _ _ _ Hi). unfold tx_places.
      rewrite <- (take_drop n (pool s)) at 2. by rewrite <- Hds.
    + pose proof (wadd_range 64 (tmpl_idx s) k). unfold in_u in *. lia.
  - cbn [tx mem pool comp rx fill k_tx k_rx in_flight global_in_flight stats id_ctr tmpl_idx sport_ctr sub_acc
         local_egress stall_sub stall_egr stall_warned tokens last_refill rc rc_acc last_timeout].
    rewrite produce_enqueue by apply (i_tx _ _ _ Hi).
    destruct (enqueue_batch (tx s) ds) as [enq tx'] eqn:Eq.
    destruct (enqueue_spec _ _ _ _ (i_tx _ _ _ Hi) Eq) as (Htx & _ & _ & Henq & Hc).
    eexists. split; [reflexivity|]. split; [apply inv_submitted|split; [by rewrite mem_submitted|]].
    2:{ rewrite tx_submitted. cbn [tx]. rewrite Hc, length_app, length_take. lia. }
    constructor; try apply Hi; unfold tx_places; cbn [mem pool tx comp k_tx tmpl_idx]; try assumption.
    + rewrite <- (i_tx_places _ _ _ Hi). unfold tx_places. rewrite Hc, <- Permutation_rev, fmap_app.
      rewrite <- (take_drop n (pool s)) at 2. rewrite <- Hds. rewrite <- (take_drop (Z.to_nat enq) ds) at 3.
      rewrite fmap_app. solve_Permutation.
    + rewrite Hc. apply Forall_app. split; [done|by apply Forall_take].
    + pose proof (wadd_range 64 (tmpl_idx s) k). unfold in_u in *. lia.
Qed.

(** The drain gives every received frame back: the fill ring has room for all of
    them. *)
Lemma inv_drain u cfg e s : inv u cfg s -> inv u cfg (drain cfg e s).
Proof.
  intros Hi. unfold drain. destruct (consume_rx (rx s)) as [rxds rx'] eqn:E.
  destruct (consume_spec _ _ _ (i_rx _ _ _ Hi) E) as (Hok & _ & _ & -> & Hc).
  destruct (is_empty (contents (rx s))); [done|].
  destruct (enqueue_batch (fill s) (d_addr <$> contents (rx s))) as [n fill'] eqn:Eq.
  destruct (enqueue_spec _ _ _ _ (i_fill _ _ _ Hi) Eq) as (Hfok & Hfs & _ & Hn & Hf).
  pose proof (i_rx_places _ _ _ Hi) as Hp.
  assert (Hlen : (length (contents (fill s)) + length (contents (rx s)) <= Z.to_nat RING_SIZE)%nat).
  { pose proof (Permutation_length Hp) as Hl. rewrite rx_addrs_length in Hl. unfold rx_places in Hl.
    rewrite !length_app, !length_fmap in Hl. rewrite <- Hl. lia. }
  rewrite take_ge in Hf.
  2:{ rewrite Hn, length_fmap, (i_fill_size _ _ _ Hi). unfold RING_SIZE in *. lia. }
  constructor; try apply Hi; unfold tx_places, rx_places; cbn [mem pool tx comp rx fill k_tx k_rx snd].
  - exact Hok.
  - exact Hfok.
  - rewrite Hfs. apply (i_fill_size _ _ _ Hi).
  - rewrite Hc, Hf, <- Hp. unfold rx_places. rewrite fmap_app, <- list_fmap_compose. cbn [fmap list_fmap].
    unfold compose. solve_Permutation.
Qed.

(** What the other parts of a turn leave alone. *)
Lemma mem_stall e (s : state (H := H)) : mem (stall_check e s) = mem s.
Proof. unfold stall_check. by destruct (e_stall_due e). Qed.

Lemma pool_stall e (s : state (H := H)) : pool (stall_check e s) = pool s.
Proof. unfold stall_check. by destruct (e_stall_due e). Qed.

Lemma mem_reclaim (s : state (H := H)) : mem (reclaim s) = mem s.
Proof. unfold reclaim. by destruct (dequeue_all (comp s)). Qed.

Lemma tx_stall e (s : state (H := H)) : tx (stall_check e s) = tx s.
Proof. unfold stall_check. by destruct (e_stall_due e). Qed.

Lemma tx_reclaim (s : state (H := H)) : tx (reclaim s) = tx s.
Proof. unfold reclaim. by destruct (dequeue_all (comp s)). Qed.

Lemma tx_drain cfg e (s : state (H := H)) : tx (drain cfg e s) = tx s.
Proof. unfold drain. destruct (consume_rx (rx s)) as [l r]. by destruct (is_empty l). Qed.

Lemma tx_sweep cfg e (s : state (H := H)) : tx (sweep cfg e s) = tx s.
Proof. unfold sweep. destruct (_ && _); [|done]. by destruct (sweep_expired _ _ _). Qed.

Lemma pool_reclaim (s : state (H := H)) : ring_ok (comp s) -> pool (reclaim s) = rev (contents (comp s)) ++ pool s.
Proof.
  intros Hr. unfold reclaim. rewrite dequeue_consume by done. destruct (consume_rx (comp s)) as [l r] eqn:E.
  destruct (consume_spec _ _ _ Hr E) as (_ & _ & _ & -> & _). reflexivity.
Qed.

Lemma mem_drain cfg e (s : state (H := H)) : mem (drain cfg e s) = mem s.
Proof. unfold drain. destruct (consume_rx (rx s)) as [l r]. by destruct (is_empty l). Qed.

Lemma mem_sweep cfg e (s : state (H := H)) : mem (sweep cfg e s) = mem s.
Proof. unfold sweep. destruct (_ && _); [|done]. by destruct (sweep_expired _ _ _). Qed.

Lemma rx_tx_disjoint a : a ∈ rx_addrs -> a ∈ tx_frames -> False.
Proof. pose proof rx_tx_NoDup as Hn. apply NoDup_app in Hn as (_ & Hn & _). apply Hn. Qed.

Lemma chunk_offset a off : a ∈ rx_addrs -> 0 <= off < FRAME_SIZE -> chunk (a + off) = a.
Proof.
  intros Ha Ho. unfold rx_addrs in Ha.
  apply elem_of_frame_addrs in Ha as (i & Hi & ->); [|unfold RING_SIZE, FRAME_COUNT; lia..].
  unfold chunk. rewrite Z.add_comm, Z.mod_add by (unfold FRAME_SIZE; lia). rewrite Z.mod_small by done. lia.
Qed.

Lemma chunk_rx_addrs : chunk <$> rx_addrs = rx_addrs.
Proof.
  rewrite <- (list_fmap_id rx_addrs) at 2. apply list_fmap_ext. intros i a Ha.
  apply list_elem_of_lookup_2 in Ha. rewrite <- (Z.add_0_r a) at 1. apply chunk_offset; [done|unfold FRAME_SIZE; lia].
Qed.

Lemma turn_inv u cfg e s : started u cfg -> inv u cfg s ->
  exists s', turn cfg e s = Done s' /\ inv u cfg s' /\
    (forall a, a ∉ pool s ++ contents (comp s) -> mem s' a = mem s a) /\
    Z.of_nat (length (contents (tx s'))) = Z.of_nat (length (contents (tx s))) + queued (headroom cfg e s) (reclaim s).
Proof.
  intros Hu Hi. unfold turn, headroom. destruct (refill cfg e _) as [[n t] now].
  edestruct (inv_send u cfg e) as (s' & -> & Hs' & Hmem & Hlen); [exact Hu| |].
  { apply inv_tokens, inv_stall, inv_reclaim, Hi. }
  cbn [mbind outcome_bind]. eexists. split; [reflexivity|]. split; [by apply inv_sweep, inv_drain|].
  split; [|rewrite tx_sweep, tx_drain, Hlen; unfold queued; cbn [with_tokens pool tx];
           by rewrite pool_stall, tx_stall, tx_reclaim].
  intros a Ha. rewrite mem_sweep, mem_drain, Hmem.
  - cbn [with_tokens mem]. rewrite mem_stall, mem_reclaim. done.
  - cbn [with_tokens pool]. rewrite pool_stall, pool_reclaim by apply Hi. intros Hc. apply Ha.
    by rewrite (Permutation_app_comm (pool s)), (Permutation_rev (contents (comp s))).
Qed.

Lemma step_inv u cfg (s s' : state (H := H)) : started u cfg -> xstep cfg s s' -> inv u cfg s -> inv u cfg s'.
Proof.
  intros Hu Hs Hi. pose proof Hi as [I1 I2 I3 I4 I5 I6 I7 I8 I9 I10].
  unfold tx_places in I6. unfold rx_places in I7.
  destruct Hs as [e s s' Ht|s d ds Hc|s a k1 k2 Hk Hroom|s a l Hc|s a k1 k2 off len bytes Hk Hroom Hoff Hlen Hfit Hb|s t g st].
  - destruct (turn_inv u cfg e s Hu Hi) as (s1 & Ht' & Hi' & _ & _). rewrite Ht in Ht'. by simplify_eq.
  - destruct (kernel_take_spec _ _ _ I1 Hc) as (Hok & _ & Hc'). rewrite Hc in I6, I9. cbn [fmap list_fmap] in I6.
    constructor; unfold tx_places, rx_places; cbn [with_kernel mem pool tx comp rx fill k_tx k_rx tmpl_idx];
      try assumption.
    + rewrite Hc', <- I6. solve_Permutation.
    + rewrite Hc'. by apply Forall_cons in I9 as [_ ?].
  - destruct (kernel_put_spec _ a I2 Hroom) as (Hok & _ & Hc'). rewrite Hk in I6.
    constructor; unfold tx_places, rx_places; cbn [with_kernel mem pool tx comp rx fill k_tx k_rx tmpl_idx];
      try assumption.
    rewrite Hc', <- I6. solve_Permutation.
  - destruct (kernel_take_spec _ _ _ I4 Hc) as (Hok & _ & Hc'). rewrite Hc in I7. cbn [fmap list_fmap] in I7.
    constructor; unfold tx_places, rx_places; cbn [with_kernel mem pool tx comp rx fill k_tx k_rx tmpl_idx];
      try assumption.
    rewrite Hc', <- I7. solve_Permutation.
  - destruct (kernel_put_spec _ (mkDesc (a + off) len 0) I3 Hroom) as (Hok & _ & Hc').
    assert (Ha : a ∈ rx_addrs). { rewrite <- I7, Hk, !elem_of_app. right. left. right. left. }
    constructor; unfold tx_places, rx_places; cbn [with_kernel mem pool tx comp rx fill k_tx k_rx tmpl_idx];
      try assumption.
    + rewrite Hc', fmap_app. cbn [fmap list_fmap d_addr]. rewrite (chunk_offset a off Ha Hoff), <- I7, Hk.
      solve_Permutation.
    + intros x. destruct (x =? a); [done|apply I8].
    + apply (descs_same u cfg (mem s)); [|done]. intros x Hx.
      assert (x ∈ tx_frames). { rewrite <- I6, !elem_of_app. tauto. }
      replace (x =? a) with false; [done|]. symmetry. bool_to_prop. intros ->.
      by eapply rx_tx_disjoint.
  - eapply inv_same; [..|exact Hi]; reflexivity.
Qed.

Lemma reach_inv u cfg (s s' : state (H := H)) : started u cfg -> rtc (xstep cfg) s s' -> inv u cfg s -> inv u cfg s'.
Proof. intros Hu Hr. induction Hr as [|s1 s2 s3 Hs _ IH]; [done|]. intros Hi. apply IH. by eapply step_inv. Qed.

Lemma inv_init u cfg m t g (st : StatsCollector H) now : started u cfg -> mem_ok m -> inv u cfg (init cfg m t g st now).
Proof.
  intros Hu Hm. unfold init. destruct umem_new as [[fl cm] frames] eqn:E.
  destruct (umem_new_spec _ _ _ E) as (Hf & Hc & Hsz & Hcf & Hcc & ->).
  destruct (fresh_ring_ok (mkDesc 0 0 0) 12) as [Hr Hrc]; [lia|]. change (2 ^ 12) with RING_SIZE in *.
  constructor; unfold tx_places, rx_places; cbn [mem pool tx comp rx fill k_tx k_rx tmpl_idx]; try assumption.
  - rewrite Hrc, Hcc. cbn [fmap list_fmap]. rewrite !app_nil_r. symmetry. apply Permutation_rev.
  - rewrite Hrc, Hcf. cbn [fmap list_fmap]. rewrite !app_nil_r, chunk_rx_addrs. reflexivity.
  - rewrite Hrc. constructor.
  - apply (st_worker _ _ Hu).
Qed.

End Conservation.

(** ** Theorems *)

(** The query ids: every id a worker uses lies in its own range of the 16-bit
    ids; workers of one run never use the same id, so a reply on any queue belongs
    to one worker's query; and one worker repeats an id only after [id_span]
    queries. *)
Theorem worker_ids_disjoint (cfg1 cfg2 : config) (c1 c2 : Z) :
  num_workers cfg1 = num_workers cfg2 -> num_workers cfg1 <= 65536 ->
  0 <= worker_id cfg1 < num_workers cfg1 -> 0 <= worker_id cfg2 < num_workers cfg2 ->
  (in_u 16 (query_id cfg1 c1) /\ in_range cfg1 (query_id cfg1 c1)) /\
  (worker_id cfg1 <> worker_id cfg2 -> query_id cfg1 c1 <> query_id cfg2 c2) /\
  (c1 <> c2 -> Z.abs (c1 - c2) < id_span cfg1 -> query_id cfg1 c1 <> query_id cfg1 c2).
Proof.
  intros Hnw Hmax H1 H2. destruct (query_id_range cfg1 c1) as [Hr1 Hu1]; [lia..|].
  destruct (query_id_range cfg2 c2) as [Hr2 _]; [lia..|].
  split; [done|]. split.
  - intros Hne. destruct (id_base_val cfg1) as (Hb1 & _ & _ & Hs1); [lia..|].
    destruct (id_base_val cfg2) as (Hb2 & _ & _ & _); [lia..|].
    assert (Hn : nw cfg1 = nw cfg2) by (unfold nw; lia).
    assert (Hs : id_span cfg2 = id_span cfg1) by (unfold id_span; by rewrite Hn).
    assert (num_workers cfg1 = nw cfg1) by (unfold nw; lia).
    rewrite Z.mod_small in Hb1, Hb2 by lia. unfold in_range in *. rewrite Hs in *.
    destruct (Z.lt_total (worker_id cfg1) (worker_id cfg2)) as [?|[?|?]]; [nia|lia|nia].
  - intros Hne Hd. rewrite !query_id_val by lia.
    pose proof (mod_near (id_span cfg1) c1 c2) as Hm. lia.
Qed.

(** C4. UMEM safety, over every interleaving of the worker's turns, the kernel's
    moves and the other workers: each transmit frame is in exactly one of the pool,
    the transmit ring, the kernel and the completion ring, each receive frame in
    exactly one of the fill ring, the kernel and the receive ring, and no frame is
    lost or duplicated; the fill ring has room for everything the receive ring holds;
    the next turn does not panic, writes no frame that is queued for transmission,
    in the kernel's hands, or a receive frame, and queues exactly as many queries
    as the rate, the gate, the pool and the ring allow. *)
Theorem umem_frames_conserved {H} `{HdrHistogram H} u cfg m t g (st : StatsCollector H) now s :
  started u cfg -> mem_ok m -> rtc (xstep cfg) (init cfg m t g st now) s ->
  tx_places s ≡ₚ tx_frames /\ rx_places s ≡ₚ rx_addrs /\ NoDup (tx_places s ++ rx_places s) /\
  Z.of_nat (length (contents (fill s)) + length (contents (rx s))) <= size (fill s) /\
  forall e, exists s', turn cfg e s = Done s' /\
    (forall a, a ∈ (d_addr <$> contents (tx s)) ++ k_tx s ++ rx_places s -> mem s' a = mem s a) /\
    Z.of_nat (length (contents (tx s'))) = Z.of_nat (length (contents (tx s))) + queued (headroom cfg e s) (reclaim s).
Proof.
  intros Hu Hm Hr. pose proof (reach_inv u cfg _ _ Hu Hr (inv_init u cfg m t g st now Hu Hm)) as Hi.
  pose proof (i_tx_places _ _ _ Hi) as Ht. pose proof (i_rx_places _ _ _ Hi) as Hx.
  assert (Hnd : NoDup (tx_places s ++ rx_places s)).
  { rewrite Ht, Hx, Permutation_app_comm. exact rx_tx_NoDup. }
  split; [exact Ht|]. split; [exact Hx|]. split; [exact Hnd|]. split.
  - pose proof (Permutation_length Hx) as Hl. rewrite rx_addrs_length in Hl. unfold rx_places in Hl.
    rewrite !length_app, !length_fmap in Hl. rewrite (i_fill_size _ _ _ Hi). unfold RING_SIZE in *. lia.
  - intros e. destruct (turn_inv u cfg e s Hu Hi) as (s' & He & _ & Hsame & Hlen). exists s'. split; [exact He|].
    split; [|exact Hlen]. intros a Ha. apply Hsame. intros Hc.
    assert (Hp : (pool s ++ contents (comp s)) ++ ((d_addr <$> contents (tx s)) ++ k_tx s ++ rx_places s)
                 ≡ₚ tx_places s ++ rx_places s) by (unfold tx_places; solve_Permutation).
    rewrite <- Hp in Hnd. apply NoDup_app in Hnd as (_ & Hsep & _). by eapply Hsep.
Qed.

(** C16. What goes on the wire: in every reachable state, the bytes of every
    descriptor waiting in the transmit ring are a complete Ethernet/IPv4/UDP frame
    (its checksum and lengths those of [frame_bytes]) whose payload is the query
    of a pair of the source, with an id of the worker's range and a source port of
    the spread range; nothing overwrites it while it waits. *)
Theorem queued_frames_are_queries {H} `{HdrHistogram H} u cfg m t g (st : StatsCollector H) now s d :
  started u cfg -> mem_ok m -> rtc (xstep cfg) (init cfg m t g st now) s ->
  d ∈ contents (tx s) -> query_frame u cfg (take (Z.to_nat (d_len d)) (mem s (d_addr d))).
Proof.
  intros Hu Hm Hr Hd. pose proof (reach_inv u cfg _ _ Hu Hr (inv_init u cfg m t g st now Hu Hm)) as Hi.
  pose proof (i_descs _ _ _ Hi) as Hf. rewrite Forall_forall in Hf. by apply Hf.
Qed.

(** ** Witnesses *)

Definition ex_setup : setup :=
  mkSetup [2; 0; 0; 0; 0; 1] [2; 0; 0; 0; 0; 2] [10; 0; 0; 1] [10; 0; 0; 2] 4000 53 None
    [(lit "a.example", 1); (lit "b.example", 28)].

Definition ex_cfg (w : Z) : config :=
  mkConfig (new_with_vlan [2; 0; 0; 0; 0; 1] [2; 0; 0; 0; 0; 2] [10; 0; 0; 1] [10; 0; 0; 2] 4000 53 None)
    (mkPool [build_wire_template (lit "a.example") 1; build_wire_template (lit "b.example") 28])
    w 4 0 3000000000 true false.

Definition ex_env : env := mkEnv false 0 0 (fun _ => 0) (fun _ => 0) 0 0 0.

Lemma ex_started : started ex_setup (ex_cfg 1).
Proof.
  constructor; try reflexivity; cbn [ex_cfg ex_setup worker_id num_workers entries]; try lia.
  repeat constructor; vm_compute; discriminate.
Qed.

Lemma ex_mem_ok : mem_ok (fun _ => replicate 2048 0).
Proof. intros a. rewrite length_replicate. reflexivity. Qed.

Lemma worker_ids_disjoint_witness : query_id (ex_cfg 1) 70000 <> query_id (ex_cfg 2) 5.
Proof.
  apply (worker_ids_disjoint (ex_cfg 1) (ex_cfg 2) 70000 5);
    cbn [ex_cfg num_workers worker_id]; (reflexivity || lia).
Defined.

Definition ex_init : state (H := exact_hist) := init (ex_cfg 1) (fun _ => replicate 2048 0) [] 0 (stats_new (H := exact_hist)) 0.

(** The first turn of a flood worker queues a batch of 64 queries. *)
Lemma ex_headroom : headroom (ex_cfg 1) ex_env ex_init = 64.
Proof. unfold headroom. destruct (refill _ _ _) as [[n t] now] eqn:E. by injection E as <- <- <-. Qed.

Lemma ex_tx_empty : contents (tx ex_init) = [] /\ size (tx ex_init) = 4096.
Proof.
  unfold ex_init, init. destruct umem_new as [[fl cm] frames]. cbn [tx]. split; reflexivity.
Qed.

Lemma ex_pool : Z.of_nat (length (pool (reclaim ex_init))) = 12288.
Proof.
  pose proof (inv_init ex_setup (ex_cfg 1) (fun _ => replicate 2048 0) [] 0 (stats_new (H := exact_hist)) 0
                ex_started ex_mem_ok) as Hi. rewrite pool_reclaim by apply Hi.
  unfold ex_init, init. destruct umem_new as [[fl cm] frames] eqn:E. cbn [comp pool].
  destruct (umem_new_spec _ _ _ E) as (_ & _ & _ & _ & -> & ->).
  cbn [rev app]. rewrite length_rev, tx_frames_length. reflexivity.
Qed.

Lemma ex_queued : queued (headroom (ex_cfg 1) ex_env ex_init) (reclaim ex_init) = 64.
Proof.
  unfold queued. destruct ex_tx_empty as [Hc Hs]. rewrite tx_reclaim, Hc, Hs, ex_pool, ex_headroom. reflexivity.
Qed.

Lemma umem_frames_conserved_witness :
  exists s', turn (ex_cfg 1) ex_env ex_init = Done s' /\ Z.of_nat (length (contents (tx s'))) = 64.
Proof.
  destruct (umem_frames_conserved ex_setup (ex_cfg 1) (fun _ => replicate 2048 0) [] 0 (stats_new (H := exact_hist)) 0 ex_init
              ex_started ex_mem_ok (rtc_refl _ _)) as (_ & _ & _ & _ & Ht).
  destruct (Ht ex_env) as (s' & He & _ & Hlen). exists s'. split; [exact He|].
  rewrite Hlen, ex_queued. destruct ex_tx_empty as [Hc _]. rewrite Hc. reflexivity.
Defined.

Lemma ex_first_turn :
  exists s' d, turn (ex_cfg 1) ex_env ex_init = Done s' /\ d ∈ contents (tx s').
Proof.
  destruct (turn_inv ex_setup (ex_cfg 1) ex_env ex_init ex_started) as (s' & He & _ & _ & Hlen).
  { apply inv_init; [exact ex_started|exact ex_mem_ok]. }
  rewrite ex_queued in Hlen. destruct (contents (tx s')) as [|d ds] eqn:E; [exfalso; cbn [length] in Hlen; lia|].
  exists s', d. rewrite E. split; [exact He|left].
Qed.

Lemma queued_frames_are_queries_witness :
  exists s' d, turn (ex_cfg 1) ex_env ex_init = Done s' /\ d ∈ contents (tx s') /\
    query_frame ex_setup (ex_cfg 1) (take (Z.to_nat (d_len d)) (mem s' (d_addr d))).
Proof.
  destruct ex_first_turn as (s' & d & He & Hd). exists s', d. split; [exact He|]. split; [exact Hd|].
  apply (queued_frames_are_queries ex_setup (ex_cfg 1) (fun _ => replicate 2048 0) [] 0 (stats_new (H := exact_hist)) 0
           s' d ex_started ex_mem_ok); [|exact Hd].
  apply rtc_once. exact (x_turn _ ex_env _ _ He).
Defined.

End Xdp.
