(* ===== verification/XdpSplit.v ===== *)
(** * The split AF_XDP path: senders, receiver and kernel

    Models the path of [src/transport/xdp/receiver.rs] that is used when no unified
    worker runs: [xdp_tx_sender_thread] (with [xdp_tx_one] and
    [xdp_tx_batch_inline]) writes queries into frames of a queue whose transmit
    side, [XdpTxState], several senders may share; [xdp_receiver_thread] owns the
    receive side; [xdp_sender_thread] is the fallback over a UDP socket.

    The pool, the transmit ring and the completion ring have a lock each, and a
    sender takes them one after the other, so the unit of interleaving is the
    critical section: [place] is where a sender is between two of them and what it
    holds, [thread_step] runs one section.  [sstep] interleaves the senders of a
    queue, its receiver and the kernel; [ostep] is the workers of other queues.

    The shutdown flag is part of the state: a thread sees it up only when it is, and
    when the receiver sees it, it returns and drops the socket and the UMEM, whose
    memory the senders reach through a raw pointer ([faults]).

    The theorems: however the sections interleave, each frame of the UMEM is in
    exactly one place, where what a sender has popped counts as a place of its own,
    so that no two senders and no sender and the NIC ever share a frame; until the
    flag is raised no sender writes to unmapped memory, and after it one can; the
    sent counter is exact once the senders have flushed; and the gate does not
    survive the batching of its own increments. *)

From Stdlib Require Import ZArith Lia Bool String.
From stdpp Require Import base numbers option relations list.
From S2P Require Import Prelude Float64 RustStr Dns Query Stats InFlight Frame Ring XdpWorker.

Open Scope Z_scope.

Module Split.

(** The sender's constant of the same name. *)
Definition FLUSH_N : Z := 1024.

(** ** The state of a queue *)

Section Threads.
Context {H : Type} `{HdrHistogram H}.

(** [XdpTxState] with the UMEM behind [area], the receive side, the frames the
    kernel holds, and what all the threads share.  [pool] is the free list with
    the top of the stack first; [placed] counts, for the statements only, the
    frames this queue's senders put on the transmit ring. *)
Record shared : Type := mkShared {
  mem : Z -> list Z;
  pool : list Z;
  tx : ring XdpDesc;
  comp : ring Z;
  rx : ring XdpDesc;
  fill : ring Z;
  k_tx : list Z;
  k_rx : list Z;
  in_flight : list Z;
  global_in_flight : Z;
  stats : StatsCollector H;
  shutdown : bool;
  placed : Z
}.

Definition set_mem (m : Z -> list Z) (s : shared) : shared :=
  mkShared m (pool s) (tx s) (comp s) (rx s) (fill s) (k_tx s) (k_rx s) (in_flight s) (global_in_flight s)
    (stats s) (shutdown s) (placed s).

Definition set_pool (p : list Z) (s : shared) : shared :=
  mkShared (mem s) p (tx s) (comp s) (rx s) (fill s) (k_tx s) (k_rx s) (in_flight s) (global_in_flight s)
    (stats s) (shutdown s) (placed s).

Definition set_comp (c : ring Z) (s : shared) : shared :=
  mkShared (mem s) (pool s) (tx s) c (rx s) (fill s) (k_tx s) (k_rx s) (in_flight s) (global_in_flight s)
    (stats s) (shutdown s) (placed s).

Definition set_tx (t : ring XdpDesc) (n : Z) (s : shared) : shared :=
  mkShared (mem s) (pool s) t (comp s) (rx s) (fill s) (k_tx s) (k_rx s) (in_flight s) (global_in_flight s)
    (stats s) (shutdown s) (placed s + n).

Definition set_rx (r : ring XdpDesc) (f : ring Z) (s : shared) : shared :=
  mkShared (mem s) (pool s) (tx s) (comp s) r f (k_tx s) (k_rx s) (in_flight s) (global_in_flight s)
    (stats s) (shutdown s) (placed s).

(** The table, the gate and the collector. *)
Definition set_counts (t : list Z) (g : Z) (st : StatsCollector H) (s : shared) : shared :=
  mkShared (mem s) (pool s) (tx s) (comp s) (rx s) (fill s) (k_tx s) (k_rx s) t g st (shutdown s) (placed s).

Definition set_kernel (m : Z -> list Z) (t : ring XdpDesc) (c : ring Z) (r : ring XdpDesc) (f : ring Z)
    (kt kr : list Z) (s : shared) : shared :=
  mkShared m (pool s) t c r f kt kr (in_flight s) (global_in_flight s) (stats s) (shutdown s) (placed s).

Definition set_shutdown (s : shared) : shared :=
  mkShared (mem s) (pool s) (tx s) (comp s) (rx s) (fill s) (k_tx s) (k_rx s) (in_flight s) (global_in_flight s)
    (stats s) true (placed s).

(** ** The critical sections of a sender *)

(** [state.comp.lock().dequeue_all()] *)
Definition take_completed (s : shared) : list Z * shared :=
  let '(done, c) := dequeue_all (comp s) in (done, set_comp c s).

(** [state.pool.lock()], then [push] or [extend_from_slice]. *)
Definition give_back (l : list Z) (s : shared) : shared := set_pool (rev l ++ pool s) s.

(** [state.pool.lock()], then up to [count] times [pop]. *)
Definition pop_frames (count : Z) (s : shared) : list Z * shared :=
  let n := Z.to_nat (Z.min count (Z.of_nat (length (pool s)))) in
  (take n (pool s), set_pool (drop n (pool s)) s).

(** [state.tx.lock().produce_tx(descs)] *)
Definition submit (ds : list XdpDesc) (s : shared) : Z * shared :=
  let '(n, t) := produce_tx (tx s) ds in (n, set_tx t n s).

(** What is being sent: one query already written to the sender's buffer
    ([xdp_tx_one]), or as many queries as frames were popped. *)
Inductive job : Set :=
| One (id : Z) (dns : list Z)
| Batch.

(** The frames of a batch. *)
Fixpoint fill_batch (cfg : Xdp.config) (addrs : list Z) (m : Z -> list Z) (idc tmpl : Z)
  : outcome ((Z -> list Z) * list XdpDesc * list Z) :=
  match addrs with
  | [] => Done (m, [], [])
  | addr :: addrs' =>
      let id := Xdp.query_id cfg idc in
      '(buf, total) ← Xdp.write_query cfg id tmpl (m addr);
      let m' := fun a => if a =? addr then buf else m a in
      '(m'', ds, ids) ← fill_batch cfg addrs' m' (wadd 64 idc 1) (wadd 64 tmpl 1);
      Done (m'', mkDesc addr (as_u 32 total) 0 :: ds, id :: ids)
  end.

(** The frame of one query. *)
Definition fill_one (cfg : Xdp.config) (id : Z) (dns : list Z) (addr : Z) (m : Z -> list Z)
  : outcome ((Z -> list Z) * list XdpDesc * list Z) :=
  '(buf, len) ← write_frame (Xdp.hdr cfg) (m addr) dns;
  Done (fun a => if a =? addr then buf else m a, [mkDesc addr (as_u 32 len) 0], [id]).

Definition write_job (cfg : Xdp.config) (j : job) (addrs : list Z) (m : Z -> list Z) (idc tmpl : Z)
  : outcome ((Z -> list Z) * list XdpDesc * list Z) :=
  match j, addrs with
  | One id dns, addr :: _ => fill_one cfg id dns addr m
  | One _ _, [] => Done (m, [], [])
  | Batch, _ => fill_batch cfg addrs m idc tmpl
  end.

(** [xdp_tx_one] and [xdp_tx_batch_inline] of a sender that runs alone: pop, write,
    submit, give back what the ring refused.  The result is the number placed and
    the ids written. *)
Definition transmit (cfg : Xdp.config) (j : job) (count idc tmpl : Z) (s : shared)
  : outcome (Z * list Z * shared) :=
  let '(addrs, s) := pop_frames count s in
  if is_empty addrs then Done (0, [], s)
  else
    '(m, ds, ids) ← write_job cfg j addrs (mem s) idc tmpl;
    let '(n, s) := submit ds (set_mem m s) in
    let back := drop (Z.to_nat n) addrs in
    Done (n, ids, if is_empty back then s else give_back back s).

Definition xdp_tx_one (cfg : Xdp.config) (id : Z) (dns : list Z) (s : shared) : outcome (bool * shared) :=
  '(n, _, s) ← transmit cfg (One id dns) 1 0 0 s; Done (negb (n =? 0), s).

Definition xdp_tx_batch_inline (cfg : Xdp.config) (idc tmpl count : Z) (s : shared)
  : outcome (Z * list Z * shared) := transmit cfg Batch count idc tmpl s.

(** ** A sender thread *)

(** Where a sender is, and the frames it has taken from the shared structures. *)
Inductive place : Type :=
| Top                                                   (* the head of the loop *)
| Reclaimed (done : list Z)                             (* completions, not yet in the pool *)
| Decide                                                (* the rate and the gate come next *)
| Pop (count : Z) (j : job)
| Popped (addrs : list Z) (j : job)                     (* frames to be written *)
| Holding (ds : list XdpDesc) (ids : list Z) (j : job)  (* written, not yet submitted *)
| Refused (back : list Z) (ids : list Z) (n : Z) (j : job)
| Placed (ids : list Z) (n : Z) (j : job)               (* ids to be registered *)
| Exited.

Record thread : Type := mkThread {
  pc : place;
  id_ctr : Z;
  tmpl_idx : Z;
  local_sent : Z;
  next_send : Z;
  last_qps : Z;
  send_interval : Z;
  single_buf : list Z
}.

(** What the clock, the rate and the shutdown flag say when they are read. *)
Record tenv : Set := mkTenv {
  t_stop : bool;          (* the flag at the head of the loop *)
  t_qps : Z;
  t_new : Z;              (* the clock when the rate has changed *)
  t_closed : Z;           (* the clock when the gate is closed *)
  t_now : Z;
  t_stop_slept : bool;    (* the flag after the sleep *)
  t_late : Z;             (* the two readings of the catch-up *)
  t_reset : Z;
  t_insert : Z;           (* the table's clock at a registration *)
  t_flush : Z             (* the collector's clock at a flush *)
}.

Definition at_place (p : place) (th : thread) : thread :=
  mkThread p (id_ctr th) (tmpl_idx th) (local_sent th) (next_send th) (last_qps th) (send_interval th) (single_buf th).

Definition paced (ns lq iv : Z) (th : thread) : thread :=
  mkThread (pc th) (id_ctr th) (tmpl_idx th) (local_sent th) ns lq iv (single_buf th).

Definition gate_closed (cfg : Xdp.config) (s : shared) : bool :=
  (Xdp.max_outstanding cfg >? 0) && (Xdp.max_outstanding cfg <=? global_in_flight s).

(** Adding the local count to the shared counters. *)
Definition flush (cfg : Xdp.config) (now n : Z) (s : shared) : shared :=
  set_counts (in_flight s)
    (if Xdp.max_outstanding cfg >? 0 then wadd 64 (global_in_flight s) n else global_in_flight s)
    (inc_sent_n n now (stats s)) s.

(** After the loop. *)
Definition finish (cfg : Xdp.config) (e : tenv) (s : shared) (th : thread) : shared * thread :=
  (if local_sent th >? 0 then flush cfg (t_flush e) (local_sent th) s else s, at_place Exited th).

(** The next query, written to the sender's own buffer. *)
Definition choose_one (cfg : Xdp.config) (th : thread) : outcome thread :=
  let id := Xdp.query_id cfg (id_ctr th) in
  '(buf, len) ← write_with_index (Xdp.wire_pool cfg) (tmpl_idx th) id (single_buf th);
  Done (mkThread (Pop 1 (One id (take (Z.to_nat len) buf))) (wadd 64 (id_ctr th) 1)
          (wadd 64 (tmpl_idx th) 1) (local_sent th) (next_send th) (last_qps th) (send_interval th) buf).

(** The choice of what to send: paced, one query at a time, or a burst. *)
Definition decide_send (cfg : Xdp.config) (e : tenv) (s : shared) (th : thread) : outcome (shared * thread) :=
  if t_qps e >? 0 then
    let th := if negb (t_qps e =? last_qps th)
              then paced (t_new e) (t_qps e)
                     (dur_from_secs_f64 (f64_div (f64_of_Z 1) (f64_of_Z (t_qps e)))) th
              else th in
    if gate_closed cfg s then
      Done (s, at_place Top (paced (t_closed e + send_interval th) (last_qps th) (send_interval th) th))
    else if (t_now e <? next_send th) && t_stop_slept e then Done (finish cfg e s th)
    else
      let ns := next_send th + send_interval th in
      let th := paced (if ns <? t_late e then t_reset e else ns) (last_qps th) (send_interval th) th in
      th ← choose_one cfg th; Done (s, th)
  else if gate_closed cfg s then Done (s, at_place Top (paced (next_send th) 0 (send_interval th) th))
  else
    let count := if Xdp.max_outstanding cfg >? 0
                 then Z.min (Xdp.max_outstanding cfg - global_in_flight s) Xdp.TX_BATCH else Xdp.TX_BATCH in
    Done (s, at_place (Pop count Batch) th).

(** The end of a turn: count what was placed, flush a full count. *)
Definition account (cfg : Xdp.config) (e : tenv) (n : Z) (j : job) (s : shared) (th : thread) : shared * thread :=
  let lq := match j with Batch => 0 | One _ _ => last_qps th end in
  let local := if n >? 0 then local_sent th + n else local_sent th in
  let due := (n >? 0) && (FLUSH_N <=? local) in
  (if due then flush cfg (t_flush e) local s else s,
   mkThread Top (id_ctr th) (tmpl_idx th) (if due then 0 else local) (next_send th) lq (send_interval th)
     (single_buf th)).

(** The counters of a batch advance once per frame. *)
Definition advanced (j : job) (k : Z) (th : thread) : thread :=
  match j with
  | One _ _ => th
  | Batch => mkThread (pc th) (wadd 64 (id_ctr th) k) (wadd 64 (tmpl_idx th) k) (local_sent th) (next_send th)
               (last_qps th) (send_interval th) (single_buf th)
  end.

(** One section of [xdp_tx_sender_thread]. *)
Definition thread_step (cfg : Xdp.config) (e : tenv) (s : shared) (th : thread) : outcome (shared * thread) :=
  match pc th with
  | Top =>
      if t_stop e then Done (finish cfg e s th)
      else let '(done, s) := take_completed s in Done (s, at_place (Reclaimed done) th)
  | Reclaimed done => Done (if is_empty done then s else give_back done s, at_place Decide th)
  | Decide => decide_send cfg e s th
  | Pop count j =>
      let '(addrs, s) := pop_frames count s in
      Done (s, at_place (if is_empty addrs then Placed [] 0 j else Popped addrs j) th)
  | Popped addrs j =>
      '(m, ds, ids) ← write_job cfg j addrs (mem s) (id_ctr th) (tmpl_idx th);
      Done (set_mem m s, at_place (Holding ds ids j) (advanced j (Z.of_nat (length addrs)) th))
  | Holding ds ids j =>
      let '(n, s) := submit ds s in
      Done (s, at_place (Refused (d_addr <$> drop (Z.to_nat n) ds) (take (Z.to_nat n) ids) n j) th)
  | Refused back ids n j => Done (if is_empty back then s else give_back back s, at_place (Placed ids n j) th)
  | Placed (id :: ids) n j =>
      Done (set_counts (xdp_insert (t_insert e) id (in_flight s)) (global_in_flight s) (stats s) s,
            at_place (Placed ids n j) th)
  | Placed [] n j => Done (account cfg e n j s th)
  | Exited => Done (s, th)
  end.

(** The locals before the loop. *)
Definition thread_init (cfg : Xdp.config) (now : Z) : thread :=
  mkThread Top 0 (Xdp.worker_id cfg) 0 now 0 0 (replicate (Z.to_nat MAX_QUERY) 0).

(** The section that writes frames through [area], the raw pointer into the UMEM. *)
Definition uses_area (th : thread) : bool :=
  match pc th with Popped _ _ => true | _ => false end.

(** ** The receiver thread *)

(** The receiver owns the socket and the UMEM: when its function has [returned],
    [Drop] has closed the descriptor and unmapped the frames' memory. *)
Record receiver : Set := mkReceiver { last_timeout_check : Z; idle_spins : Z; returned : bool }.

(** What the flag and the clocks say in one turn of the receiver. *)
Record renv : Set := mkRenv {
  r_stop : bool;           (* the flag at the head of the loop *)
  r_take : nat -> Z;       (* the table's clock at each match *)
  r_now : Z;
  r_sweep : Z
}.

(** The loop over the received frames: match each by its id. *)
Fixpoint recv_frames (clock : nat -> Z) (m : Z -> list Z) (ds : list XdpDesc) (t : list Z)
    (st : StatsCollector H) (completed : Z) : list Z * StatsCollector H * Z :=
  match ds with
  | [] => (t, st, completed)
  | d :: ds' =>
      let '(t, st, completed) :=
        match parse_dns_from_frame (Xdp.frame_of m d) with
        | Some (id, rcode) =>
            match xdp_take (clock 0%nat) id t with
            | (Some rtt_us, t) => (t, record_response rcode rtt_us st, completed + 1)
            | (None, t) => (t, st, completed)
            end
        | None => (t, st, completed)
        end in
      recv_frames (fun n => clock (S n)) m ds' t st completed
  end.

(** The sweep of the table, at most every ten milliseconds. *)
Definition recv_sweep (timeout_ns : Z) (e : renv) (s : shared) (r : receiver) : shared * receiver :=
  if 10000000 <=? sat_sub (r_now e) (last_timeout_check r) then
    let '(expired, t) := sweep_expired (r_sweep e) timeout_ns (in_flight s) in
    (set_counts t (if expired >? 0 then sat_sub (global_in_flight s) expired else global_in_flight s)
       (inc_timeouts (Z.to_nat expired) (stats s)) s,
     mkReceiver (r_now e) (idle_spins r) (returned r))
  else (s, r).

(** One turn of [xdp_receiver_thread]: when the flag is up the loop ends, the
    function returns and the socket and the UMEM are dropped. *)
Definition recv_turn (timeout_ns : Z) (e : renv) (s : shared) (r : receiver) : shared * receiver :=
  if r_stop e then (s, mkReceiver (last_timeout_check r) (idle_spins r) true)
  else
  let '(ds, rx') := consume_rx (rx s) in
  if is_empty ds then
    let idle := idle_spins r + 1 in
    recv_sweep timeout_ns e (set_rx rx' (fill s) s)
      (mkReceiver (last_timeout_check r) (if 1024 <=? idle then 0 else idle) (returned r))
  else
    let '(t, st, completed) := recv_frames (r_take e) (mem s) ds (in_flight s) (stats s) 0 in
    let s := set_rx rx' (enqueue_batch (fill s) (d_addr <$> ds)).2 s in
    let s := set_counts t
               (if completed >? 0 then sat_sub (global_in_flight s) completed else global_in_flight s) st s in
    recv_sweep timeout_ns e s (mkReceiver (last_timeout_check r) 0 (returned r)).

(** ** The threads of a queue, the kernel, and the rest of the program *)

Record sys : Type := mkSys {
  sh : shared;
  senders : list thread;
  recv : receiver;
  foreign : Z               (* what the senders of other queues have flushed *)
}.

Definition with_shared (s : shared) (y : sys) : sys := mkSys s (senders y) (recv y) (foreign y).

(** The sender is about to write through [area] after the memory was unmapped: the
    behaviour of that section is undefined. *)
Definition faults (y : sys) (th : thread) : bool := uses_area th && returned (recv y).

(** A section of a sender, a turn of the receiver, a move of the kernel, the flag
    being raised.  A load of the flag says it is up only when it is (the loads are
    relaxed: it may be up without being seen yet); a section whose behaviour is
    undefined is no step.  The rings stay mapped when the socket is dropped, and
    they keep the kernel's side of it open, so the kernel's moves are not affected. *)
Inductive sstep (cfgs : list Xdp.config) (timeout_ns : Z) : sys -> sys -> Prop :=
| s_send y i cfg e th s' th' :
    cfgs !! i = Some cfg -> senders y !! i = Some th -> faults y th = false ->
    (t_stop e || t_stop_slept e = true -> shutdown (sh y) = true) ->
    thread_step cfg e (sh y) th = Done (s', th') ->
    sstep cfgs timeout_ns y (mkSys s' (<[i := th']> (senders y)) (recv y) (foreign y))
| s_recv y e s' r' :
    returned (recv y) = false -> (r_stop e = true -> shutdown (sh y) = true) ->
    recv_turn timeout_ns e (sh y) (recv y) = (s', r') ->
    sstep cfgs timeout_ns y (mkSys s' (senders y) r' (foreign y))
| s_shutdown y :
    sstep cfgs timeout_ns y (with_shared (set_shutdown (sh y)) y)
| s_tx_take y d ds (s := sh y) :
    contents (tx s) = d :: ds ->
    sstep cfgs timeout_ns y
      (with_shared (set_kernel (mem s) (kernel_take (tx s)) (comp s) (rx s) (fill s) (d_addr d :: k_tx s) (k_rx s) s) y)
| s_tx_done y a k1 k2 (s := sh y) :
    k_tx s = k1 ++ a :: k2 -> Z.of_nat (length (contents (comp s))) < size (comp s) ->
    sstep cfgs timeout_ns y
      (with_shared (set_kernel (mem s) (tx s) (kernel_put a (comp s)) (rx s) (fill s) (k1 ++ k2) (k_rx s) s) y)
| s_fill_take y a l (s := sh y) :
    contents (fill s) = a :: l ->
    sstep cfgs timeout_ns y
      (with_shared (set_kernel (mem s) (tx s) (comp s) (rx s) (kernel_take (fill s)) (k_tx s)
                      (Xdp.chunk a :: k_rx s) s) y)
| s_rx y a k1 k2 off len bytes (s := sh y) :
    k_rx s = k1 ++ a :: k2 -> Z.of_nat (length (contents (rx s))) < size (rx s) ->
    0 <= off < FRAME_SIZE -> 0 <= len -> off + len <= FRAME_SIZE -> Z.of_nat (length bytes) = FRAME_SIZE ->
    sstep cfgs timeout_ns y
      (with_shared (set_kernel (fun x => if x =? a then bytes else mem s x) (tx s) (comp s)
                      (kernel_put (mkDesc (a + off) len 0) (rx s)) (fill s) (k_tx s) (k1 ++ k2) s) y).

(** The workers of other queues change the table, the gate and the collector,
    and add [k] to the sent counter. *)
Inductive ostep : sys -> sys -> Prop :=
| o_step y t g (st : StatsCollector H) k :
    counters_in_range st -> get Sent st = wadd 64 (get Sent (stats (sh y))) k ->
    ostep y (mkSys (set_counts t g st (sh y)) (senders y) (recv y) (foreign y + k)).

Definition step (cfgs : list Xdp.config) (timeout_ns : Z) (y y' : sys) : Prop :=
  sstep cfgs timeout_ns y y' \/ ostep y y'.

(** The queue when the threads start: what [Umem::new] leaves, with the transmit
    side taken out of the socket by [extract_tx]. *)
Definition init (cfgs : list Xdp.config) (m : Z -> list Z) (t : list Z) (g : Z) (st : StatsCollector H) (now : Z) : sys :=
  let '(fl, cm, frames) := umem_new in
  mkSys (mkShared m (rev frames) (fresh_ring (mkDesc 0 0 0) RING_SIZE) cm (fresh_ring (mkDesc 0 0 0) RING_SIZE) fl
           [] [] t g st false 0)
    ((fun cfg => thread_init cfg now) <$> cfgs) (mkReceiver now 0 false) 0.

End Threads.

(** ** Writing frames *)

(** A query of the pool with an id of a sender's range. *)
Definition query_of (u : Xdp.setup) (cfg : Xdp.config) (id : Z) (dns : list Z) : Prop :=
  (exists nm qt, dns = build_query id nm qt /\ (nm, qt) ∈ Xdp.entries u) /\ Xdp.in_range cfg id /\
  12 <= Z.of_nat (length dns) <= MAX_QUERY.

(** The complete frame of such a query. *)
Definition frame_ok (u : Xdp.setup) (cfgs : list Xdp.config) (m : Z -> list Z) (d : XdpDesc) : Prop :=
  exists cfg id dns, cfg ∈ cfgs /\ query_of u cfg id dns /\
    take (Z.to_nat (d_len d)) (m (d_addr d)) =
    frame_bytes (Xdp.src_mac u) (Xdp.dst_mac u) (Xdp.src_ip u) (Xdp.dst_ip u) (Xdp.src_port u) (Xdp.dst_port u)
      (Xdp.vlan u) dns.

Definition job_ok (u : Xdp.setup) (cfg : Xdp.config) (j : job) : Prop :=
  match j with One id dns => query_of u cfg id dns | Batch => True end.

Lemma frames_same u cfgs m m' ds :
  (forall a, a ∈ d_addr <$> ds -> m' a = m a) -> Forall (frame_ok u cfgs m) ds -> Forall (frame_ok u cfgs m') ds.
Proof.
  intros Hm Hf. rewrite Forall_forall in Hf |- *. intros d Hd. unfold frame_ok.
  rewrite Hm by (by apply list_elem_of_fmap_2). by apply Hf.
Qed.

(** Every query of the source's pairs fits the buffers. *)
Lemma entry_query u cfg id nm qt : Xdp.started u cfg -> Xdp.in_range cfg id -> (nm, qt) ∈ Xdp.entries u ->
  query_of u cfg id (build_query id nm qt).
Proof.
  intros Hu Hr Hin. split; [by exists nm, qt|]. split; [done|].
  pose proof (Xdp.st_names _ _ Hu) as Hall. rewrite Forall_forall in Hall. specialize (Hall _ Hin). cbn [fst] in Hall.
  pose proof (labels_cost_name nm). rewrite build_query_length. unfold MAX_QUERY. lia.
Qed.

(** A frame buffer that starts with [f]. *)
Lemma frame_written u cfgs cfg id dns m addr f rest :
  cfg ∈ cfgs -> query_of u cfg id dns ->
  f = frame_bytes (Xdp.src_mac u) (Xdp.dst_mac u) (Xdp.src_ip u) (Xdp.dst_ip u) (Xdp.src_port u) (Xdp.dst_port u)
        (Xdp.vlan u) dns ->
  m addr = f ++ rest -> Z.of_nat (length (f ++ rest)) = FRAME_SIZE ->
  frame_ok u cfgs m (mkDesc addr (as_u 32 (Z.of_nat (length f))) 0).
Proof.
  intros Hc Hq Hf Hm Hl. unfold FRAME_SIZE in Hl. rewrite length_app in Hl.
  exists cfg, id, dns. split; [done|]. split; [done|]. cbn [d_len d_addr].
  rewrite as_u_small by (unfold in_u; change (2 ^ 32) with 4294967296; lia).
  by rewrite Hm, Nat2Z.id, take_app_length.
Qed.

Definition upd (m : Z -> list Z) (addr : Z) (buf : list Z) : Z -> list Z := fun a => if a =? addr then buf else m a.

Lemma upd_same m addr buf : upd m addr buf addr = buf.
Proof. unfold upd. by rewrite Z.eqb_refl. Qed.

Lemma upd_other m addr buf a : a <> addr -> upd m addr buf a = m a.
Proof. intros Ha. unfold upd. by replace (a =? addr) with false by (symmetry; bool_to_prop; lia). Qed.

Lemma upd_mem_ok m addr buf : Xdp.mem_ok m -> Z.of_nat (length buf) = FRAME_SIZE -> Xdp.mem_ok (upd m addr buf).
Proof. intros Hm Hb a. unfold upd. destruct (a =? addr); [done|apply Hm]. Qed.

(** What writing a job into popped frames gives. *)
Definition written u cfgs cfg (addrs : list Z) (m m' : Z -> list Z) (ds : list XdpDesc) (ids : list Z) : Prop :=
  d_addr <$> ds = addrs /\ length ids = length addrs /\ Xdp.mem_ok m' /\
  (forall a, a ∉ addrs -> m' a = m a) /\ Forall (frame_ok u cfgs m') ds /\ Forall (Xdp.in_range cfg) ids.

Lemma fill_batch_spec u cfgs cfg addrs m idc tmpl :
  cfg ∈ cfgs -> Xdp.started u cfg -> Xdp.mem_ok m -> NoDup addrs -> 0 <= tmpl ->
  exists m' ds ids, fill_batch cfg addrs m idc tmpl = Done (m', ds, ids) /\ written u cfgs cfg addrs m m' ds ids.
Proof.
  intros Hc Hu. revert m idc tmpl. induction addrs as [|a addrs IH]; intros m idc tmpl Hm Hnd Ht.
  { exists m, [], []. unfold written. split_and!; try done; constructor. }
  apply NoDup_cons in Hnd as [Ha Hnd]. cbn [fill_batch].
  destruct (Xdp.query_id_range cfg idc (Xdp.st_worker _ _ Hu) (Xdp.st_workers _ _ Hu)) as [Hr Hid].
  destruct (Xdp.write_query_spec u cfg (Xdp.query_id cfg idc) tmpl (m a) Hu Hid Ht (Hm a))
    as (nm & qt & rest & Hin & Hb & Hlen). cbn zeta in Hb, Hlen. rewrite Hb. cbn [mbind outcome_bind].
  set (f := frame_bytes _ _ _ _ _ _ _ _) in *. fold (upd m a (f ++ rest)).
  assert (Hsz : Z.of_nat (length (f ++ rest)) = FRAME_SIZE) by (rewrite Hlen; apply Hm).
  destruct (IH (upd m a (f ++ rest)) (wadd 64 idc 1) (wadd 64 tmpl 1)) as (m' & ds & ids & He & Hw); try done.
  { by apply upd_mem_ok. }
  { apply (wadd_range 64). lia. }
  destruct Hw as (Hds & Hids & Hm' & Hsame & Hok & Hrange). rewrite He. cbn [mbind outcome_bind].
  eexists m', _, _. split; [reflexivity|]. unfold written.
  split; [by cbn; rewrite Hds|]. split; [by cbn; rewrite Hids|]. split; [done|].
  split. { intros x Hx. apply not_elem_of_cons in Hx as [Hxa Hx]. rewrite Hsame by done. by apply upd_other. }
  split; [|by constructor]. constructor; [|done].
  eapply (frame_written u cfgs cfg (Xdp.query_id cfg idc) (build_query (Xdp.query_id cfg idc) nm qt));
    [done| |reflexivity| |exact Hsz].
  - by apply entry_query.
  - by rewrite Hsame, upd_same by done.
Qed.

Lemma fill_one_spec u cfgs cfg id dns addr m :
  cfg ∈ cfgs -> Xdp.started u cfg -> Xdp.mem_ok m -> query_of u cfg id dns ->
  exists m' ds ids, fill_one cfg id dns addr m = Done (m', ds, ids) /\ written u cfgs cfg [addr] m m' ds ids.
Proof.
  intros Hc Hu Hm Hq. pose proof Hq as (_ & Hr & Hlen). unfold MAX_QUERY in Hlen. unfold fill_one.
  pose proof Hu as [Eh H1 H2 H3 H4 _ _ _ _]. rewrite Eh. pose proof (Hm addr) as Ha. unfold FRAME_SIZE in Ha.
  pose proof (outer_vlan (Xdp.src_mac u) (Xdp.dst_mac u) (Xdp.src_ip u) (Xdp.dst_ip u) (Xdp.src_port u)
                (Xdp.dst_port u) (Xdp.vlan u)) as Ho.
  assert (Hob : (if Xdp.vlan u is Some _ then 46 else 42) <= 46) by (by destruct (Xdp.vlan u)).
  rewrite write_frame_bytes by (done || rewrite ?Ho; lia). cbn [mbind outcome_bind].
  set (f := frame_bytes _ _ _ _ _ _ _ _). set (rest := drop _ (m addr)). fold (upd m addr (f ++ rest)).
  pose proof (frame_bytes_length (Xdp.src_mac u) (Xdp.dst_mac u) (Xdp.src_ip u) (Xdp.dst_ip u) (Xdp.src_port u)
                (Xdp.dst_port u) (Xdp.vlan u) dns H1 H2 H3 H4) as Hf. rewrite <- Ho in Hf. fold f in Hf.
  assert (Hsz : Z.of_nat (length (f ++ rest)) = FRAME_SIZE).
  { unfold rest. rewrite length_app, length_drop. unfold FRAME_SIZE. lia. }
  rewrite <- Hf. eexists _, _, _. split; [reflexivity|]. unfold written.
  split; [done|]. split; [done|]. split; [by apply upd_mem_ok|].
  split; [intros x Hx; apply upd_other; by apply not_elem_of_cons in Hx as [Hx _]|]. split; [|by apply Forall_singleton]. apply Forall_singleton.
  eapply (frame_written u cfgs cfg id dns); [done|done|reflexivity| |exact Hsz]. by rewrite upd_same.
Qed.

Lemma write_job_spec u cfgs cfg j addrs m idc tmpl :
  cfg ∈ cfgs -> Xdp.started u cfg -> Xdp.mem_ok m -> NoDup addrs -> 0 <= tmpl -> job_ok u cfg j ->
  (if j is One _ _ then length addrs = 1%nat else True) ->
  exists m' ds ids, write_job cfg j addrs m idc tmpl = Done (m', ds, ids) /\ written u cfgs cfg addrs m m' ds ids.
Proof.
  intros Hc Hu Hm Hnd Ht Hj Hl. destruct j as [id dns|].
  - destruct addrs as [|a [|]]; try discriminate. by apply fill_one_spec.
  - by apply fill_batch_spec.
Qed.

(** ** The invariant *)

Section Invariant.
Context {H : Type} `{HdrHistogram H}.
Variables (u : Xdp.setup) (cfgs : list Xdp.config).
Hypothesis cfgs_started : Forall (Xdp.started u) cfgs.

(** The frames a sender has taken and not handed on. *)
Definition held (th : thread) : list Z :=
  match pc th with
  | Reclaimed l | Popped l _ | Refused l _ _ _ => l
  | Holding ds _ _ => d_addr <$> ds
  | _ => []
  end.

(** The queries a sender has placed and not yet added to the sent counter. *)
Definition pending (th : thread) : Z :=
  match pc th with
  | Refused _ _ n _ | Placed _ n _ => local_sent th + n
  | Exited => 0
  | _ => local_sent th
  end.

Definition place_ok (cfg : Xdp.config) (m : Z -> list Z) (p : place) : Prop :=
  match p with
  | Pop count j => job_ok u cfg j /\ (if j is One _ _ then count = 1 else True)
  | Popped addrs j => job_ok u cfg j /\ (if j is One _ _ then length addrs = 1%nat else True)
  | Holding ds ids _ => Forall (frame_ok u cfgs m) ds /\ Forall (Xdp.in_range cfg) ids
  | Refused _ ids n _ => 0 <= n /\ Forall (Xdp.in_range cfg) ids
  | Placed ids n _ => 0 <= n /\ Forall (Xdp.in_range cfg) ids
  | _ => True
  end.

Record thread_ok (m : Z -> list Z) (cfg : Xdp.config) (th : thread) : Prop := mkThreadOk {
  t_place : place_ok cfg m (pc th);
  t_tmpl : 0 <= tmpl_idx th;
  t_local : 0 <= local_sent th < FLUSH_N;
  t_buf : Z.of_nat (length (single_buf th)) = MAX_QUERY
}.

Definition tx_places (s : shared (H := H)) : list Z :=
  pool s ++ (d_addr <$> contents (tx s)) ++ k_tx s ++ contents (comp s).

Definition rx_places (s : shared (H := H)) : list Z :=
  (Xdp.chunk <$> contents (fill s)) ++ k_rx s ++ ((fun d => Xdp.chunk (d_addr d)) <$> contents (rx s)).

(** What every section of a sender keeps, and how it moves frames and counts. *)
Record moved (cfg : Xdp.config) (s : shared (H := H)) (th : thread) (s' : shared) (th' : thread) : Prop := mkMoved {
  mv_tx : ring_ok (tx s');
  mv_comp : ring_ok (comp s');
  mv_rest : (rx s', fill s', k_rx s') = (rx s, fill s, k_rx s);
  mv_places : tx_places s' ++ held th' ≡ₚ tx_places s ++ held th;
  mv_mem : Xdp.mem_ok (mem s');
  mv_same : forall a, a ∉ held th -> mem s' a = mem s a;
  mv_frames : Forall (frame_ok u cfgs (mem s')) (contents (tx s'));
  mv_thread : thread_ok (mem s') cfg th';
  mv_range : counters_in_range (stats s');
  mv_sent : (get Sent (stats s') + pending th' - placed s') mod 2 ^ 64 =
            (get Sent (stats s) + pending th - placed s) mod 2 ^ 64
}.

(** What a section may rely on. *)
Record ready (cfg : Xdp.config) (s : shared (H := H)) (th : thread) : Prop := mkReady {
  rd_tx : ring_ok (tx s);
  rd_comp : ring_ok (comp s);
  rd_mem : Xdp.mem_ok (mem s);
  rd_nodup : NoDup (tx_places s ++ held th);
  rd_frames : Forall (frame_ok u cfgs (mem s)) (contents (tx s));
  rd_thread : thread_ok (mem s) cfg th;
  rd_range : counters_in_range (stats s);
  rd_cfg : cfg ∈ cfgs
}.

(** *** Counts *)

Lemma sent_n (st : StatsCollector H) n now : counters_in_range st ->
  counters_in_range (inc_sent_n n now st) /\ get Sent (inc_sent_n n now st) = (get Sent st + n) mod 2 ^ 64.
Proof.
  intros Hr. change (inc_sent_n n now st) with (exec_call st (CallSentN n now)).
  split; [by apply exec_call_range|]. rewrite exec_call_get by done.
  assert (E : call_delta Sent (CallSentN n now) = n).
  { unfold call_delta. cbn [actions_of zsum foldr delta]. rewrite decide_True by done. lia. }
  by rewrite E.
Qed.

Lemma mod_shift M a b c : (a mod M + b - c) mod M = (a + b - c) mod M.
Proof. rewrite <- !Z.add_sub_assoc. apply Zplus_mod_idemp_l. Qed.

(** *** One section each *)

(** A section that moves no frame. *)
Lemma moved_counts cfg s th g st t th' :
  ready cfg s th -> held th = [] -> held th' = [] -> thread_ok (mem s) cfg th' -> counters_in_range st ->
  (get Sent st + pending th') mod 2 ^ 64 = (get Sent (stats s) + pending th) mod 2 ^ 64 ->
  moved cfg s th (set_counts t g st s) th'.
Proof.
  intros [R1 R2 R3 R4 R5 R6 R7 R8] Hh Hh' Ht Hst Hs.
  constructor; cbn [set_counts mem pool tx comp rx fill k_tx k_rx in_flight stats placed]; try done.
  - by rewrite Hh, Hh'.
  - rewrite <- Zminus_mod_idemp_l, Hs. apply Zminus_mod_idemp_l.
Qed.

Lemma set_counts_id (s : shared (H := H)) : set_counts (in_flight s) (global_in_flight s) (stats s) s = s.
Proof. by destruct s. Qed.

Lemma moved_local cfg s th th' :
  ready cfg s th -> held th = [] -> held th' = [] -> thread_ok (mem s) cfg th' -> pending th' = pending th ->
  moved cfg s th s th'.
Proof.
  intros Hr Hh Hh' Ht Hp.
  pose proof (moved_counts cfg s th (global_in_flight s) (stats s) (in_flight s) th' Hr Hh Hh' Ht
                (rd_range _ _ _ Hr)) as Hm. rewrite set_counts_id, Hp in Hm. by apply Hm.
Qed.

Lemma flush_sent cfg now n (s : shared (H := H)) : counters_in_range (stats s) ->
  counters_in_range (stats (flush cfg now n s)) /\
  get Sent (stats (flush cfg now n s)) = (get Sent (stats s) + n) mod 2 ^ 64.
Proof. intros Hr. cbn [flush set_counts stats]. by apply sent_n. Qed.

Lemma finish_moved cfg e s th : ready cfg s th -> held th = [] -> pending th = local_sent th ->
  exists s' th', finish cfg e s th = (s', th') /\ moved cfg s th s' th'.
Proof.
  intros Hr Hh Hp. eexists _, _. split; [reflexivity|]. destruct (rd_thread _ _ _ Hr) as [_ T2 T3 T4].
  assert (Ht : thread_ok (mem s) cfg (at_place Exited th)) by by constructor.
  destruct (local_sent th >? 0) eqn:E.
  - destruct (sent_n (stats s) (local_sent th) (t_flush e) (rd_range _ _ _ Hr)) as [Hc Hs].
    apply moved_counts; try done. rewrite Hs, Hp. cbn [pending at_place pc]. by rewrite Z.add_0_r, Zmod_mod.
  - rewrite Z.gtb_ltb in E. bool_to_prop. apply moved_local; try done. rewrite Hp. cbn [pending at_place pc]. lia.
Qed.

Lemma top_moved cfg e s th : ready cfg s th -> pc th = Top ->
  exists s' th', thread_step cfg e s th = Done (s', th') /\ moved cfg s th s' th'.
Proof.
  intros Hr Hpc. unfold thread_step. rewrite Hpc.
  assert (Hh : held th = []) by (unfold held; by rewrite Hpc).
  assert (Hp : pending th = local_sent th) by (unfold pending; by rewrite Hpc).
  destruct (t_stop e).
  { destruct (finish_moved cfg e s th Hr Hh Hp) as (s' & th' & -> & Hm). by eexists _, _. }
  pose proof Hr as [R1 R2 R3 R4 R5 [_ T2 T3 T4] R7 R8].
  unfold take_completed. rewrite dequeue_consume by done.
  destruct (consume_rx (comp s)) as [done c] eqn:E.
  destruct (consume_spec _ _ _ R2 E) as (Hok & _ & _ & -> & Hc). eexists _, _. split; [reflexivity|].
  constructor; try done.
  - rewrite Hh. unfold tx_places. cbn [set_comp pool tx k_tx comp held at_place pc]. rewrite Hc.
    rewrite !app_nil_r, <- !app_assoc. reflexivity.
  - by rewrite Hp.
Qed.

Lemma reclaimed_moved cfg e s th l : ready cfg s th -> pc th = Reclaimed l ->
  exists s' th', thread_step cfg e s th = Done (s', th') /\ moved cfg s th s' th'.
Proof.
  intros Hr Hpc. unfold thread_step. rewrite Hpc. eexists _, _. split; [reflexivity|].
  assert (Hh : held th = l) by (unfold held; by rewrite Hpc).
  assert (Hp : pending th = local_sent th) by (unfold pending; by rewrite Hpc).
  pose proof Hr as [R1 R2 R3 R4 R5 [_ T2 T3 T4] R7 R8].
  destruct l as [|a l]; cbn [is_empty]; [by apply moved_local|].
  constructor; try done.
  - rewrite Hh. unfold tx_places. cbn [give_back set_pool pool tx k_tx comp held at_place pc].
    rewrite <- Permutation_rev. solve_Permutation.
  - by rewrite Hp.
Qed.

(** Changes of the pacing leave the rest of a sender alone. *)
Lemma paced_same ns lq iv th : pc (paced ns lq iv th) = pc th /\ held (paced ns lq iv th) = held th /\
  pending (paced ns lq iv th) = pending th.
Proof. done. Qed.

Lemma ready_paced cfg s th ns lq iv : ready cfg s th -> ready cfg s (paced ns lq iv th).
Proof. intros [R1 R2 R3 R4 R5 [T1 T2 T3 T4] R7 R8]. by constructor. Qed.

Lemma cfg_started cfg : cfg ∈ cfgs -> Xdp.started u cfg.
Proof. intros Hc. rewrite Forall_forall in cfgs_started. by apply cfgs_started. Qed.

Lemma choose_one_moved cfg s th : ready cfg s th -> pc th = Decide ->
  exists th', choose_one cfg th = Done th' /\ moved cfg s th s th'.
Proof.
  intros Hr Hpc. pose proof (rd_cfg _ _ _ Hr) as Hc. pose proof (cfg_started cfg Hc) as Hu.
  destruct (rd_thread _ _ _ Hr) as [_ T2 T3 T4].
  destruct (Xdp.query_id_range cfg (id_ctr th) (Xdp.st_worker _ _ Hu) (Xdp.st_workers _ _ Hu)) as [Hrg Hid].
  destruct (write_with_index_total (Xdp.entries u) (Xdp.wire_pool cfg) (tmpl_idx th) (Xdp.query_id cfg (id_ctr th))
              (single_buf th)) as (buf & n & nm & qt & Hw & Hn & Hlen & Hin & Hb); try done.
  { apply (Xdp.st_pool _ _ Hu). }
  { apply (Xdp.st_names _ _ Hu). }
  unfold choose_one. rewrite Hw. cbn [mbind outcome_bind]. eexists. split; [reflexivity|].
  apply moved_local; [done|unfold held; by rewrite Hpc|done| |unfold pending; by rewrite Hpc].
  constructor; cbn [pc tmpl_idx local_sent single_buf place_ok job_ok].
  - rewrite Hb. split; [by apply entry_query|done].
  - apply (wadd_range 64). lia.
  - done.
  - by rewrite Hlen.
Qed.

Lemma decide_moved cfg e s th : ready cfg s th -> pc th = Decide ->
  exists s' th', thread_step cfg e s th = Done (s', th') /\ moved cfg s th s' th'.
Proof.
  intros Hr Hpc. unfold thread_step. rewrite Hpc. unfold decide_send.
  assert (Hkeep : forall p ns lq iv, held (at_place p th) = [] -> pending (at_place p th) = local_sent th ->
    place_ok cfg (mem s) p -> moved cfg s th s (at_place p (paced ns lq iv th))).
  { intros p ns lq iv Hh Hp Hok. destruct (rd_thread _ _ _ Hr) as [_ T2 T3 T4].
    apply moved_local; [done|unfold held; by rewrite Hpc|done|by constructor|].
    etrans; [exact Hp|]. unfold pending. by rewrite Hpc. }
  destruct (t_qps e >? 0).
  - set (th1 := if negb _ then paced _ _ _ th else th).
    assert (H1 : exists ns lq iv, th1 = paced ns lq iv th).
    { unfold th1. destruct (negb _); [by eexists _, _, _|]. exists (next_send th), (last_qps th), (send_interval th).
      by destruct th. }
    clearbody th1. destruct H1 as (ns & lq & iv & ->).
    destruct (gate_closed cfg s); [eexists _, _; split; [reflexivity|by apply Hkeep]|].
    destruct ((_ <? _) && _).
    + destruct (finish_moved cfg e s (paced ns lq iv th)) as (s' & th' & -> & Hm).
      * by apply ready_paced.
      * unfold held. cbn [paced pc]. by rewrite Hpc.
      * unfold pending. cbn [paced pc]. by rewrite Hpc.
      * eexists _, _. split; [reflexivity|]. by destruct Hm; constructor.
    + cbn [paced next_send send_interval last_qps]. set (ns' := if _ <? _ then _ else _).
      destruct (choose_one_moved cfg s (paced ns' lq iv th)) as (th' & Hw & Hm); [by apply ready_paced|done|].
      change (choose_one cfg _) with (choose_one cfg (paced ns' lq iv th)).
      rewrite Hw. exists s, th'. split; [reflexivity|]. by destruct Hm; constructor.
  - destruct (gate_closed cfg s); [eexists _, _; split; [reflexivity|by apply Hkeep]|].
    eexists _, _. split; [reflexivity|].
    destruct (rd_thread _ _ _ Hr) as [_ T2 T3 T4].
    apply moved_local; [done|unfold held; by rewrite Hpc|done|by constructor|unfold pending; by rewrite Hpc].
Qed.

Lemma pop_moved cfg e s th count j : ready cfg s th -> pc th = Pop count j ->
  exists s' th', thread_step cfg e s th = Done (s', th') /\ moved cfg s th s' th'.
Proof.
  intros Hr Hpc. unfold thread_step, pop_frames. rewrite Hpc.
  set (n := Z.to_nat _). eexists _, _. split; [reflexivity|].
  pose proof Hr as [R1 R2 R3 R4 R5 [T1 T2 T3 T4] R7 R8]. rewrite Hpc in T1. cbn [place_ok] in T1.
  assert (Hh : held th = []) by (unfold held; by rewrite Hpc).
  assert (Hp : pending th = local_sent th) by (unfold pending; by rewrite Hpc).
  assert (Hpl : pool s = take n (pool s) ++ drop n (pool s)) by (by rewrite take_drop).
  destruct (take n (pool s)) as [|a l] eqn:E; cbn [is_empty]; constructor; try done.
  - rewrite Hh. unfold tx_places. cbn [set_pool pool tx k_tx comp held at_place pc].
    rewrite Hpl at 2. reflexivity.
  - cbn [pending at_place pc set_pool stats placed local_sent]. rewrite Hp. f_equal. lia.
  - rewrite Hh. unfold tx_places. cbn [set_pool pool tx k_tx comp held at_place pc].
    rewrite Hpl at 2. solve_Permutation.
  - constructor; try done. cbn [at_place pc place_ok]. destruct T1 as [Hj Hc]. split; [done|].
    destruct j; [|done]. subst count. apply (f_equal length) in E. rewrite length_take in E. cbn [length] in *. lia.
  - by rewrite Hp.
Qed.

Lemma popped_moved cfg e s th addrs j : ready cfg s th -> pc th = Popped addrs j ->
  exists s' th', thread_step cfg e s th = Done (s', th') /\ moved cfg s th s' th'.
Proof.
  intros Hr Hpc. unfold thread_step. rewrite Hpc.
  pose proof Hr as [R1 R2 R3 R4 R5 [T1 T2 T3 T4] R7 R8]. rewrite Hpc in T1. cbn [place_ok] in T1.
  assert (Hh : held th = addrs) by (unfold held; by rewrite Hpc).
  assert (Hp : pending th = local_sent th) by (unfold pending; by rewrite Hpc).
  rewrite Hh in R4. apply NoDup_app in R4 as (Hn & Hsep & Hna). destruct T1 as [Hj Hl].
  destruct (write_job_spec u cfgs cfg j addrs (mem s) (id_ctr th) (tmpl_idx th) R8 (cfg_started cfg R8) R3 Hna T2 Hj Hl)
    as (m & ds & ids & -> & Hds & Hids & Hm & Hsame & Hok & Hrange). cbn [mbind outcome_bind].
  eexists _, _. split; [reflexivity|]. constructor; try done.
  - rewrite Hh. unfold tx_places. cbn [set_mem pool tx k_tx comp held at_place pc]. by rewrite Hds.
  - intros a Ha. rewrite Hh in Ha. by apply Hsame.
  - apply (frames_same u cfgs (mem s)); [|done]. intros a Ha. apply Hsame. intros Hc.
    apply (Hsep a); [|done]. unfold tx_places. rewrite !elem_of_app. tauto.
  - destruct j; constructor; try done. apply (wadd_range 64). lia.
  - rewrite Hp. by destruct j.
Qed.

Lemma holding_moved cfg e s th ds ids j : ready cfg s th -> pc th = Holding ds ids j ->
  exists s' th', thread_step cfg e s th = Done (s', th') /\ moved cfg s th s' th'.
Proof.
  intros Hr Hpc. unfold thread_step, submit. rewrite Hpc.
  pose proof Hr as [R1 R2 R3 R4 R5 [T1 T2 T3 T4] R7 R8]. rewrite Hpc in T1. cbn [place_ok] in T1.
  assert (Hh : held th = d_addr <$> ds) by (unfold held; by rewrite Hpc).
  assert (Hp : pending th = local_sent th) by (unfold pending; by rewrite Hpc).
  rewrite produce_enqueue by done. destruct (enqueue_batch (tx s) ds) as [n t] eqn:E.
  destruct (enqueue_spec _ _ _ _ R1 E) as (Hok & _ & _ & Hn & Hc). destruct T1 as [Hf Hids].
  assert (0 <= n).
  { pose proof (ok_fill _ R1) as Hfill. rewrite <- contents_length_Z in Hfill. lia. }
  eexists _, _. split; [reflexivity|]. constructor; try done.
  - rewrite Hh. unfold tx_places. cbn [set_tx pool tx k_tx comp held at_place pc]. rewrite Hc, fmap_app.
    rewrite <- (take_drop (Z.to_nat n) ds) at 3. rewrite fmap_app. solve_Permutation.
  - cbn [set_tx tx mem]. rewrite Hc. apply Forall_app. split; [done|by apply Forall_take].
  - constructor; try done. cbn [at_place pc place_ok]. split; [done|by apply Forall_take].
  - rewrite Hp. cbn [pending at_place pc set_tx stats placed local_sent]. f_equal. lia.
Qed.

Lemma refused_moved cfg e s th back ids n j : ready cfg s th -> pc th = Refused back ids n j ->
  exists s' th', thread_step cfg e s th = Done (s', th') /\ moved cfg s th s' th'.
Proof.
  intros Hr Hpc. unfold thread_step. rewrite Hpc. eexists _, _. split; [reflexivity|].
  pose proof Hr as [R1 R2 R3 R4 R5 [T1 T2 T3 T4] R7 R8]. rewrite Hpc in T1. cbn [place_ok] in T1.
  assert (Hh : held th = back) by (unfold held; by rewrite Hpc).
  assert (Hp : pending th = local_sent th + n) by (unfold pending; by rewrite Hpc).
  destruct back as [|a l]; cbn [is_empty]; [by apply moved_local|].
  constructor; try done.
  - rewrite Hh. unfold tx_places. cbn [give_back set_pool pool tx k_tx comp held at_place pc].
    rewrite <- Permutation_rev. solve_Permutation.
  - by rewrite Hp.
Qed.

Lemma placed_moved cfg e s th ids n j : ready cfg s th -> pc th = Placed ids n j ->
  exists s' th', thread_step cfg e s th = Done (s', th') /\ moved cfg s th s' th'.
Proof.
  intros Hr Hpc. unfold thread_step. rewrite Hpc.
  pose proof Hr as [R1 R2 R3 R4 R5 [T1 T2 T3 T4] R7 R8]. rewrite Hpc in T1. cbn [place_ok] in T1.
  assert (Hh : held th = []) by (unfold held; by rewrite Hpc).
  assert (Hp : pending th = local_sent th + n) by (unfold pending; by rewrite Hpc).
  destruct T1 as [Hn Hids]. destruct ids as [|id ids].
  - eexists _, _. split; [reflexivity|]. unfold account.
    assert (El : (if n >? 0 then local_sent th + n else local_sent th) = local_sent th + n).
    { destruct (n >? 0) eqn:E; [done|]. rewrite Z.gtb_ltb in E. bool_to_prop. lia. }
    rewrite El. destruct ((n >? 0) && _) eqn:E.
    + destruct (sent_n (stats s) (local_sent th + n) (t_flush e) R7) as [Hc Hs].
      apply moved_counts; try done. rewrite Hs, Hp. cbn [pending pc local_sent]. by rewrite Z.add_0_r, Zmod_mod.
    + apply moved_local; try done. constructor; try done. cbn [local_sent].
      apply andb_false_iff in E as [E|E]; [rewrite Z.gtb_ltb in E|]; bool_to_prop; unfold FLUSH_N in *; lia.
  - eexists _, _. split; [reflexivity|]. apply moved_counts; try done.
    + constructor; try done. cbn [at_place pc place_ok]. split; [done|]. by apply Forall_cons in Hids as [_ ?].
    + rewrite Hp. done.
Qed.

Lemma thread_moved cfg e s th : ready cfg s th ->
  exists s' th', thread_step cfg e s th = Done (s', th') /\ moved cfg s th s' th'.
Proof.
  intros Hr. destruct (pc th) eqn:Hpc.
  - by apply top_moved.
  - by eapply reclaimed_moved.
  - by apply decide_moved.
  - by eapply pop_moved.
  - by eapply popped_moved.
  - by eapply holding_moved.
  - by eapply refused_moved.
  - by eapply placed_moved.
  - exists s, th. unfold thread_step. rewrite Hpc. split; [reflexivity|].
    destruct (rd_thread _ _ _ Hr). apply moved_local; try done; unfold held; by rewrite Hpc.
Qed.

(** *** The senders together *)

Lemma thread_ok_mem m m' cfg th :
  (forall a, a ∈ held th -> m' a = m a) -> thread_ok m cfg th -> thread_ok m' cfg th.
Proof.
  intros Hm [T1 T2 T3 T4]. constructor; try done. unfold held in Hm. destruct (pc th); try done.
  destruct T1 as [Hf Hi]. split; [|done]. by apply (frames_same u cfgs m).
Qed.

(** The frames of one sender and of all the others. *)
Lemma held_split (ts : list thread) i th : ts !! i = Some th ->
  exists rest, concat (held <$> ts) ≡ₚ held th ++ rest /\
    (forall th', concat (held <$> <[i := th']> ts) ≡ₚ held th' ++ rest) /\
    (forall j thj a, j <> i -> ts !! j = Some thj -> a ∈ held thj -> a ∈ rest).
Proof.
  intros Hi. exists (concat (held <$> take i ts) ++ concat (held <$> drop (S i) ts)).
  assert (Hlt : (i < length ts)%nat) by (by eapply lookup_lt_Some).
  split; [|split].
  - rewrite <- (take_drop_middle ts i th Hi) at 1. rewrite fmap_app, fmap_cons, concat_app. cbn [concat].
    solve_Permutation.
  - intros th'. rewrite insert_take_drop by done. rewrite fmap_app, fmap_cons, concat_app. cbn [concat].
    solve_Permutation.
  - intros j thj a Hne Hj Ha. apply elem_of_app.
    assert (Hin : thj ∈ take i ts \/ thj ∈ drop (S i) ts).
    { destruct (decide (j < i)%nat).
      - left. apply (list_elem_of_lookup_2 _ j). rewrite lookup_take_lt by done. done.
      - right. apply (list_elem_of_lookup_2 _ (j - S i)). rewrite lookup_drop. rewrite <- Hj. f_equal. lia. }
    destruct Hin as [Hin|Hin]; [left|right]; apply list_elem_of_In, in_concat; exists (held thj);
      (split; [apply list_elem_of_In; by apply list_elem_of_fmap_2|by apply list_elem_of_In]).
Qed.

Record inv (base : Z) (y : sys (H := H)) : Prop := mkInv {
  i_tx : ring_ok (tx (sh y));
  i_comp : ring_ok (comp (sh y));
  i_rx : ring_ok (rx (sh y));
  i_fill : ring_ok (fill (sh y));
  i_fill_size : size (fill (sh y)) = RING_SIZE;
  i_tx_places : tx_places (sh y) ++ concat (held <$> senders y) ≡ₚ tx_frames;
  i_rx_places : rx_places (sh y) ≡ₚ rx_addrs;
  i_mem : Xdp.mem_ok (mem (sh y));
  i_frames : Forall (frame_ok u cfgs (mem (sh y))) (contents (tx (sh y)));
  i_len : length (senders y) = length cfgs;
  i_threads : forall i cfg th, cfgs !! i = Some cfg -> senders y !! i = Some th -> thread_ok (mem (sh y)) cfg th;
  i_range : counters_in_range (stats (sh y));
  i_sent : (get Sent (stats (sh y)) + zsum pending (senders y) - placed (sh y)) mod 2 ^ 64 =
           (base + foreign y) mod 2 ^ 64
}.

Lemma tx_NoDup base y : inv base y -> NoDup (tx_places (sh y) ++ concat (held <$> senders y)).
Proof.
  intros Hi. rewrite (i_tx_places _ _ Hi). pose proof rx_tx_NoDup as Hn. apply NoDup_app in Hn. tauto.
Qed.

(** A sender of a consistent queue is ready for its next section. *)
Lemma inv_ready base y i cfg th : inv base y -> cfgs !! i = Some cfg -> senders y !! i = Some th ->
  ready cfg (sh y) th.
Proof.
  intros Hi Hc Hth. destruct (held_split _ _ _ Hth) as (rest & Hr & _ & _).
  pose proof (tx_NoDup _ _ Hi) as Hn. rewrite Hr, app_assoc in Hn. apply NoDup_app in Hn as (Hn & _ & _).
  constructor; try apply Hi; try done.
  - by eapply (i_threads _ _ Hi).
  - by eapply list_elem_of_lookup_2.
Qed.

Lemma send_inv base y i cfg th s' th' : inv base y -> cfgs !! i = Some cfg -> senders y !! i = Some th ->
  moved cfg (sh y) th s' th' -> inv base (mkSys s' (<[i := th']> (senders y)) (recv y) (foreign y)).
Proof.
  intros Hi Hc Hth [M1 M2 M3 M4 M5 M6 M7 M8 M9 M10].
  destruct (held_split _ _ _ Hth) as (rest & Hr & Hr' & Hothers). injection M3 as E1 E2 E3.
  pose proof (tx_NoDup _ _ Hi) as Hn. rewrite Hr, app_assoc in Hn. apply NoDup_app in Hn as (_ & Hsep & _).
  assert (Hlt : (i < length (senders y))%nat) by (by eapply lookup_lt_Some).
  constructor; cbn [sh senders recv foreign]; rewrite ?E1, ?E2; try done; try apply Hi.
  - rewrite Hr', app_assoc, M4, <- app_assoc, <- Hr. apply (i_tx_places _ _ Hi).
  - unfold rx_places. rewrite E1, E2, E3. apply (i_rx_places _ _ Hi).
  - rewrite length_insert. apply (i_len _ _ Hi).
  - intros j cfg' thj Hc' Hj. apply list_lookup_insert_Some in Hj as [(<- & <- & _)|(Hne & Hj)].
    + rewrite Hc in Hc'. by injection Hc' as <-.
    + apply (thread_ok_mem (mem (sh y))); [|by eapply (i_threads _ _ Hi)].
      intros a Ha. apply M6. intros Hin. apply (Hsep a); [apply elem_of_app; by right|].
      by eapply (Hothers j thj a).
  - rewrite (zsum_insert _ _ _ th) by done. rewrite <- (i_sent _ _ Hi).
    replace (get Sent (stats s') + (zsum pending (senders y) - pending th + pending th') - placed s')
      with ((get Sent (stats s') + pending th' - placed s') + (zsum pending (senders y) - pending th)) by lia.
    rewrite <- Zplus_mod_idemp_l, M10, Zplus_mod_idemp_l. f_equal. lia.
Qed.

(** *** The receiver *)

Lemma sent_same (st : StatsCollector H) k : counters_in_range st -> call_delta Sent k = 0 ->
  counters_in_range (exec_call st k) /\ get Sent (exec_call st k) = get Sent st.
Proof.
  intros Hr Hd. split; [by apply exec_call_range|]. rewrite exec_call_get by done.
  rewrite Hd, Z.add_0_r. apply Z.mod_small, Hr.
Qed.

Lemma sent_timeouts n (st : StatsCollector H) : counters_in_range st ->
  counters_in_range (inc_timeouts n st) /\ get Sent (inc_timeouts n st) = get Sent st.
Proof.
  revert st. induction n as [|n IH]; intros st Hr; [done|]. cbn [inc_timeouts].
  destruct (sent_same st CallTimeout Hr eq_refl) as [Hr' Hs]. destruct (IH _ Hr') as [Hr'' Hs'].
  split; [done|]. by etrans.
Qed.

Lemma sent_response (st : StatsCollector H) rcode rtt : counters_in_range st ->
  counters_in_range (record_response rcode rtt st) /\ get Sent (record_response rcode rtt st) = get Sent st.
Proof.
  intros Hr. apply (sent_same st (CallResponse rcode rtt) Hr). unfold call_delta, actions_of, rcode_counter.
  repeat case_if; reflexivity.
Qed.

Lemma recv_frames_sent clock m ds t (st : StatsCollector H) c t' st' c' :
  counters_in_range st -> recv_frames clock m ds t st c = (t', st', c') ->
  counters_in_range st' /\ get Sent st' = get Sent st.
Proof.
  revert clock t st c. induction ds as [|d ds IH]; intros clock t st c Hr He; cbn [recv_frames] in He.
  { by injection He as <- <- <-. }
  destruct (parse_dns_from_frame _) as [[id rcode]|]; [|by eapply IH].
  destruct (xdp_take _ id t) as [[rtt|] t1]; [|by eapply IH].
  destruct (sent_response st rcode rtt Hr) as [Hr1 Hs1]. rewrite <- Hs1. by eapply IH.
Qed.

(** Only the table, the gate and the collector change, the sent counter apart. *)
Lemma inv_counts base y t g st r : inv base y -> counters_in_range st ->
  get Sent st = get Sent (stats (sh y)) ->
  inv base (mkSys (set_counts t g st (sh y)) (senders y) r (foreign y)).
Proof.
  intros [I1 I2 I3 I4 I5 I6 I7 I8 I9 I10 I11 I12 I13] Hr Hs.
  constructor; cbn [sh senders recv foreign set_counts mem pool tx comp rx fill k_tx k_rx stats placed]; try done.
  by rewrite Hs.
Qed.

Lemma split_sweep_inv base timeout_ns e y s' r r' : inv base y -> recv_sweep timeout_ns e (sh y) r = (s', r') ->
  inv base (mkSys s' (senders y) r' (foreign y)).
Proof.
  intros Hi. unfold recv_sweep. case_if.
  - destruct (sweep_expired _ _ _) as [n t]. injection 1 as <- <-.
    destruct (sent_timeouts (Z.to_nat n) (stats (sh y)) (i_range _ _ Hi)) as [Hr Hs]. by apply inv_counts.
  - injection 1 as <- <-. destruct Hi. by constructor.
Qed.

(** The receiver gives every frame back: the fill ring has room for them. *)
Lemma recv_inv base timeout_ns e y s' r' : inv base y -> recv_turn timeout_ns e (sh y) (recv y) = (s', r') ->
  inv base (mkSys s' (senders y) r' (foreign y)).
Proof.
  intros Hi. pose proof Hi as [I1 I2 I3 I4 I5 I6 I7 I8 I9 I10 I11 I12 I13]. unfold recv_turn.
  destruct (r_stop e). { injection 1 as <- <-. by constructor. }
  destruct (consume_rx (rx (sh y))) as [ds rx'] eqn:E.
  destruct (consume_spec _ _ _ I3 E) as (Hok & _ & _ & -> & Hc).
  destruct (contents (rx (sh y))) as [|d ds] eqn:Erx; cbn [is_empty].
  - set (s1 := set_rx _ _ _). apply (split_sweep_inv base timeout_ns e (mkSys s1 (senders y) (recv y) (foreign y))).
    constructor; try done. unfold rx_places in *. cbn [s1 sh set_rx fill k_rx rx]. by rewrite Hc, <- I7, Erx.
  - rewrite <- Erx. destruct (recv_frames _ _ _ _ _ _) as [[t st] c] eqn:Ef.
    destruct (recv_frames_sent _ _ _ _ _ _ _ _ _ I12 Ef) as [Hr Hs].
    destruct (enqueue_batch (fill (sh y)) (d_addr <$> contents (rx (sh y)))) as [n fill'] eqn:Eq.
    destruct (enqueue_spec _ _ _ _ I4 Eq) as (Hfok & Hfs & _ & Hn & Hf). cbn [snd].
    assert (Hlen : (length (contents (fill (sh y))) + length (contents (rx (sh y))) <= Z.to_nat RING_SIZE)%nat).
    { pose proof (Permutation_length I7) as Hl. rewrite rx_addrs_length in Hl. unfold rx_places in Hl.
      rewrite !length_app, !length_fmap in Hl. rewrite <- Hl. lia. }
    rewrite take_ge in Hf by (rewrite Hn, length_fmap, I5; unfold RING_SIZE in *; lia).
    set (s1 := set_rx rx' fill' (sh y)).
    assert (Hi1 : inv base (mkSys s1 (senders y) (recv y) (foreign y))).
    { constructor; try done; cbn [s1 sh set_rx fill k_rx rx].
      - by rewrite Hfs.
      - unfold rx_places in *. cbn [s1 set_rx fill k_rx rx].
        rewrite Hc, Hf, <- I7, fmap_app, <- list_fmap_compose. cbn [fmap list_fmap]. unfold compose.
        solve_Permutation. }
    apply (inv_counts base _ t (if c >? 0 then sat_sub (global_in_flight s1) c else global_in_flight s1) st (recv y))
      in Hi1; [|done..].
    exact (split_sweep_inv base timeout_ns e _ _ _ _ Hi1).
Qed.

(** *** Every step *)

Lemma split_step_inv base timeout_ns y y' : step cfgs timeout_ns y y' -> inv base y -> inv base y'.
Proof.
  intros [Hs|Hs] Hi; pose proof Hi as [I1 I2 I3 I4 I5 I6 I7 I8 I9 I10 I11 I12 I13];
    unfold tx_places in I6; unfold rx_places in I7.
  2:{ destruct Hs as [y t g st k Hst Hk].
      constructor; cbn [sh senders recv foreign set_counts mem pool tx comp rx fill k_tx k_rx stats placed]; try done.
      rewrite Hk. unfold wadd. rewrite <- Z.add_sub_assoc, Zplus_mod_idemp_l, Z.add_assoc, <- (Zplus_mod_idemp_l (base + foreign y)), <- I13, Zplus_mod_idemp_l.
      f_equal. lia. }
  destruct Hs as [y i cfg e th s' th' Hc Hth _ _ He|y e s' r' _ _ He|y|y d ds s Hc|y a k1 k2 s Hk Hroom|y a l s Hc
                 |y a k1 k2 off len bytes s Hk Hroom Hoff Hlen Hfit Hb]; try subst s.
  - destruct (thread_moved cfg e (sh y) th) as (s1 & th1 & He1 & Hm); [by eapply inv_ready|].
    rewrite He in He1. injection He1 as <- <-. by eapply send_inv.
  - by eapply recv_inv.
  - by constructor.
  - destruct (kernel_take_spec _ _ _ I1 Hc) as (Hok & _ & Hc'). rewrite Hc in I6, I9.
    cbn [fmap list_fmap] in I6.
    constructor; unfold tx_places, rx_places;
      cbn [with_shared sh senders recv foreign set_kernel mem pool tx comp rx fill k_tx k_rx stats placed]; try done.
    + rewrite Hc', <- I6. solve_Permutation.
    + rewrite Hc'. by apply Forall_cons in I9 as [_ ?].
  - destruct (kernel_put_spec _ a I2 Hroom) as (Hok & _ & Hc'). rewrite Hk in I6.
    constructor; unfold tx_places, rx_places;
      cbn [with_shared sh senders recv foreign set_kernel mem pool tx comp rx fill k_tx k_rx stats placed]; try done.
    rewrite Hc', <- I6. solve_Permutation.
  - destruct (kernel_take_spec _ _ _ I4 Hc) as (Hok & _ & Hc'). rewrite Hc in I7.
    cbn [fmap list_fmap] in I7.
    constructor; unfold tx_places, rx_places;
      cbn [with_shared sh senders recv foreign set_kernel mem pool tx comp rx fill k_tx k_rx stats placed]; try done.
    rewrite Hc', <- I7. solve_Permutation.
  - destruct (kernel_put_spec _ (mkDesc (a + off) len 0) I3 Hroom) as (Hok & _ & Hc').
    assert (Ha : a ∈ rx_addrs). { rewrite <- I7, Hk, !elem_of_app. right. left. right. left. }
    assert (Htx : forall x, x ∈ tx_frames -> (x =? a) = false).
    { intros x Hx. bool_to_prop. intros ->. by eapply Xdp.rx_tx_disjoint. }
    constructor; unfold tx_places, rx_places;
      cbn [with_shared sh senders recv foreign set_kernel mem pool tx comp rx fill k_tx k_rx stats placed]; try done.
    + rewrite Hc', fmap_app. cbn [fmap list_fmap d_addr].
      rewrite (Xdp.chunk_offset a off Ha Hoff), <- I7, Hk. solve_Permutation.
    + intros x. destruct (x =? a); [done|apply I8].
    + apply (frames_same u cfgs (mem (sh y))); [|done]. intros x Hx. rewrite Htx; [done|].
      rewrite <- I6, !elem_of_app. tauto.
    + intros j cfg th Hc Hth. apply (thread_ok_mem (mem (sh y))); [|by eapply I11].
      intros x Hx. rewrite Htx; [done|]. destruct (held_split _ _ _ Hth) as (rest & Hr & _ & _).
      rewrite <- I6, Hr, !elem_of_app. tauto.
Qed.

(** *** The flag and the mapping of the frames *)

(** A section leaves the flag alone, and only the section that has popped frames
    touches their memory. *)
Lemma thread_step_frame cfg e (s : shared (H := H)) th s' th' : thread_step cfg e s th = Done (s', th') ->
  shutdown s' = shutdown s /\ (uses_area th = false -> mem s' = mem s).
Proof.
  unfold thread_step, uses_area, decide_send, choose_one, finish, account, take_completed, pop_frames, submit.
  destruct (pc th) as [|done| |count j|addrs j|ds ids j|back ids n j|[|id ids] n j|]; intros He;
    repeat match type of He with
      | context [if ?b then _ else _] => destruct b
      | context [dequeue_all ?c] => destruct (dequeue_all c)
      | context [produce_tx ?t ?l] => destruct (produce_tx t l)
      | context [write_with_index ?p ?i ?d ?b] => destruct (write_with_index p i d b) as [[? ?]|]
      | context [write_job ?c ?j ?a ?m ?i ?t] => destruct (write_job c j a m i t) as [[[? ?] ?]|]
      end; cbn [mbind outcome_bind] in He; try discriminate; by injection He as <- <-.
Qed.

Lemma recv_sweep_frame timeout_ns e (s : shared (H := H)) r s' r' : recv_sweep timeout_ns e s r = (s', r') ->
  shutdown s' = shutdown s /\ returned r' = returned r.
Proof.
  unfold recv_sweep. case_if; [destruct (sweep_expired _ _ _)|]; by injection 1 as <- <-.
Qed.

Lemma recv_turn_frame timeout_ns e (s : shared (H := H)) r s' r' : recv_turn timeout_ns e s r = (s', r') ->
  shutdown s' = shutdown s /\ returned r' = r_stop e || returned r.
Proof.
  unfold recv_turn. destruct (r_stop e); [by injection 1 as <- <-|].
  destruct (consume_rx _) as [ds rx']. destruct (is_empty ds); [|destruct (recv_frames _ _ _ _ _ _) as [[t st] c]];
    intros He; by apply recv_sweep_frame in He as [-> ->].
Qed.

(** The receiver returns, and the frames are unmapped, only when the flag is up. *)
Lemma returned_step timeout_ns (y y' : sys (H := H)) : step cfgs timeout_ns y y' ->
  (returned (recv y) = true -> shutdown (sh y) = true) -> returned (recv y') = true -> shutdown (sh y') = true.
Proof.
  intros [Hs|Hs] Hy; [|by destruct Hs].
  destruct Hs as [y i cfg e th s' th' _ _ _ _ He|y e s' r' Hr Hsd He|y|y d ds s|y a k1 k2 s|y a l s
                 |y a k1 k2 off len bytes s]; cbn [sh recv with_shared set_shutdown set_kernel shutdown]; try done.
  - by apply thread_step_frame in He as [-> _].
  - apply recv_turn_frame in He as [-> ->]. rewrite Hr, orb_false_r. exact Hsd.
Qed.

Lemma returned_reach timeout_ns (y y' : sys (H := H)) : rtc (step cfgs timeout_ns) y y' ->
  (returned (recv y) = true -> shutdown (sh y) = true) -> returned (recv y') = true -> shutdown (sh y') = true.
Proof. intros Hr. induction Hr as [|y1 y2 y3 Hs _ IH]; [done|]. intros Hy. apply IH. by eapply returned_step. Qed.

Lemma split_reach_inv base timeout_ns y y' : rtc (step cfgs timeout_ns) y y' -> inv base y -> inv base y'.
Proof. intros Hr. induction Hr as [|y1 y2 y3 Hs _ IH]; [done|]. intros Hi. apply IH. by eapply split_step_inv. Qed.

Lemma split_inv_init m t g (st : StatsCollector H) now : Xdp.mem_ok m -> counters_in_range st ->
  inv (get Sent st) (init cfgs m t g st now).
Proof.
  intros Hm Hst. unfold init. destruct umem_new as [[fl cm] frames] eqn:E.
  destruct (umem_new_spec _ _ _ E) as (Hf & Hc & Hsz & Hcf & Hcc & ->).
  destruct (fresh_ring_ok (mkDesc 0 0 0) 12) as [Hr Hrc]; [lia|]. change (2 ^ 12) with RING_SIZE in *.
  assert (Hh : forall l, concat (held <$> ((fun cfg => thread_init cfg now) <$> l)) = []).
  { induction l as [|c l IH]; [done|]. exact IH. }
  assert (Hz : forall l, zsum pending ((fun cfg => thread_init cfg now) <$> l) = 0).
  { induction l as [|c l IH]; [done|]. rewrite fmap_cons, zsum_cons, IH. done. }
  constructor; unfold tx_places, rx_places; cbn [sh senders recv foreign mem pool tx comp rx fill k_tx k_rx stats placed];
    try assumption.
  - rewrite Hh, Hrc, Hcc. cbn [fmap list_fmap]. rewrite !app_nil_r. symmetry. apply Permutation_rev.
  - rewrite Hrc, Hcf. cbn [fmap list_fmap]. rewrite !app_nil_r, Xdp.chunk_rx_addrs. reflexivity.
  - rewrite Hrc. constructor.
  - apply length_fmap.
  - intros i cfg th Hcfg Hth. rewrite list_lookup_fmap, Hcfg in Hth. injection Hth as <-.
    assert (Hu : Xdp.started u cfg) by (apply cfg_started; by eapply list_elem_of_lookup_2).
    constructor; cbn [thread_init pc place_ok tmpl_idx local_sent single_buf].
    + exact I.
    + apply (Xdp.st_worker _ _ Hu).
    + unfold FLUSH_N. lia.
    + rewrite length_replicate. reflexivity.
  - rewrite Hz. f_equal. lia.
Qed.

End Invariant.

(** [n] queries sent one after the other, each of them answered (a completion, not
    a time-out) before the next, while the flag stays down. *)
Inductive answered {H} `{HdrHistogram H} (cfgs : list Xdp.config) (timeout_ns : Z) : nat -> sys (H := H) -> sys (H := H) -> Prop :=
| answered_none y : answered cfgs timeout_ns 0 y y
| answered_one n y y1 y2 :
    answered cfgs timeout_ns n y y1 -> rtc (sstep cfgs timeout_ns) y1 y2 ->
    placed (sh y2) = placed (sh y1) + 1 -> occupied (in_flight (sh y2)) = 0 ->
    get Completed (stats (sh y2)) = wadd 64 (get Completed (stats (sh y1))) 1 ->
    get Timeouts (stats (sh y2)) = get Timeouts (stats (sh y1)) -> shutdown (sh y2) = false ->
    answered cfgs timeout_ns (S n) y y2.

(** ** One sender whose queries are all answered at once

    The gate counts a query only when the sender flushes, 1024 queries later, while
    the receiver takes off a reply as soon as it matches: the replies that come
    before the flush are taken off a counter that is already zero. *)

Section Stall.
Context {H : Type} `{HdrHistogram H}.
Variables (u : Xdp.setup) (cfg : Xdp.config) (timeout_ns : Z).
Hypothesis cfg_ok : Xdp.started u cfg.
Hypothesis gated : 1 <= Xdp.max_outstanding cfg < FLUSH_N.

Local Abbreviation runs := (rtc (sstep (H := H) [cfg] timeout_ns)).

Lemma one_started : Forall (Xdp.started u) [cfg].
Proof. by apply Forall_singleton. Qed.

Lemma runs_inv base y y' : runs y y' -> inv u [cfg] base y -> inv u [cfg] base y'.
Proof.
  intros Hr. apply (split_reach_inv u [cfg] one_started base timeout_ns). revert Hr. apply rtc_subrel. intros a b. by left.
Qed.

(** The environment of a paced sender whose clock stands still. *)
Definition steady : tenv := mkTenv false 1 0 0 0 false 0 0 0 0.

(** The only sender runs a section. *)
Lemma sender_step e s th r f s' th' : returned r = false -> t_stop e || t_stop_slept e = false ->
  thread_step cfg e s th = Done (s', th') -> runs (mkSys s [th] r f) (mkSys s' [th'] r f).
Proof.
  intros Hl Hq He. apply rtc_once, (s_send [cfg] timeout_ns (mkSys s [th] r f) 0 cfg e th s' th'); try done.
  - unfold faults. cbn [recv]. rewrite Hl. apply andb_false_r.
  - by rewrite Hq.
Qed.

Lemma gate_open s : global_in_flight (H := H) s = 0 -> gate_closed cfg s = false.
Proof.
  intros Hg. unfold gate_closed. rewrite Hg. apply andb_false_iff. right. bool_to_prop. lia.
Qed.

(** From the head of the loop to a written query. *)
Lemma run_choose base s th r f : inv u [cfg] base (mkSys s [th] r f) -> pc th = Top -> global_in_flight s = 0 -> returned r = false ->
  exists s' th' id dns, runs (mkSys s [th] r f) (mkSys s' [th'] r f) /\
    pc th' = Pop 1 (One id dns) /\ local_sent th' = local_sent th /\ contents (comp s') = [] /\
    tx s' = tx s /\ k_tx s' = k_tx s /\ in_flight s' = in_flight s /\ global_in_flight s' = 0 /\
    placed s' = placed s /\ (rx s', fill s', k_rx s', stats s', shutdown s') = (rx s, fill s, k_rx s, stats s, shutdown s).
Proof.
  intros Hi Hpc Hg Hl. pose proof Hi as [I1 I2 I3 I4 I5 I6 I7 I8 I9 I10 I11 I12 I13]. cbn [sh senders] in *.
  destruct (consume_rx (comp s)) as [done c] eqn:E. destruct (consume_spec _ _ _ I2 E) as (_ & _ & _ & -> & Hc).
  set (l := contents (comp s)) in *.
  assert (R1 : runs (mkSys s [th] r f) (mkSys (set_comp c s) [at_place (Reclaimed l) th] r f)).
  { apply (sender_step steady); [done..|]. unfold thread_step. rewrite Hpc. cbn [t_stop steady].
    unfold take_completed. rewrite dequeue_consume, E by done. reflexivity. }
  set (s2 := if is_empty l then set_comp c s else give_back l (set_comp c s)).
  assert (R2 : runs (mkSys s [th] r f) (mkSys s2 [at_place Decide th] r f)).
  { etrans; [exact R1|]. apply (sender_step steady); [done..|]. reflexivity. }
  assert (H2 : global_in_flight s2 = 0 /\ contents (comp s2) = [] /\ tx s2 = tx s /\ k_tx s2 = k_tx s /\
    in_flight s2 = in_flight s /\ placed s2 = placed s /\ (rx s2, fill s2, k_rx s2, stats s2, shutdown s2) = (rx s, fill s, k_rx s, stats s, shutdown s)).
  { unfold s2. by destruct (is_empty l). }
  destruct H2 as (G2 & H2). clearbody s2.
  set (th2 := if negb (1 =? last_qps th)
              then paced 0 1 (dur_from_secs_f64 (f64_div (f64_of_Z 1) (f64_of_Z 1))) (at_place Decide th)
              else at_place Decide th).
  assert (Hl2 : pc th2 = Decide /\ local_sent th2 = local_sent th) by (unfold th2; by destruct (negb _)).
  assert (Hr2 : ready u [cfg] cfg s2 th2).
  { pose proof (runs_inv base _ _ R2 Hi) as Hi2.
    pose proof (inv_ready u [cfg] base _ 0 cfg (at_place Decide th) Hi2 eq_refl eq_refl) as Hr2. cbn [sh] in Hr2.
    unfold th2. destruct (negb _); [by apply ready_paced|done]. }
  set (ns := next_send th2 + send_interval th2).
  set (th3 := paced (if ns <? 0 then 0 else ns) (last_qps th2) (send_interval th2) th2).
  destruct (choose_one_moved u [cfg] one_started cfg s2 th3) as (th' & Hw & _); [by apply ready_paced|apply Hl2|].
  assert (R3 : runs (mkSys s [th] r f) (mkSys s2 [th'] r f)).
  { etrans; [exact R2|]. apply (sender_step steady); [done..|]. unfold thread_step. cbn [at_place pc]. unfold decide_send.
    cbn [t_qps t_new steady Z.gtb Z.compare]. change (last_qps (at_place Decide th)) with (last_qps th). fold th2.
    rewrite gate_open by done. cbn [t_stop_slept t_now t_late t_reset steady]. rewrite andb_false_r.
    fold ns th3. rewrite Hw. reflexivity. }
  unfold choose_one in Hw. destruct (write_with_index _ _ _ _) as [[buf n]|]; [|discriminate].
  cbn [mbind outcome_bind] in Hw. injection Hw as <-.
  eexists s2, _, _, _. split; [exact R3|]. destruct Hl2 as [_ Hl2]. split_and!; try reflexivity; try apply H2; done.
Qed.

(** From a written query to a frame on the ring. *)
Lemma run_place base s th r f id dns : inv u [cfg] base (mkSys s [th] r f) -> pc th = Pop 1 (One id dns) ->
  contents (tx s) = [] -> k_tx s = [] -> contents (comp s) = [] -> returned r = false ->
  exists s' th' d, runs (mkSys s [th] r f) (mkSys s' [th'] r f) /\
    pc th' = Placed [id] 1 (One id dns) /\ local_sent th' = local_sent th /\ contents (comp s') = [] /\
    contents (tx s') = [d] /\ k_tx s' = [] /\ in_flight s' = in_flight s /\
    global_in_flight s' = global_in_flight s /\ placed s' = placed s + 1 /\
    (rx s', fill s', k_rx s', stats s', shutdown s') = (rx s, fill s, k_rx s, stats s, shutdown s).
Proof.
  intros Hi Hpc Ht Hk Hc Hlv. pose proof Hi as [I1 I2 I3 I4 I5 I6 I7 I8 I9 I10 I11 I12 I13]. cbn [sh senders] in *.
  assert (Hpool : exists a p, pool s = a :: p).
  { pose proof (Permutation_length I6) as Hl. rewrite tx_frames_length in Hl. unfold tx_places in Hl.
    rewrite Ht, Hk, Hc in Hl. cbn [fmap list_fmap concat app] in Hl. unfold held in Hl. rewrite Hpc in Hl.
    rewrite !length_app in Hl. cbn [length] in Hl. destruct (pool s) as [|a p]; [|by eexists _, _].
    exfalso. cbn [length] in Hl. unfold FRAME_COUNT, RING_SIZE in Hl. lia. }
  destruct Hpool as (a & p & Hpool).
  assert (R1 : runs (mkSys s [th] r f) (mkSys (set_pool p s) [at_place (Popped [a] (One id dns)) th] r f)).
  { apply (sender_step steady); [done..|]. unfold thread_step. rewrite Hpc. unfold pop_frames. rewrite Hpool.
    replace (Z.to_nat (Z.min 1 (Z.of_nat (length (a :: p))))) with 1%nat by (cbn [length]; lia). reflexivity. }
  pose proof (inv_ready u [cfg] base _ 0 cfg _ (runs_inv base _ _ R1 Hi) eq_refl eq_refl) as Hr. cbn [sh] in Hr.
  destruct (rd_thread _ _ _ _ _ Hr) as [(Hj & _) T2 _ _].
  destruct (fill_one_spec u [cfg] cfg id dns a (mem s)) as (m & ds & ids & Hw & Hds & _); try done; [left|].
  assert (He : exists d, ds = [d] /\ ids = [id]).
  { unfold fill_one in Hw. destruct (write_frame _ _ _) as [[buf len]|]; [|discriminate].
    cbn [mbind outcome_bind] in Hw. injection Hw as _ <- <-. by eexists. }
  destruct He as (d & -> & ->). injection Hds as Hd.
  set (s2 := set_mem m (set_pool p s)).
  assert (R2 : runs (mkSys s [th] r f) (mkSys s2 [at_place (Holding [d] [id] (One id dns)) th] r f)).
  { etrans; [exact R1|]. apply (sender_step steady); [done..|]. unfold thread_step. cbn [at_place pc write_job set_pool mem].
    rewrite Hw. reflexivity. }
  destruct (enqueue_batch (tx s) [d]) as [n t] eqn:E.
  destruct (enqueue_spec _ _ _ _ I1 E) as (_ & _ & _ & Hn & Hct). pose proof (size_pos _ I1).
  rewrite Ht in Hn, Hct. cbn [length] in Hn. assert (n = 1) as -> by lia. cbn [app] in Hct.
  assert (R3 : runs (mkSys s [th] r f) (mkSys (set_tx t 1 s2) [at_place (Refused [] [id] 1 (One id dns)) th] r f)).
  { etrans; [exact R2|]. apply (sender_step steady); [done..|]. unfold thread_step, submit. cbn [at_place pc].
    change (tx s2) with (tx s). rewrite produce_enqueue, E by done. reflexivity. }
  exists (set_tx t 1 s2), (at_place (Placed [id] 1 (One id dns)) th), d.
  split. { etrans; [exact R3|]. apply (sender_step steady); [done..|]. reflexivity. }
  split_and!; try reflexivity; assumption.
Qed.

(** The kernel sends the frame and returns it. *)
Lemma run_kernel base s ts r f d : inv u [cfg] base (mkSys s ts r f) ->
  contents (tx s) = [d] -> k_tx s = [] -> contents (comp s) = [] ->
  exists s', runs (mkSys s ts r f) (mkSys s' ts r f) /\ contents (tx s') = [] /\ k_tx s' = [] /\
    in_flight s' = in_flight s /\ global_in_flight s' = global_in_flight s /\ placed s' = placed s /\
    (rx s', fill s', k_rx s', stats s', shutdown s') = (rx s, fill s, k_rx s, stats s, shutdown s).
Proof.
  intros Hi Ht Hk Hc. destruct Hi as [I1 I2 _ _ _ _ _ _ _ _ _ _ _]. cbn [sh] in *.
  set (s1 := set_kernel (mem s) (kernel_take (tx s)) (comp s) (rx s) (fill s) (d_addr d :: k_tx s) (k_rx s) s).
  destruct (kernel_take_spec _ _ _ I1 Ht) as (_ & _ & Ht').
  assert (R1 : runs (mkSys s ts r f) (mkSys s1 ts r f)).
  { apply rtc_once. exact (s_tx_take [cfg] timeout_ns (mkSys s ts r f) d [] Ht). }
  pose proof (size_pos _ I2).
  exists (set_kernel (mem s1) (tx s1) (kernel_put (d_addr d) (comp s1)) (rx s1) (fill s1) [] (k_rx s1) s1).
  split; [|by cbn [set_kernel s1 tx k_tx in_flight global_in_flight placed rx fill k_rx stats shutdown]].
  etrans; [exact R1|]. apply rtc_once.
  apply (s_tx_done [cfg] timeout_ns (mkSys s1 ts r f) (d_addr d) [] []).
  - cbn [s1 sh set_kernel k_tx]. by rewrite Hk.
  - cbn [s1 sh set_kernel comp]. rewrite Hc. cbn [length]. lia.
Qed.

(** The bytes of a reply to [id], in a whole frame. *)
Definition reply_frame (id : Z) : list Z :=
  frame_bytes (Xdp.src_mac u) (Xdp.dst_mac u) (Xdp.src_ip u) (Xdp.dst_ip u) 53 (Xdp.src_port u) None
    (id / 256 :: id mod 256 :: 0x80 :: 0 :: replicate 8 0).

Lemma reply_frame_spec id : length (reply_frame id) = 54%nat /\ parse_dns_from_frame (reply_frame id) = Some (id, 0).
Proof.
  destruct cfg_ok as [_ H1 H2 H3 H4 _ _ _ _]. unfold reply_frame. split.
  - apply Nat2Z.inj. rewrite frame_bytes_length by done. reflexivity.
  - rewrite parse_frame_bytes by (done || (cbn; lia)). unfold parse_response.
    change (Z.of_nat (length _) <? 12) with false. cbv iota.
    change ((id / 256 :: id mod 256 :: 128 :: 0 :: replicate 8 0) !!! 0%nat) with (id / 256).
    change ((id / 256 :: id mod 256 :: 128 :: 0 :: replicate 8 0) !!! 1%nat) with (id mod 256).
    rewrite from_to_be16. reflexivity.
Qed.

Lemma in_range_u id : Xdp.in_range cfg id -> in_u 16 id.
Proof.
  intros Hr. destruct (Xdp.id_base_val cfg (Xdp.st_worker _ _ cfg_ok) (Xdp.st_workers _ _ cfg_ok)) as (_ & Hlo & Hhi & _).
  unfold Xdp.in_range, in_u in *. change (2 ^ 16) with 65536. lia.
Qed.

(** What the collector says came back, and what it says was lost. *)
Definition answers (s : shared (H := H)) : Z * Z := (get Completed (stats s), get Timeouts (stats s)).

(** The sender registers the query and counts it. *)
Lemma run_account base s th r f id dns : inv u [cfg] base (mkSys s [th] r f) ->
  pc th = Placed [id] 1 (One id dns) -> length (in_flight s) = TABLE_SIZE -> occupied (in_flight s) = 0 ->
  global_in_flight s = 0 -> returned r = false ->
  exists s' th', runs (mkSys s [th] r f) (mkSys s' [th'] r f) /\ pc th' = Top /\
    (if local_sent th + 1 <? FLUSH_N then local_sent th' = local_sent th + 1 /\ global_in_flight s' = 0
     else local_sent th' = 0 /\ global_in_flight s' = FLUSH_N) /\
    length (in_flight s') = TABLE_SIZE /\ occupied (in_flight s') = 1 /\ slot (in_flight s') id <> 0 /\
    (tx s', k_tx s', placed s') = (tx s, k_tx s, placed s) /\ (rx s', fill s', k_rx s', shutdown s') = (rx s, fill s, k_rx s, shutdown s) /\
    answers s' = answers s.
Proof.
  intros Hi Hpc Hlen Hocc Hg Hlv.
  destruct (rd_thread _ _ _ _ _ (inv_ready u [cfg] base _ 0 cfg th Hi eq_refl eq_refl)) as [T1 _ T3 _].
  rewrite Hpc in T1. destruct T1 as [_ Hids]. apply Forall_cons in Hids as [Hid _]. apply in_range_u in Hid.
  assert (Hin : (Z.to_nat id < length (in_flight s))%nat) by by apply id_in_table.
  set (t := xdp_insert 0 id (in_flight s)).
  assert (Ht : length t = TABLE_SIZE /\ occupied t = 1 /\ slot t id <> 0).
  { unfold t, xdp_insert. rewrite length_store, occupied_store, slot_store_same by done.
    pose proof (occupied_slot (in_flight s) id). pose proof (occ_range (slot (in_flight s) id)).
    split; [done|]. change (occ (Z.max 0 1)) with 1. split; [lia|done]. }
  set (s1 := set_counts t (global_in_flight s) (stats s) s).
  assert (R1 : runs (mkSys s [th] r f) (mkSys s1 [at_place (Placed [] 1 (One id dns)) th] r f)).
  { apply (sender_step steady); [done..|]. unfold thread_step. rewrite Hpc. reflexivity. }
  destruct (account cfg steady 1 (One id dns) s1 (at_place (Placed [] 1 (One id dns)) th)) as [s' th'] eqn:E.
  exists s', th'. split. { etrans; [exact R1|]. apply (sender_step steady); [done..|]. unfold thread_step. cbn [at_place pc]. by rewrite E. }
  unfold account in E. cbn [Z.gtb Z.compare andb at_place local_sent] in E.
  assert (Hcap : (FLUSH_N <=? local_sent th + 1) = negb (local_sent th + 1 <? FLUSH_N)) by (rewrite Z.leb_antisym; done).
  rewrite Hcap in E. destruct (local_sent th + 1 <? FLUSH_N) eqn:El; cbn [negb] in E; injection E as <- <-.
  - split; [done|]. split; [done|]. split_and!; try done; apply Ht.
  - bool_to_prop. assert (El' : local_sent th + 1 = FLUSH_N) by lia. split; [done|]. split.
    + split; [done|]. cbn [flush set_counts global_in_flight s1]. rewrite El', Hg.
      replace (Xdp.max_outstanding cfg >? 0) with true by (symmetry; rewrite Z.gtb_ltb; bool_to_prop; lia). reflexivity.
    + split_and!; try done; apply Ht.
Qed.

(** A reply arrives and is matched. *)
Lemma run_reply base s ts r f id : inv u [cfg] base (mkSys s ts r f) ->
  k_rx s = [] -> contents (rx s) = [] -> in_u 16 id -> length (in_flight s) = TABLE_SIZE ->
  occupied (in_flight s) = 1 -> slot (in_flight s) id <> 0 -> returned r = false ->
  exists s' r', runs (mkSys s ts r f) (mkSys s' ts r' f) /\
    (tx s', k_tx s', placed s', k_rx s') = (tx s, k_tx s, placed s, []) /\ contents (rx s') = [] /\
    length (in_flight s') = TABLE_SIZE /\ occupied (in_flight s') = 0 /\
    global_in_flight s' = sat_sub (global_in_flight s) 1 /\ (returned r', shutdown s') = (false, shutdown s) /\
    answers s' = (wadd 64 (answers s).1 1, (answers s).2).
Proof.
  intros Hi Hk Hx Hid Hlen Hocc Hslot Hlv. pose proof Hi as [I1 I2 I3 I4 I5 I6 I7 I8 I9 I10 I11 I12 I13]. cbn [sh senders] in *.
  assert (Hf : exists a l, contents (fill s) = a :: l).
  { pose proof (Permutation_length I7) as Hl. rewrite rx_addrs_length in Hl. unfold rx_places in Hl.
    rewrite Hk, Hx in Hl. cbn [fmap list_fmap app] in Hl. rewrite app_nil_r, length_fmap in Hl.
    destruct (contents (fill s)) as [|a l]; [|by eexists _, _]. exfalso. cbn [length] in Hl. unfold RING_SIZE in Hl. lia. }
  destruct Hf as (a & l & Hf). set (c := Xdp.chunk a).
  assert (Hc : c ∈ rx_addrs).
  { rewrite <- I7. unfold rx_places. rewrite Hf. apply elem_of_app. left. cbn [fmap list_fmap]. left. }
  set (s1 := set_kernel (mem s) (tx s) (comp s) (rx s) (kernel_take (fill s)) (k_tx s) (c :: k_rx s) s).
  assert (R1 : runs (mkSys s ts r f) (mkSys s1 ts r f)).
  { apply rtc_once. exact (s_fill_take [cfg] timeout_ns (mkSys s ts r f) a l Hf). }
  destruct (reply_frame_spec id) as [Hrl Hrp].
  set (bytes := reply_frame id ++ replicate 1994 0).
  pose proof (size_pos _ I3). assert (Hroom : Z.of_nat (length (contents (rx s))) < size (rx s)) by (rewrite Hx; cbn [length]; lia).
  destruct (kernel_put_spec _ (mkDesc (c + 0) 54 0) I3 Hroom) as (Hok2 & _ & Hc2). rewrite Hx in Hc2. cbn [app] in Hc2.
  set (rx2 := kernel_put (mkDesc (c + 0) 54 0) (rx s)) in *.
  set (s2 := set_kernel (fun x => if x =? c then bytes else mem s x) (tx s) (comp s) rx2 (fill s1) (k_tx s) [] s1).
  assert (R2 : runs (mkSys s ts r f) (mkSys s2 ts r f)).
  { etrans; [exact R1|]. apply rtc_once. apply (s_rx [cfg] timeout_ns (mkSys s1 ts r f) c [] [] 0 54 bytes).
    - cbn [s1 sh set_kernel k_rx]. by rewrite Hk.
    - exact Hroom.
    - unfold FRAME_SIZE. lia.
    - lia.
    - unfold FRAME_SIZE. lia.
    - unfold bytes. rewrite length_app, Hrl, length_replicate. reflexivity. }
  assert (Hch : Xdp.chunk (c + 0) = c) by (apply Xdp.chunk_offset; [done|unfold FRAME_SIZE; lia]).
  assert (Hfr : Xdp.frame_of (mem s2) (mkDesc (c + 0) 54 0) = reply_frame id).
  { unfold Xdp.frame_of. cbn [d_len d_addr s2 set_kernel mem]. rewrite Hch, Z.eqb_refl.
    assert (Hm : (c + 0) mod FRAME_SIZE = 0) by (unfold Xdp.chunk in Hch at 1; lia).
    rewrite Hm. cbn [Z.to_nat drop]. unfold bytes. change (Z.to_nat 54) with 54%nat. rewrite <- Hrl. apply take_app_length. }
  set (e := mkRenv false (fun _ => 0) (last_timeout_check r) 0).
  destruct (recv_turn timeout_ns e s2 r) as [s3 r3] eqn:E. exists s3, r3.
  split. { etrans; [exact R2|]. apply rtc_once. exact (s_recv [cfg] timeout_ns (mkSys s2 ts r f) e s3 r3 Hlv ltac:(discriminate) E). }
  unfold recv_turn in E. cbn [r_stop e] in E. change (rx s2) with rx2 in E.
  destruct (consume_rx rx2) as [ds rx3] eqn:Ec. destruct (consume_spec _ _ _ Hok2 Ec) as (_ & _ & _ & -> & Hc3).
  rewrite Hc2 in E. cbn [is_empty recv_frames] in E. rewrite Hfr, Hrp in E.
  change (in_flight s2) with (in_flight s) in E. unfold xdp_take in E.
  replace (slot (in_flight s) id =? 0) with false in E by (symmetry; bool_to_prop; lia).
  cbn [Z.gtb Z.compare Z.add] in E. unfold recv_sweep in E. cbn [r_now e last_timeout_check] in E.
  replace (10000000 <=? _) with false in E by (symmetry; bool_to_prop; unfold sat_sub; lia).
  injection E as <- <-.
  assert (Hin : (Z.to_nat id < length (in_flight s))%nat) by by apply id_in_table.
  cbn [set_counts set_rx tx k_tx placed k_rx rx in_flight global_in_flight s2 s1 set_kernel].
  split; [done|]. split; [exact Hc3|]. rewrite length_store, occupied_store by done. split; [done|].
  split; [|by rewrite Hlv]. rewrite Hocc. unfold occ. replace (slot (in_flight s) id =? 0) with false by (symmetry; bool_to_prop; lia).
  reflexivity.
Qed.

(** Nothing is outstanding and nothing is on its way. *)
Record calm (s : shared (H := H)) (th : thread) : Prop := mkCalm {
  c_pc : pc th = Top;
  c_tx : contents (tx s) = [];
  c_ktx : k_tx s = [];
  c_rx : contents (rx s) = [];
  c_krx : k_rx s = [];
  c_len : length (in_flight s) = TABLE_SIZE;
  c_occ : occupied (in_flight s) = 0
}.

(** One query, sent and answered: the gate is back at zero, until the count that
    includes it is flushed. *)
Lemma run_query base s th r f : inv u [cfg] base (mkSys s [th] r f) -> calm s th -> global_in_flight s = 0 ->
  returned r = false ->
  exists s' th' r', runs (mkSys s [th] r f) (mkSys s' [th'] r' f) /\ calm s' th' /\ placed s' = placed s + 1 /\
    (if local_sent th + 1 <? FLUSH_N then local_sent th' = local_sent th + 1 /\ global_in_flight s' = 0
     else local_sent th' = 0 /\ global_in_flight s' = FLUSH_N - 1) /\
    (returned r', shutdown s') = (false, shutdown s) /\ answers s' = (wadd 64 (answers s).1 1, (answers s).2).
Proof.
  intros Hi [C1 C2 C3 C4 C5 C6 C7] Hg Hlv.
  destruct (run_choose base s th r f Hi C1 Hg Hlv)
    as (s1 & th1 & id & dns & R1 & P1 & L1 & K1 & T1 & KT1 & F1 & G1 & N1 & X1). injection X1 as X1 X1' X1'' Z1 Z1'.
  pose proof (runs_inv base _ _ R1 Hi) as Hi1. rewrite <- T1 in C2. rewrite <- KT1 in C3.
  destruct (run_place base s1 th1 r f id dns Hi1 P1 C2 C3 K1 Hlv)
    as (s2 & th2 & d & R2 & P2 & L2 & K2 & T2 & KT2 & F2 & G2 & N2 & X2). injection X2 as X2 X2' X2'' Z2 Z2'.
  pose proof (runs_inv base _ _ R2 Hi1) as Hi2.
  destruct (run_kernel base s2 [th2] r f d Hi2 T2 KT2 K2) as (s3 & R3 & T3 & KT3 & F3 & G3 & N3 & X3).
  injection X3 as X3 X3' X3'' Z3 Z3'. pose proof (runs_inv base _ _ R3 Hi2) as Hi3.
  assert (E3 : in_flight s3 = in_flight s) by congruence.
  destruct (run_account base s3 th2 r f id dns Hi3 P2) as (s4 & th4 & R4 & P4 & A4 & L4 & O4 & S4 & T4 & X4 & Q4);
    [by rewrite E3..|congruence|done|]. injection T4 as T4 KT4 N4. injection X4 as X4 X4' X4'' Z4.
  pose proof (runs_inv base _ _ R4 Hi3) as Hi4.
  destruct (run_reply base s4 [th4] r f id Hi4) as (s5 & r5 & R5 & T5 & RX5 & L5 & O5 & G5 & V5 & Q5); try done; try congruence.
  { destruct (rd_thread _ _ _ _ _ (inv_ready u [cfg] base _ 0 cfg th1 Hi1 eq_refl eq_refl)) as [Hj _ _ _].
    rewrite P1 in Hj. destruct Hj as ((_ & Hr & _) & _). by apply in_range_u. }
  injection T5 as T5 KT5 N5 KR5. exists s5, th4, r5.
  split; [by etrans; [exact R1|etrans; [exact R2|etrans; [exact R3|etrans; [exact R4|exact R5]]]]|].
  split; [constructor; try done; congruence|]. split; [lia|].
  replace (local_sent th2) with (local_sent th) in A4 by congruence.
  split; [destruct (_ <? FLUSH_N); destruct A4 as [A4 A4']; (split; [done|]); rewrite G5, A4'; reflexivity|].
  split; [rewrite V5; congruence|]. rewrite Q5, Q4. unfold answers. by replace (stats s3) with (stats s) by congruence.
Qed.

Lemma answered_runs n y y' : answered (H := H) [cfg] timeout_ns n y y' -> runs y y'.
Proof. induction 1 as [|n y y1 y2 _ IH Hr]; [done|]. by etrans. Qed.

(** The first queries, up to 1023 of them: the gate is at zero after each. *)
Lemma run_queries base s th r f (k : nat) : inv u [cfg] base (mkSys s [th] r f) -> calm s th ->
  global_in_flight s = 0 -> local_sent th = 0 -> returned r = false -> shutdown s = false -> Z.of_nat k < FLUSH_N ->
  exists s' th' r', answered [cfg] timeout_ns k (mkSys s [th] r f) (mkSys s' [th'] r' f) /\ calm s' th' /\
    placed s' = placed s + Z.of_nat k /\ local_sent th' = Z.of_nat k /\ global_in_flight s' = 0 /\
    (returned r', shutdown s') = (false, false).
Proof.
  intros Hi Hc Hg Hl Hlv Hsd. induction k as [|k IH]; intros Hk.
  { exists s, th, r. split; [constructor|]. split_and!; try done; [cbn; lia|by rewrite Hlv, Hsd]. }
  destruct IH as (s1 & th1 & r1 & R1 & C1 & N1 & L1 & G1 & V1); [lia|]. injection V1 as V1 V1'.
  destruct (run_query base s1 th1 r1 f) as (s2 & th2 & r2 & R2 & C2 & N2 & A2 & V2 & Q2); try done.
  { by apply (runs_inv base _ _ (answered_runs _ _ _ R1)). }
  replace (local_sent th1 + 1 <? FLUSH_N) with true in A2 by (symmetry; bool_to_prop; lia).
  injection Q2 as Q2 Q2'. injection V2 as V2 V2'. rewrite V1' in V2'.
  exists s2, th2, r2. split; [|split; [done|]; rewrite V2, V2'; split_and!; try done; lia].
  eapply answered_one; try done. apply (c_occ _ _ C2).
Qed.

(** *** The stall *)

Lemma empty_slot t id : occupied t = 0 -> slot t id = 0.
Proof.
  intros Ht. pose proof (occupied_slot t id) as Ho. pose proof (occ_range (slot t id)). unfold occ in *.
  destruct (slot t id =? 0) eqn:E; bool_to_prop; [done|lia].
Qed.

Lemma empty_store t id : occupied t = 0 -> occupied (store id 0 t) = 0.
Proof.
  intros Ht. destruct (decide (Z.to_nat id < length t)%nat) as [Hl|Hl].
  - rewrite occupied_store, empty_slot, Ht by done. reflexivity.
  - unfold store. by rewrite list_insert_ge by lia.
Qed.

Lemma empty_recv clock m ds t (st : StatsCollector H) t' st' c c' : occupied t = 0 ->
  recv_frames clock m ds t st c = (t', st', c') -> occupied t' = 0 /\ st' = st /\ c' = c.
Proof.
  revert clock t. induction ds as [|d ds IH]; intros clock t Ht He; cbn [recv_frames] in He.
  { by injection He as <- <- <-. }
  destruct (parse_dns_from_frame _) as [[id rcode]|]; [|by eapply IH].
  unfold xdp_take in He. rewrite (empty_slot t id Ht) in He. eapply IH; [|exact He]. by apply empty_store.
Qed.

Lemma empty_sweep elapsed timeout t : occupied t = 0 ->
  (sweep_expired elapsed timeout t).1 = 0 /\ occupied (sweep_expired elapsed timeout t).2 = 0.
Proof.
  intros Ht. unfold sweep_expired. set (p := fun v => _). pose proof (occupied_sweep p t) as Hs.
  pose proof (occupied_nonneg (sweep_table p t).2). rewrite Ht in Hs.
  assert (0 <= (sweep_table p t).1).
  { apply zsum_nonneg. intros v _. unfold sweep_slot. by destruct (_ && _). }
  lia.
Qed.

(** The gate is closed, and no query is outstanding that could open it; the sender
    goes round its loop until the flag is raised. *)
Inductive stalled (n : Z) : sys (H := H) -> Prop :=
| stalled_at s th r f :
    Xdp.max_outstanding cfg <= global_in_flight s -> occupied (in_flight s) = 0 -> placed s = n ->
    local_sent th = 0 -> (shutdown s = false -> pc th <> Exited) ->
    match pc th with Top | Reclaimed _ | Decide | Exited => True | _ => False end ->
    stalled n (mkSys s [th] r f).

Lemma gate_shut s : Xdp.max_outstanding cfg <= global_in_flight (H := H) s -> gate_closed cfg s = true.
Proof.
  intros Hg. unfold gate_closed. apply andb_true_iff. rewrite Z.gtb_ltb. split; bool_to_prop; lia.
Qed.

Lemma stalled_send n e s th r f s' th' : stalled n (mkSys s [th] r f) ->
  (t_stop e || t_stop_slept e = true -> shutdown s = true) -> thread_step cfg e s th = Done (s', th') ->
  stalled n (mkSys s' [th'] r f).
Proof.
  inversion 1 as [s0 th0 r0 f0 Hg Ho Hp Hl Hx Hpc]; subst. intros Hsd. unfold thread_step.
  assert (Hfin : finish cfg e s th = (s, at_place Exited th)) by (unfold finish; by rewrite Hl).
  destruct (pc th) eqn:E; try done.
  - rewrite Hfin. destruct (t_stop e).
    { injection 1 as <- <-. constructor; try done. by rewrite (Hsd eq_refl). }
    unfold take_completed. destruct (dequeue_all _) as [l c]. injection 1 as <- <-. by constructor.
  - injection 1 as <- <-. destruct (is_empty _); by constructor.
  - unfold decide_send. rewrite gate_shut by done.
    destruct (t_qps e >? 0); [destruct (negb _)|]; injection 1 as <- <-; by constructor.
  - injection 1 as <- <-. constructor; try done; by rewrite E.
Qed.

Lemma stalled_sweep n e s ts r0 r f s' r' : stalled n (mkSys s ts r0 f) -> recv_sweep timeout_ns e s r = (s', r') ->
  stalled n (mkSys s' ts r' f).
Proof.
  inversion 1 as [s0 th0 r1 f0 Hg Ho Hp Hl Hx Hpc]; subst. unfold recv_sweep. case_if; [|injection 1 as <- <-; by constructor].
  destruct (empty_sweep (r_sweep e) timeout_ns (in_flight s) Ho) as [Hn Ht].
  destruct (sweep_expired _ _ _) as [k t]. cbn [fst snd] in Hn, Ht. subst k. injection 1 as <- <-. by constructor.
Qed.

Lemma stalled_step n y y' : sstep [cfg] timeout_ns y y' -> stalled n y -> stalled n y'.
Proof.
  intros Hs Hst. destruct Hs as [y i c e th s' th' Hc Hth _ Hsd He|y e s' r' _ _ He|y|y d ds s0|y a k1 k2 s0|y a l s0
                    |y a k1 k2 off len bytes s0]; inversion Hst as [s th1 r f Hg Ho Hp Hl Hx Hpc]; subst;
    cbn [sh senders recv foreign] in *; try (by constructor).
  - destruct i as [|i]; [|done]. injection Hc as <-. injection Hth as <-. by eapply stalled_send.
  - unfold recv_turn in He. destruct (r_stop e); [injection He as <- <-; by constructor|].
    destruct (consume_rx (rx s)) as [ds rx'].
    destruct (is_empty ds); [eapply (stalled_sweep _ e _ _ r); [|exact He]; by constructor|].
    destruct (recv_frames _ _ _ _ _ _) as [[t st] c] eqn:Ef.
    destruct (empty_recv _ _ _ _ _ _ _ _ _ Ho Ef) as (Ht & -> & ->).
    eapply (stalled_sweep _ e _ _ r); [|exact He]. by constructor.
Qed.

Lemma stalled_runs n y y' : runs y y' -> stalled n y -> stalled n y'.
Proof. intros Hr. induction Hr as [|y1 y2 y3 Hs _ IH]; [done|]. intros Hst. apply IH. by eapply stalled_step. Qed.

End Stall.

(** The first burst of a sender that is alone on its queue: the frames are popped. *)
Lemma reach_popped {H} `{HdrHistogram H} u cfg m (st : StatsCollector H) now timeout_ns :
  Xdp.started u cfg -> Xdp.mem_ok m -> counters_in_range st -> 0 <= Xdp.max_outstanding cfg ->
  exists s th, rtc (sstep [cfg] timeout_ns) (init [cfg] m table_new 0 st now) (mkSys s [th] (mkReceiver now 0 false) 0) /\
    held th <> [] /\ uses_area th = true /\ shutdown s = false.
Proof.
  intros Hu Hm Hst Hg. pose proof (split_inv_init u [cfg] (one_started u cfg Hu) m table_new 0 st now Hm Hst) as Hi.
  assert (Hp : (0 < length (pool (sh (init [cfg] m table_new 0 st now))))%nat).
  { pose proof (Permutation_length (i_tx_places _ _ _ _ Hi)) as Hl. rewrite tx_frames_length in Hl. revert Hl.
    unfold init. destruct umem_new as [[fl cm] frames] eqn:E. destruct (umem_new_spec _ _ _ E) as (_ & _ & _ & _ & Hcc & _).
    destruct (fresh_ring_ok (mkDesc 0 0 0) 12) as [_ Hrc]; [lia|]. change (2 ^ 12) with RING_SIZE in *.
    unfold tx_places. cbn [sh pool tx k_tx comp senders fmap list_fmap concat app thread_init]. rewrite Hrc, Hcc.
    cbn [fmap list_fmap held thread_init pc app]. rewrite !app_nil_r. unfold FRAME_COUNT, RING_SIZE. lia. }
  unfold init in *. destruct umem_new as [[fl cm] frames] eqn:E. cbn [fmap list_fmap sh pool] in *.
  set (s0 := mkShared _ _ _ _ _ _ _ _ _ _ _ _ _) in *. set (r0 := mkReceiver now 0 false).
  set (e := mkTenv false 0 0 0 0 false 0 0 0 0).
  pose proof (fun s th s' th' => sender_step cfg timeout_ns e s th r0 0 s' th' eq_refl eq_refl) as Hstep.
  set (th0 := thread_init cfg now) in *. destruct (dequeue_all (comp s0)) as [l c] eqn:Ed.
  set (s2 := if is_empty l then set_comp c s0 else give_back l (set_comp c s0)).
  assert (Hp2 : (0 < length (pool s2))%nat).
  { unfold s2. destruct (is_empty l); [exact Hp|]. unfold give_back. cbn [set_pool set_comp pool]. rewrite length_app.
    cbn [s0 pool]. lia. }
  assert (Hg2 : global_in_flight s2 = 0) by (unfold s2; by destruct (is_empty l)).
  set (count := if Xdp.max_outstanding cfg >? 0 then Z.min (Xdp.max_outstanding cfg - global_in_flight s2) Xdp.TX_BATCH else Xdp.TX_BATCH).
  assert (Hc : 1 <= count). { unfold count, Xdp.TX_BATCH. rewrite Hg2. destruct (_ >? 0) eqn:G; [apply Z.gtb_lt in G|]; lia. }
  set (n := Z.to_nat (Z.min count (Z.of_nat (length (pool s2))))).
  set (th5 := at_place (Popped (take n (pool s2)) Batch) th0). set (s3 := set_pool (drop n (pool s2)) s2).
  assert (Ht : take n (pool s2) <> []). { unfold n. destruct (pool s2) as [|a p]; [cbn in Hp2; lia|].
    cbn [length]. destruct (Z.to_nat _) eqn:En; [lia|]. discriminate. }
  exists s3, th5. split; [|split; [done|]; split; [done|]; unfold s3, s2; by destruct (is_empty l)].
  etrans; [apply (Hstep _ th0 (set_comp c s0) (at_place (Reclaimed l) th0)); unfold thread_step, take_completed; cbn [th0 thread_init pc t_stop e]; by rewrite Ed|].
  etrans; [by apply (Hstep _ _ s2 (at_place Decide th0))|].
  etrans.
  { apply (Hstep _ _ s2 (at_place (Pop count Batch) th0)). unfold thread_step, decide_send, gate_closed. cbn [at_place pc t_qps e].
    rewrite Hg2. replace (Xdp.max_outstanding cfg <=? 0) with (negb (Xdp.max_outstanding cfg >? 0)) by (rewrite Z.gtb_ltb; by rewrite <- Z.leb_antisym).
    rewrite andb_negb_r. unfold count. by rewrite Hg2. }
  apply (Hstep _ _ s3 th5). unfold thread_step, pop_frames. cbn [at_place pc]. fold n. by destruct (take n (pool s2)).
Qed.

(** ** Theorems *)

(** C5. Frame ownership with locks: any number of senders share the transmit side of
    a queue, and their critical sections interleave in any order with each other,
    the receiver, the kernel and the workers of other queues.  In every reachable
    state each transmit frame is in exactly one of the pool, the ring, the kernel,
    the completion ring and one sender's hands, and each receive frame in one place
    of its own; every queued descriptor is the complete frame of a query of the
    source with an id of one sender's range; the next section of any sender is
    defined, leaves the memory of all frames that sender does not hold as it is, and
    touches none at all unless the sender has just popped them; and until the
    shutdown flag is raised no sender is about to write to unmapped memory. *)
Theorem split_frames_exclusive {H} `{HdrHistogram H} u cfgs m t g (st : StatsCollector H) now timeout_ns y :
  Forall (Xdp.started u) cfgs -> Xdp.mem_ok m -> counters_in_range st ->
  rtc (step cfgs timeout_ns) (init cfgs m t g st now) y ->
  tx_places (sh y) ++ concat (held <$> senders y) ≡ₚ tx_frames /\ rx_places (sh y) ≡ₚ rx_addrs /\
  NoDup ((tx_places (sh y) ++ concat (held <$> senders y)) ++ rx_places (sh y)) /\
  Forall (frame_ok u cfgs (mem (sh y))) (contents (tx (sh y))) /\
  forall i cfg th e, cfgs !! i = Some cfg -> senders y !! i = Some th ->
    (exists s' th', thread_step cfg e (sh y) th = Done (s', th') /\
       (forall a, a ∉ held th -> mem s' a = mem (sh y) a) /\ (uses_area th = false -> mem s' = mem (sh y))) /\
    (shutdown (sh y) = false -> faults y th = false).
Proof.
  intros Hu Hm Hst Hr. pose proof (split_reach_inv u cfgs Hu _ timeout_ns _ _ Hr (split_inv_init u cfgs Hu m t g st now Hm Hst)) as Hi.
  split; [apply Hi|]. split; [apply Hi|]. split.
  { rewrite (i_tx_places _ _ _ _ Hi), (i_rx_places _ _ _ _ Hi), Permutation_app_comm. exact rx_tx_NoDup. }
  split; [apply Hi|]. intros i cfg th e Hc Hth.
  destruct (thread_moved u cfgs Hu cfg e (sh y) th) as (s' & th' & He & Hmv); [by eapply inv_ready|].
  split; [exists s', th'; split; [done|]; split; [apply Hmv|apply (thread_step_frame cfg e _ _ _ _ He)]|].
  intros Hsd. unfold faults. destruct (returned (recv y)) eqn:Er; [|apply andb_false_r].
  rewrite (returned_reach cfgs timeout_ns _ _ Hr) in Hsd; [discriminate| |done].
  unfold init. by destruct umem_new as [[fl cm] frames].
Qed.

(** C19. The frames can be unmapped under a sender: from the start of any queue with one
    sender, a run leads to a state in which that sender has popped frames and is
    about to write them through the raw pointer, and the receiver, which owns the
    memory, has seen the shutdown flag, returned and unmapped it. *)
Theorem split_area_unmapped {H} `{HdrHistogram H} u cfg m (st : StatsCollector H) now timeout_ns :
  Xdp.started u cfg -> Xdp.mem_ok m -> counters_in_range st -> 0 <= Xdp.max_outstanding cfg ->
  exists y th, rtc (sstep [cfg] timeout_ns) (init [cfg] m table_new 0 st now) y /\ senders y = [th] /\
    held th <> [] /\ faults y th = true.
Proof.
  intros Hu Hm Hst Hg. destruct (reach_popped u cfg m st now timeout_ns Hu Hm Hst Hg) as (s & th & Hr & Hh & Ha & _).
  exists (mkSys (set_shutdown s) [th] (mkReceiver now 0 true) 0), th.
  split; [|split; [done|]; split; [done|]; unfold faults; by rewrite Ha].
  etrans; [exact Hr|]. etrans; [apply rtc_once, s_shutdown|]. apply rtc_once.
  by apply (s_recv [cfg] timeout_ns (mkSys (set_shutdown s) [th] (mkReceiver now 0 false) 0) (mkRenv true (fun _ => 0) 0 0)).
Qed.

(** C17. The sent counter: in every reachable state what the collector counts as sent,
    plus what each sender has placed and not flushed (fewer than 1024 in its local
    count), is what was placed on the ring by this queue's senders and flushed by
    the others (64-bit counters); when the senders of the queue have exited, the
    counter is exact. *)
Theorem split_sent_exact {H} `{HdrHistogram H} u cfgs m t g (st : StatsCollector H) now timeout_ns y :
  Forall (Xdp.started u) cfgs -> Xdp.mem_ok m -> counters_in_range st ->
  rtc (step cfgs timeout_ns) (init cfgs m t g st now) y ->
  (get Sent (stats (sh y)) + zsum pending (senders y)) mod 2 ^ 64 =
    (get Sent st + placed (sh y) + foreign y) mod 2 ^ 64 /\
  Forall (fun th => 0 <= local_sent th < FLUSH_N) (senders y) /\
  (Forall (fun th => pc th = Exited) (senders y) ->
   get Sent (stats (sh y)) = (get Sent st + placed (sh y) + foreign y) mod 2 ^ 64).
Proof.
  intros Hu Hm Hst Hr. pose proof (split_reach_inv u cfgs Hu _ timeout_ns _ _ Hr (split_inv_init u cfgs Hu m t g st now Hm Hst)) as Hi.
  assert (Hs : (get Sent (stats (sh y)) + zsum pending (senders y)) mod 2 ^ 64 =
               (get Sent st + placed (sh y) + foreign y) mod 2 ^ 64).
  { pose proof (i_sent _ _ _ _ Hi) as Hs.
    replace (get Sent (stats (sh y)) + zsum pending (senders y))
      with (get Sent (stats (sh y)) + zsum pending (senders y) - placed (sh y) + placed (sh y)) by lia.
    rewrite <- Zplus_mod_idemp_l, Hs, Zplus_mod_idemp_l. f_equal. lia. }
  split; [exact Hs|]. split.
  - apply Forall_lookup. intros i th Hth. assert (Hlt : (i < length (senders y))%nat) by (by eapply lookup_lt_Some).
    rewrite (i_len _ _ _ _ Hi) in Hlt. destruct (lookup_lt_is_Some_2 cfgs i Hlt) as [cfg Hc].
    apply (t_local _ _ _ _ _ (i_threads _ _ _ _ Hi i cfg th Hc Hth)).
  - intros Hex. rewrite <- Hs.
    assert (Hz : zsum pending (senders y) = 0).
    { clear -Hex. induction Hex as [|th ts Hth _ IH]; [done|]. rewrite zsum_cons, IH. unfold pending. by rewrite Hth. }
    rewrite Hz, Z.add_0_r. symmetry. apply Z.mod_small, (i_range _ _ _ _ Hi).
Qed.

(** C18. The gate of the split path stalls: with one sender and any limit from 1 to
    1023, there is a run in which 1024 queries are sent, each answered before the
    next is sent, and then, with the flag down, the gate is closed with nothing
    outstanding.  Every continuation, whatever the clocks, the network and the rate
    do, leaves it closed and sends no further query, and as long as the flag stays
    down the sender is still in its loop.  The sender adds to the gate only at its
    1024-query flush, and the replies that came before were taken off a counter
    that was zero. *)
Theorem split_gate_stalls {H} `{HdrHistogram H} u cfg m (st : StatsCollector H) now timeout_ns :
  Xdp.started u cfg -> Xdp.mem_ok m -> counters_in_range st -> 1 <= Xdp.max_outstanding cfg < FLUSH_N ->
  exists y, answered [cfg] timeout_ns (Z.to_nat FLUSH_N) (init [cfg] m table_new 0 st now) y /\
    forall y', rtc (sstep [cfg] timeout_ns) y y' ->
      placed (sh y') = FLUSH_N /\ occupied (in_flight (sh y')) = 0 /\ gate_closed cfg (sh y') = true /\
      exists th, senders y' = [th] /\ (shutdown (sh y') = false -> pc th <> Exited).
Proof.
  intros Hu Hm Hst Hg. pose proof (split_inv_init u [cfg] (one_started u cfg Hu) m table_new 0 st now Hm Hst) as Hi.
  unfold init in *. destruct umem_new as [[fl cm] frames] eqn:E. cbn [fmap list_fmap] in *.
  destruct (fresh_ring_ok (mkDesc 0 0 0) 12) as [_ Hrc]; [lia|]. change (2 ^ 12) with RING_SIZE in *.
  destruct (run_queries u cfg timeout_ns Hu Hg _ _ _ _ _ (Z.to_nat (FLUSH_N - 1)) Hi)
    as (s1 & th1 & r1 & R1 & C1 & N1 & L1 & G1 & V1); [|reflexivity|reflexivity|reflexivity|reflexivity|unfold FLUSH_N; lia|].
  { constructor; cbn [thread_init pc tx k_tx rx k_rx in_flight];
      [reflexivity|exact Hrc|reflexivity|exact Hrc|reflexivity|apply length_replicate|apply occupied_new]. }
  pose proof (runs_inv u cfg timeout_ns Hu _ _ _ (answered_runs _ _ _ _ _ R1) Hi) as Hi1. injection V1 as V1 V1'.
  destruct (run_query u cfg timeout_ns Hu Hg _ s1 th1 r1 0 Hi1 C1 G1 V1) as (s2 & th2 & r2 & R2 & C2 & N2 & A2 & V2 & Q2).
  cbn [placed] in N1. rewrite Z2Nat.id in N1, L1 by (unfold FLUSH_N; lia).
  replace (local_sent th1 + 1 <? FLUSH_N) with false in A2 by (symmetry; bool_to_prop; lia). destruct A2 as [L2 G2].
  injection Q2 as Q2 Q2'. injection V2 as V2 V2'. rewrite V1' in V2'.
  exists (mkSys s2 [th2] r2 0). split.
  { change (Z.to_nat FLUSH_N) with (S (Z.to_nat (FLUSH_N - 1))). eapply answered_one; try done. apply (c_occ _ _ C2). }
  intros y' Hr. assert (Hs : stalled cfg FLUSH_N (mkSys s2 [th2] r2 0)).
  { constructor; try lia; [apply (c_occ _ _ C2)| |]; by rewrite (c_pc _ _ C2). }
  pose proof (stalled_runs cfg timeout_ns Hg FLUSH_N _ _ Hr Hs) as Hs'. inversion Hs' as [s th r f G O P L X]; subst.
  split; [done|]. split; [done|]. split; [by apply gate_shut|]. by exists th.
Qed.

(** ** Witnesses *)

Definition ex_cfg (w max : Z) : Xdp.config :=
  Xdp.mkConfig (new_with_vlan [2; 0; 0; 0; 0; 1] [2; 0; 0; 0; 0; 2] [10; 0; 0; 1] [10; 0; 0; 2] 4000 53 None)
    (mkPool [build_wire_template (lit "a.example") 1; build_wire_template (lit "b.example") 28])
    w 2 max 3000000000 false false.

Lemma split_ex_started w max : 0 <= w -> Xdp.started Xdp.ex_setup (ex_cfg w max).
Proof.
  intros Hw. constructor; try reflexivity;
    cbn [ex_cfg Xdp.ex_setup Xdp.worker_id Xdp.num_workers Xdp.entries]; try lia.
  repeat constructor; vm_compute; discriminate.
Qed.

Lemma split_ex_stats_range : counters_in_range (stats_new (H := exact_hist)).
Proof. intros c. destruct c; vm_compute; split; congruence. Qed.

Definition ex_init (max : Z) : sys (H := exact_hist) :=
  init [ex_cfg 0 max] (fun _ => replicate 2048 0) table_new 0 stats_new 0.

Lemma ex_all_started max : Forall (Xdp.started Xdp.ex_setup) [ex_cfg 0 max].
Proof. apply Forall_singleton, split_ex_started. lia. Qed.

Lemma sstep_step {H} `{HdrHistogram H} cfgs timeout_ns (y y' : sys (H := H)) :
  rtc (sstep cfgs timeout_ns) y y' -> rtc (step cfgs timeout_ns) y y'.
Proof. apply rtc_subrel. intros a b. by left. Qed.

(** A sender with popped frames: its section returns and writes to mapped memory. *)
Lemma split_frames_exclusive_witness :
  exists y th s' th', rtc (step [ex_cfg 0 0] 3000000000) (ex_init 0) y /\ senders y = [th] /\ held th <> [] /\
    thread_step (ex_cfg 0 0) steady (sh y) th = Done (s', th') /\ faults y th = false.
Proof.
  destruct (reach_popped Xdp.ex_setup (ex_cfg 0 0) (fun _ => replicate 2048 0) (stats_new (H := exact_hist)) 0 3000000000)
    as (s & th & Hr & Hh & _ & Hsd).
  { apply split_ex_started. lia. } { exact Xdp.ex_mem_ok. } { exact split_ex_stats_range. } { cbn. lia. }
  apply sstep_step in Hr.
  destruct (split_frames_exclusive Xdp.ex_setup [ex_cfg 0 0] (fun _ => replicate 2048 0) table_new 0
              (stats_new (H := exact_hist)) 0 3000000000 _ (ex_all_started 0) Xdp.ex_mem_ok split_ex_stats_range Hr)
    as (_ & _ & _ & _ & Hstep).
  destruct (Hstep 0%nat (ex_cfg 0 0) th steady eq_refl eq_refl) as [(s' & th' & He & _) Hf].
  eexists _, th, s', th'. split; [exact Hr|]. split; [reflexivity|]. split; [exact Hh|]. split; [exact He|exact (Hf Hsd)].
Defined.

Lemma split_area_unmapped_witness :
  exists y th, rtc (sstep (H := exact_hist) [ex_cfg 0 0] 3000000000)
      (init [ex_cfg 0 0] (fun _ => replicate 2048 0) table_new 0 stats_new 0) y /\ senders y = [th] /\
    held th <> [] /\ faults y th = true.
Proof.
  apply (split_area_unmapped Xdp.ex_setup (ex_cfg 0 0)).
  - apply split_ex_started. lia.
  - exact Xdp.ex_mem_ok.
  - exact split_ex_stats_range.
  - cbn [ex_cfg Xdp.max_outstanding]. lia.
Defined.

(** After one query the collector says nothing yet; the sender's own count does. *)
Lemma split_sent_exact_witness :
  exists y, rtc (step [ex_cfg 0 100] 3000000000) (ex_init 100) y /\ placed (sh y) = 1 /\
    (get Sent (stats (sh y)) + zsum pending (senders y)) mod 2 ^ 64 = 1.
Proof.
  pose proof (split_inv_init Xdp.ex_setup [ex_cfg 0 100] (ex_all_started 100) (fun _ => replicate 2048 0) table_new 0
                (stats_new (H := exact_hist)) 0 Xdp.ex_mem_ok split_ex_stats_range) as Hi.
  assert (Hu : Xdp.started Xdp.ex_setup (ex_cfg 0 100)) by (apply split_ex_started; lia).
  assert (Hg : 1 <= Xdp.max_outstanding (ex_cfg 0 100) < FLUSH_N) by (unfold FLUSH_N; cbn; lia).
  assert (Hq : exists y, rtc (sstep [ex_cfg 0 100] 3000000000) (ex_init 100) y /\ placed (sh y) = 1 /\ foreign y = 0).
  { revert Hi. unfold ex_init, init. destruct umem_new as [[fl cm] frames] eqn:E. intros Hi.
    destruct (fresh_ring_ok (mkDesc 0 0 0) 12) as [_ Hrc]; [lia|]. change (2 ^ 12) with RING_SIZE in *.
    edestruct (run_query Xdp.ex_setup (ex_cfg 0 100) 3000000000 Hu Hg) as (s & th & r & Hr & _ & Hp & _);
      [exact Hi| |reflexivity|reflexivity|eexists; split; [exact Hr|]; split; [exact Hp|reflexivity]].
    constructor; [reflexivity|exact Hrc|reflexivity|exact Hrc|reflexivity|apply length_replicate|apply occupied_new]. }
  destruct Hq as (y & Hr & Hp & Hf). apply sstep_step in Hr. exists y. split; [exact Hr|]. split; [exact Hp|].
  rewrite (proj1 (split_sent_exact Xdp.ex_setup [ex_cfg 0 100] (fun _ => replicate 2048 0) table_new 0
              (stats_new (H := exact_hist)) 0 3000000000 y (ex_all_started 100) Xdp.ex_mem_ok split_ex_stats_range Hr)), Hp, Hf.
  reflexivity.
Defined.

Lemma split_gate_stalls_witness :
  exists y, answered (H := exact_hist) [ex_cfg 0 100] 3000000000 1024
      (init [ex_cfg 0 100] (fun _ => replicate 2048 0) table_new 0 stats_new 0) y /\
    placed (sh y) = 1024 /\ gate_closed (ex_cfg 0 100) (sh y) = true.
Proof.
  destruct (split_gate_stalls Xdp.ex_setup (ex_cfg 0 100) (fun _ => replicate 2048 0) (stats_new (H := exact_hist)) 0 3000000000)
    as (y & Hr & Hp).
  - apply split_ex_started. lia.
  - exact Xdp.ex_mem_ok.
  - exact split_ex_stats_range.
  - cbn [ex_cfg Xdp.max_outstanding]. unfold FLUSH_N. lia.
  - exists y. split; [exact Hr|]. destruct (Hp y (rtc_refl _ _)) as (Hn & _ & Hc & _). split; [exact Hn|exact Hc].
Defined.

End Split.
