(* ===== verification/XdpFallback.v ===== *)
(** * The UDP sender behind an AF_XDP receiver

    Models [xdp_sender_thread] of [src/transport/xdp/receiver.rs]: when no frame
    header could be built (an IPv6 server, no address, no ARP entry) or the zero-copy
    transmit path is switched off, the queries leave through a UDP socket and only
    the replies come through AF_XDP.  The senders share the table, the gate, the id
    counter and the query source; a turn is one iteration of the loop of one sender,
    with what the kernel and the clock answer as its environment, and it returns the
    calls it made with their results ([syscall]).

    The query source is the trait: the theorem is proved against its laws
    ([QuerySourceLaws]), which every source of the program satisfies. *)

From Stdlib Require Import ZArith Lia Bool String.
From stdpp Require Import base numbers option list.
From S2P Require Import Prelude Float64 RustStr Dns Query Stats InFlight XdpWorker.

Open Scope Z_scope.

Module Fallback.

(** What the clock, the flags and the kernel answer in one turn. *)
Record env : Set := mkEnv {
  e_stop : bool;          (* the flag at the head of the loop *)
  e_qps : Z;
  e_new : Z;              (* the clock when the rate has changed *)
  e_closed : Z;           (* the clock when the gate is closed *)
  e_now : Z;
  e_stop_slept : bool;    (* the flag after the sleep *)
  e_late : Z;             (* the two readings of the catch-up *)
  e_reset : Z;
  e_send : Z;             (* what [send] returns *)
  e_sendmmsg : Z;         (* what [sendmmsg] returns *)
  e_insert : nat -> Z;    (* the table's clock at each registration *)
  e_flush : Z             (* the collector's clock *)
}.

Definition BURST : Z := 64.

(** A call into the kernel, and what it returned. *)
Inductive syscall : Set :=
| Send (buf : list Z) (ret : Z)
| Sendmmsg (bufs : list (list Z)) (ret : Z).

(** Whether the loop goes on. *)
Inductive control : Set := Continue | Break.

Section Sender.
Context {H : Type} `{HdrHistogram H} {S : Type} `{QuerySource S}.

Record state : Type := mkState {
  in_flight : list Z;
  global_in_flight : Z;
  global_id : Z;
  query_source : S;
  draws : rng;
  stats : StatsCollector H;
  next_send : Z;
  last_qps : Z;
  send_interval : Z
}.

Definition paced (ns lq iv : Z) (s : state) : state :=
  mkState (in_flight s) (global_in_flight s) (global_id s) (query_source s) (draws s) (stats s) ns lq iv.

Definition counted (t : list Z) (g : Z) (st : StatsCollector H) (s : state) : state :=
  mkState t g (global_id s) (query_source s) (draws s) st (next_send s) (last_qps s) (send_interval s).

(** [global_id.fetch_add(1)], [query_source.next()], [build_query]. *)
Definition next_query (s : state) : outcome (list Z * Z * state) :=
  let id := global_id s in
  '(entry, src, r) ← next (query_source s) (draws s);
  Done (build_query id (name entry) (qtype entry), id,
        mkState (in_flight s) (global_in_flight s) (wadd 16 id 1) src r (stats s) (next_send s) (last_qps s)
          (send_interval s)).

Fixpoint next_queries (n : nat) (s : state) : outcome (list (list Z) * list Z * state) :=
  match n with
  | O => Done ([], [], s)
  | Datatypes.S n' =>
      '(buf, id, s) ← next_query s;
      '(bufs, ids, s) ← next_queries n' s;
      Done (buf :: bufs, id :: ids, s)
  end.

Definition gate_closed (max_outstanding : Z) (s : state) : bool :=
  (max_outstanding >? 0) && (max_outstanding <=? global_in_flight s).

(** The paced branch, after the rate and the gate: one [send]. *)
Definition send_one (e : env) (s : state) : outcome (state * list syscall) :=
  '(qbytes, id, s) ← next_query s;
  Done (if e_send e >=? 0
        then counted (xdp_insert (e_insert e 0%nat) id (in_flight s)) (wadd 64 (global_in_flight s) 1)
               (inc_sent (stats s)) s
        else counted (in_flight s) (global_in_flight s) (inc_error (stats s)) s,
        [Send qbytes (e_send e)]).

(** The unlimited branch: one [sendmmsg] of up to [headroom] queries. *)
Definition send_burst (e : env) (headroom : Z) (s : state) : outcome (state * list syscall) :=
  '(bufs, ids, s) ← next_queries (Z.to_nat headroom) s;
  let sent := if e_sendmmsg e <? 0 then 0 else e_sendmmsg e in
  let s := if sent >? 0
           then counted (Xdp.insert_all (e_insert e) (take (Z.to_nat sent) ids) (in_flight s))
                  (wadd 64 (global_in_flight s) sent) (inc_sent_n sent (e_flush e) (stats s)) s
           else s in
  Done (paced (next_send s) 0 (send_interval s) s, [Sendmmsg bufs (e_sendmmsg e)]).

(** One iteration; the last component is the calls it made. *)
Definition turn (max_outstanding : Z) (e : env) (s : state) : outcome (control * state * list syscall) :=
  if e_stop e then Done (Break, s, [])
  else if e_qps e >? 0 then
    let s := if negb (e_qps e =? last_qps s)
             then paced (e_new e) (e_qps e) (dur_from_secs_f64 (f64_div (f64_of_Z 1) (f64_of_Z (e_qps e)))) s
             else s in
    if gate_closed max_outstanding s then
      Done (Continue, paced (e_closed e + send_interval s) (last_qps s) (send_interval s) s, [])
    else if (e_now e <? next_send s) && e_stop_slept e then Done (Break, s, [])
    else
      let ns := next_send s + send_interval s in
      let s := paced (if ns <? e_late e then e_reset e else ns) (last_qps s) (send_interval s) s in
      '(s, out) ← send_one e s; Done (Continue, s, out)
  else if gate_closed max_outstanding s then
    Done (Continue, paced (next_send s) 0 (send_interval s) s, [])
  else
    let headroom := if max_outstanding >? 0 then Z.min (max_outstanding - global_in_flight s) BURST else BURST in
    '(s, out) ← send_burst e headroom s; Done (Continue, s, out).

(** Turns until the loop ends or the environments do. *)
Fixpoint run (max_outstanding : Z) (es : list env) (s : state) : outcome (state * list syscall) :=
  match es with
  | [] => Done (s, [])
  | e :: es' =>
      '(c, s, out) ← turn max_outstanding e s;
      match c with
      | Break => Done (s, out)
      | Continue => '(s, out') ← run max_outstanding es' s; Done (s, out ++ out')
      end
  end.

End Sender.

(** ** What a list of calls says *)

(** The datagrams handed to the kernel, those it took (all of a [send] that did not
    fail, the first [ret] of a [sendmmsg]), and the number of failed [send]s. *)
Definition handed (l : list syscall) : list (list Z) :=
  concat ((fun c => match c with Send b _ => [b] | Sendmmsg bs _ => bs end) <$> l).

Definition taken (l : list syscall) : list (list Z) :=
  concat ((fun c => match c with
                    | Send b ret => if ret <? 0 then [] else [b]
                    | Sendmmsg bs ret => take (Z.to_nat ret) bs
                    end) <$> l).

Definition failures (l : list syscall) : Z :=
  zsum (fun c => match c with Send _ ret => if ret <? 0 then 1 else 0 | Sendmmsg _ _ => 0 end) l.

(** The id in the first two bytes of a datagram. *)
Definition id_of (b : list Z) : Z := from_be_bytes16 (b !!! 0%nat) (b !!! 1%nat).

(** ** Lemmas *)

Lemma id_of_query id nm qt : id_of (build_query id nm qt) = id.
Proof. rewrite build_query_layout. apply from_to_be16. Qed.

Lemma handed_app l1 l2 : handed (l1 ++ l2) = handed l1 ++ handed l2.
Proof. unfold handed. by rewrite fmap_app, concat_app. Qed.

Lemma taken_app l1 l2 : taken (l1 ++ l2) = taken l1 ++ taken l2.
Proof. unfold taken. by rewrite fmap_app, concat_app. Qed.

(** Registrations in two steps, with one clock. *)
Lemma insert_all_app c1 c2 l1 l2 t :
  exists c, Xdp.insert_all c2 l2 (Xdp.insert_all c1 l1 t) = Xdp.insert_all c (l1 ++ l2) t.
Proof.
  revert c1 t. induction l1 as [|id l1 IH]; intros c1 t; [by exists c2|]. cbn [Xdp.insert_all app].
  destruct (IH (fun n => c1 (S n)) (xdp_insert (c1 0%nat) id t)) as [c ->].
  by exists (fun n => match n with O => c1 0%nat | S n' => c n' end).
Qed.

(** The [n] ids from [id] on, around the end of the 16 bits. *)
Definition ids_from (id : Z) (n : nat) : list Z := (fun i => wadd 16 id (Z.of_nat i)) <$> seq 0 n.

Lemma ids_from_S id n : in_u 16 id -> ids_from id (S n) = id :: ids_from (wadd 16 id 1) n.
Proof.
  intros Hid. unfold ids_from. cbn [seq]. rewrite fmap_cons, <- fmap_S_seq, <- list_fmap_compose. f_equal.
  - unfold wadd. rewrite Z.add_0_r. apply Z.mod_small. exact Hid.
  - apply list_fmap_ext. intros _ i _. unfold compose. rewrite wadd_idemp. unfold wadd. f_equal. lia.
Qed.

Section Accounting.
Context {H : Type} `{HdrHistogram H} {S : Type} `{QuerySourceLaws S}.

(** What a sender did with the calls [l]: the datagrams handed over are queries with
    consecutive ids; the ids of those the kernel took, and no others, are
    registered, added to the gate and counted as sent; every failed [send] is
    counted as an error. *)
Record did (s s' : state (H := H) (S := S)) (l : list syscall) : Prop := mkDid {
  d_source : source_ok (query_source s');
  d_id : global_id s' = wadd 16 (global_id s) (Z.of_nat (length (handed l)));
  d_queries : forall i b, handed l !! i = Some b ->
    exists nm qt, b = build_query (wadd 16 (global_id s) (Z.of_nat i)) nm qt;
  d_table : exists clock, in_flight s' = Xdp.insert_all clock (id_of <$> taken l) (in_flight s);
  d_gate : global_in_flight s' = wadd 64 (global_in_flight s) (Z.of_nat (length (taken l)));
  d_range : counters_in_range (stats s');
  d_sent : get Sent (stats s') = (get Sent (stats s) + Z.of_nat (length (taken l))) mod 2 ^ 64;
  d_errors : get Errors (stats s') = (get Errors (stats s) + failures l) mod 2 ^ 64
}.

Record usable (s : state (H := H) (S := S)) : Prop := mkUsable {
  us_source : source_ok (query_source s);
  us_id : in_u 16 (global_id s);
  us_gate : in_u 64 (global_in_flight s);
  us_range : counters_in_range (stats s)
}.

Lemma did_nothing s s' : usable s -> in_flight s' = in_flight s -> global_in_flight s' = global_in_flight s ->
  global_id s' = global_id s -> query_source s' = query_source s -> stats s' = stats s -> did s s' [].
Proof.
  intros [U1 U2 U3 U4] E1 E2 E3 E4 E5.
  constructor; rewrite ?E1, ?E2, ?E3, ?E4, ?E5; cbn [handed taken failures fmap list_fmap concat length zsum foldr]; try done.
  - by rewrite wadd_0.
  - by exists (fun _ => 0).
  - by rewrite wadd_0.
  - rewrite Z.add_0_r. symmetry. apply Z.mod_small, U4.
  - rewrite Z.add_0_r. symmetry. apply Z.mod_small, U4.
Qed.

Lemma did_trans s s1 s2 l1 l2 : did s s1 l1 -> did s1 s2 l2 -> did s s2 (l1 ++ l2).
Proof.
  intros [A1 A2 A3 [c1 A4] A5 A6 A7 A8] [B1 B2 B3 [c2 B4] B5 B6 B7 B8].
  constructor; rewrite ?handed_app, ?taken_app, ?length_app; try done.
  - rewrite B2, A2, wadd_idemp. unfold wadd. f_equal. lia.
  - intros i b Hb. apply lookup_app_Some in Hb as [Hb|[Hi Hb]]; [by apply A3|].
    destruct (B3 _ _ Hb) as (nm & qt & ->). exists nm, qt. rewrite A2, wadd_idemp. unfold wadd. do 2 f_equal. lia.
  - rewrite B4, A4, fmap_app. apply insert_all_app.
  - rewrite B5, A5, wadd_idemp. unfold wadd. f_equal. lia.
  - rewrite B7, A7, Zplus_mod_idemp_l. f_equal. lia.
  - rewrite B8, A8, Zplus_mod_idemp_l. f_equal. unfold failures. rewrite zsum_app. lia.
Qed.

(** The queries of a burst have consecutive ids. *)
Lemma next_queries_spec n s : usable s ->
  exists bufs s', next_queries n s = Done (bufs, ids_from (global_id s) n, s') /\
    length bufs = n /\ source_ok (query_source s') /\ global_id s' = wadd 16 (global_id s) (Z.of_nat n) /\
    (forall i b, bufs !! i = Some b -> exists nm qt, b = build_query (wadd 16 (global_id s) (Z.of_nat i)) nm qt) /\
    in_flight s' = in_flight s /\ global_in_flight s' = global_in_flight s /\ stats s' = stats s /\
    (next_send s', last_qps s', send_interval s') = (next_send s, last_qps s, send_interval s).
Proof.
  revert s. induction n as [|n IH]; intros s [U1 U2 U3 U4].
  { exists [], s. split; [reflexivity|]. split_and!; try done. by rewrite wadd_0. }
  cbn [next_queries]. unfold next_query. destruct (next_total (query_source s) (draws s) U1) as (e & src & r & -> & Hok).
  cbn [mbind outcome_bind]. set (s1 := mkState _ _ _ _ _ _ _ _ _).
  destruct (IH s1) as (bufs & s' & He & Hl & Q1 & Q2 & Q3 & Q4).
  { constructor; try done. by apply wadd_range. }
  change (global_id s1) with (wadd 16 (global_id s) 1) in *.
  rewrite He. cbn [mbind outcome_bind]. eexists _, s'. rewrite ids_from_S by done.
  split; [reflexivity|]. split; [by cbn [length]; rewrite Hl|]. split; [done|].
  split; [rewrite Q2, wadd_idemp; unfold wadd; f_equal; lia|]. split; [|done].
  intros [|i] b Hb; cbn in Hb.
  - injection Hb as <-. eexists _, _. by rewrite wadd_0.
  - destruct (Q3 i b Hb) as (nm & qt & ->). rewrite wadd_idemp. eexists _, _. unfold wadd. do 2 f_equal. lia.
Qed.

(** A counter after a call. *)
Lemma call_counts (st : StatsCollector H) k c d : counters_in_range st -> call_delta c k = d ->
  get c (exec_call st k) = (get c st + d) mod 2 ^ 64.
Proof. intros Hr <-. by apply exec_call_get. Qed.

Lemma paced_usable s ns lq iv : usable s -> usable (paced ns lq iv s).
Proof. intros [U1 U2 U3 U4]. by constructor. Qed.

Lemma send_one_did e s : usable s ->
  exists s' b, send_one e s = Done (s', [Send b (e_send e)]) /\ did s s' [Send b (e_send e)].
Proof.
  intros Hu. pose proof Hu as [U1 U2 U3 U4]. unfold send_one, next_query.
  destruct (next_total (query_source s) (draws s) U1) as (en & src & r & -> & Hok). cbn [mbind outcome_bind].
  set (b := build_query (global_id s) (name en) (qtype en)).
  assert (Hq : forall i b', [b] !! i = Some b' -> exists nm qt, b' = build_query (wadd 16 (global_id s) (Z.of_nat i)) nm qt).
  { intros [|i] b' Hb; [|done]. injection Hb as <-. eexists _, _. by rewrite wadd_0. }
  assert (Hid : id_of b = global_id s) by apply id_of_query. clearbody b.
  eexists _, b. split; [reflexivity|]. rewrite Z.geb_leb, Z.leb_antisym.
  destruct (e_send e <? 0) eqn:E; cbn [negb];
    (constructor; unfold handed, taken, failures, zsum;
       cbn [counted query_source global_id in_flight global_in_flight stats fmap list_fmap concat app length foldr];
       rewrite ?E; try done).
  - by exists (e_insert e).
  - by rewrite wadd_0.
  - by apply (exec_call_range CallError).
  - by apply (call_counts _ CallError).
  - exists (e_insert e). cbn [fmap list_fmap app]. by rewrite Hid.
  - by apply (exec_call_range CallSent).
  - by apply (call_counts _ CallSent).
Qed.

(** The ids of consecutive queries. *)
Lemma ids_of_queries (bufs : list (list Z)) id :
  (forall i b, bufs !! i = Some b -> exists nm qt, b = build_query (wadd 16 id (Z.of_nat i)) nm qt) ->
  id_of <$> bufs = ids_from id (length bufs).
Proof.
  intros Hb. apply list_eq. intros i. unfold ids_from. rewrite !list_lookup_fmap.
  destruct (bufs !! i) as [b|] eqn:E.
  - destruct (Hb i b E) as (nm & qt & ->). apply lookup_lt_Some in E. rewrite lookup_seq_lt by done.
    cbn [fmap option_fmap option_map]. by rewrite id_of_query.
  - apply lookup_ge_None in E. by rewrite lookup_seq_ge by done.
Qed.

(** [sendmmsg] accepts at most the messages it was given. *)
Lemma send_burst_did e headroom s : usable s -> e_sendmmsg e <= headroom ->
  exists s' bs, send_burst e headroom s = Done (s', [Sendmmsg bs (e_sendmmsg e)]) /\
    did s s' [Sendmmsg bs (e_sendmmsg e)] /\ length bs = Z.to_nat headroom.
Proof.
  intros Hu He. pose proof Hu as [U1 U2 U3 U4]. unfold send_burst.
  destruct (next_queries_spec (Z.to_nat headroom) s Hu) as (bufs & s1 & -> & Hl & H1' & H2' & H3' & H4' & H5' & H6' & _).
  cbn [mbind outcome_bind]. set (k := if e_sendmmsg e <? 0 then 0 else e_sendmmsg e).
  eexists _, bufs. split; [reflexivity|]. split; [|done].
  pose proof (ids_of_queries bufs (global_id s) H3') as Hids. rewrite Hl in Hids.
  assert (Hk : Z.to_nat k = Z.to_nat (e_sendmmsg e)) by (unfold k; case_if; lia).
  assert (Ht : Z.of_nat (length (take (Z.to_nat (e_sendmmsg e)) bufs)) = k).
  { rewrite length_take, Hl. unfold k. case_if; lia. }
  assert (Hlog : handed [Sendmmsg bufs (e_sendmmsg e)] = bufs /\
                 taken [Sendmmsg bufs (e_sendmmsg e)] = take (Z.to_nat (e_sendmmsg e)) bufs).
  { unfold handed, taken. cbn [fmap list_fmap concat]. by rewrite !app_nil_r. }
  destruct Hlog as [El1 El2].
  constructor; rewrite ?El1, ?El2, ?Ht, ?Hl; change (failures _) with 0; try done.
  - by destruct (k >? 0).
  - by destruct (k >? 0).
  - exists (e_insert e). rewrite fmap_take, Hids, <- Hk.
    destruct (k >? 0) eqn:E; cbn [paced counted in_flight]; rewrite H4'; [done|].
    replace (Z.to_nat k) with 0%nat; [done|]. rewrite Z.gtb_ltb in E. bool_to_prop. lia.
  - destruct (k >? 0) eqn:E; cbn [paced counted global_in_flight]; rewrite H5'; [done|].
    replace k with 0; [by rewrite wadd_0|]. unfold k in *. rewrite Z.gtb_ltb in E. bool_to_prop. case_if; lia.
  - destruct (k >? 0); cbn [paced counted stats]; rewrite H6'; [|done]. by apply (exec_call_range (CallSentN k (e_flush e))).
  - destruct (k >? 0) eqn:E; cbn [paced counted stats]; rewrite H6'.
    + apply (call_counts _ (CallSentN k (e_flush e))); [done|].
      unfold call_delta. cbn [actions_of zsum foldr delta]. rewrite decide_True by done. lia.
    + replace k with 0; [rewrite Z.add_0_r; symmetry; apply Z.mod_small, U4|].
      unfold k in *. rewrite Z.gtb_ltb in E. bool_to_prop. case_if; lia.
  - destruct (k >? 0); cbn [paced counted stats]; rewrite H6'.
    + by apply (call_counts _ (CallSentN k (e_flush e))).
    + rewrite Z.add_0_r. symmetry. apply Z.mod_small, U4.
Qed.

(** The number of queries a turn may hand over. *)
Definition limit (max_outstanding : Z) (s : state (H := H) (S := S)) : Z :=
  if max_outstanding >? 0 then Z.min BURST (Z.max 0 (max_outstanding - global_in_flight s)) else BURST.

(** [sendmmsg] returns at most the number of messages. *)
Definition env_ok (max_outstanding : Z) (e : env) (s : state (H := H) (S := S)) : Prop :=
  e_sendmmsg e <= limit max_outstanding s.

Lemma open_limit max_outstanding s : gate_closed max_outstanding s = false ->
  limit max_outstanding s =
    (if max_outstanding >? 0 then Z.min (max_outstanding - global_in_flight s) BURST else BURST) /\
  1 <= limit max_outstanding s.
Proof.
  unfold gate_closed, limit, BURST. intros Hg. destruct (max_outstanding >? 0) eqn:E; [|lia].
  rewrite Z.gtb_ltb in E. cbn [andb] in Hg. bool_to_prop. lia.
Qed.

Lemma turn_did max_outstanding e s : usable s -> env_ok max_outstanding e s ->
  exists c s' l, turn max_outstanding e s = Done (c, s', l) /\ did s s' l /\
    Z.of_nat (length (handed l)) <= limit max_outstanding s.
Proof.
  intros Hu He. unfold turn.
  assert (Hl0 : 0 <= limit max_outstanding s) by (unfold limit, BURST; ifs_lia).
  assert (Hnone : forall c ns lq iv, exists (c' : control) s' l, Done (c, paced ns lq iv s, []) = Done (c', s', l) /\
    did s s' l /\ Z.of_nat (length (handed l)) <= limit max_outstanding s).
  { intros c ns lq iv. eexists _, _, _. split; [reflexivity|]. split; [by apply did_nothing|done]. }
  assert (Hself : paced (next_send s) (last_qps s) (send_interval s) s = s) by (by destruct s).
  destruct (e_stop e).
  { pose proof (Hnone Break (next_send s) (last_qps s) (send_interval s)) as Hx. by rewrite Hself in Hx. }
  destruct (e_qps e >? 0).
  - set (s1 := if negb _ then paced _ _ _ s else s).
    assert (Hs1 : exists ns lq iv, s1 = paced ns lq iv s).
    { unfold s1. destruct (negb _); [by eexists _, _, _|]. by exists (next_send s), (last_qps s), (send_interval s). }
    clearbody s1. destruct Hs1 as (ns & lq & iv & ->).
    change (gate_closed max_outstanding (paced ns lq iv s)) with (gate_closed max_outstanding s).
    destruct (gate_closed max_outstanding s) eqn:Hg; [apply Hnone|].
    destruct ((_ <? _) && _); [apply Hnone|]. cbn [paced next_send send_interval last_qps].
    destruct (open_limit _ _ Hg) as [_ Hl1]. set (s2 := paced _ _ _ _).
    destruct (send_one_did e s2) as (s' & b & -> & Hd); [by repeat apply paced_usable|].
    cbn [mbind outcome_bind]. eexists _, s', _. split; [reflexivity|]. split; [|exact Hl1].
    destruct Hd; by constructor.
  - destruct (gate_closed max_outstanding s) eqn:Hg; [apply Hnone|].
    destruct (open_limit _ _ Hg) as [Hl1 Hl2]. rewrite <- Hl1.
    destruct (send_burst_did e (limit max_outstanding s) s Hu He) as (s' & bs & -> & Hd & Hlen).
    cbn [mbind outcome_bind]. eexists _, s', _. split; [reflexivity|]. split; [done|].
    unfold handed. cbn [fmap list_fmap concat]. rewrite app_nil_r. lia.
Qed.

Lemma did_usable s s' l : did s s' l -> usable s'.
Proof.
  intros [D1 D2 D3 D4 D5 D6 D7 D8].
  constructor; [done|rewrite D2; by apply wadd_range|rewrite D5; by apply wadd_range|done].
Qed.

Lemma taken_handed l : (length (taken l) <= length (handed l))%nat.
Proof.
  induction l as [|c l IH]; [done|]. unfold taken, handed in *. cbn [fmap list_fmap concat].
  rewrite !length_app. destruct c as [b ret|bs ret]; [case_if; cbn [length]|rewrite length_take]; lia.
Qed.

(** Alone, a turn does not take the gate past the limit. *)
Lemma did_bound max_outstanding s s' l : usable s -> did s s' l ->
  Z.of_nat (length (handed l)) <= limit max_outstanding s -> 0 < max_outstanding < 2 ^ 64 ->
  global_in_flight s' <= Z.max (global_in_flight s) max_outstanding.
Proof.
  intros [_ _ U3 _] [D1 D2 D3 D4 D5 D6 D7 D8] Hl Hm. rewrite D5. pose proof (taken_handed l).
  unfold limit in Hl. replace (max_outstanding >? 0) with true in Hl by (symmetry; rewrite Z.gtb_ltb; bool_to_prop; lia).
  unfold in_u in U3. rewrite wadd_small; lia.
Qed.

(** [sendmmsg] keeps its promise in every turn of a run. *)
Fixpoint envs_ok (max_outstanding : Z) (es : list env) (s : state (H := H) (S := S)) : Prop :=
  match es with
  | [] => True
  | e :: es' => env_ok max_outstanding e s /\
      forall c s' out, turn max_outstanding e s = Done (c, s', out) -> envs_ok max_outstanding es' s'
  end.

End Accounting.

(** ** Theorem *)

(** C34. The fallback sender, over any run of its loop and any query source, and the
    calls it made: no turn panics; the datagrams it hands to the kernel are queries
    whose ids are consecutive from the shared counter on (mod 2^16); the ids of the
    datagrams the kernel took, and no others, are registered in the table, in order,
    and their number is what is added to the gate and counted as sent; the failed
    [send]s are what is counted as errors; alone, it never takes the gate past the
    limit. *)
Theorem fallback_accounting {H} `{HdrHistogram H} {S} `{QuerySourceLaws S} max_outstanding es
    (s : state (H := H) (S := S)) :
  usable s -> envs_ok max_outstanding es s ->
  exists s' l, run max_outstanding es s = Done (s', l) /\ did s s' l /\
    (0 < max_outstanding < 2 ^ 64 -> global_in_flight s' <= Z.max (global_in_flight s) max_outstanding).
Proof.
  revert s. induction es as [|e es IH]; intros s Hu He; cbn [run].
  { exists s, []. split; [reflexivity|]. split; [by apply did_nothing|lia]. }
  destruct He as [He Hes]. destruct (turn_did max_outstanding e s Hu He) as (c & s1 & l & Ht & Hd & Hl).
  specialize (Hes _ _ _ Ht). rewrite Ht. cbn [mbind outcome_bind].
  pose proof (did_bound max_outstanding _ _ _ Hu Hd Hl) as Hb. destruct c; [|by exists s1, l].
  destruct (IH s1 (did_usable _ _ _ Hd) Hes) as (s2 & l2 & -> & Hd2 & Hb2).
  cbn [mbind outcome_bind]. eexists s2, _. split; [reflexivity|]. split; [by eapply did_trans|]. intros Hm.
  specialize (Hb Hm). specialize (Hb2 Hm). lia.
Qed.

(** ** Witness *)

Definition ex_source : FileQuerySource := mkFile [mkEntry (lit "a.com") 1; mkEntry (lit "b.org") 28] 0.

Definition ex_state : state (H := exact_hist) (S := FileQuerySource) :=
  mkState [] 0 65535 ex_source (fun _ => 0) stats_new 0 0 0.

(** A paced turn whose send succeeds, one whose send fails, and a burst of which the
    kernel takes two; the limit is five. *)
Definition ex_envs : list env :=
  [mkEnv false 1000 0 0 0 false 0 0 12 0 (fun _ => 7) 9; mkEnv false 1000 0 0 0 false 0 0 (-1) 0 (fun _ => 7) 9;
   mkEnv false 0 0 0 0 false 0 0 0 2 (fun _ => 7) 9].

Lemma ex_usable : usable ex_state.
Proof.
  constructor; cbn [ex_state query_source global_id global_in_flight stats].
  - split; [discriminate|]. split; vm_compute; congruence.
  - unfold in_u. lia.
  - unfold in_u. lia.
  - intros c. destruct c; vm_compute; split; congruence.
Qed.

Lemma ex_envs_ok : envs_ok 5 ex_envs ex_state.
Proof.
  split; [vm_compute; discriminate|]. intros c1 s1 o1 H1. vm_compute in H1. injection H1 as <- <- <-.
  split; [vm_compute; discriminate|]. intros c2 s2 o2 H2. vm_compute in H2. injection H2 as <- <- <-.
  split; [vm_compute; discriminate|]. intros c3 s3 o3 H3. exact I.
Qed.

Lemma fallback_accounting_witness :
  exists s' l, run 5 ex_envs ex_state = Done (s', l) /\ did ex_state s' l /\
    length (handed l) = 6%nat /\ (id_of <$> taken l) = [65535; 1; 2] /\ failures l = 1 /\ global_in_flight s' = 3.
Proof.
  destruct (fallback_accounting 5 ex_envs ex_state ex_usable ex_envs_ok) as (s' & l & Hr & Hd & _).
  exists s', l. split; [exact Hr|]. split; [exact Hd|].
  assert (Hv : run 5 ex_envs ex_state = Done (s', l)) by exact Hr. vm_compute in Hv. injection Hv as <- <-.
  repeat split; reflexivity.
Defined.

End Fallback.
