(* ===== verification/Config.v ===== *)
(** * Command line and configuration

    Models [src/config.rs] and the part of [main] ([src/main.rs]) that turns the
    parsed command line into a [Config] and chooses the mode of the run.  The
    argument parser (clap) is a library: [Cli] is its result.  What the program
    asks the host (the CPUs, the NIC that routes to an address, whether an AF_XDP
    socket opens) is an argument.

    The theorem: which command lines are accepted, and what the accepted ones
    run; in particular several targets never share a NIC, and there is always at
    least one worker. *)

From Stdlib Require Import ZArith Lia Bool String.
From stdpp Require Import base numbers option gmap list.
From S2P Require Import Prelude RustStr.

Open Scope Z_scope.

(** ** Addresses and protocols *)

Inductive IpAddr : Set :=
| V4 (bits : Z)
| V6 (bits : Z).

Global Instance IpAddr_eq_dec : EqDecision IpAddr.
Proof. solve_decision. Defined.

Global Instance IpAddr_countable : Countable IpAddr.
Proof.
  apply (inj_countable' (fun a => match a with V4 b => inl b | V6 b => inr b end)
           (fun s => match s with inl b => V4 b | inr b => V6 b end)).
  by intros [b|b].
Defined.

Inductive Protocol : Set := Udp | Tcp | Dot.

Global Instance Protocol_eq_dec : EqDecision Protocol.
Proof. solve_decision. Defined.

Inductive cli_error : Set :=
| UnknownProtocol
| SameNic (prev srv : IpAddr) (iface : str)
| NoAfXdp
| InvalidClients.

(** [to_lowercase] is Unicode's; the letters of the three names are the lower
    case of ASCII letters only, so the ASCII mapping decides the same names. *)
Definition from_str (s : str) : result Protocol cli_error :=
  let l := to_ascii_lowercase s in
  if str_eqb l (lit "udp") then Ok Udp
  else if str_eqb l (lit "tcp") then Ok Tcp
  else if str_eqb l (lit "dot") then Ok Dot
  else Err UnknownProtocol.

Definition as_str (p : Protocol) : str :=
  match p with Udp => lit "UDP" | Tcp => lit "TCP" | Dot => lit "DoT" end.

(** ** Records *)

Record Cli : Type := mkCli {
  cli_server : list IpAddr;
  cli_port : Z;
  cli_query_file : option str;
  cli_clients : str;
  cli_qps : Z;
  cli_duration : option Z;
  cli_timeout_ms : Z;
  cli_threads : option Z;
  cli_quiet : bool;
  cli_verbose : bool;
  cli_stats_interval : Z;
  cli_ramp : bool;
  cli_random : bool;
  cli_random_domain : str;
  cli_random_type : str;
  cli_compare : option IpAddr;
  cli_protocol : str;
  cli_json : bool;
  cli_csv : option str;
  cli_no_tui : bool;
  cli_xdp : bool;
  cli_no_xdp : bool;
  cli_max_outstanding : option Z;
  cli_nic_stats : bool;
  cli_wire_latency : bool
}.

Record Config : Type := mkConfig {
  server : IpAddr;
  servers : list IpAddr;
  port : Z;
  query_file : option str;
  concurrent : Z;
  qps : Z;
  duration_secs : Z;
  timeout_ms : Z;
  threads : Z;
  quiet : bool;
  verbose : bool;
  stats_interval_secs : Z;
  ramp : bool;
  random : bool;
  random_domain : str;
  random_qtype : Z;
  compare : option IpAddr;
  protocol : Protocol;
  json_output : bool;
  csv_file : option str;
  no_tui : bool;
  force_xdp : bool;
  no_xdp : bool;
  max_outstanding : Z;
  nic_stats : bool
}.

(** What [main] asks the host. *)
Record Host : Type := mkHost {
  h_cpus : Z;
  h_physical : Z;                        (* the number of physical cores *)
  h_xdp : bool;                          (* an AF_XDP socket can be opened *)
  h_iface : IpAddr -> option str         (* [autodetect::iface_for_addr] *)
}.

(** ** From the command line to the configuration *)

(** [filter(|s| seen.insert(s))] *)
Fixpoint dedup (seen : gset IpAddr) (l : list IpAddr) : list IpAddr :=
  match l with
  | [] => []
  | s :: l' => if decide (s ∈ seen) then dedup seen l' else s :: dedup ({[s]} ∪ seen) l'
  end.

(** Each target must resolve to a NIC of its own. *)
Fixpoint check_ifaces (iface_for : IpAddr -> option str) (srvs : list IpAddr)
    (ifaces : gmap str IpAddr) : result (gmap str IpAddr) cli_error :=
  match srvs with
  | [] => Ok ifaces
  | srv :: srvs' =>
      match iface_for srv with
      | None => check_ifaces iface_for srvs' ifaces
      | Some iface =>
          match ifaces !! iface with
          | Some prev => Err (SameNic prev srv iface)
          | None => check_ifaces iface_for srvs' (<[iface := srv]> ifaces)
          end
      end
  end.

Definition parse_clients (s : str) (auto_concurrent : Z) : option Z :=
  if str_eqb s (lit "auto") || str_eqb s (lit "0") then Some auto_concurrent
  else match parse_u 64 s with
       | Some n => Some (Z.max n 1)
       | None => None
       end.

Definition auto_ramp (cli : Cli) : bool :=
  negb (cli_ramp cli) && (cli_qps cli =? 0) && bool_decide (cli_duration cli = None) &&
  negb (cli_random cli) && bool_decide (cli_compare cli = None) && negb (cli_wire_latency cli).

Definition random_qtype_of (s : str) : Z :=
  if str_eqb (to_ascii_lowercase s) (lit "aaaa") then 28 else 1.

Definition max_outstanding_of (cli : Cli) (ramp : bool) : Z :=
  if ramp then default (if cli_xdp cli then 0 else 32) (cli_max_outstanding cli)
  else default (if cli_xdp cli then 0 else 100) (cli_max_outstanding cli).

(** [main] up to the configuration; [servers[0]] is out of range when there is
    no target. *)
Definition from_cli (h : Host) (cli : Cli) : outcome (result Config cli_error) :=
  let servers := dedup ∅ (cli_server cli) in
  match servers with
  | [] => Panic
  | primary :: _ =>
      Done
        match (if 1 <? Z.of_nat (length servers) then check_ifaces (h_iface h) servers ∅ else Ok ∅) with
        | Err e => Err e
        | Ok _ =>
            if cli_xdp cli && negb (h_xdp h) then Err NoAfXdp
            else
              match from_str (cli_protocol cli) with
              | Err e => Err e
              | Ok protocol =>
                  match parse_clients (cli_clients cli) (Z.max (h_physical h) 8) with
                  | None => Err InvalidClients
                  | Some concurrent =>
                      let ramp := cli_ramp cli || auto_ramp cli in
                      Ok (mkConfig primary servers (cli_port cli) (cli_query_file cli) concurrent (cli_qps cli)
                            (default 30 (cli_duration cli)) (cli_timeout_ms cli)
                            (Z.max (default (h_cpus h) (cli_threads cli)) 1) (cli_quiet cli) (cli_verbose cli)
                            (cli_stats_interval cli) ramp (cli_random cli) (cli_random_domain cli)
                            (random_qtype_of (cli_random_type cli)) (cli_compare cli) protocol (cli_json cli)
                            (cli_csv cli) (cli_no_tui cli || cli_quiet cli) (cli_xdp cli) (cli_no_xdp cli)
                            (max_outstanding_of cli ramp) (cli_nic_stats cli))
                  end
              end
        end
  end.

(** ** The mode of the run *)

Inductive Mode : Set :=
| WireLatency (count rate : Z)
| Compare (secondary : IpAddr)
| MultiNic
| MonoNic.

Definition clamp (lo hi x : Z) : Z := if x <? lo then lo else if x >? hi then hi else x.

Definition wire_rate (c : Config) : Z := if qps c >? 0 then qps c else 5000.
Definition wire_count (c : Config) : Z :=
  clamp 200 2000000 (sat_mul 64 (wire_rate c) (duration_secs c)).

Definition run_mode (wire_latency : bool) (c : Config) : Mode :=
  if wire_latency then WireLatency (wire_count c) (wire_rate c)
  else match compare c with
       | Some secondary => Compare secondary
       | None => if 1 <? Z.of_nat (length (servers c)) then MultiNic else MonoNic
       end.

(** ** Lemmas *)

Lemma dedup_spec seen l :
  NoDup (dedup seen l) /\ (forall a, a ∈ dedup seen l <-> a ∈ l /\ a ∉ seen) /\
  sublist (dedup seen l) l.
Proof.
  revert seen. induction l as [|s l IH]; intros seen; cbn [dedup].
  { split; [constructor|]. split; [set_solver|constructor]. }
  destruct (decide (s ∈ seen)) as [Hs|Hs].
  - destruct (IH seen) as (Hn & He & Hsub). split; [done|]. split; [|by constructor].
    intros a. rewrite He. set_solver.
  - destruct (IH ({[s]} ∪ seen)) as (Hn & He & Hsub). split; [|split].
    + constructor; [rewrite He; set_solver|done].
    + intros a. rewrite elem_of_cons, He. destruct (decide (a = s)); set_solver.
    + by constructor.
Qed.

(** The loop accepts exactly the target lists whose NICs are pairwise different
    and different from the ones already there. *)
Lemma check_ifaces_ok iface_for srvs ifaces m :
  check_ifaces iface_for srvs ifaces = Ok m ->
  NoDup (omap iface_for srvs) /\ forall i, i ∈ omap iface_for srvs -> ifaces !! i = None.
Proof.
  revert ifaces. induction srvs as [|s srvs IH]; intros ifaces Hc; cbn [check_ifaces] in Hc.
  { split; [constructor|]. intros i Hi. inversion Hi. }
  cbn [omap list_omap]. destruct (iface_for s) as [i|] eqn:Ei; [|by apply (IH ifaces)].
  destruct (ifaces !! i) as [prev|] eqn:Ep; [done|].
  destruct (IH _ Hc) as [Hn Hf]. split.
  - constructor; [|done]. intros Hi. specialize (Hf i Hi). by rewrite lookup_insert_eq in Hf.
  - intros j Hj. apply elem_of_cons in Hj as [->|Hj]; [done|]. specialize (Hf j Hj).
    destruct (decide (i = j)) as [->|Hne]; [by rewrite lookup_insert_eq in Hf|].
    by rewrite lookup_insert_ne in Hf.
Qed.

Lemma check_ifaces_err iface_for srvs ifaces e :
  check_ifaces iface_for srvs ifaces = Err e ->
  exists prev srv iface, e = SameNic prev srv iface /\ srv ∈ srvs /\ iface_for srv = Some iface /\
    (ifaces !! iface = Some prev \/ prev ∈ srvs /\ iface_for prev = Some iface).
Proof.
  revert ifaces. induction srvs as [|s srvs IH]; intros ifaces Hc; cbn [check_ifaces] in Hc; [done|].
  destruct (iface_for s) as [i|] eqn:Ei.
  - destruct (ifaces !! i) as [prev|] eqn:Ep.
    + injection Hc as <-. exists prev, s, i. split; [done|]. split; [by left|]. auto.
    + destruct (IH _ Hc) as (prev & srv & ifc & -> & Hin & Hif & Hor). exists prev, srv, ifc.
      split; [done|]. split; [by right|]. split; [done|]. destruct Hor as [Hm|[Hp Hpi]].
      * destruct (decide (i = ifc)) as [->|Hne].
        -- rewrite lookup_insert_eq in Hm. injection Hm as <-. right. split; [by left|done].
        -- rewrite lookup_insert_ne in Hm by done. auto.
      * right. split; [by right|done].
  - destruct (IH _ Hc) as (prev & srv & ifc & -> & Hin & Hif & Hor). exists prev, srv, ifc.
    split; [done|]. split; [by right|]. split; [done|]. destruct Hor as [Hm|[Hp Hpi]]; [auto|].
    right. split; [by right|done].
Qed.

Lemma dedup_nil l : dedup ∅ l = [] -> l = [].
Proof.
  intros Hd. destruct (dedup_spec ∅ l) as (_ & He & _). rewrite Hd in He.
  destruct l as [|a l]; [done|]. destruct (He a) as [_ Ha]. exfalso.
  apply (not_elem_of_nil a). apply Ha. split; [by left|apply not_elem_of_empty].
Qed.

Lemma parse_clients_pos s auto n : 1 <= auto -> parse_clients s auto = Some n -> 1 <= n.
Proof.
  intros Ha. unfold parse_clients. destruct (_ || _); [intros [= <-]; done|].
  destruct (parse_u 64 s); intros [= <-]. lia.
Qed.

Lemma str_eqb_eq a b : str_eqb a b = true <-> a = b.
Proof. unfold str_eqb. apply bool_decide_eq_true. Qed.

Lemma from_str_spec s p : from_str s = Ok p -> to_ascii_lowercase s = to_ascii_lowercase (as_str p).
Proof.
  unfold from_str. destruct (str_eqb _ (lit "udp")) eqn:E1; [apply str_eqb_eq in E1; intros [= <-]; exact E1|].
  destruct (str_eqb _ (lit "tcp")) eqn:E2; [apply str_eqb_eq in E2; intros [= <-]; exact E2|].
  destruct (str_eqb _ (lit "dot")) eqn:E3; [apply str_eqb_eq in E3; intros [= <-]; exact E3|done].
Qed.

Lemma auto_ramp_spec cli :
  auto_ramp cli = true <->
  cli_ramp cli = false /\ cli_qps cli = 0 /\ cli_duration cli = None /\ cli_random cli = false /\
  cli_compare cli = None /\ cli_wire_latency cli = false.
Proof.
  unfold auto_ramp. rewrite !andb_true_iff, !negb_true_iff, !bool_decide_eq_true, Z.eqb_eq. tauto.
Qed.

(** ** Theorem *)

(** What holds of an accepted command line. *)
Record accepted (h : Host) (cli : Cli) (c : Config) : Prop := mkAccepted {
  acc_server : head (servers c) = Some (server c);
  acc_nodup : NoDup (servers c);
  acc_same : forall a, a ∈ servers c <-> a ∈ cli_server cli;
  acc_order : sublist (servers c) (cli_server cli);
  acc_nics : (1 < length (servers c))%nat -> NoDup (omap (h_iface h) (servers c));
  acc_concurrent : 1 <= concurrent c;
  acc_threads : 1 <= threads c;
  acc_xdp : force_xdp c = true -> h_xdp h = true;
  acc_protocol : to_ascii_lowercase (cli_protocol cli) = to_ascii_lowercase (as_str (protocol c));
  acc_ramp : ramp c = true <->
    cli_ramp cli = true \/
    (cli_qps cli = 0 /\ cli_duration cli = None /\ cli_random cli = false /\
     cli_compare cli = None /\ cli_wire_latency cli = false);
  acc_outstanding : max_outstanding c =
    match cli_max_outstanding cli with
    | Some n => n
    | None => if force_xdp c then 0 else if ramp c then 32 else 100
    end;
  acc_tui : quiet c = true -> no_tui c = true
}.

(** C38. The command line: [main] never fails to give a verdict when there is a
    target; it rejects a list of targets only when two of them route through the
    same NIC, which it names, an AF_XDP run only without AF_XDP, and otherwise only
    an unknown protocol or worker count.  In an accepted run the targets are the
    given ones without repetition, in order, each on a NIC of its own; there is a
    worker and a thread; and the gate and the ramp follow the documented
    defaults. *)
Theorem from_cli_spec h cli :
  match from_cli h cli with
  | Panic => cli_server cli = []
  | Done (Ok c) => accepted h cli c
  | Done (Err (SameNic prev srv iface)) =>
      prev ∈ cli_server cli /\ srv ∈ cli_server cli /\
      h_iface h prev = Some iface /\ h_iface h srv = Some iface
  | Done (Err NoAfXdp) => cli_xdp cli = true /\ h_xdp h = false
  | Done (Err UnknownProtocol) => forall p, to_ascii_lowercase (cli_protocol cli) <> to_ascii_lowercase (as_str p)
  | Done (Err InvalidClients) => parse_u 64 (cli_clients cli) = None
  end.
Proof.
  unfold from_cli. destruct (dedup_spec ∅ (cli_server cli)) as (Hn & He & Hs).
  assert (Hin : forall a, a ∈ dedup ∅ (cli_server cli) <-> a ∈ cli_server cli).
  { intros a. rewrite He. pose proof (not_elem_of_empty (C := gset IpAddr) a). tauto. }
  destruct (dedup ∅ (cli_server cli)) as [|primary rest] eqn:Ed; [by apply dedup_nil|].
  rewrite <- Ed in *. destruct (if 1 <? _ then _ else _) as [m|e] eqn:Ec.
  2:{ destruct (1 <? _); [|done]. destruct (check_ifaces_err _ _ _ _ Ec) as (p & s & i & -> & H1 & H2 & H3).
      destruct H3 as [H3|[H3 H4]]; [by rewrite lookup_empty in H3|]. by rewrite <- !Hin. }
  destruct (cli_xdp cli && negb (h_xdp h)) eqn:Ex.
  { rewrite andb_true_iff, negb_true_iff in Ex. done. }
  destruct (from_str (cli_protocol cli)) as [p|e] eqn:Ep.
  2:{ assert (e = UnknownProtocol) as ->.
      { unfold from_str in Ep. repeat (destruct (str_eqb _ _) in Ep; [done|]). by injection Ep. }
      intros p Hp. unfold from_str in Ep. rewrite Hp in Ep. by destruct p. }
  destruct (parse_clients _ _) as [n|] eqn:En.
  2:{ unfold parse_clients in En. destruct (_ || _); [done|]. by destruct (parse_u 64 _). }
  constructor; cbn [server servers concurrent threads force_xdp protocol ramp max_outstanding quiet no_tui].
  - by rewrite Ed.
  - done.
  - done.
  - done.
  - intros Hl. replace (1 <? _) with true in Ec by (symmetry; bool_to_prop; lia).
    by destruct (check_ifaces_ok _ _ _ _ Ec).
  - eapply parse_clients_pos; [|exact En]. lia.
  - lia.
  - intros Hx. rewrite Hx in Ex. by destruct (h_xdp h).
  - by apply from_str_spec.
  - rewrite orb_true_iff, auto_ramp_spec. destruct (cli_ramp cli); intuition congruence.
  - unfold max_outstanding_of. by destruct (cli_ramp cli || auto_ramp cli), (cli_max_outstanding cli).
  - intros ->. apply orb_true_r.
Qed.

Lemma wire_count_range c : 200 <= wire_count c <= 2000000.
Proof. unfold wire_count, clamp. repeat case_if; bool_to_prop; lia. Qed.

(** Multi-NIC mode is chosen for several targets only. *)
Lemma run_mode_multi c : run_mode false c = MultiNic -> (1 < length (servers c))%nat.
Proof.
  unfold run_mode. destruct (compare c); [done|]. case_if; bool_to_prop; [lia|done].
Qed.
