(* ===== verification/Engine.v ===== *)
(** * The engine

    Models the parts of [run_with_shutdown] ([src/engine/mod.rs]) that compute: the
    rate of a worker, the NIC counters read from [ethtool] and [/sys], the ramp task
    (which drives the controller of [Ramp] with measured windows and publishes the
    rates to the workers), and the completion of the final snapshot.  Sleeping,
    spawning and printing are not modelled; a window of the ramp task is what its
    reads return, so any behaviour of the workers, the server and the clock is one.

    The theorem: the ramp task ends after at most 25 windows unless it is stopped,
    every rate it publishes is positive and within the target, and what it exports
    as the capacity is the highest rate the NIC counted. *)

From Stdlib Require Import ZArith Lia Bool String.
From stdpp Require Import base numbers option list.
From S2P Require Import Prelude Float64 RustStr Ramp Stats Config.

Open Scope Z_scope.

(** ** Rates *)

(** [(q / concurrent.max(1) as u64).max(1)] *)
Definition per_worker (q concurrent : Z) : Z := Z.max (q / Z.max concurrent 1) 1.

Definition initial_qps_per_worker (c : Config) : Z :=
  if ramp c then per_worker (current_qps (new false)) (concurrent c)
  else if qps c >? 0 then per_worker (qps c) (concurrent c)
  else 0.

(** ** NIC counters *)

(** The first line, after trimming, that starts with [key] and goes on with a
    number. *)
Fixpoint key_line (key : str) (ls : list str) : option Z :=
  match ls with
  | [] => None
  | line :: ls' =>
      match strip_prefix key (trim line) with
      | None => key_line key ls'
      | Some rest =>
          let v := trim (drop_prefix_while (fun c => (c =? c_colon) || (c =? 32)) rest) in
          match head (split_whitespace v) with
          | None => key_line key ls'
          | Some tok => match parse_u 64 tok with Some n => Some n | None => key_line key ls' end
          end
      end
  end.

Fixpoint first_key (keys : list str) (ls : list str) : option Z :=
  match keys with
  | [] => None
  | key :: keys' => match key_line key ls with Some n => Some n | None => first_key keys' ls end
  end.

(** [nic_wire_tx_packets]: [None] when ethtool fails or has no such counter. *)
Definition nic_wire_tx_packets (ethtool : option str) : option Z :=
  s ← ethtool;
  first_key [lit "tx_pkts_nic"; lit "port.tx_unicast"; lit "tx_unicast"] (lines s).

Fixpoint unicast_line (ls : list str) : option Z :=
  match ls with
  | [] => None
  | line :: ls' =>
      match strip_prefix (lit "rx_unicast:") (trim line) with
      | None => unicast_line ls'
      | Some rest => match parse_u 64 (trim rest) with Some n => Some n | None => unicast_line ls' end
      end
  end.

Definition nic_rx_unicast (ethtool : option str) : option Z := s ← ethtool; unicast_line (lines s).

(** A counter file of [/sys/class/net/<iface>/statistics]. *)
Definition read_counter (file : option str) : option Z := s ← file; parse_u 64 (trim s).

(** Replies that arrived: the packets and the ring overflows. *)
Definition nic_rx_packets (stat : str -> option str) : option Z :=
  pkts ← read_counter (stat (lit "rx_packets"));
  let read f := default 0 (read_counter (stat f)) in
  Some (wadd 64 (wadd 64 (wadd 64 pkts (read (lit "rx_missed_errors"))) (read (lit "rx_fifo_errors")))
          (read (lit "rx_over_errors"))).

Definition nic_rx_bytes (stat : str -> option str) : option Z := read_counter (stat (lit "rx_bytes")).

(** The NICs of the targets, without repetition; a NIC is the parent of the
    interface when it has one. *)
Fixpoint add_ifaces (iface_for : IpAddr -> str) (parent : str -> option str) (srvs : list IpAddr) (ifs : list str)
  : list str :=
  match srvs with
  | [] => ifs
  | srv :: srvs' =>
      let i := iface_for srv in
      let i := default i (parent i) in
      add_ifaces iface_for parent srvs' (if bool_decide (i ∈ ifs) then ifs else ifs ++ [i])
  end.

Definition return_ifaces (iface_for : IpAddr -> str) (parent : str -> option str) (c : Config) : list str :=
  let srvs := match servers c with [] => [server c] | l => l end in
  add_ifaces iface_for parent srvs [].

(** The sum of a counter over the NICs that have it. *)
Definition rx_hw (read : str -> option Z) (ifs : list str) : option Z :=
  match omap read ifs with
  | [] => None
  | l => Some (fold_left (wadd 64) l 0)
  end.

(** ** The ramp task *)

(** What one step reads: whether the run was stopped after the warm-up and after
    the window, the latency of the window, and the counters at its two ends. *)
Record window : Type := mkWindow {
  w_stop_warm : bool;
  w_stop_end : bool;
  w_p50 : Z;
  w_sent0 : Z;
  w_sent1 : Z;
  w_rx0 : option Z;
  w_rx1 : option Z
}.

(** The served rate: the NIC counter when there is one at both ends and it did
    not go back, otherwise what was sent. *)
Definition served_qps (w : window) : Z :=
  match w_rx0 w, w_rx1 w with
  | Some a, Some b => if a <=? b then (b - a) / 4 else sat_sub (w_sent1 w) (w_sent0 w) / 4
  | _, _ => sat_sub (w_sent1 w) (w_sent0 w) / 4
  end.

Record ramp_state : Type := mkRampState {
  ctrl : RampController;
  best_ok_served : Z;
  peak_served : Z
}.

Inductive ramp_end : Set :=
| Saturated (steps : nat)
| Stopped (steps : nat).

(** One step, after the window: the controller, the two maxima, the next target
    and whether the ramp is over. *)
Definition ramp_step (w : window) (s : ramp_state) : ramp_state * Z * bool :=
  let served := served_qps w in
  let peak := Z.max (peak_served s) served in
  let '(c, (new_qps, saturated, max_sustainable)) := advance (ctrl s) served (w_p50 w) in
  let best := if w_p50 w <=? threshold_us c then Z.max (best_ok_served s) served else best_ok_served s in
  (mkRampState c best peak, new_qps, saturated).

(** The loop; the second component is what is stored in the shared rate, in
    order, with the target it is for. *)
Fixpoint ramp_loop (fuel : nat) (concurrent : Z) (env : nat -> window) (i : nat) (s : ramp_state)
  : option (ramp_end * list (Z * Z) * ramp_state) :=
  match fuel with
  | O => None
  | S fuel' =>
      let w := env i in
      let target := current_qps (ctrl s) in
      let warm := (target, per_worker target concurrent) in
      if w_stop_warm w then Some (Stopped i, [warm], s)
      else if w_stop_end w then Some (Stopped i, [warm], s)
      else
        let '(s', new_qps, saturated) := ramp_step w s in
        if saturated then Some (Saturated (S i), [warm], s')
        else
          '(e, tr, s'') ← ramp_loop fuel' concurrent env (S i) s';
          Some (e, warm :: (new_qps, per_worker new_qps concurrent) :: tr, s'')
  end.

(** The whole task: the priming phase, when it is on, and the loop. *)
Definition ramp_task (use_xdp : bool) (concurrent : Z) (prime stop_prime : bool) (env : nat -> window)
  : option (ramp_end * list (Z * Z) * ramp_state) :=
  let s := mkRampState (new use_xdp) 0 0 in
  let q := current_qps (ctrl s) in
  if prime then
    if stop_prime then Some (Stopped 0, [(q, per_worker q concurrent)], s)
    else
      '(e, tr, s') ← ramp_loop 25 concurrent env 0 s;
      Some (e, (q, per_worker q concurrent) :: tr, s')
  else ramp_loop 25 concurrent env 0 s.

(** What the task leaves in [ramp_peak]. *)
Definition exported_peak (e : ramp_end) (s : ramp_state) : Z :=
  match e with Saturated _ => peak_served s | Stopped _ => 0 end.

(** ** The final snapshot *)

(** Whether the measurement window is restarted after the warm-up. *)
Definition warmup_reset (c : Config) (var : option str) : bool :=
  negb (ramp c) &&
  let warmup := default 5 (v ← var; parse_u 64 v) in
  (warmup >? 0) && (duration_secs c >? warmup).

(** The counters of the NICs at the two ends of the run. *)
Record nic_window : Type := mkNicWindow {
  n_tx : option (Z * Z);                (* the PHY transmit counter, in AF_XDP runs *)
  n_rx0 : Z;
  n_rx1 : Z;
  n_bytes0 : Z;
  n_bytes1 : Z;
  n_mbps : Z
}.

Definition f64_1e_9 : f64 := f64_lit 1 1000000000.

Definition complete_snapshot (c : Config) (peak : Z) (elapsed : f64) (n : nic_window) (s : StatsSnapshot)
  : StatsSnapshot :=
  let secs := f64_max elapsed f64_1e_9 in
  let cap := if ramp c && (peak >? 0) then Some (f64_of_Z peak) else ramp_capacity s in
  let wire := match n_tx n with
              | Some (tx0, tx1) => Some (f64_div (f64_of_Z (sat_sub tx1 tx0)) secs)
              | None => wire_qps s
              end in
  let dpkts := sat_sub (n_rx1 n) (n_rx0 n) in
  let dbytes := sat_sub (n_bytes1 n) (n_bytes0 n) in
  mkSnapshot (queries_sent s) (queries_completed s) (queries_lost s) (s_rcode_noerror s) (s_rcode_nxdomain s)
    (s_rcode_servfail s) (s_rcode_refused s) (s_rcode_other s) (run_time_s s) (send_qps s) (avg_qps s) (min_us s)
    (avg_us s) (p50_us s) (p95_us s) (p99_us s) (p999_us s) (max_us s) (inflight_mean s) (s_inflight_max s)
    wire (Some (f64_div (f64_of_Z dpkts) secs))
    (if (dpkts >? 0) && (dbytes >? 0) then Some (f64_div (f64_of_Z dbytes) (f64_of_Z dpkts))
     else server_rx_avg_bytes s)
    (if n_mbps n >? 0 then Some (n_mbps n) else link_mbps s) cap.

(** ** Lemmas *)

Lemma per_worker_spec q c : 0 <= q -> 0 <= c ->
  1 <= per_worker q c /\ c * per_worker q c <= Z.max q c.
Proof.
  intros Hq Hc. unfold per_worker. split; [lia|]. destruct (Z.eq_dec c 0) as [->|]; [lia|].
  replace (Z.max c 1) with c by lia. pose proof (Z.mul_div_le q c).
  destruct (Z.max_spec (q / c) 1) as [[? ->]|[? ->]]; lia.
Qed.

Lemma advance_next_qps c a p :
  let '(c', (q, saturated, _)) := advance c a p in
  saturated = false -> q = current_qps c'.
Proof.
  unfold advance. destruct (phase (observe c p)).
  - destruct (step_ok c a p); cbn zeta; case_if; done.
  - cbn zeta. case_if; done.
Qed.

Lemma ready_target c : ramp_ready c -> 0 <= current_qps c.
Proof.
  intros [Hi Hm]. unfold ramp_inv in Hi. destruct (phase c) eqn:Ep.
  - destruct Hi as (Hd & -> & _). unfold START_QPS. pose proof (Z.pow_pos_nonneg 2 (doublings c)). lia.
  - destruct (Hm eq_refl) as [-> _]. pose proof (Z.div_pos (hi c - lo c) 2). lia.
Qed.

(** The served rates of the first windows. *)
Definition served_list (env : nat -> window) (i n : nat) : list Z := (fun k => served_qps (env k)) <$> seq i (n - i).

Lemma served_nonneg w : 0 <= served_qps w.
Proof.
  unfold served_qps. pose proof (sat_sub_nonneg (w_sent1 w) (w_sent0 w)).
  destruct (w_rx0 w) as [a|], (w_rx1 w) as [b|]; try case_if; bool_to_prop; apply Z.div_pos; lia.
Qed.

(** What holds when the loop, started in [s] at window [i], ends. *)
Definition ended (env : nat -> window) (i : nat) (s : ramp_state) (e : ramp_end) (s' : ramp_state) : Prop :=
  match e with
  | Saturated n =>
      (i < n)%nat /\ peak_served s' = fold_left Z.max (served_list env i n) (peak_served s) /\
      best_ok_served s' ∈ best_ok_served s :: served_list env i n /\
      (best_ok_served s <= peak_served s -> best_ok_served s' <= peak_served s') /\
      exists m, finished (ctrl s') m
  | Stopped n => (i <= n)%nat /\ (w_stop_warm (env n) = true \/ w_stop_end (env n) = true)
  end.

Lemma served_list_S env i n : (i < n)%nat -> served_list env i n = served_qps (env i) :: served_list env (S i) n.
Proof. intros Hi. unfold served_list. replace (n - i)%nat with (S (n - S i)) by lia. done. Qed.

Lemma ramp_step_fields w s s' q sat : ramp_step w s = (s', q, sat) ->
  peak_served s' = Z.max (peak_served s) (served_qps w) /\
  (best_ok_served s' = best_ok_served s \/ best_ok_served s' = Z.max (best_ok_served s) (served_qps w)) /\
  exists m, advance (ctrl s) (served_qps w) (w_p50 w) = (ctrl s', (q, sat, m)).
Proof.
  unfold ramp_step. destruct (advance _ _ _) as [c [[q' sat'] m]]. intros [= <- <- <-]. cbn.
  split; [done|]. split; [case_if; auto|]. eauto.
Qed.

Definition rate_ok (concurrent : Z) (tr : Z * Z) : Prop :=
  1 <= tr.2 /\ concurrent * tr.2 <= Z.max tr.1 concurrent.

Lemma ramp_loop_spec fuel concurrent env i s :
  0 <= concurrent -> ramp_ready (ctrl s) -> (steps_left (ctrl s) <= fuel)%nat -> (0 < fuel)%nat ->
  exists e tr s', ramp_loop fuel concurrent env i s = Some (e, tr, s') /\
    Forall (rate_ok concurrent) tr /\ ended env i s e s' /\
    match e with Saturated n | Stopped n => (n <= i + Nat.max 1 (steps_left (ctrl s)))%nat end.
Proof.
  intros Hc. revert i s. induction fuel as [|fuel IH]; intros i s Hr Hf Hpos; [lia|]. cbn [ramp_loop].
  pose proof (ready_target _ Hr) as Ht.
  assert (Hw : rate_ok concurrent (current_qps (ctrl s), per_worker (current_qps (ctrl s)) concurrent))
    by (by apply per_worker_spec).
  destruct (w_stop_warm (env i)) eqn:Ew.
  { eexists _, _, _. split; [reflexivity|]. split; [by constructor|]. split; [cbn; auto|lia]. }
  destruct (w_stop_end (env i)) eqn:Ee.
  { eexists _, _, _. split; [reflexivity|]. split; [by constructor|]. split; [cbn; auto|lia]. }
  destruct (ramp_step (env i) s) as [[s1 q] sat] eqn:Es.
  destruct (ramp_step_fields _ _ _ _ _ Es) as (Hpk & Hbest & m & Hadv).
  pose proof (advance_inv (ctrl s) (served_qps (env i)) (w_p50 (env i)) Hr) as Hinv.
  pose proof (advance_finished (ctrl s) (served_qps (env i)) (w_p50 (env i)) Hr) as Hfin.
  pose proof (advance_next_qps (ctrl s) (served_qps (env i)) (w_p50 (env i))) as Hq.
  rewrite Hadv in Hinv, Hfin, Hq. destruct sat.
  - eexists _, _, _. split; [reflexivity|]. split; [by constructor|]. split; [|lia].
    cbn [ended]. rewrite served_list_S by lia. unfold served_list. rewrite Nat.sub_diag. cbn [seq fmap list_fmap fold_left].
    split; [lia|]. split; [done|]. split; [|split; [lia|by exists m]].
    destruct Hbest as [-> | ->]; [by left|]. destruct (Z.max_spec (best_ok_served s) (served_qps (env i))) as [[_ ->]|[_ ->]];
      [right; by left|by left].
  - destruct Hinv as [_ Hnext]. destruct (Hnext eq_refl) as [Hr1 Hlt].
    assert (0 < steps_left (ctrl s1))%nat by (by apply ready_steps_pos).
    destruct (IH (S i) s1 Hr1) as (e & tr & s' & He & Htr & Hend & Hn); [lia|lia|].
    rewrite He. cbn [mbind option_bind]. eexists _, _, _. split; [reflexivity|]. split; [|split].
    + constructor; [done|]. constructor; [|done]. rewrite (Hq eq_refl). apply per_worker_spec; [by apply ready_target|done].
    + destruct e as [n|n]; cbn [ended] in Hend |- *; [|split; [lia|tauto]].
      destruct Hend as (Hin & Hp & Hb & Hle & Hfi). rewrite served_list_S by lia. cbn [fold_left]. rewrite <- Hpk.
      split; [lia|]. split; [done|]. split; [|split; [intros; apply Hle; lia|done]].
      apply elem_of_cons in Hb as [->|Hb]; [|by do 2 right].
      destruct Hbest as [-> | ->]; [by left|]. destruct (Z.max_spec (best_ok_served s) (served_qps (env i))) as [[_ ->]|[_ ->]];
        [right; by left|by left].
    + destruct e; lia.
Qed.

(** A published rate is the target's share of one client. *)
Lemma ramp_loop_rates fuel concurrent env i s e tr s' : ramp_loop fuel concurrent env i s = Some (e, tr, s') ->
  Forall (fun p => p.2 = per_worker p.1 concurrent) tr.
Proof.
  revert i s e tr s'. induction fuel as [|fuel IH]; intros i s e tr s'; [done|]. cbn [ramp_loop].
  destruct (w_stop_warm (env i)); [intros [= _ <- _]; by repeat constructor|].
  destruct (w_stop_end (env i)); [intros [= _ <- _]; by repeat constructor|].
  destruct (ramp_step (env i) s) as [[s1 q] sat]. destruct sat; [intros [= _ <- _]; by repeat constructor|].
  destruct (ramp_loop fuel _ _ _ _) as [[[e1 tr1] s2]|] eqn:E; [|done]. cbn [mbind option_bind]. intros [= _ <- _].
  constructor; [done|]. constructor; [done|]. by eapply IH.
Qed.

Lemma ramp_task_rates use_xdp concurrent prime stop_prime env e tr s' :
  ramp_task use_xdp concurrent prime stop_prime env = Some (e, tr, s') ->
  Forall (fun p => p.2 = per_worker p.1 concurrent) tr.
Proof.
  unfold ramp_task. destruct prime; [destruct stop_prime|]; [intros [= _ <- _]; by repeat constructor| |apply ramp_loop_rates].
  destruct (ramp_loop _ _ _ _ _) as [[[e1 tr1] s2]|] eqn:E; [|done]. cbn [mbind option_bind]. intros [= _ <- _].
  constructor; [done|]. by eapply ramp_loop_rates.
Qed.

(** ** Theorem *)

(** C28. The ramp task, for every sequence of windows the workers, the server and
    the NIC counters can produce: every rate it publishes is at least one query per
    second and all workers together stay within the target; it returns within 25
    windows; unless the run was stopped, it ends with a finished bracket, having
    exported the highest served rate over its windows, with the best rate within
    the latency objective at most that; and the final snapshot reports that capacity
    exactly when the ramp ended by itself and something was served. *)
Theorem ramp_task_spec (cfg : Config) (use_xdp prime stop_prime : bool) (env : nat -> window)
    (elapsed : f64) (n : nic_window) (snap : StatsSnapshot) :
  0 <= concurrent cfg ->
  exists e tr s', ramp_task use_xdp (concurrent cfg) prime stop_prime env = Some (e, tr, s') /\
    Forall (rate_ok (concurrent cfg)) tr /\
    match e with
    | Saturated k =>
        (0 < k <= 25)%nat /\ peak_served s' = fold_left Z.max (served_list env 0 k) 0 /\
        0 <= best_ok_served s' <= peak_served s' /\
        (exists m, finished (ctrl s') m)
    | Stopped k => (k <= 25)%nat /\
        (prime = true /\ stop_prime = true \/ w_stop_warm (env k) = true \/ w_stop_end (env k) = true)
    end /\
    (ramp cfg = true -> ramp_capacity snap = None ->
     ramp_capacity (complete_snapshot cfg (exported_peak e s') elapsed n snap) =
     match e with
     | Saturated _ => if peak_served s' >? 0 then Some (f64_of_Z (peak_served s')) else None
     | Stopped _ => None
     end).
Proof.
  intros Hc. set (s := mkRampState (new use_xdp) 0 0).
  assert (Hsnap : forall e s', ramp cfg = true -> ramp_capacity snap = None ->
     ramp_capacity (complete_snapshot cfg (exported_peak e s') elapsed n snap) =
     match e with
     | Saturated _ => if peak_served s' >? 0 then Some (f64_of_Z (peak_served s')) else None
     | Stopped _ => None
     end).
  { intros e s' Hr Hn. cbn [complete_snapshot ramp_capacity]. rewrite Hr, Hn. by destruct e. }
  assert (Hw : rate_ok (concurrent cfg) (START_QPS, per_worker START_QPS (concurrent cfg)))
    by (apply (per_worker_spec START_QPS); [unfold START_QPS; lia|done]).
  destruct (ramp_loop_spec 25 (concurrent cfg) env 0 s Hc (new_ready use_xdp)) as (e & tr & s' & He & Htr & Hend & Hn);
    [by vm_compute|lia|].
  assert (Hcase : match e with
    | Saturated k => (0 < k <= 25)%nat /\ peak_served s' = fold_left Z.max (served_list env 0 k) 0 /\
        0 <= best_ok_served s' <= peak_served s' /\ (exists m, finished (ctrl s') m)
    | Stopped k => (k <= 25)%nat /\
        (prime = true /\ stop_prime = true \/ w_stop_warm (env k) = true \/ w_stop_end (env k) = true)
    end).
  { change (Nat.max 1 (steps_left (ctrl s))) with 25%nat in Hn. destruct e as [k|k]; cbn [ended] in Hend.
    - destruct Hend as (Hk & Hp & Hb & Hle & Hfin). split; [lia|]. split; [done|]. split; [|done].
      split; [|apply Hle; done]. apply elem_of_cons in Hb as [->|Hb]; [done|].
      apply list_elem_of_fmap in Hb as (j & -> & _). apply served_nonneg.
    - split; [lia|tauto]. }
  unfold ramp_task. fold s. change (current_qps (ctrl s)) with START_QPS. destruct prime; [destruct stop_prime|].
  - eexists _, _, _. split; [reflexivity|]. split; [by constructor|]. split; [split; [lia|by left]|]. apply Hsnap.
  - rewrite He. cbn [mbind option_bind]. eexists _, _, _. split; [reflexivity|]. split; [by constructor|].
    split; [done|]. apply Hsnap.
  - exists e, tr, s'. auto.
Qed.

(** A server that serves at most 500k, seen through the NIC counter. *)
Definition ex_window (target : Z) : window := mkWindow false false 40 0 (4 * target) (Some 1000) (Some (1000 + 4 * Z.min target 500000)).

Lemma ramp_task_spec_witness :
  let c := mkConfig (V4 1) [V4 1] 53 None 8 0 30 3000 4 true false 1 true false [] 1 None Udp false None true false
             false 32 false in
  let env := fun i => ex_window (100000 * 2 ^ Z.of_nat i) in
  exists e tr s', ramp_task false 8 true false env = Some (e, tr, s') /\ Forall (rate_ok 8) tr.
Proof.
  intros c env.
  destruct (ramp_task_spec c false true false env f64_zero (mkNicWindow None 0 0 0 0 0)
              (mkSnapshot 0 0 0 0 0 0 0 0 f64_zero f64_zero f64_zero 0 f64_zero 0 0 0 0 0 f64_zero 0 None None None None None))
    as (e & tr & s' & He & Htr & _).
  - cbn. lia.
  - exists e, tr, s'. split; [exact He|exact Htr].
Defined.
