(* ===== verification/MultiNic.v ===== *)
(** * The multi-NIC engine

    Models [src/engine/multi_nic.rs]: the split of the workers over the targets
    ([run_multi_nic] starts one single-target run per NIC), the collection of the
    results and [merge_snapshots].

    The runs themselves are arguments: [run_multi_nic] gets their results, in the
    order it awaits them.

    The theorems: how many workers each NIC gets, and when that goes wrong; that
    merging adds the counts up, keeps the codes balanced, reports the worst NIC's
    percentiles; that its integer fields do not depend on the order of the NICs, and
    that its rates, rounded sums of [f64]s, can. *)

From Stdlib Require Import ZArith Lia Bool String.
From stdpp Require Import base numbers option list.
From S2P Require Import Prelude Float64 RustStr Stats Config.

Open Scope Z_scope.

(** ** Workers *)

Definition base_workers (total_c n_nics : Z) : Z := Z.max (total_c / n_nics) 1.

(** The workers of the NIC with number [idx]: the last one gets the rest (the
    subtraction of [usize] wraps in a release build). *)
Definition workers_for (total_c n_nics idx : Z) : Z :=
  Z.max (if idx =? n_nics - 1
         then wsub 64 total_c (wmul 64 (base_workers total_c n_nics) (n_nics - 1))
         else base_workers total_c n_nics) 1.

(** The configuration of one NIC's run. *)
Definition nic_cfg (c : Config) (idx : Z) (target : IpAddr) : Config :=
  mkConfig target [target] (port c) (query_file c)
    (workers_for (concurrent c) (Z.of_nat (length (servers c))) idx) (qps c) (duration_secs c) (timeout_ms c)
    (threads c) (quiet c) (verbose c) (stats_interval_secs c) (ramp c) (random c) (random_domain c)
    (random_qtype c) (compare c) (protocol c) (json_output c) (csv_file c) true (force_xdp c) (no_xdp c)
    (max_outstanding c) (nic_stats c).

Definition nic_cfgs (c : Config) : list Config :=
  imap (fun idx target => nic_cfg c (Z.of_nat idx) target) (servers c).

(** ** Merging *)

(** [iter().sum()] of [u64]s, and of [f64]s. *)
Definition usum (l : list Z) : Z := fold_left (wadd 64) l 0.
Definition fsum (l : list f64) : f64 := fold_left f64_add l f64_zero.

(** [iter().max()] and [iter().min()] *)
Definition umax (l : list Z) : option Z :=
  match l with [] => None | x :: l' => Some (fold_left Z.max l' x) end.
Definition umin (l : list Z) : option Z :=
  match l with [] => None | x :: l' => Some (fold_left Z.min l' x) end.

Definition empty_snapshot : StatsSnapshot :=
  mkSnapshot 0 0 0 0 0 0 0 0 f64_zero f64_zero f64_zero 0 f64_zero 0 0 0 0 0 f64_zero 0
    None None None None None.

Definition wavg (snaps : list StatsSnapshot) (weight_sum : f64) (f : StatsSnapshot -> f64) : f64 :=
  if f64_eqb weight_sum f64_zero then f64_zero
  else f64_div (fsum ((fun s => f64_mul (f s) (f64_of_Z (queries_completed s))) <$> snaps)) weight_sum.

(** [if w > 0.0 { Some(w) } else { None }] *)
Definition some_pos (w : f64) : option f64 := if f64_gtb w f64_zero then Some w else None.

Definition merge_snapshots (snaps : list StatsSnapshot) : StatsSnapshot :=
  match snaps with
  | [] => empty_snapshot
  | _ =>
      let total_sent := usum (queries_sent <$> snaps) in
      let total_done := usum (queries_completed <$> snaps) in
      let total_lost := usum (queries_lost <$> snaps) in
      let max_time := fold_left f64_max (run_time_s <$> snaps) f64_zero in
      let weight_sum := f64_of_Z total_done in
      let min_us := default 0 (umin (base.filter (fun v => 0 < v) (min_us <$> snaps))) in
      let max_us := default 0 (umax (max_us <$> snaps)) in
      mkSnapshot total_sent total_done total_lost
        (usum (s_rcode_noerror <$> snaps)) (usum (s_rcode_nxdomain <$> snaps))
        (usum (s_rcode_servfail <$> snaps)) (usum (s_rcode_refused <$> snaps))
        (usum (s_rcode_other <$> snaps))
        max_time (fsum (send_qps <$> snaps))
        (if f64_gtb max_time f64_zero then f64_div (f64_of_Z total_done) max_time else f64_zero)
        min_us (wavg snaps weight_sum avg_us)
        (default 0 (umax (p50_us <$> snaps))) (default 0 (umax (p95_us <$> snaps)))
        (default 0 (umax (p99_us <$> snaps))) (default 0 (umax (p999_us <$> snaps)))
        max_us
        (f64_div (fsum (inflight_mean <$> snaps)) (f64_of_Z (Z.max (Z.of_nat (length snaps)) 1)))
        (default 0 (umax (s_inflight_max <$> snaps)))
        (some_pos (fsum (omap wire_qps snaps)))
        (some_pos (fsum (omap server_rx_qps snaps)))
        (let num := fsum (omap (fun s => b ← server_rx_avg_bytes s; q ← server_rx_qps s; Some (f64_mul b q)) snaps) in
         let den := fsum (omap server_rx_qps (base.filter (fun s => is_Some (server_rx_avg_bytes s)) snaps)) in
         if f64_gtb den f64_zero then Some (f64_div num den) else None)
        (let m := usum (omap link_mbps snaps) in if m >? 0 then Some m else None)
        (some_pos (fsum (omap ramp_capacity snaps)))
  end.

(** ** Collecting the runs *)

(** How a NIC's task ends: a snapshot, an error, or a panic of the task. *)
Inductive nic_result (E : Type) : Type :=
| NicOk (target : IpAddr) (snap : StatsSnapshot)
| NicErr (e : E)
| NicPanicked.
Arguments NicOk {E} _ _.
Arguments NicErr {E} _.
Arguments NicPanicked {E}.

Inductive multi_error (E : Type) : Type :=
| FirstError (e : E)
| AllNicsFailed.
Arguments FirstError {E} _.
Arguments AllNicsFailed {E}.

Definition ok_of {E} (r : nic_result E) : option StatsSnapshot :=
  match r with NicOk _ s => Some s | _ => None end.
Definition err_of {E} (r : nic_result E) : option E :=
  match r with NicErr e => Some e | _ => None end.

Definition run_multi_nic {E} (results : list (nic_result E)) : result StatsSnapshot (multi_error E) :=
  let per_nic := omap ok_of results in
  if is_empty per_nic
  then Err (match head (omap err_of results) with Some e => FirstError e | None => AllNicsFailed end)
  else Ok (merge_snapshots per_nic).

(** ** Lemmas *)

Lemma usum_acc l a : in_u 64 a -> fold_left (wadd 64) l a = (a + zsum id l) mod 2 ^ 64.
Proof.
  revert a. induction l as [|x l IH]; intros a Ha; cbn [fold_left].
  - cbn [zsum foldr]. rewrite Z.add_0_r. symmetry. by apply Z.mod_small.
  - rewrite IH by (apply wadd_range; lia). rewrite zsum_cons. unfold wadd, id.
    rewrite Zplus_mod_idemp_l. f_equal. lia.
Qed.

Lemma usum_spec l : usum l = zsum id l mod 2 ^ 64.
Proof. unfold usum. rewrite usum_acc by (unfold in_u; lia). done. Qed.

Lemma usum_fmap {A} (f : A -> Z) l : usum (f <$> l) = zsum f l mod 2 ^ 64.
Proof. rewrite usum_spec, zsum_fmap. done. Qed.

Lemma fold_max_ge l x : x <= fold_left Z.max l x /\ forall y, y ∈ l -> y <= fold_left Z.max l x.
Proof.
  revert x. induction l as [|a l IH]; intros x; cbn [fold_left].
  { split; [lia|]. intros y Hy. inversion Hy. }
  destruct (IH (Z.max x a)) as [H1 H2]. split; [lia|].
  intros y Hy. apply elem_of_cons in Hy as [->|Hy]; [lia|by apply H2].
Qed.

Lemma fold_max_in l x : fold_left Z.max l x ∈ x :: l.
Proof.
  revert x. induction l as [|a l IH]; intros x; cbn [fold_left]; [by left|].
  specialize (IH (Z.max x a)). apply elem_of_cons in IH as [->|IH]; [|by do 2 right].
  destruct (Z.max_spec x a) as [[_ ->]|[_ ->]]; [right; by left|by left].
Qed.

Lemma umax_spec l : l <> [] ->
  default 0 (umax l) ∈ l /\ forall y, y ∈ l -> y <= default 0 (umax l).
Proof.
  destruct l as [|x l]; [done|]. intros _. cbn [umax default]. split; [apply fold_max_in|].
  destruct (fold_max_ge l x) as [H1 H2]. intros y Hy. apply elem_of_cons in Hy as [->|Hy]; auto.
Qed.

Lemma fold_min_le l x : fold_left Z.min l x <= x /\ forall y, y ∈ l -> fold_left Z.min l x <= y.
Proof.
  revert x. induction l as [|a l IH]; intros x; cbn [fold_left].
  { split; [lia|]. intros y Hy. inversion Hy. }
  destruct (IH (Z.min x a)) as [H1 H2]. split; [lia|].
  intros y Hy. apply elem_of_cons in Hy as [->|Hy]; [lia|by apply H2].
Qed.

Lemma fold_min_in l x : fold_left Z.min l x ∈ x :: l.
Proof.
  revert x. induction l as [|a l IH]; intros x; cbn [fold_left]; [by left|].
  specialize (IH (Z.min x a)). apply elem_of_cons in IH as [->|IH]; [|by do 2 right].
  destruct (Z.min_spec x a) as [[_ ->]|[_ ->]]; [by left|right; by left].
Qed.

Lemma umin_spec l : l <> [] ->
  default 0 (umin l) ∈ l /\ forall y, y ∈ l -> default 0 (umin l) <= y.
Proof.
  destruct l as [|x l]; [done|]. intros _. cbn [umin default]. split; [apply fold_min_in|].
  destruct (fold_min_le l x) as [H1 H2]. intros y Hy. apply elem_of_cons in Hy as [->|Hy]; auto.
Qed.

(** The results do not depend on the order. *)
Global Instance usum_perm : Proper ((≡ₚ) ==> (=)) usum.
Proof. intros l l' Hl. rewrite !usum_spec. by rewrite (zsum_perm id l l' Hl). Qed.

Global Instance umax_perm : Proper ((≡ₚ) ==> (=)) umax.
Proof.
  intros l l' Hl. destruct l as [|x l], l' as [|y l'].
  - done.
  - by apply Permutation_nil_cons in Hl.
  - symmetry in Hl. by apply Permutation_nil_cons in Hl.
  - destruct (umax_spec (x :: l)) as [Hi Hm]; [done|]. destruct (umax_spec (y :: l')) as [Hi' Hm']; [done|].
    cbn [umax default] in *. f_equal. rewrite Hl in Hi. rewrite <- Hl in Hi'.
    apply Z.le_antisymm; auto.
Qed.

Global Instance umin_perm : Proper ((≡ₚ) ==> (=)) umin.
Proof.
  intros l l' Hl. destruct l as [|x l], l' as [|y l'].
  - done.
  - by apply Permutation_nil_cons in Hl.
  - symmetry in Hl. by apply Permutation_nil_cons in Hl.
  - destruct (umin_spec (x :: l)) as [Hi Hm]; [done|]. destruct (umin_spec (y :: l')) as [Hi' Hm']; [done|].
    cbn [umin default] in *. f_equal. rewrite Hl in Hi. rewrite <- Hl in Hi'.
    apply Z.le_antisymm; auto.
Qed.

Lemma fmap_usum {A} (f : A -> Z) l l' : l ≡ₚ l' -> usum (f <$> l) = usum (f <$> l').
Proof. intros Hl. apply usum_perm. by rewrite Hl. Qed.

Lemma fmap_umax {A} (f : A -> Z) l l' : l ≡ₚ l' -> umax (f <$> l) = umax (f <$> l').
Proof. intros Hl. apply umax_perm. by rewrite Hl. Qed.

(** ** The merged counts *)

(** A snapshot whose completions are its response codes. *)
Definition balanced_snap (s : StatsSnapshot) : Prop :=
  queries_completed s =
  (s_rcode_noerror s + s_rcode_nxdomain s + s_rcode_servfail s + s_rcode_refused s + s_rcode_other s)
    mod 2 ^ 64.

(** Percentiles in order. *)
Definition ordered_snap (s : StatsSnapshot) : Prop :=
  p50_us s <= p95_us s <= p99_us s /\ p99_us s <= p999_us s <= max_us s.

(** The fields that are counts. *)
Definition counts (s : StatsSnapshot) : list Z * option Z :=
  ([queries_sent s; queries_completed s; queries_lost s; s_rcode_noerror s; s_rcode_nxdomain s;
    s_rcode_servfail s; s_rcode_refused s; s_rcode_other s; min_us s; p50_us s; p95_us s; p99_us s;
    p999_us s; max_us s; s_inflight_max s], link_mbps s).

(** [g] of the merge is the worst of the NICs' values. *)
Definition worst (g : StatsSnapshot -> Z) (snaps : list StatsSnapshot) (m : Z) : Prop :=
  (exists s, s ∈ snaps /\ g s = m) /\ forall s, s ∈ snaps -> g s <= m.

Lemma worst_umax g snaps : snaps <> [] -> worst g snaps (default 0 (umax (g <$> snaps))).
Proof.
  intros Hne. destruct (umax_spec (g <$> snaps)) as [Hi Hm].
  { by destruct snaps. }
  split.
  - apply list_elem_of_fmap in Hi as (s & He & Hs). by exists s.
  - intros s Hs. apply Hm. by apply list_elem_of_fmap_2.
Qed.

Lemma worst_mono f g snaps m n :
  (forall s, s ∈ snaps -> f s <= g s) -> worst f snaps m -> worst g snaps n -> m <= n.
Proof. intros Hfg [(s & Hs & <-) _] [_ Hn]. specialize (Hn s Hs). specialize (Hfg s Hs). lia. Qed.

Lemma zsum_mod {A} (f g : A -> Z) l n : (forall a, a ∈ l -> f a = g a mod n) -> n <> 0 ->
  zsum f l mod n = zsum g l mod n.
Proof.
  intros Hf Hn. induction l as [|a l IH]; [done|]. rewrite !zsum_cons, (Hf a) by by left.
  rewrite Zplus_mod_idemp_l, <- Zplus_mod_idemp_r, IH, Zplus_mod_idemp_r; [done|].
  intros b Hb. apply Hf. by right.
Qed.

Lemma merge_balanced snaps :
  Forall balanced_snap snaps -> balanced_snap (merge_snapshots snaps).
Proof.
  intros Hb. destruct snaps as [|s0 l] eqn:E; [done|]. rewrite <- E in *. unfold balanced_snap.
  assert (Hm : forall f : StatsSnapshot -> Z, usum (f <$> snaps) = zsum f snaps mod 2 ^ 64) by (intros; apply usum_fmap).
  rewrite E. cbn [merge_snapshots queries_completed s_rcode_noerror s_rcode_nxdomain s_rcode_servfail s_rcode_refused
       s_rcode_other]. rewrite <- E, !Hm.
  rewrite (zsum_mod queries_completed (fun s => s_rcode_noerror s + s_rcode_nxdomain s + s_rcode_servfail s +
    s_rcode_refused s + s_rcode_other s)); [|by apply Forall_forall|done].
  rewrite !zsum_add. symmetry. apply sum5_mod. lia.
Qed.

(** The counts of a merge, as they are computed. *)
Definition merged_counts (snaps : list StatsSnapshot) : list Z * option Z :=
  ([usum (queries_sent <$> snaps); usum (queries_completed <$> snaps); usum (queries_lost <$> snaps);
    usum (s_rcode_noerror <$> snaps); usum (s_rcode_nxdomain <$> snaps); usum (s_rcode_servfail <$> snaps);
    usum (s_rcode_refused <$> snaps); usum (s_rcode_other <$> snaps);
    default 0 (umin (base.filter (fun v => 0 < v) (min_us <$> snaps)));
    default 0 (umax (p50_us <$> snaps)); default 0 (umax (p95_us <$> snaps));
    default 0 (umax (p99_us <$> snaps)); default 0 (umax (p999_us <$> snaps));
    default 0 (umax (max_us <$> snaps)); default 0 (umax (s_inflight_max <$> snaps))],
   let m := usum (omap link_mbps snaps) in if m >? 0 then Some m else None).

Lemma merge_fields snaps : snaps <> [] -> counts (merge_snapshots snaps) = merged_counts snaps.
Proof. by destruct snaps. Qed.

Local Opaque usum umax umin.

Lemma counts_perm snaps snaps' : snaps ≡ₚ snaps' -> merged_counts snaps = merged_counts snaps'.
Proof.
  intros Hp. unfold merged_counts. apply (f_equal2 pair).
  - repeat apply (f_equal2 cons); try reflexivity; try (apply fmap_usum; exact Hp); apply (f_equal (default 0));
      try (apply fmap_umax; exact Hp).
    apply umin_perm. by rewrite Hp.
  - cbn zeta. assert (usum (omap link_mbps snaps) = usum (omap link_mbps snaps')) as ->.
    { apply usum_perm. by rewrite Hp. }
    reflexivity.
Qed.

Local Transparent usum umax umin.

(** The smallest positive value, or 0 when there is none. *)
Lemma min_positive snaps :
  let v := default 0 (umin (base.filter (fun v => 0 < v) (min_us <$> snaps))) in
  v = 0 /\ (forall s, s ∈ snaps -> min_us s <= 0) \/
  (exists s, s ∈ snaps /\ min_us s = v) /\ 0 < v /\ forall s, s ∈ snaps -> 0 < min_us s -> v <= min_us s.
Proof.
  intros v. destruct (decide (base.filter (fun v => 0 < v) (min_us <$> snaps) = [])) as [E|E].
  - left. split; [unfold v; by rewrite E|]. intros s Hs. apply Z.le_ngt. intros Hpos.
    apply (not_elem_of_nil (min_us s)). rewrite <- E, list_elem_of_filter. split; [done|by apply list_elem_of_fmap_2].
  - right. destruct (umin_spec _ E) as [Hi Hm]. fold v in Hi, Hm.
    rewrite list_elem_of_filter, list_elem_of_fmap in Hi. destruct Hi as (Hv & s & Hvs & Hs).
    split; [by exists s|]. split; [done|]. intros s' Hs' Hpos. apply Hm.
    rewrite list_elem_of_filter. split; [done|by apply list_elem_of_fmap_2].
Qed.

(** ** The configurations of the NICs *)

(** All NICs but the last get the base number of workers. *)
Lemma nic_cfgs_split c l t : servers c = l ++ [t] ->
  let n := Z.of_nat (length (servers c)) in
  exists ks, nic_cfgs c = ks ++ [nic_cfg c (n - 1) t] /\ server <$> ks = l /\
    Forall (fun k => servers k = [server k] /\ no_tui k = true /\
                     concurrent k = base_workers (concurrent c) n) ks.
Proof.
  intros Hs n. exists (imap (fun idx target => nic_cfg c (Z.of_nat idx) target) l).
  assert (Hn : n = Z.of_nat (length l) + 1) by (subst n; rewrite Hs, length_app; cbn [length]; lia).
  split; [|split].
  - unfold nic_cfgs. rewrite Hs, imap_app. cbn [imap]. do 3 f_equal. lia.
  - apply list_eq. intros i. rewrite list_lookup_fmap, list_lookup_imap. by destruct (l !! i).
  - apply Forall_lookup. intros i k Hk. rewrite list_lookup_imap in Hk.
    destruct (l !! i) as [t'|] eqn:E; [|done]. injection Hk as <-. apply lookup_lt_Some in E.
    split; [done|]. split; [done|]. cbn [nic_cfg concurrent]. fold n. unfold workers_for.
    replace (Z.of_nat i =? n - 1) with false by (symmetry; bool_to_prop; lia).
    unfold base_workers. lia.
Qed.

Lemma zsum_const {A} (f : A -> Z) l v : Forall (fun a => f a = v) l -> zsum f l = Z.of_nat (length l) * v.
Proof. induction 1 as [|a l Ha _ IH]; [done|]. rewrite zsum_cons, Ha, IH. cbn [length]. lia. Qed.

(** The workers of the last NIC. *)
Lemma last_workers total n : 2 <= n < 2 ^ 62 -> 0 <= total < 2 ^ 64 ->
  let w := workers_for total n (n - 1) in
  (n <= total -> w = total - base_workers total n * (n - 1) /\ base_workers total n = total / n /\ total / n <= w) /\
  (total = n - 1 -> w = 1 /\ base_workers total n = 1) /\
  (total < n - 1 -> 2 ^ 63 < w).
Proof.
  intros Hn Ht w. unfold w, workers_for. rewrite Z.eqb_refl. change (2 ^ 62) with 4611686018427387904 in *.
  change (2 ^ 64) with 18446744073709551616 in *. change (2 ^ 63) with 9223372036854775808.
  pose proof (Z.mul_div_le total n). split; [|split].
  - intros Hle. assert (1 <= total / n) by (apply Z.div_le_lower_bound; lia).
    assert (Hb : base_workers total n = total / n) by (unfold base_workers; lia). rewrite Hb.
    unfold wmul, wsub. change (2 ^ 64) with 18446744073709551616. rewrite (Z.mod_small (total / n * (n - 1))) by nia.
    rewrite Z.mod_small by nia. split; [nia|]. split; [done|nia].
  - intros ->. assert (Hb : base_workers (n - 1) n = 1) by (unfold base_workers; rewrite Z.div_small by lia; lia).
    rewrite Hb. unfold wmul, wsub. change (2 ^ 64) with 18446744073709551616. rewrite (Z.mod_small (1 * (n - 1))) by lia.
    replace (n - 1 - 1 * (n - 1)) with 0 by lia. done.
  - intros Hlt. assert (Hb : base_workers total n = 1) by (unfold base_workers; rewrite Z.div_small by lia; lia).
    rewrite Hb. unfold wmul, wsub. change (2 ^ 64) with 18446744073709551616. rewrite (Z.mod_small (1 * (n - 1))) by lia.
    rewrite <- (Z.mod_add _ 1) by lia. rewrite Z.mod_small by lia. lia.
Qed.

(** ** Theorems *)

(** C39. The workers: every target gets a run of its own, with one server.  With
    at least one worker per NIC the runs share the [-c] workers exactly, each
    getting the rounded-down share or more.  With one worker too few each NIC
    still gets one.  With fewer than that the last subtraction wraps, and a run is
    asked for more than [2^63] workers. *)
Theorem nic_workers_distribution (c : Config) :
  let n := Z.of_nat (length (servers c)) in
  2 <= n < 2 ^ 62 -> 0 <= concurrent c < 2 ^ 64 ->
  (server <$> nic_cfgs c) = servers c /\
  Forall (fun k => servers k = [server k] /\ no_tui k = true) (nic_cfgs c) /\
  (n <= concurrent c ->
     zsum concurrent (nic_cfgs c) = concurrent c /\
     Forall (fun k => concurrent c / n <= concurrent k) (nic_cfgs c)) /\
  (concurrent c = n - 1 -> Forall (fun k => concurrent k = 1) (nic_cfgs c)) /\
  (concurrent c < n - 1 -> Exists (fun k => 2 ^ 63 < concurrent k) (nic_cfgs c)).
Proof.
  intros n Hn Hc. assert (servers c <> []) as Hne by (intros E; subst n; rewrite E in Hn; cbn in Hn; lia).
  destruct (exists_last Hne) as (l & t & Hs). destruct (nic_cfgs_split c l t Hs) as (ks & Hks & Hl & Hall).
  fold n in Hks, Hall. rewrite Hks. destruct (last_workers (concurrent c) n Hn Hc) as (H1 & H2 & H3).
  set (k := nic_cfg c (n - 1) t) in *. change (workers_for (concurrent c) n (n - 1)) with (concurrent k) in *.
  assert (Hlen : Z.of_nat (length ks) = n - 1).
  { rewrite <- (length_fmap server ks), Hl. subst n. rewrite Hs, length_app. cbn [length]. lia. }
  split; [rewrite fmap_app, Hl, Hs; reflexivity|]. split; [|split; [|split]].
  - apply Forall_app. split; [|by constructor]. eapply Forall_impl; [exact Hall|]. cbn beta. tauto.
  - intros Hle. destruct (H1 Hle) as (Hk & Hb & Hkb). split.
    + rewrite zsum_app, (zsum_const concurrent ks (base_workers (concurrent c) n)).
      2:{ eapply Forall_impl; [exact Hall|]. cbn beta. tauto. }
      rewrite zsum_cons. cbn [zsum foldr]. rewrite Hk, Hlen. lia.
    + apply Forall_app. split; [|by constructor]. eapply Forall_impl; [exact Hall|]. cbn beta. lia.
  - intros He. destruct (H2 He) as [Hk Hb]. apply Forall_app. split; [|by constructor].
    eapply Forall_impl; [exact Hall|]. cbn beta. lia.
  - intros Hlt. apply Exists_app. right. constructor. by apply H3.
Qed.

(** Three targets and one worker: the third run gets [2^64 - 1]. *)
Definition ex_config (n c : Z) : Config :=
  mkConfig (V4 1) (V4 <$> seqZ 1 n) 53 None c 0 30 3000 4 true false 1 false false [] 1 None Udp false None
    true true false 0 false.

Lemma nic_workers_distribution_witness :
  zsum concurrent (nic_cfgs (ex_config 3 16)) = 16 /\
  concurrent <$> nic_cfgs (ex_config 3 16) = [5; 5; 6] /\
  Exists (fun k => 2 ^ 63 < concurrent k) (nic_cfgs (ex_config 3 1)).
Proof.
  split; [|split].
  - apply (nic_workers_distribution (ex_config 3 16)); vm_compute;
      first [reflexivity | discriminate | split; first [reflexivity | discriminate]].
  - reflexivity.
  - apply (nic_workers_distribution (ex_config 3 1)); vm_compute;
      first [reflexivity | discriminate | split; first [reflexivity | discriminate]].
Defined.

(** A snapshot with a send rate and nothing else. *)
Definition rate_snap (q : Z) : StatsSnapshot :=
  mkSnapshot 0 0 0 0 0 0 0 0 f64_zero (f64_of_Z q) f64_zero 0 f64_zero 0 0 0 0 0 f64_zero 0
    None None None None None.

(** C40. Merging the snapshots of the NICs: each integer count is the sum of the
    NICs' counts (modulo [2^64]) and completions stay the sum of the response codes;
    every percentile, the maximum and the in-flight maximum is the worst NIC's, so
    that the percentiles stay in order; the minimum is the smallest one measured.
    The integer fields do not depend on the order of the NICs.  The rates do: they
    are sums of [f64]s, rounded at every step, and three NICs merged in two orders
    can report two different send rates. *)
Theorem merge_snapshots_spec (snaps snaps' : list StatsSnapshot) :
  snaps <> [] -> snaps ≡ₚ snaps' ->
  let m := merge_snapshots snaps in
  queries_sent m = zsum queries_sent snaps mod 2 ^ 64 /\
  queries_completed m = zsum queries_completed snaps mod 2 ^ 64 /\
  queries_lost m = zsum queries_lost snaps mod 2 ^ 64 /\
  s_rcode_noerror m = zsum s_rcode_noerror snaps mod 2 ^ 64 /\
  s_rcode_nxdomain m = zsum s_rcode_nxdomain snaps mod 2 ^ 64 /\
  s_rcode_servfail m = zsum s_rcode_servfail snaps mod 2 ^ 64 /\
  s_rcode_refused m = zsum s_rcode_refused snaps mod 2 ^ 64 /\
  s_rcode_other m = zsum s_rcode_other snaps mod 2 ^ 64 /\
  (Forall balanced_snap snaps -> balanced_snap m) /\
  worst p50_us snaps (p50_us m) /\ worst p95_us snaps (p95_us m) /\ worst p99_us snaps (p99_us m) /\
  worst p999_us snaps (p999_us m) /\ worst max_us snaps (max_us m) /\
  worst s_inflight_max snaps (s_inflight_max m) /\
  (Forall ordered_snap snaps -> ordered_snap m) /\
  (min_us m = 0 /\ (forall s, s ∈ snaps -> min_us s <= 0) \/
   (exists s, s ∈ snaps /\ min_us s = min_us m) /\ 0 < min_us m /\
   forall s, s ∈ snaps -> 0 < min_us s -> min_us m <= min_us s) /\
  counts (merge_snapshots snaps') = counts m /\
  exists a b c, [a; b; c] ≡ₚ [b; c; a] /\
    send_qps (merge_snapshots [a; b; c]) <> send_qps (merge_snapshots [b; c; a]).
Proof.
  intros Hne Hp m. assert (Hne' : snaps' <> []). { intros ->. by apply Permutation_nil_r in Hp. }
  pose proof (merge_fields snaps Hne) as Hf. fold m in Hf. unfold counts, merged_counts in Hf. injection Hf as F1 F2 F3 F4 F5 F6 F7 F8 F9 F10 F11 F12 F13 F14 F15 _.
  rewrite <- !usum_fmap. do 8 (split; [assumption|]).
  split; [apply merge_balanced|].
  pose proof (worst_umax p50_us snaps Hne) as W1. rewrite <- F10 in W1.
  pose proof (worst_umax p95_us snaps Hne) as W2. rewrite <- F11 in W2.
  pose proof (worst_umax p99_us snaps Hne) as W3. rewrite <- F12 in W3.
  pose proof (worst_umax p999_us snaps Hne) as W4. rewrite <- F13 in W4.
  pose proof (worst_umax max_us snaps Hne) as W5. rewrite <- F14 in W5.
  pose proof (worst_umax s_inflight_max snaps Hne) as W6. rewrite <- F15 in W6.
  do 6 (split; [assumption|]). split; [|split; [|split]].
  - intros Ho. rewrite Forall_forall in Ho. unfold ordered_snap in *.
    split_and!; eapply worst_mono; try eassumption; intros s Hs; apply (Ho s Hs).
  - rewrite F9. apply min_positive.
  - rewrite (merge_fields snaps' Hne'). unfold m. rewrite (merge_fields snaps Hne).
    symmetry. by apply counts_perm.
  - exists (rate_snap (2 ^ 53)), (rate_snap 1), (rate_snap 1).
    split; [apply (Permutation_app_comm [_] [_; _])|]. vm_compute. discriminate.
Qed.

Lemma merge_snapshots_spec_witness :
  let s1 := mkSnapshot 100 90 10 90 0 0 0 0 f64_zero f64_zero f64_zero 0 f64_zero 5 6 7 8 9 f64_zero 3 None None None (Some 10000) None in
  let s2 := mkSnapshot 50 50 0 40 10 0 0 0 f64_zero f64_zero f64_zero 4 f64_zero 1 2 70 80 90 f64_zero 1 None None None None None in
  p99_us (merge_snapshots [s1; s2]) = 70 /\ min_us (merge_snapshots [s1; s2]) = 4 /\
  counts (merge_snapshots [s2; s1]) = counts (merge_snapshots [s1; s2]).
Proof.
  intros s1 s2.
  destruct (merge_snapshots_spec [s1; s2] [s2; s1]) as (_ & _ & _ & _ & _ & _ & _ & _ & _ & _ & _ & _ & _ & _ & _ & _ & _ & Hc & _).
  - discriminate.
  - apply perm_swap.
  - split; [reflexivity|]. split; [reflexivity|]. exact Hc.
Defined.
