(* ===== verification/Autodetect.v ===== *)
(** * Host detection: CPUs, NUMA nodes and routes

    Models [src/autodetect.rs] and the interface selection of
    [src/transport/xdp/socket.rs].  The text of the [/proc] and [/sys] files, the
    directory listings and the list [getifaddrs] returns are arguments; an
    unreadable file is [None].

    The theorems: [iface_for_ipv4] is longest-prefix match on the routing table,
    and [iface_for_addr], which takes the first match, agrees with it when one route
    other than the default matches (but not in general); [physical_cores] has one
    CPU, the first, for every core; a printed CPU list is read back. *)

From Stdlib Require Import ZArith Lia Bool String.
From stdpp Require Import base numbers option gmap sorting list.
From S2P Require Import Prelude RustStr Config.

Open Scope Z_scope.

(** ** Integers *)

(** [u32::swap_bytes], which [u32::from_be] is on a little-endian machine. *)
Definition swap_bytes (x : Z) : Z :=
  Z.lor (Z.lor (Z.shiftl (Z.land x 0xFF) 24) (Z.shiftl (Z.land (Z.shiftr x 8) 0xFF) 16))
        (Z.lor (Z.shiftl (Z.land (Z.shiftr x 16) 0xFF) 8) (Z.land (Z.shiftr x 24) 0xFF)).

(** [u32::count_ones] *)
Definition count_ones (x : Z) : Z := zsum (fun i => Z.b2z (Z.testbit x i)) (seqZ 0 32).

(** [iN::from_str] *)
Definition parse_i (w : Z) (s : str) : option Z :=
  match s with
  | c :: s' =>
      if c =? c_dash
      then match s' with
           | [] => None
           | _ => match digits_value 10 w 0 s' with
                  | Some n => if n <=? 2 ^ (w - 1) then Some (- n) else None
                  | None => None
                  end
           end
      else match from_str_radix 10 w s with
           | Some n => if n <? 2 ^ (w - 1) then Some n else None
           | None => None
           end
  | [] => None
  end.

(** ** Routes *)

Definition is_loopback (a : IpAddr) : bool :=
  match a with
  | V4 b => b / 2 ^ 24 =? 127
  | V6 b => b =? 1
  end.

(** The loop of [iface_for_addr]: a line of four to seven columns is indexed out
    of range; an unreadable destination is [u32::MAX], an unreadable mask 0. *)
Fixpoint addr_routes (v4 : Z) (default_iface : option str) (ls : list str) : outcome (option str) :=
  match ls with
  | [] => Done default_iface
  | line :: ls' =>
      let cols := split_whitespace line in
      if (length cols <? 4)%nat then addr_routes v4 default_iface ls'
      else
        match cols !! 0%nat, cols !! 1%nat, cols !! 7%nat with
        | Some iface, Some c1, Some c7 =>
            let dest := swap_bytes (default u32_max (from_str_radix 16 32 c1)) in
            let mask := swap_bytes (default 0 (from_str_radix 16 32 c7)) in
            if (dest =? 0) && (mask =? 0) then addr_routes v4 (Some iface) ls'
            else if Z.land v4 mask =? Z.land dest mask then Done (Some iface)
            else addr_routes v4 default_iface ls'
        | _, _, _ => Panic
        end
  end.

Definition iface_for_addr (route_file : option str) (addr : IpAddr) : outcome (option str) :=
  match route_file with
  | None => Done None
  | Some content =>
      if is_loopback addr then Done None
      else match addr with
           | V6 _ => Done None
           | V4 v4 => addr_routes v4 None (drop 1 (lines content))
           end
  end.

(** The columns of a line [iface_for_ipv4] uses; a missing or unreadable one ends
    the function. *)
Definition route_of (line : str) : option (str * Z * Z) :=
  let cols := split_whitespace line in
  iface ← cols !! 0%nat;
  c1 ← cols !! 1%nat;
  dest ← from_str_radix 16 32 c1;
  c7 ← cols !! 7%nat;
  mask ← from_str_radix 16 32 c7;
  Some (iface, dest, mask).

Fixpoint ipv4_routes (target : Z) (best : option (Z * str)) (ls : list str) : option str :=
  match ls with
  | [] => snd <$> best
  | line :: ls' =>
      '(iface, dest, mask) ← route_of line;
      if Z.land target mask =? Z.land dest mask then
        let prefix_len := count_ones mask in
        let better := match best with None => true | Some (b, _) => prefix_len >? b end in
        ipv4_routes target (if better then Some (prefix_len, iface) else best) ls'
      else ipv4_routes target best ls'
  end.

Definition iface_for_ipv4 (route_file : option str) (target : Z) : option str :=
  content ← route_file;
  ipv4_routes (swap_bytes target) None (drop 1 (lines content)).

Fixpoint default_lines (ls : list str) : option str :=
  match ls with
  | [] => None
  | line :: ls' =>
      let cols := split_whitespace line in
      iface ← cols !! 0%nat;
      dest ← cols !! 1%nat;
      if str_eqb dest (lit "00000000") then Some iface else default_lines ls'
  end.

Definition default_interface (route_file : option str) : option str :=
  content ← route_file;
  default_lines (drop 1 (lines content)).

(** An entry of [getifaddrs] with an IPv4 address and a mask, in host order; the
    name is [None] when it is not UTF-8. *)
Record ifaddr : Type := mkIfaddr { ifa_name : option str; ifa_addr : Z; ifa_mask : Z }.

Fixpoint getifaddrs_iface_for_subnet (server : Z) (l : list ifaddr) : option str :=
  match l with
  | [] => None
  | ifa :: l' =>
      if ifa_mask ifa =? 0 then getifaddrs_iface_for_subnet server l'
      else match ifa_name ifa with
           | None => getifaddrs_iface_for_subnet server l'
           | Some name =>
               if str_eqb name (lit "lo") then getifaddrs_iface_for_subnet server l'
               else if Z.land (ifa_addr ifa) (ifa_mask ifa) =? Z.land server (ifa_mask ifa)
               then Some name
               else getifaddrs_iface_for_subnet server l'
           end
  end.

Definition iface_for_server (ifaddrs : list ifaddr) (route_file : option str) (server : IpAddr) : option str :=
  if is_loopback server then Some (lit "lo")
  else match server with
       | V4 v4 => match getifaddrs_iface_for_subnet v4 ifaddrs with
                  | Some i => Some i
                  | None => iface_for_ipv4 route_file v4
                  end
       | V6 _ => default_interface route_file
       end.

(** ** CPUs and NUMA nodes *)

Definition is_ascii_digit (c : char) : bool := (48 <=? c) && (c <=? 57).

(** The number of a [cpuN] entry. *)
Definition cpu_entry (name : str) : option Z :=
  digits ← strip_prefix (lit "cpu") name;
  if negb (is_empty digits) && forallb is_ascii_digit digits then parse_u 64 digits else None.

(** [read_topo], from the text of the file. *)
Definition read_topo (file : option str) : option Z := s ← file; parse_u 64 (trim s).

(** The loop: one CPU for each (package, core) pair not seen before. *)
Fixpoint distinct_cores (core_id pkg_id : Z -> option Z) (ids : list Z) (seen : gset (Z * Z)) : list Z :=
  match ids with
  | [] => []
  | cpu :: ids' =>
      match core_id cpu with
      | None => distinct_cores core_id pkg_id ids' seen
      | Some core =>
          let key := (default 0 (pkg_id cpu), core) in
          if decide (key ∈ seen) then distinct_cores core_id pkg_id ids' seen
          else cpu :: distinct_cores core_id pkg_id ids' ({[key]} ∪ seen)
      end
  end.

(** [physical_cores]; [cpu_dir] is the listing of [/sys/devices/system/cpu],
    [num_physical] what the num_cpus crate returns. *)
Definition physical_cores (cpu_dir : option (list str)) (topo : Z -> str -> option str) (num_physical : Z) : list Z :=
  match cpu_dir with
  | None => seqZ 0 num_physical
  | Some names =>
      let ids := merge_sort Z.le (omap cpu_entry names) in
      let cores := distinct_cores (fun c => read_topo (topo c (lit "core_id")))
                     (fun c => read_topo (topo c (lit "physical_package_id"))) ids ∅ in
      if is_empty cores then seqZ 0 num_physical else cores
  end.

(** [numa_node_for_cpu], from the listing of the CPU's directory. *)
Fixpoint numa_node_for_cpu (dir : list str) : option Z :=
  match dir with
  | [] => None
  | name :: dir' =>
      match strip_prefix (lit "node") name with
      | Some rest => match parse_u 64 rest with
                     | Some n => Some n
                     | None => numa_node_for_cpu dir'
                     end
      | None => numa_node_for_cpu dir'
      end
  end.

Definition numa_node_for_iface (file : option str) : option Z :=
  s ← file;
  n ← parse_i 32 (trim s);
  if n <? 0 then None else Some n.

(** [part.split_once('-')] *)
Definition split_once (c : char) (s : str) : option (str * str) :=
  match split_char c s with
  | a :: ((_ :: _) as rest) => Some (a, join c rest)
  | _ => None
  end.

Definition cpulist_part (part : str) : list Z :=
  if is_empty part then []
  else match split_once c_dash part with
       | Some (a, b) =>
           match parse_u 64 (trim a), parse_u 64 (trim b) with
           | Some a, Some b => seqZ a (b - a + 1)
           | _, _ => []
           end
       | None => match parse_u 64 (trim part) with Some a => [a] | None => [] end
       end.

Definition logical_cpus_for_node (file : option str) : list Z :=
  let s := default [] file in
  concat (cpulist_part <$> split_char c_comma (trim s)).

(** [physical_cores_numa_sorted], given the cores and the node of each. *)
Definition numa_sorted (cores : list Z) (node_of : Z -> option Z) (preferred_node : option Z) : list Z :=
  match preferred_node with
  | None => cores
  | Some preferred =>
      base.filter (fun c => node_of c = Some preferred) cores ++
      base.filter (fun c => node_of c <> Some preferred) cores
  end.

(** [pin_to_cpu]: the core of a worker. *)
Definition pinned_cpu (cores : list Z) (worker_id : Z) : outcome Z :=
  if Z.of_nat (length cores) =? 0 then Panic
  else match cores !! Z.to_nat (worker_id mod Z.of_nat (length cores)) with
       | Some c => Done c
       | None => Panic
       end.

(** ** Memory *)

(** The first number of the rest of a line, or 0. *)
Definition first_number (rest : str) : Z :=
  default 0 (v ← head (split_whitespace rest); parse_u 64 v).

Fixpoint meminfo_lines (ls : list str) (total avail : Z) : Z * Z :=
  match ls with
  | [] => (total, avail)
  | line :: ls' =>
      match strip_prefix (lit "MemTotal:") line with
      | Some rest => meminfo_lines ls' (first_number rest) avail
      | None =>
          match strip_prefix (lit "MemAvailable:") line with
          | Some rest => meminfo_lines ls' total (first_number rest)
          | None => meminfo_lines ls' total avail
          end
      end
  end.

Definition read_proc_meminfo_total_and_avail_kb (file : option str) : Z * Z :=
  meminfo_lines (lines (default [] file)) 0 0.

Fixpoint avail_lines (ls : list str) : Z :=
  match ls with
  | [] => 0
  | line :: ls' =>
      match strip_prefix (lit "MemAvailable:") line with
      | Some rest => first_number rest / 1024
      | None => avail_lines ls'
      end
  end.

Definition read_proc_meminfo_avail_mb (file : option str) : Z := avail_lines (lines (default [] file)).

(** The memory guard ([src/stats/oom_guard.rs]): what one tick does. *)
Inductive oom_verdict : Set := OomSkip | OomStop | OomWarn | OomOk.

Definition oom_check (total avail : Z) : oom_verdict :=
  if total =? 0 then OomSkip
  else
    let pct := wmul 64 avail 100 / total in
    if pct <? 10 then OomStop else if pct <? 20 then OomWarn else OomOk.

Definition nic_speed_mbps (file : option str) : option Z :=
  s ← file;
  v ← parse_i 64 (trim s);
  if v >? 0 then Some v else None.

(** ** CPU lists *)

Definition range_text (r : Z * Z) : str :=
  if r.1 =? r.2 then display_u r.1 else display_u r.1 ++ [c_dash] ++ display_u r.2.

Definition cpulist_text (rs : list (Z * Z)) : str := join c_comma (range_text <$> rs) ++ [c_lf].

Definition range_ok (r : Z * Z) : Prop := 0 <= r.1 <= r.2 /\ r.2 < 2 ^ 64.

Lemma display_no_sep z c : 0 <= z -> c < 48 -> no_char (Z.eqb c) (display_u z).
Proof. intros Hz Hc. apply display_no_char; [done|]. intros d Hd. apply Z.eqb_neq. lia. Qed.

Lemma digit_not_whitespace c : 48 <= c <= 57 -> is_whitespace c = false.
Proof.
  intros Hc. assert (c = 48 \/ c = 49 \/ c = 50 \/ c = 51 \/ c = 52 \/ c = 53 \/ c = 54 \/ c = 55 \/ c = 56 \/ c = 57)
    by lia. destruct_or?; by subst c.
Qed.

Lemma trim_display z : 0 <= z -> trim (display_u z) = display_u z.
Proof. intros Hz. apply trim_none, display_no_char; [done|apply digit_not_whitespace]. Qed.

Lemma range_text_no_char p r : range_ok r -> (forall c, 48 <= c <= 57 -> p c = false) -> p c_dash = false ->
  no_char p (range_text r).
Proof.
  intros [Hr _] Hp Hd. unfold range_text. destruct (r.1 =? r.2); [apply display_no_char; [lia|done]|].
  apply Forall_app. split; [apply display_no_char; [lia|done]|].
  constructor; [done|]. apply display_no_char; [lia|done].
Qed.

Lemma cpulist_part_range r : range_ok r -> cpulist_part (range_text r) = seqZ r.1 (r.2 - r.1 + 1).
Proof.
  intros [Hr Hmax]. unfold cpulist_part, range_text. destruct r as [a b]. cbn [fst snd] in *.
  assert (Hparse : forall z, 0 <= z < 2 ^ 64 -> parse_u 64 (trim (display_u z)) = Some z).
  { intros z Hz. rewrite trim_display by lia. apply parse_display; [lia|done]. }
  destruct (a =? b) eqn:E; bool_to_prop.
  - subst b. replace (is_empty (display_u a)) with false.
    2:{ pose proof (display_not_empty a). by destruct (display_u a). }
    unfold split_once, split_char. rewrite split_by_none by (apply display_no_sep; [lia|done]).
    rewrite Hparse by lia. replace (a - a + 1) with 1 by lia. unfold seqZ. cbn. f_equal.
  - replace (is_empty _) with false.
    2:{ pose proof (display_not_empty a). by destruct (display_u a). }
    unfold split_once, split_char. cbn [app]. rewrite split_by_app; [|by apply display_no_sep; [lia|]|by rewrite Z.eqb_refl].
    rewrite split_by_none by (apply display_no_sep; [lia|done]). cbn [join].
    rewrite !Hparse by lia. done.
Qed.

Lemma no_char_join p c rs : Forall (no_char p) rs -> p c = false -> no_char p (join c rs).
Proof.
  intros Hr Hc. induction Hr as [|x rs Hx Hrs IH]; [constructor|]. destruct rs as [|y rs]; [done|].
  change (join c (x :: y :: rs)) with (x ++ c :: join c (y :: rs)). apply Forall_app. split; [done|].
  by constructor.
Qed.

Lemma cpulist_roundtrip rs : Forall range_ok rs ->
  logical_cpus_for_node (Some (cpulist_text rs)) = concat ((fun r => seqZ r.1 (r.2 - r.1 + 1)) <$> rs).
Proof.
  intros Hok. unfold logical_cpus_for_node, cpulist_text. cbn [from_option id].
  assert (Hno : forall p, (forall c, 48 <= c <= 57 -> p c = false) -> p c_dash = false ->
    Forall (no_char p) (range_text <$> rs)).
  { intros p Hd Hp. apply Forall_fmap. eapply Forall_impl; [exact Hok|]. intros r Hr. by apply range_text_no_char. }
  rewrite trim_lf by (apply no_char_join; [apply Hno; [apply digit_not_whitespace|]|]; done).
  destruct rs as [|r rs]; [done|].
  rewrite split_join; [|by destruct rs|apply Hno; [intros c Hc; apply Z.eqb_neq; unfold c_comma; lia|done]].
  f_equal. rewrite <- list_fmap_compose. apply list_fmap_ext. intros i x Hx. cbn [compose].
  apply cpulist_part_range. rewrite Forall_lookup in Hok. by eapply Hok.
Qed.

(** ** Cores *)

Definition core_key (core_id pkg_id : Z -> option Z) (cpu : Z) : option (Z * Z) :=
  core ← core_id cpu; Some (default 0 (pkg_id cpu), core).

Lemma distinct_cores_spec core_id pkg_id ids seen :
  StronglySorted Z.le ids ->
  let key := core_key core_id pkg_id in
  let l := distinct_cores core_id pkg_id ids seen in
  (forall c, c ∈ l -> c ∈ ids /\ exists k, key c = Some k /\ k ∉ seen) /\
  NoDup (key <$> l) /\ StronglySorted Z.le l /\
  (forall c k, c ∈ ids -> key c = Some k -> k ∈ seen \/ exists c', c' ∈ l /\ key c' = Some k /\ c' <= c).
Proof.
  intros Hs key. revert seen. induction Hs as [|c ids Hs IH Hall]; intros seen; cbn [distinct_cores].
  { split; [intros c Hc; inversion Hc|]. split; [constructor|]. split; [constructor|]. intros c k Hc. inversion Hc. }
  rewrite Forall_forall in Hall. destruct (core_id c) as [core|] eqn:Ec.
  2:{ destruct (IH seen) as (H1 & H2 & H3 & H4). cbn zeta in *. split_and!; [|done|done|].
      - intros d Hd. destruct (H1 d Hd). split; [by right|done].
      - intros d k Hd Hk. apply elem_of_cons in Hd as [->|Hd]; [|by apply H4].
        unfold key, core_key in Hk. by rewrite Ec in Hk. }
  set (k0 := (default 0 (pkg_id c), core)).
  assert (Hk0 : key c = Some k0) by (unfold key, core_key; by rewrite Ec).
  destruct (decide (k0 ∈ seen)) as [Hin|Hin].
  - destruct (IH seen) as (H1 & H2 & H3 & H4). cbn zeta in *. split_and!; [|done|done|].
    + intros d Hd. destruct (H1 d Hd). split; [by right|done].
    + intros d k Hd Hk. apply elem_of_cons in Hd as [->|Hd]; [|by apply H4]. left. congruence.
  - destruct (IH ({[k0]} ∪ seen)) as (H1 & H2 & H3 & H4). cbn zeta in *. split_and!.
    + intros d Hd. apply elem_of_cons in Hd as [->|Hd]; [split; [by left|by exists k0]|].
      destruct (H1 d Hd) as (Hd' & k & Hk & Hn). split; [by right|]. exists k.
      split; [done|]. rewrite elem_of_union in Hn. tauto.
    + rewrite fmap_cons. constructor; [|done]. rewrite list_elem_of_fmap. intros (d & He & Hd).
      destruct (H1 d Hd) as (_ & k & Hk & Hn). rewrite elem_of_union, elem_of_singleton in Hn.
      apply Hn. left. congruence.
    + constructor; [done|]. apply Forall_forall. intros d Hd. apply Hall. by destruct (H1 d Hd).
    + intros d k Hd Hk. apply elem_of_cons in Hd as [->|Hd].
      * right. exists c. split; [by left|]. split; [done|lia].
      * destruct (H4 d k Hd Hk) as [Hs'|(c' & Hc' & Hk' & Hle)].
        -- rewrite elem_of_union, elem_of_singleton in Hs'. destruct Hs' as [->|Hs']; [|by left].
           right. exists c. split; [by left|]. split; [done|by apply Hall].
        -- right. exists c'. split; [by right|done].
Qed.

Lemma sorted_ids l : StronglySorted Z.le (merge_sort Z.le l) /\ merge_sort Z.le l ≡ₚ l.
Proof.
  split; [apply (StronglySorted_merge_sort _); intros a b; lia|apply merge_sort_Permutation].
Qed.

Lemma pinned_cpu_in cores w : cores <> [] -> 0 <= w -> exists c, pinned_cpu cores w = Done c /\ c ∈ cores.
Proof.
  intros Hne Hw. assert (0 < Z.of_nat (length cores)) by (destruct cores; [done|cbn [length]; lia]).
  unfold pinned_cpu. replace (_ =? 0) with false by (symmetry; bool_to_prop; lia).
  pose proof (Z.mod_pos_bound w (Z.of_nat (length cores))).
  destruct (lookup_lt_is_Some_2 cores (Z.to_nat (w mod Z.of_nat (length cores)))) as [c Hc]; [lia|].
  rewrite Hc. exists c. split; [done|by eapply list_elem_of_lookup_2].
Qed.

Lemma numa_sorted_perm cores node_of pref : numa_sorted cores node_of pref ≡ₚ cores.
Proof.
  destruct pref as [p|]; [|done]. unfold numa_sorted. induction cores as [|c l IH]; [done|].
  rewrite !filter_cons. destruct (decide (node_of c = Some p)) as [E|E].
  - rewrite decide_False by tauto. cbn [app]. by rewrite IH.
  - rewrite decide_True by done. rewrite <- Permutation_middle. by rewrite IH.
Qed.

(** Without readable topology the list is the first CPUs. *)
Lemma physical_cores_nonempty dir topo np : 1 <= np -> physical_cores dir topo np <> [].
Proof.
  intros Hnp. assert (seqZ 0 np <> []).
  { intros E. apply (f_equal length) in E. rewrite length_seqZ in E. cbn in E. lia. }
  unfold physical_cores. destruct dir as [names|]; [|done].
  destruct (distinct_cores _ _ _ _) eqn:E; [done|]. cbn [is_empty]. done.
Qed.

(** [physical_cores] has exactly one CPU, the lowest numbered, for every
    (package, core) pair the topology files give, in increasing order, whatever
    the order of the directory; it falls back to the first CPUs when no topology
    can be read.  The NUMA ordering only permutes the list, and pinning a worker
    always finds one of its CPUs. *)
Theorem physical_cores_spec names topo num_physical node_of preferred worker_id :
  1 <= num_physical -> 0 <= worker_id ->
  let cpus := omap cpu_entry names in
  let key := core_key (fun c => read_topo (topo c (lit "core_id")))
                      (fun c => read_topo (topo c (lit "physical_package_id"))) in
  let cores := physical_cores (Some names) topo num_physical in
  let sorted := numa_sorted cores node_of preferred in
  ((forall c, c ∈ cpus -> key c = None) /\ cores = seqZ 0 num_physical \/
   (forall c, c ∈ cores -> c ∈ cpus /\ is_Some (key c)) /\
   NoDup (key <$> cores) /\ StronglySorted Z.le cores /\
   (forall c k, c ∈ cpus -> key c = Some k -> exists c', c' ∈ cores /\ key c' = Some k /\ c' <= c)) /\
  sorted ≡ₚ cores /\
  exists c, pinned_cpu sorted worker_id = Done c /\ c ∈ cores.
Proof.
  intros Hnp Hw cpus key cores sorted. pose proof (numa_sorted_perm cores node_of preferred) as Hperm.
  fold sorted in Hperm.
  assert (Hne : cores <> []) by (by apply physical_cores_nonempty).
  split; [|split; [exact Hperm|]].
  - destruct (sorted_ids cpus) as [Hs Hp].
    destruct (distinct_cores_spec (fun c => read_topo (topo c (lit "core_id")))
                (fun c => read_topo (topo c (lit "physical_package_id"))) _ ∅ Hs) as (H1 & H2 & H3 & H4).
    cbn zeta in *. fold key in H1, H2, H4. unfold cores, physical_cores. fold cpus.
    set (l := distinct_cores _ _ _ ∅) in *. destruct l as [|c l'] eqn:El; cbn [is_empty].
    + left. split; [|done]. intros c Hc. destruct (key c) as [k|] eqn:Ek; [|done].
      destruct (H4 c k) as [He|(c' & Hc' & _)]; [by rewrite Hp|done|by apply not_elem_of_empty in He|inversion Hc'].
    + right. rewrite <- El in *. split_and!; [|done|done|].
      * intros d Hd. destruct (H1 d Hd) as (Hd' & k & Hk & _). rewrite Hp in Hd'. rewrite Hk. by split.
      * intros d k Hd Hk. destruct (H4 d k) as [He|?]; [by rewrite Hp|done|by apply not_elem_of_empty in He|done].
  - destruct (pinned_cpu_in sorted worker_id) as (c & Hc & Hin); [|done|exists c; split; [done|by rewrite <- Hperm]].
    intros E. rewrite E in Hperm. by apply Permutation_nil_l in Hperm.
Qed.

(** Two sockets, two threads per core: CPUs 4 and 6 are siblings of 0 and 2. *)
Definition ex_topo (cpu : Z) (file : str) : option str :=
  if str_eqb file (lit "core_id") then Some (display_u (cpu mod 2) ++ [c_lf])
  else Some (display_u (cpu / 2 mod 2) ++ [c_lf]).

Definition ex_dir : list str :=
  lit <$> ["cpu3"; "cpufreq"; "cpu1"; "cpu10"; "cpu0"; "cpuidle"; "cpu2"; "cpu4"; "cpu6"; "cpu"]%string.

Lemma physical_cores_spec_witness :
  physical_cores (Some ex_dir) ex_topo 2 = [0; 1; 2; 3] /\
  exists c, pinned_cpu (numa_sorted (physical_cores (Some ex_dir) ex_topo 2) (fun c => Some (c / 2)) (Some 1)) 5 = Done c /\
    c ∈ physical_cores (Some ex_dir) ex_topo 2.
Proof.
  split; [vm_compute; reflexivity|].
  apply (physical_cores_spec ex_dir ex_topo 2 (fun c => Some (c / 2)) (Some 1) 5); lia.
Defined.

(** ** Byte order *)

Lemma swap_testbit x n : 0 <= n ->
  Z.testbit (swap_bytes x) n = (n <? 32) && Z.testbit x (24 - 8 * (n / 8) + n mod 8).
Proof.
  intros Hn. unfold swap_bytes. change 0xFF with (Z.ones 8).
  rewrite !Z.lor_spec, !Z.shiftl_spec, !Z.land_spec by lia.
  assert (Hb : forall m, Z.testbit (Z.ones 8) m = (0 <=? m) && (m <? 8)).
  { intros m. apply Z.testbit_ones. lia. }
  assert (Hsh : forall m k, 0 <= k -> Z.testbit (Z.shiftr x k) m && Z.testbit (Z.ones 8) m =
    Z.testbit x (m + k) && Z.testbit (Z.ones 8) m).
  { intros m k Hk. rewrite Hb. destruct (0 <=? m) eqn:E; bool_to_prop; [by rewrite Z.shiftr_spec by lia|].
    cbn [andb]. by rewrite !andb_false_r. }
  rewrite !Hsh by lia.
  assert (Ht : forall m, 0 <= m < 8 -> Z.testbit (Z.ones 8) m = true).
  { intros m Hm. rewrite Hb. apply andb_true_iff. split; bool_to_prop; lia. }
  assert (Hf : forall m, m < 0 \/ 8 <= m -> Z.testbit (Z.ones 8) m = false).
  { intros m Hm. rewrite Hb. apply andb_false_iff. destruct Hm; [left|right]; bool_to_prop; lia. }
  assert (n < 8 \/ 8 <= n < 16 \/ 16 <= n < 24 \/ 24 <= n < 32 \/ 32 <= n) as Hc by lia.
  pose proof (Z.div_mod n 8). pose proof (Z.mod_pos_bound n 8).
  destruct Hc as [Hc|[Hc|[Hc|[Hc|Hc]]]];
    rewrite ?(Ht n), ?(Ht (n - 8)), ?(Ht (n - 16)), ?(Ht (n - 24)), ?(Hf n), ?(Hf (n - 8)), ?(Hf (n - 16)),
      ?(Hf (n - 24)) by lia;
    [replace (n <? 32) with true by (symmetry; bool_to_prop; lia)..
    |replace (n <? 32) with false by (symmetry; bool_to_prop; lia)];
    rewrite ?andb_false_r, ?andb_true_r, ?orb_false_r, ?orb_false_l; cbn [andb orb]; try reflexivity; f_equal; lia.
Qed.

Lemma swap_land a b : swap_bytes (Z.land a b) = Z.land (swap_bytes a) (swap_bytes b).
Proof.
  apply Z.bits_inj'. intros n Hn. rewrite Z.land_spec, !swap_testbit, Z.land_spec by done.
  by destruct (n <? 32).
Qed.

Lemma swap_range x : in_u 32 (swap_bytes x).
Proof.
  assert (E : swap_bytes x = swap_bytes x mod 2 ^ 32).
  { apply Z.bits_inj'. intros n Hn. rewrite Z.testbit_mod_pow2, swap_testbit by lia.
    by destruct (n <? 32). }
  rewrite E. apply Z.mod_pos_bound. lia.
Qed.

Lemma swap_swap x : in_u 32 x -> swap_bytes (swap_bytes x) = x.
Proof.
  intros Hx. apply Z.bits_inj'. intros n Hn. rewrite swap_testbit by done.
  replace (Z.testbit x n) with ((n <? 32) && Z.testbit x n)
    by (rewrite <- Z.testbit_mod_pow2, Z.mod_small; [done|exact Hx|lia]).
  destruct (n <? 32) eqn:E; bool_to_prop; [cbn [andb]|done].
  pose proof (Z.div_mod n 8). pose proof (Z.mod_pos_bound n 8). set (m := 24 - 8 * (n / 8) + n mod 8).
  assert (0 <= m < 32) by lia. rewrite swap_testbit by lia.
  replace (m <? 32) with true by (symmetry; bool_to_prop; lia). cbn [andb]. f_equal.
  assert (m / 8 = 3 - n / 8) as -> by (symmetry; apply Z.div_unique with (n mod 8); lia).
  assert (m mod 8 = n mod 8) as -> by (symmetry; apply Z.mod_unique with (3 - n / 8); lia). lia.
Qed.

(** The two functions compare the same bits: one swaps the address, the other
    the columns. *)
Lemma swap_match a mask dest : in_u 32 a -> in_u 32 mask -> in_u 32 dest ->
  (Z.land a (swap_bytes mask) =? Z.land (swap_bytes dest) (swap_bytes mask)) =
  (Z.land (swap_bytes a) mask =? Z.land dest mask).
Proof.
  intros Ha Hm Hd. apply eq_true_iff_eq. rewrite !Z.eqb_eq. split; intros He; apply (f_equal swap_bytes) in He.
  - by rewrite !swap_land, !swap_swap in He.
  - by rewrite !swap_land, swap_swap in He.
Qed.

Lemma swap_zero x : in_u 32 x -> (swap_bytes x =? 0) = (x =? 0).
Proof.
  intros Hx. apply eq_true_iff_eq. rewrite !Z.eqb_eq. split; [|by intros ->].
  intros He. apply (f_equal swap_bytes) in He. by rewrite swap_swap in He.
Qed.

(** ** The routing table *)

Definition r_iface (r : str * Z * Z) : str := r.1.1.
Definition r_dest (r : str * Z * Z) : Z := r.1.2.
Definition r_mask (r : str * Z * Z) : Z := r.2.

(** A route matches an address; the columns of the table are byte-swapped. *)
Definition r_matches (a : Z) (r : str * Z * Z) : Prop :=
  Z.land (swap_bytes a) (r_mask r) = Z.land (r_dest r) (r_mask r).
Definition r_default (r : str * Z * Z) : Prop := r_dest r = 0 /\ r_mask r = 0.
Definition r_plen (r : str * Z * Z) : Z := count_ones (r_mask r).
Definition r_specific (a : Z) (r : str * Z * Z) : Prop := ~ r_default r /\ r_matches a r.

Global Instance r_matches_dec a r : Decision (r_matches a r).
Proof. unfold r_matches. apply _. Defined.
Global Instance r_default_dec r : Decision (r_default r).
Proof. unfold r_default. apply _. Defined.
Global Instance r_specific_dec a r : Decision (r_specific a r).
Proof. unfold r_specific. apply _. Defined.

Lemma digits_value_range radix w acc s v : 0 < radix -> in_u w acc -> digits_value radix w acc s = Some v -> in_u w v.
Proof.
  intros Hr. revert acc. induction s as [|c s IH]; intros acc Ha Hv; cbn [digits_value] in Hv; [congruence|].
  destruct (to_digit radix c) as [d|] eqn:Ed; [|done]. destruct (_ <? 2 ^ w) eqn:E; [|done]. bool_to_prop.
  apply IH in Hv; [done|]. unfold in_u in *. split; [|lia]. assert (0 <= d); [|nia].
  unfold to_digit in Ed. destruct (_ <? radix) eqn:E2 in Ed; [|done]. injection Ed as <-. ifs_lia.
Qed.

Lemma from_str_radix_range radix w s v : 0 < radix -> 0 <= w -> from_str_radix radix w s = Some v -> in_u w v.
Proof.
  intros Hr Hw Hv. unfold from_str_radix in Hv.
  assert (in_u w 0) by (unfold in_u; split; [lia|apply Z.pow_pos_nonneg; lia]).
  destruct (match s with [] => _ | _ :: _ => _ end) as [|c l]; [done|]. by eapply digits_value_range.
Qed.

(** A line that gives a route: its columns. *)
Lemma route_of_cols line r : route_of line = Some r ->
  let cols := split_whitespace line in
  exists c1 c7, cols !! 0%nat = Some (r_iface r) /\ cols !! 1%nat = Some c1 /\ cols !! 7%nat = Some c7 /\
    from_str_radix 16 32 c1 = Some (r_dest r) /\ from_str_radix 16 32 c7 = Some (r_mask r) /\
    in_u 32 (r_dest r) /\ in_u 32 (r_mask r) /\ (8 <= length cols)%nat.
Proof.
  intros Hr cols. unfold route_of in Hr. fold cols in Hr. cbn [mbind option_bind] in Hr.
  destruct (cols !! 0%nat) as [i|] eqn:E0; [|done]. destruct (cols !! 1%nat) as [c1|] eqn:E1; [|done]. cbn in Hr.
  destruct (from_str_radix 16 32 c1) as [d|] eqn:Ed; [|done]. cbn in Hr.
  destruct (cols !! 7%nat) as [c7|] eqn:E7; [|done]. cbn in Hr.
  destruct (from_str_radix 16 32 c7) as [m|] eqn:Em; [|done]. injection Hr as <-.
  exists c1, c7. cbn [r_iface r_dest r_mask fst snd]. split_and!; try done.
  - apply (from_str_radix_range 16 32 c1); [lia|lia|done].
  - apply (from_str_radix_range 16 32 c7); [lia|lia|done].
  - by apply lookup_lt_Some in E7.
Qed.

Lemma addr_routes_spec a def ls rs : in_u 32 a -> mapM route_of ls = Some rs ->
  addr_routes a def ls =
  Done (match head (base.filter (r_specific a) rs) with
        | Some r => Some (r_iface r)
        | None => match last (base.filter r_default rs) with Some r => Some (r_iface r) | None => def end
        end).
Proof.
  intros Ha. revert def rs. induction ls as [|line ls IH]; intros def rs Hrs; cbn [mapM] in Hrs.
  { by injection Hrs as <-. }
  destruct (route_of line) as [r|] eqn:Er; [|done]. cbn in Hrs. destruct (mapM route_of ls) as [rs'|]; [|done].
  cbn in Hrs. injection Hrs as <-.
  destruct (route_of_cols line r Er) as (c1 & c7 & H0 & H1 & H7 & Hd & Hm & Hdr & Hmr & Hlen). cbn [addr_routes].
  replace (_ <? 4)%nat with false by (symmetry; apply Nat.ltb_ge; lia). rewrite H0, H1, H7, Hd, Hm. cbn [from_option id].
  rewrite !swap_zero, swap_match by done. rewrite !filter_cons. destruct (decide (r_default r)) as [Hdef|Hdef].
  - replace ((r_dest r =? 0) && (r_mask r =? 0)) with true by (destruct Hdef as [-> ->]; done).
    rewrite decide_False by (unfold r_specific; tauto). rewrite (IH _ rs' eq_refl), last_cons.
    destruct (head _); [done|]. by destruct (last _).
  - replace ((r_dest r =? 0) && (r_mask r =? 0)) with false.
    2:{ symmetry. apply andb_false_iff. rewrite !Z.eqb_neq. unfold r_default in Hdef. lia. }
    destruct (_ =? _) eqn:E.
    + apply Z.eqb_eq in E. by rewrite decide_True.
    + apply Z.eqb_neq in E. rewrite decide_False by (intros [_ Hx]; done). by apply IH.
Qed.

(** The scan keeps the first of the longest prefixes. *)
Definition pick (best : option (Z * str)) (c : Z * str) : option (Z * str) :=
  if match best with None => true | Some (b, _) => c.1 >? b end then Some c else best.

Lemma ipv4_routes_fold a best ls rs : mapM route_of ls = Some rs ->
  ipv4_routes (swap_bytes a) best ls =
  snd <$> fold_left pick ((fun r => (r_plen r, r_iface r)) <$> base.filter (r_matches a) rs) best.
Proof.
  revert best rs. induction ls as [|line ls IH]; intros best rs Hrs; cbn [mapM] in Hrs; [by injection Hrs as <-|].
  destruct (route_of line) as [r|] eqn:Er; [|done]. cbn in Hrs. destruct (mapM route_of ls) as [rs'|]; [|done].
  cbn in Hrs. injection Hrs as <-. cbn [ipv4_routes]. rewrite Er, filter_cons. destruct r as [[i d] m].
  cbn [mbind option_bind]. destruct (_ =? _) eqn:E.
  - apply Z.eqb_eq in E. rewrite decide_True by exact E. rewrite fmap_cons. cbn [fold_left]. by apply IH.
  - apply Z.eqb_neq in E. rewrite decide_False by exact E. by apply IH.
Qed.

Lemma pick_max l best :
  match fold_left pick l best with
  | None => l = [] /\ best = None
  | Some x => (x ∈ l \/ best = Some x) /\ (forall y, y ∈ l -> y.1 <= x.1) /\ forall b, best = Some b -> b.1 <= x.1
  end.
Proof.
  revert best. induction l as [|c l IH]; intros best; cbn [fold_left].
  { destruct best as [x|]; [|done]. split; [by right|]. split; [intros y Hy; inversion Hy|]. by intros b [= ->]. }
  specialize (IH (pick best c)).
  assert (Hp : exists z, pick best c = Some z /\ (z = c \/ best = Some z) /\ c.1 <= z.1 /\ forall b, best = Some b -> b.1 <= z.1).
  { unfold pick. destruct best as [[b j]|]; [destruct (c.1 >? b) eqn:E; rewrite Z.gtb_ltb in E; bool_to_prop|].
    - exists c. split_and!; [done|by left|lia|]. intros ? [= <-]. cbn. lia.
    - exists (b, j). split_and!; [done|by right|cbn; lia|]. intros ? [= <-]. cbn. lia.
    - exists c. split_and!; [done|by left|lia|done]. }
  destruct Hp as (z & Hz & Hzc & Hcz & Hbz). destruct (fold_left pick l (pick best c)) as [x|].
  2:{ destruct IH as [_ IH]. congruence. }
  destruct IH as (Hin & Hl & Hb). specialize (Hb z Hz). split; [|split].
  - destruct Hin as [Hin|Hin]; [left; by right|]. rewrite Hz in Hin. injection Hin as <-.
    destruct Hzc as [->|Hzc]; [left; by left|by right].
  - intros y Hy. apply elem_of_cons in Hy as [->|Hy]; [lia|by apply Hl].
  - intros b Hbb. specialize (Hbz b Hbb). lia.
Qed.

Lemma zsum_elem_le {A} (f : A -> Z) l a : (forall b, b ∈ l -> 0 <= f b) -> a ∈ l -> f a <= zsum f l.
Proof.
  induction l as [|b l IH]; intros Hf Ha; [inversion Ha|]. rewrite zsum_cons.
  assert (0 <= zsum f l) by (apply zsum_nonneg; intros c Hc; apply Hf; by right).
  assert (0 <= f b) by (apply Hf; by left).
  apply elem_of_cons in Ha as [->|Ha]; [lia|]. specialize (IH ltac:(intros c Hc; apply Hf; by right) Ha). lia.
Qed.

Lemma count_ones_pos x : in_u 32 x -> x <> 0 -> 0 < count_ones x.
Proof.
  intros Hx Hne. unfold in_u in Hx. assert (0 < x) by lia.
  assert (0 <= Z.log2 x < 32) by (split; [apply Z.log2_nonneg|apply Z.log2_lt_pow2; lia]).
  pose proof (zsum_elem_le (fun i => Z.b2z (Z.testbit x i)) (seqZ 0 32) (Z.log2 x)) as Hle. cbn beta in Hle.
  rewrite Z.bit_log2 in Hle by done. unfold count_ones. change (Z.b2z true) with 1 in Hle.
  enough (1 <= zsum (fun i => Z.b2z (Z.testbit x i)) (seqZ 0 32)) by lia. apply Hle.
  - intros b _. destruct (Z.testbit x b); cbn; lia.
  - apply elem_of_seqZ. lia.
Qed.

Lemma mapM_range ls rs r : mapM route_of ls = Some rs -> r ∈ rs -> in_u 32 (r_mask r).
Proof.
  revert rs. induction ls as [|line ls IH]; intros rs Hrs Hr; cbn [mapM] in Hrs.
  { injection Hrs as <-. inversion Hr. }
  destruct (route_of line) as [r'|] eqn:Er; [|done]. cbn in Hrs. destruct (mapM route_of ls) as [rs'|]; [|done].
  cbn in Hrs. injection Hrs as <-. apply elem_of_cons in Hr as [->|Hr]; [|by eapply IH].
  by destruct (route_of_cols line r' Er) as (? & ? & _ & _ & _ & _ & _ & _ & ? & _).
Qed.

Lemma default_matches a r : r_default r -> r_matches a r.
Proof. intros [_ Hm]. unfold r_matches. by rewrite Hm, !Z.land_0_r. Qed.

Lemma lpm_spec content rs a : mapM route_of (drop 1 (lines content)) = Some rs ->
  match iface_for_ipv4 (Some content) a with
  | Some i => exists r, r ∈ rs /\ r_iface r = i /\ r_matches a r /\
                forall r', r' ∈ rs -> r_matches a r' -> r_plen r' <= r_plen r
  | None => forall r, r ∈ rs -> ~ r_matches a r
  end.
Proof.
  intros Hrs. unfold iface_for_ipv4. cbn [mbind option_bind]. rewrite (ipv4_routes_fold a None _ rs Hrs).
  set (l := (fun r => (r_plen r, r_iface r)) <$> base.filter (r_matches a) rs). pose proof (pick_max l None) as Hp. destruct (fold_left pick l None) as [x|]; cbn.
  - destruct Hp as ([Hin|?] & Hmax & _); [|done]. apply list_elem_of_fmap in Hin as (r & -> & Hr).
    apply list_elem_of_filter in Hr as [Hm Hr]. exists r. split; [done|]. split; [done|]. split; [done|].
    intros r' Hr' Hm'. apply (Hmax (r_plen r', r_iface r')). subst l.
    apply list_elem_of_fmap. exists r'. split; [done|]. by apply list_elem_of_filter.
  - intros r Hr Hm. destruct Hp as [Hp _]. apply (not_elem_of_nil (r_plen r, r_iface r)). rewrite <- Hp. subst l.
    apply list_elem_of_fmap. exists r. split; [done|]. by apply list_elem_of_filter.
Qed.

(** Interface selection, on every routing table whose lines have their
    columns: [iface_for_ipv4] returns the interface of a matching route with the
    longest prefix, and [None] only when no route matches; [iface_for_addr] does not
    panic and returns the interface of some matching route when there is one; and the
    two agree when exactly one route other than the default matches. *)
Theorem route_selection content rs a :
  mapM route_of (drop 1 (lines content)) = Some rs -> in_u 32 a -> is_loopback (V4 a) = false ->
  match iface_for_ipv4 (Some content) a with
  | Some i => exists r, r ∈ rs /\ r_iface r = i /\ r_matches a r /\
                forall r', r' ∈ rs -> r_matches a r' -> r_plen r' <= r_plen r
  | None => forall r, r ∈ rs -> ~ r_matches a r
  end /\
  (exists o, iface_for_addr (Some content) (V4 a) = Done o /\
     match o with
     | Some i => exists r, r ∈ rs /\ r_iface r = i /\ r_matches a r
     | None => forall r, r ∈ rs -> ~ r_matches a r
     end) /\
  (forall r, base.filter (r_specific a) rs = [r] -> r_mask r <> 0 ->
     iface_for_addr (Some content) (V4 a) = Done (Some (r_iface r)) /\
     iface_for_ipv4 (Some content) a = Some (r_iface r)).
Proof.
  intros Hrs Ha Hlo. pose proof (lpm_spec content rs a Hrs) as Hlpm.
  assert (Haddr : iface_for_addr (Some content) (V4 a) = addr_routes a None (drop 1 (lines content)))
    by (unfold iface_for_addr; by rewrite Hlo).
  rewrite Haddr, (addr_routes_spec a None _ rs Ha Hrs). split; [exact Hlpm|]. split.
  - eexists. split; [reflexivity|]. destruct (head (base.filter (r_specific a) rs)) as [r|] eqn:Eh.
    + apply head_Some_elem_of, list_elem_of_filter in Eh as [[_ Hm] Hr]. by exists r.
    + destruct (last (base.filter r_default rs)) as [r|] eqn:El.
      * apply last_Some_elem_of, list_elem_of_filter in El as [Hd Hr]. exists r. split; [done|]. split; [done|].
        by apply default_matches.
      * intros r Hr Hm. apply head_None in Eh. apply last_None in El. destruct (decide (r_default r)) as [Hd|Hd].
        -- apply (not_elem_of_nil r). rewrite <- El. by apply list_elem_of_filter.
        -- apply (not_elem_of_nil r). rewrite <- Eh. by apply list_elem_of_filter.
  - intros r Hf Hmask. rewrite Hf. cbn [head]. split; [done|].
    assert (Hr : r ∈ base.filter (r_specific a) rs) by (rewrite Hf; by left).
    apply list_elem_of_filter in Hr as [[_ Hm] Hr]. destruct (iface_for_ipv4 (Some content) a) as [i|].
    2:{ by destruct (Hlpm r Hr). }
    destruct Hlpm as (r0 & Hr0 & <- & Hm0 & Hmax). do 2 f_equal.
    destruct (decide (r_default r0)) as [[_ Hd]|Hd].
    + specialize (Hmax r Hr Hm). pose proof (count_ones_pos (r_mask r) (mapM_range _ _ _ Hrs Hr) Hmask).
      unfold r_plen in Hmax. rewrite Hd in Hmax. change (count_ones 0) with 0 in Hmax. lia.
    + assert (H0 : r0 ∈ base.filter (r_specific a) rs) by (by apply list_elem_of_filter).
      rewrite Hf in H0. by apply list_elem_of_singleton in H0.
Qed.

(** A table with a default route, 10.0.0.0/8 and 10.1.0.0/16, in the order the
    kernel lists them. *)
Definition ex_routes : str :=
  lit "Iface Destination Gateway Flags RefCnt Use Metric Mask MTU Window IRTT" ++ [c_lf] ++
  lit "eth0 00000000 0100A8C0 0003 0 0 0 00000000 0 0 0" ++ [c_lf] ++
  lit "eth1 0000000A 00000000 0001 0 0 0 000000FF 0 0 0" ++ [c_lf] ++
  lit "eth2 0000010A 00000000 0001 0 0 0 0000FFFF 0 0 0" ++ [c_lf].

Definition ex_parsed : list (str * Z * Z) :=
  [(lit "eth0", 0, 0); (lit "eth1", 10, 255); (lit "eth2", 266, 65535)].

Definition ipv4 (a b c d : Z) : Z := a * 2 ^ 24 + b * 2 ^ 16 + c * 2 ^ 8 + d.

Lemma route_selection_witness :
  iface_for_addr (Some ex_routes) (V4 (ipv4 10 2 0 1)) = Done (Some (lit "eth1")) /\
  iface_for_ipv4 (Some ex_routes) (ipv4 10 2 0 1) = Some (lit "eth1").
Proof.
  apply (route_selection ex_routes ex_parsed (ipv4 10 2 0 1)) with (r := (lit "eth1", 10, 255)).
  - vm_compute. reflexivity.
  - unfold in_u, ipv4. lia.
  - reflexivity.
  - vm_compute. reflexivity.
  - vm_compute. discriminate.
Defined.

(** In general they differ: for 10.1.0.1 the first match is the shorter prefix. *)
Lemma first_match_is_not_longest_prefix :
  iface_for_addr (Some ex_routes) (V4 (ipv4 10 1 0 1)) = Done (Some (lit "eth1")) /\
  iface_for_ipv4 (Some ex_routes) (ipv4 10 1 0 1) = Some (lit "eth2").
Proof. vm_compute. done. Qed.

(** A line of four to seven columns is indexed out of range. *)
Lemma iface_for_addr_short_line :
  iface_for_addr (Some (lit "h" ++ [c_lf] ++ lit "eth0 0000000A 00000000 0001" ++ [c_lf])) (V4 1) = Panic.
Proof. vm_compute. reflexivity. Qed.

(** ** Memory guard *)

(** The guard stops the run exactly when less than a tenth of the memory is
    available, and warns below a fifth. *)
Lemma oom_check_spec total avail : 0 < total -> 0 <= avail < 2 ^ 57 ->
  oom_check total avail =
  if 10 * avail <? total then OomStop else if 5 * avail <? total then OomWarn else OomOk.
Proof.
  intros Ht Ha. unfold oom_check, wmul. replace (total =? 0) with false by (symmetry; bool_to_prop; lia).
  rewrite Z.mod_small by (change (2 ^ 57) with 144115188075855872 in *; change (2 ^ 64) with 18446744073709551616; lia).
  assert (H1 : (avail * 100 / total <? 10) = (10 * avail <? total)).
  { apply eq_true_iff_eq. rewrite !Z.ltb_lt. split; intros Hx.
    - pose proof (Z.mul_succ_div_gt (avail * 100) total). nia.
    - apply Z.div_lt_upper_bound; lia. }
  assert (H2 : (avail * 100 / total <? 20) = (5 * avail <? total)).
  { apply eq_true_iff_eq. rewrite !Z.ltb_lt. split; intros Hx.
    - pose proof (Z.mul_succ_div_gt (avail * 100) total). nia.
    - apply Z.div_lt_upper_bound; lia. }
  by rewrite H1, H2.
Qed.
