(* ===== verification/XdpStart.v ===== *)
(** * Starting the AF_XDP path

    Models the start-up half of [src/transport/xdp/receiver.rs]
    ([start_xdp_receive_path], [do_start_xdp_receive_path], the configuration
    registry, [run_xdp_sender_worker]) and the interface questions of
    [src/transport/xdp/socket.rs] it asks ([is_virtual_interface],
    [parent_interface], the queue counts).

    What [/sys], the environment, the loader and the socket calls answer are
    arguments.  The process-wide statics ([NODE_CORE_IDX], [XDP_UNIFIED],
    [XDP_TX_STATES], [UNIFIED_CFGS]) are a record, because they outlive a run and
    are shared by the interfaces of a multi-NIC run, whose loops interleave:
    [start_step] is one iteration of one of them.

    The theorems: whatever the interleaving, no two queues are assigned the same core,
    and no two unified workers pinned to one, as long as every interface knows its
    node; a start alone spawns one worker
    per queue until the cores of the node are spent, and its rate is shared out
    again over the workers spawned; but the cores are never given back, so that a
    second run in the same process finds none and sends nothing. *)

From Stdlib Require Import ZArith Lia Bool String.
From stdpp Require Import base numbers option relations gmap list.
From S2P Require Import Prelude RustStr Config Frame Autodetect.

Open Scope Z_scope.

Module Start.

(** ** Interfaces ([socket.rs]) *)

(** What [/sys/class/net/<iface>] holds. *)
Record sysfs : Type := mkSysfs {
  has_device : str -> bool;                (* .../device exists *)
  uevent : str -> option str;
  dir_entries : str -> option (list str);  (* the names in the directory itself *)
  master : str -> option str;              (* the file name of the link's target *)
  brif : str -> option (list str);
  queues : str -> option (list str)
}.

Definition is_virtual_interface (fs : sysfs) (iface : str) : bool :=
  if has_device fs iface then false
  else if existsb (fun l => str_eqb (trim l) (lit "DEVTYPE=vlan")) (lines (default [] (uevent fs iface))) then false
  else true.

Fixpoint first_lower (names : list str) : option str :=
  match names with
  | [] => None
  | name :: names' =>
      match strip_prefix (lit "lower_") name with
      | Some lower => if negb (is_empty lower) then Some lower else first_lower names'
      | None => first_lower names'
      end
  end.

Definition first_physical_bridge_port (fs : sysfs) (bridge : str) : option str :=
  ports ← brif fs bridge;
  List.find (fun port => negb (is_virtual_interface fs port)) ports.

Definition parent_interface (fs : sysfs) (iface : str) : option str :=
  match first_lower (default [] (dir_entries fs iface)) with
  | Some lower => Some lower
  | None =>
      let via_master :=
        m ← master fs iface;
        if is_empty m then None
        else if negb (is_virtual_interface fs m) then Some m
        else first_physical_bridge_port fs m in
      match via_master with
      | Some p => Some p
      | None => first_physical_bridge_port fs iface
      end
  end.

(** [get_rx_queue_count] and [get_tx_queue_count]: [prefix] is ["rx-"] or
    ["tx-"]. *)
Definition queue_count_of (prefix : str) (fs : sysfs) (iface : str) : Z :=
  Z.max (match queues fs iface with
         | Some names => as_u 32 (Z.of_nat (length (base.filter (fun n => starts_with prefix n = true) names)))
         | None => 1
         end) 1.

Definition get_rx_queue_count : sysfs -> str -> Z := queue_count_of (lit "rx-").
Definition get_tx_queue_count : sysfs -> str -> Z := queue_count_of (lit "tx-").

(** [nic_local_logical_cpus] *)
Definition local_part (part : str) : list Z :=
  match split_once c_dash part with
  | Some (a, b) =>
      match parse_u 64 (trim a), parse_u 64 (trim b) with
      | Some a, Some b => seqZ a (b - a + 1)
      | _, _ => []
      end
  | None => match parse_u 64 (trim part) with Some a => [a] | None => [] end
  end.

Definition nic_local_logical_cpus (file : option str) : list Z :=
  concat (local_part <$> split_char c_comma (trim (default [] file))).

Definition iface_for_benchmark (ifaddrs : list ifaddr) (route_file : option str) (server : IpAddr) : str :=
  match iface_for_server ifaddrs route_file server with
  | Some i => i
  | None => default (lit "eth0") (default_interface route_file)
  end.

(** ** The statics *)

Definition MAX_NUMA_NODES : Z := 8.

(** [UnifiedCfg]; the pool is the engine's and is handed on as it is. *)
Record UnifiedCfg : Type := mkUnified {
  u_pool : list (list Z);
  u_qps_per_worker : Z;
  u_max_outstanding : Z;
  u_total_qps : Z;
  u_ramp : bool
}.

(** A transmit side: the interface index and the queue. *)
Definition tx_state : Set := (Z * Z)%type.

Record globals : Type := mkGlobals {
  node_core_idx : list Z;
  xdp_unified : bool;
  xdp_tx_states : option (list tx_state);
  unified_cfgs : gmap str UnifiedCfg
}.

(** The statics of a fresh process. *)
Definition globals_new : globals := mkGlobals (replicate (Z.to_nat MAX_NUMA_NODES) 0) false None ∅.

Definition set_unified_cfg (iface : str) (cfg : UnifiedCfg) (g : globals) : globals :=
  mkGlobals (node_core_idx g) (xdp_unified g) (xdp_tx_states g) (<[iface := cfg]> (unified_cfgs g)).

Definition unified_cfg_for (iface : str) (g : globals) : option UnifiedCfg :=
  match unified_cfgs g !! iface with
  | Some c => Some c
  | None => match map_to_list (unified_cfgs g) with
            | [(_, c)] => Some c
            | _ => None
            end
  end.

(** ** The frame header *)

Definition octets (b : Z) : list Z :=
  [b / 2 ^ 24; b / 2 ^ 16 mod 256; b / 2 ^ 8 mod 256; b mod 256].

(** Only an IPv4 server with a source address, a source MAC and a resolved MAC
    gets one; the source port is fixed. *)
Definition frame_header (server : IpAddr) (server_port : Z) (src_ip : option (list Z)) (mac_file : option str)
    (arp : nat -> option str) (vlan_var : option str) : option FrameHeader :=
  match server with
  | V6 _ => None
  | V4 b =>
      src_ip ← src_ip;
      src_mac ← local_mac mac_file;
      dst_mac ← resolve_server_mac arp (octets b);
      Some (new src_mac dst_mac src_ip (octets b) 12345 server_port vlan_var)
  end.

(** ** Planning *)

(** What the host and the system calls answer for one interface. *)
Record nic : Type := mkNic {
  n_name : str;
  n_ifindex : option Z;
  n_load_ok : bool;
  n_hw_queues : Z;
  n_node : option Z;
  n_local_cpus : list Z;
  n_header : option FrameHeader;
  n_socket_ok : Z -> bool;         (* zero-copy or, failing that, copy mode *)
  n_register_ok : Z -> bool;
  n_spawn_ok : Z -> bool
}.

(** The cores of the host: one logical CPU per physical core, with its node. *)
Record cores : Type := mkCores { phys : list Z; node_of : Z -> option Z }.

Definition core_pool (h : cores) (n : nic) : list Z :=
  let phys_sorted := numa_sorted (phys h) (node_of h) (n_node n) in
  if n_node n is Some _ then base.filter (fun c => node_of h c = n_node n) phys_sorted else phys_sorted.

Definition queue_count (h : cores) (n : nic) : Z :=
  Z.max (Z.min (n_hw_queues n) (Z.of_nat (length (core_pool h n)))) 1.

Definition firehose (cfg : option UnifiedCfg) : bool :=
  match cfg with Some c => u_max_outstanding c =? 0 | None => false end.

Definition rss_queues (h : cores) (n : nic) (cfg : option UnifiedCfg) : Z :=
  if firehose cfg then Z.max (queue_count h n) 1 else 1.

Definition node_idx (n : nic) : Z := Z.min (default 0 (n_node n)) (MAX_NUMA_NODES - 1).

(** ** The loop over the queues *)

Record worker : Type := mkWorker {
  w_queue : Z;
  w_ticket : Z;               (* the value of the node's cursor *)
  w_core : Z;                 (* [assigned_core] *)
  w_unified : bool;
  w_pin : option Z            (* the CPU the thread is pinned to *)
}.

Inductive start_error : Type :=
| NoParent (iface : str)
| NoInterface (iface : str)
| LoadFailed (iface : str)
| SocketFailed (q : Z)
| RegisterFailed (q : Z)
| SpawnFailed (q : Z).

(** Pin a split receiver to the upper half of the local CPUs. *)
Definition recv_cpu (local_cpus : list Z) (q : Z) : option Z :=
  let len := Z.of_nat (length local_cpus) in
  if 2 <=? len then
    let half := len / 2 in
    Some (local_cpus !!! Z.to_nat (half + q mod half))
  else None.

(** One iteration, given the cursor value [gi] it drew. *)
Inductive verdict : Type :=
| Spent                                        (* the node's cores are used up *)
| Failed (e : start_error)
| Spawned (w : worker) (tx : list tx_state).

Definition iteration (h : cores) (n : nic) (ifidx : Z) (cfg : option UnifiedCfg) (q gi : Z) : verdict :=
  let pool := core_pool h n in
  if Z.of_nat (length pool) <=? gi then Spent
  else
    let core := pool !!! Z.to_nat gi in
    if negb (n_socket_ok n q) then Failed (SocketFailed q)
    else if negb (n_register_ok n q) then Failed (RegisterFailed q)
    else if negb (n_spawn_ok n q) then Failed (SpawnFailed q)
    else match cfg, n_header n with
         | Some _, Some _ => Spawned (mkWorker q gi core true (Some core)) []
         | _, Some _ => Spawned (mkWorker q gi core false (recv_cpu (n_local_cpus n) q)) [(ifidx, q)]
         | _, None => Spawned (mkWorker q gi core false (recv_cpu (n_local_cpus n) q)) []
         end.

(** The loop of one interface that runs alone: the workers, the transmit states,
    the cursor, and the error that ended it. *)
Fixpoint spawn_loop (h : cores) (n : nic) (ifidx : Z) (cfg : option UnifiedCfg) (qs : list Z) (cursor : Z)
  : list worker * list tx_state * Z * option start_error :=
  match qs with
  | [] => ([], [], cursor, None)
  | q :: qs' =>
      match iteration h n ifidx cfg q cursor with
      | Spent => ([], [], wadd 64 cursor 1, None)
      | Failed e => ([], [], wadd 64 cursor 1, Some e)
      | Spawned w tx =>
          let '(ws, txs, c, err) := spawn_loop h n ifidx cfg qs' (wadd 64 cursor 1) in
          (w :: ws, tx ++ txs, c, err)
      end
  end.

(** Whether the workers of an interface are unified ones. *)
Definition unified (n : nic) (cfg : option UnifiedCfg) : bool :=
  match cfg, n_header n with Some _, Some _ => true | _, _ => false end.

(** The rate of each worker once it is known how many there are. *)
Definition recalibrated (cfg : option UnifiedCfg) (n_unified : Z) : option Z :=
  match cfg with
  | Some c => if (n_unified >? 0) && (u_total_qps c >? 0)
              then Some (Z.max (u_total_qps c / n_unified) 1) else None
  | None => None
  end.

(** What a successful start leaves running. *)
Record started : Type := mkStarted {
  s_workers : list worker;
  s_rss : Z;
  s_rate : option Z           (* stored in the shared rate, when recalibrated *)
}.

Definition set_cursor (i c : Z) (g : globals) : globals :=
  mkGlobals (<[Z.to_nat i := c]> (node_core_idx g)) (xdp_unified g) (xdp_tx_states g) (unified_cfgs g).

(** [do_start_xdp_receive_path], for the interface the sockets are bound to. *)
Definition do_start (h : cores) (n : nic) (g : globals) : globals * result started start_error :=
  match n_ifindex n with
  | None => (g, Err (NoInterface (n_name n)))
  | Some ifidx =>
      if negb (n_load_ok n) then (g, Err (LoadFailed (n_name n)))
      else
        let cfg := unified_cfg_for (n_name n) g in
        let qc := queue_count h n in
        let i := node_idx n in
        let '(ws, txs, c, err) :=
          spawn_loop h n ifidx cfg (seqZ 0 qc) (node_core_idx g !!! Z.to_nat i) in
        let n_unified := if unified n cfg then Z.of_nat (length ws) else 0 in
        (* the flag is set before the thread is spawned *)
        let raised := unified n cfg && (negb (is_empty ws) || match err with Some (SpawnFailed _) => true | _ => false end) in
        let g := set_cursor i c g in
        let g := mkGlobals (node_core_idx g) (xdp_unified g || raised) (xdp_tx_states g) (unified_cfgs g) in
        match err with
        | Some e => (g, Err e)
        | None =>
            let states := if is_empty txs then xdp_tx_states g
                          else match xdp_tx_states g with Some l => Some l | None => Some txs end in
            (mkGlobals (node_core_idx g) (xdp_unified g) states (unified_cfgs g),
             Ok (mkStarted ws (rss_queues h n cfg) (recalibrated cfg n_unified)))
        end
  end.

(** The interface the sockets are bound to: the parent of a virtual interface;
    the parent of a VLAN interface when a tag is injected. *)
Definition bound_iface (fs : sysfs) (vlan_var : option str) (iface : str) : result str start_error :=
  let physical (i : str) : str :=
    if vlan_from_env vlan_var is Some _ then default i (parent_interface fs i) else i in
  if is_virtual_interface fs iface
  then match parent_interface fs iface with
       | Some p => Ok (physical p)
       | None => Err (NoParent iface)
       end
  else Ok (physical iface).

Definition start_xdp_receive_path (fs : sysfs) (vlan_var : option str) (h : cores) (describe : str -> nic)
    (iface : str) (g : globals) : globals * result started start_error :=
  match bound_iface fs vlan_var iface with
  | Ok i => do_start h (describe i) g
  | Err e => (g, Err e)
  end.

(** ** A sender task ([run_xdp_sender_worker]) *)

Inductive sender : Type :=
| Idle                            (* the unified workers send *)
| TxSender (s : tx_state)         (* [xdp_tx_sender_thread] *)
| UdpSender                       (* [xdp_sender_thread] *)
| NoSocket.                       (* bind or connect failed *)

Definition run_xdp_sender_worker (g : globals) (tx_var : option str) (worker_id : Z) (bind_ok connect_ok : bool)
  : sender :=
  if xdp_unified g then Idle
  else
    let use_xdp_tx := match tx_var with Some v => negb (str_eqb v (lit "0")) | None => true end in
    let udp := if negb bind_ok then NoSocket else if negb connect_ok then NoSocket else UdpSender in
    if use_xdp_tx then
      match xdp_tx_states g with
      | Some states =>
          match states !! Z.to_nat (worker_id mod Z.of_nat (length states)) with
          | Some s => TxSender s
          | None => udp
          end
      | None => udp
      end
    else udp.

(** ** Several interfaces at once *)

(** The loop of one interface, between two iterations. *)
Record loop : Type := mkLoop {
  l_nic : nic;
  l_ifidx : Z;
  l_cfg : option UnifiedCfg;
  l_workers : list worker;      (* the next queue is their number *)
  l_over : bool
}.

Definition after (v : verdict) (l : loop) : loop :=
  match v with
  | Spawned w _ => mkLoop (l_nic l) (l_ifidx l) (l_cfg l) (l_workers l ++ [w]) (l_over l)
  | _ => mkLoop (l_nic l) (l_ifidx l) (l_cfg l) (l_workers l) true
  end.

(** One interface draws from its node's cursor and runs an iteration. *)
Inductive start_step (h : cores) : list Z * list loop -> list Z * list loop -> Prop :=
| st_iter cur ls j l c (i := Z.to_nat (node_idx (l_nic l))) (q := Z.of_nat (length (l_workers l))) :
    ls !! j = Some l -> l_over l = false -> q < queue_count h (l_nic l) -> cur !! i = Some c ->
    start_step h (cur, ls)
      (<[i := wadd 64 c 1]> cur, <[j := after (iteration h (l_nic l) (l_ifidx l) (l_cfg l) q c) l]> ls).

(** The loops before their first iteration, in a fresh process. *)
Definition loops_new (nics : list (nic * Z * option UnifiedCfg)) : list Z * list loop :=
  (node_core_idx globals_new, (fun '(n, ix, cfg) => mkLoop n ix cfg [] false) <$> nics).

(** ** Lemmas *)

Lemma local_cpus_eq file : nic_local_logical_cpus file = logical_cpus_for_node file.
Proof.
  unfold nic_local_logical_cpus, logical_cpus_for_node. f_equal. apply list_fmap_ext. intros _ part _.
  unfold local_part, cpulist_part. by destruct part.
Qed.

Lemma core_pool_sub h n c : c ∈ core_pool h n -> c ∈ phys h /\ (is_Some (n_node n) -> node_of h c = n_node n).
Proof.
  unfold core_pool. destruct (n_node n) as [nd|] eqn:E.
  - rewrite list_elem_of_filter, numa_sorted_perm. tauto.
  - rewrite numa_sorted_perm. intros Hc. split; [done|]. by intros [? ?].
Qed.

Lemma core_pool_NoDup h n : NoDup (phys h) -> NoDup (core_pool h n).
Proof.
  intros Hn. unfold core_pool. destruct (n_node n); [apply NoDup_filter|]; by rewrite numa_sorted_perm.
Qed.

Lemma core_pool_length h n : (length (core_pool h n) <= length (phys h))%nat.
Proof.
  unfold core_pool. destruct (n_node n) as [nd|]; [|by rewrite numa_sorted_perm].
  etrans; [apply length_filter|]. by rewrite numa_sorted_perm.
Qed.

Lemma core_pool_same h a b : n_node a = n_node b -> core_pool h a = core_pool h b.
Proof. intros E. unfold core_pool. by rewrite E. Qed.

Lemma queue_count_bound h n : 1 <= queue_count h n <= Z.of_nat (length (phys h)) + 1.
Proof. pose proof (core_pool_length h n). unfold queue_count. lia. Qed.

Lemma lookup_total_inj {A} `{Inhabited A} (l : list A) i j : NoDup l -> (i < length l)%nat -> (j < length l)%nat ->
  l !!! i = l !!! j -> i = j.
Proof.
  intros Hn Hi Hj He. eapply NoDup_lookup; [done|by apply list_lookup_lookup_total_lt|].
  rewrite He. by apply list_lookup_lookup_total_lt.
Qed.

(** *** The invariant of the interleaved loops *)

(** A unified worker is pinned to the core assigned to it, a split receiver to one
    of the interface's local CPUs, or not at all. *)
Definition pin_of (n : nic) (w : worker) : option Z :=
  if w_unified w then Some (w_core w) else recv_cpu (n_local_cpus n) (w_queue w).

Definition draws (l : loop) : Z := Z.of_nat (length (l_workers l)) + Z.b2z (l_over l).

Definition drawn (h : cores) (cur : list Z) (l : loop) (w : worker) : Prop :=
  exists c, cur !! Z.to_nat (node_idx (l_nic l)) = Some c /\ 0 <= w_ticket w < c /\
    w_ticket w < Z.of_nat (length (core_pool h (l_nic l))) /\
    w_core w = core_pool h (l_nic l) !!! Z.to_nat (w_ticket w) /\ w_pin w = pin_of (l_nic l) w.

Record cores_inv (h : cores) (cur : list Z) (ls : list loop) : Prop := mkCoresInv {
  ci_cursor : forall i c, cur !! i = Some c -> 0 <= c <= zsum draws ls;
  ci_draws : forall j l, ls !! j = Some l -> Z.of_nat (length (l_workers l)) <= queue_count h (l_nic l);
  ci_worker : forall j l k w, ls !! j = Some l -> l_workers l !! k = Some w -> drawn h cur l w;
  ci_tickets : forall j1 l1 k1 w1 j2 l2 k2 w2,
    ls !! j1 = Some l1 -> l_workers l1 !! k1 = Some w1 -> ls !! j2 = Some l2 -> l_workers l2 !! k2 = Some w2 ->
    node_idx (l_nic l1) = node_idx (l_nic l2) -> (j1, k1) <> (j2, k2) -> w_ticket w1 <> w_ticket w2
}.

Lemma iteration_spawned h n ifidx cfg q gi w tx : iteration h n ifidx cfg q gi = Spawned w tx ->
  gi < Z.of_nat (length (core_pool h n)) /\ w_ticket w = gi /\ w_core w = core_pool h n !!! Z.to_nat gi /\
  w_pin w = pin_of n w.
Proof.
  unfold iteration. destruct (_ <=? gi) eqn:E; [done|]. bool_to_prop.
  destruct (negb (n_socket_ok n q)); [done|]. destruct (negb (n_register_ok n q)); [done|].
  destruct (negb (n_spawn_ok n q)); [done|].
  destruct cfg, (n_header n); injection 1 as <- _; done.
Qed.

Lemma after_workers v l k w : l_workers (after v l) !! k = Some w ->
  l_workers l !! k = Some w \/ (k = length (l_workers l) /\ exists tx, v = Spawned w tx).
Proof.
  destruct v as [|e|w' tx]; cbn [after l_workers]; [tauto..|]. intros Hk.
  apply lookup_app_Some in Hk as [Hk|[Hl Hk]]; [by left|]. right.
  apply list_lookup_singleton_Some in Hk as [Hk <-]. split; [lia|by exists tx].
Qed.

Lemma after_nic v l : l_nic (after v l) = l_nic l.
Proof. by destruct v. Qed.

Lemma after_draws v l : l_over l = false -> draws (after v l) = draws l + 1.
Proof.
  intros Ho. unfold draws. rewrite Ho. destruct v; cbn [after l_workers l_over]; rewrite ?length_app, ?Ho; cbn; lia.
Qed.

Definition few (h : cores) (ls : list loop) : Prop :=
  Z.of_nat (length ls) * (Z.of_nat (length (phys h)) + 2) < 2 ^ 63.

Lemma cores_step h cur ls cur' ls' : few h ls -> start_step h (cur, ls) (cur', ls') -> cores_inv h cur ls ->
  cores_inv h cur' ls' /\ few h ls'.
Proof.
  intros Hfew Hs [C1 C2 C3 C4]. inversion Hs as [cur0 ls0 j l c i q Hl Ho Hq Hc]; subst cur0 ls0 cur' ls'.
  set (v := iteration h (l_nic l) (l_ifidx l) (l_cfg l) q c) in *.
  split; [|unfold few in *; by rewrite length_insert].
  assert (Hb : zsum draws ls < 2 ^ 63).
  { eapply Z.le_lt_trans; [|exact Hfew]. apply zsum_bound. intros a Ha.
    apply list_elem_of_lookup_1 in Ha as (k & Hk). specialize (C2 _ _ Hk). pose proof (queue_count_bound h (l_nic a)).
    unfold draws. destruct (l_over a); cbn [Z.b2z]; lia. }
  pose proof (C1 _ _ Hc) as Hc0. rewrite wadd_small by (change (2 ^ 64) with (2 * 2 ^ 63); lia).
  assert (Hcur : forall x, cur !! x = Some c \/ x <> i -> forall c', cur !! x = Some c' ->
    exists c'', <[i := c + 1]> cur !! x = Some c'' /\ c' <= c'').
  { intros x _ c' Hx. destruct (decide (x = i)) as [->|Hne].
    - rewrite list_lookup_insert_eq by (by eapply lookup_lt_Some). exists (c + 1). rewrite Hc in Hx. injection Hx as <-.
      split; [done|lia].
    - rewrite list_lookup_insert_ne by done. exists c'. split; [done|lia]. }
  (* a worker of the new state is an old one, or the new one *)
  assert (Hold : forall j' l' k w, <[j := after v l]> ls !! j' = Some l' -> l_workers l' !! k = Some w ->
    (exists l0, ls !! j' = Some l0 /\ l_nic l0 = l_nic l' /\ l_workers l0 !! k = Some w) \/
    (j' = j /\ k = length (l_workers l) /\ l_nic l' = l_nic l /\ exists tx, v = Spawned w tx)).
  { intros j' l' k w Hj Hk. apply list_lookup_insert_Some in Hj as [(<- & <- & _)|(Hne & Hj)]; [|left; by exists l'].
    apply after_workers in Hk as [Hk|(-> & tx & Hv)]; [left; exists l|right]; rewrite ?after_nic; [done|by eauto]. }
  constructor.
  - intros x c' Hx. rewrite (zsum_insert draws _ _ _ _ Hl), after_draws by done.
    apply list_lookup_insert_Some in Hx as [(_ & <- & _)|(_ & Hx)]; [lia|]. specialize (C1 _ _ Hx). lia.
  - intros j' l' Hj. apply list_lookup_insert_Some in Hj as [(<- & <- & _)|(_ & Hj)]; [|by eapply C2].
    rewrite after_nic. destruct v; cbn [after l_workers]; [by eapply C2..|]. rewrite length_app. cbn [length].
    subst q. lia.
  - intros j' l' k w Hj Hk. destruct (Hold _ _ _ _ Hj Hk) as [(l0 & H0 & Hn & Hk0)|(-> & -> & Hn & tx & Hv)].
    + destruct (C3 _ _ _ _ H0 Hk0) as (c' & Hx & Ht & Hrest). unfold drawn. rewrite <- Hn.
      destruct (Hcur (Z.to_nat (node_idx (l_nic l0))) ltac:(destruct (decide (Z.to_nat (node_idx (l_nic l0)) = i)) as [->|]; tauto) c' Hx)
        as (c'' & Hx' & Hle). exists c''. split; [done|]. split; [lia|done].
    + destruct (iteration_spawned _ _ _ _ _ _ _ _ Hv) as (Hlt & Ht & Hcore). unfold drawn. rewrite Hn.
      exists (c + 1). split; [subst i; apply list_lookup_insert_eq; by eapply lookup_lt_Some|].
      rewrite Ht. split; [lia|]. by split.
  - assert (Hnew : forall j' l0 k0 w0, ls !! j' = Some l0 -> l_workers l0 !! k0 = Some w0 ->
      node_idx (l_nic l0) = node_idx (l_nic l) -> w_ticket w0 <> c).
    { intros j' l0 k0 w0 H0 Hk0 Hn. destruct (C3 _ _ _ _ H0 Hk0) as (c' & Hx & Ht & _). rewrite Hn in Hx.
      fold i in Hx. rewrite Hc in Hx. injection Hx as <-. lia. }
    intros j1 l1 k1 w1 j2 l2 k2 w2 H1 Hk1 H2 Hk2 Hn Hne.
    destruct (Hold _ _ _ _ H1 Hk1) as [(a & Ha & Hna & Hka)|(-> & -> & Hna & tx1 & Hv1)];
      destruct (Hold _ _ _ _ H2 Hk2) as [(b & Hb' & Hnb & Hkb)|(-> & -> & Hnb & tx2 & Hv2)].
    + eapply (C4 j1 a k1 w1 j2 b k2 w2); try done. congruence.
    + destruct (iteration_spawned _ _ _ _ _ _ _ _ Hv2) as (_ & -> & _). eapply Hnew; try done. congruence.
    + destruct (iteration_spawned _ _ _ _ _ _ _ _ Hv1) as (_ & -> & _). intros E.
      eapply (Hnew _ _ _ _ Hb' Hkb); [congruence|done].
    + done.
Qed.

Lemma cores_reach h st st' : rtc (start_step h) st st' -> few h st.2 -> cores_inv h st.1 st.2 ->
  cores_inv h st'.1 st'.2.
Proof.
  intros Hr. induction Hr as [st|[cur ls] [cur1 ls1] st' Hs _ IH]; [done|]. intros Hf Hi.
  destruct (cores_step h _ _ _ _ Hf Hs Hi) as [Hi' Hf']. by apply IH.
Qed.

Lemma cores_init h nics : cores_inv h (loops_new nics).1 (loops_new nics).2.
Proof.
  assert (Hw : forall j l, (loops_new nics).2 !! j = Some l -> l_workers l = []).
  { intros j l Hj. cbn [loops_new snd] in Hj. rewrite list_lookup_fmap in Hj.
    destruct (nics !! j) as [[[n ix] cfg]|]; [|done]. by injection Hj as <-. }
  constructor.
  - intros i c Hc. apply list_elem_of_lookup_2 in Hc.
    cbn [loops_new fst globals_new node_core_idx] in Hc. apply elem_of_replicate in Hc as [-> _]. split; [done|].
    apply zsum_nonneg. intros l _. unfold draws. destruct (l_over l); cbn [Z.b2z]; lia.
  - intros j l Hl. rewrite (Hw _ _ Hl). pose proof (queue_count_bound h (l_nic l)). cbn [length]. lia.
  - intros j l k w Hl Hk. by rewrite (Hw _ _ Hl) in Hk.
  - intros j1 l1 k1 w1 j2 l2 k2 w2 H1 Hk1. by rewrite (Hw _ _ H1) in Hk1.
Qed.

Lemma step_nics h st st' : rtc (start_step h) st st' -> l_nic <$> st'.2 = l_nic <$> st.2.
Proof.
  intros Hr. induction Hr as [st|st1 st2 st3 Hs _ IH]; [done|]. rewrite IH.
  destruct Hs as [cur ls j l c i q Hl _ _ _]. cbn [snd]. rewrite list_fmap_insert, after_nic.
  apply list_insert_id. by rewrite list_lookup_fmap, Hl.
Qed.

(** *** One start alone *)

Definition calls_ok (n : nic) : Prop :=
  n_load_ok n = true /\ (forall q, n_socket_ok n q = true) /\ (forall q, n_register_ok n q = true) /\
  (forall q, n_spawn_ok n q = true).

(** The worker the loop makes for queue [q] with ticket [gi]. *)
Definition worker_for (h : cores) (n : nic) (cfg : option UnifiedCfg) (q gi : Z) : worker :=
  mkWorker q gi (core_pool h n !!! Z.to_nat gi) (unified n cfg)
    (if unified n cfg then Some (core_pool h n !!! Z.to_nat gi) else recv_cpu (n_local_cpus n) q).

Lemma iteration_ok h n ifidx cfg q gi : calls_ok n -> gi < Z.of_nat (length (core_pool h n)) ->
  iteration h n ifidx cfg q gi =
  Spawned (worker_for h n cfg q gi) (if unified n cfg then [] else if n_header n is Some _ then [(ifidx, q)] else []).
Proof.
  intros (_ & H1 & H2 & H3) Hgi. unfold iteration, worker_for, unified.
  replace (_ <=? gi) with false by (symmetry; bool_to_prop; lia). rewrite H1, H2, H3. cbn [negb].
  by destruct cfg, (n_header n).
Qed.

(** The tickets of a loop that draws alone are consecutive; it stops after the
    last core or the last queue, whichever comes first. *)
Lemma spawn_loop_ok h n ifidx cfg (k : nat) q0 c : calls_ok n -> 0 <= c -> c + Z.of_nat k < 2 ^ 64 ->
  let len := Z.of_nat (length (core_pool h n)) in
  let m := Z.min (Z.of_nat k) (Z.max 0 (len - c)) in
  exists txs, spawn_loop h n ifidx cfg (seqZ q0 (Z.of_nat k)) c =
    ((fun i => worker_for h n cfg (q0 + i) (c + i)) <$> seqZ 0 m, txs,
     c + m + (if m <? Z.of_nat k then 1 else 0), None).
Proof.
  intros Hok. revert q0 c. induction k as [|k IH]; intros q0 c Hc Hk len m.
  { assert (Hm : m = 0) by (unfold m; lia). rewrite Hm. exists []. change (0 <? Z.of_nat 0) with false. by rewrite !Z.add_0_r. }
  rewrite seqZ_cons by lia. replace (Z.pred (Z.of_nat (S k))) with (Z.of_nat k) by lia. cbn [spawn_loop].
  destruct (Z.lt_ge_cases c len) as [Hlt|Hge].
  - rewrite iteration_ok by done. rewrite wadd_small by lia.
    destruct (IH (Z.succ q0) (c + 1)) as (txs & ->); [lia..|]. cbn zeta. fold len.
    set (m' := Z.min (Z.of_nat k) (Z.max 0 (len - (c + 1)))). assert (Hm : m = m' + 1) by (unfold m, m'; lia).
    assert (Hm0 : 0 <= m') by (unfold m'; lia).
    eexists. rewrite Hm. replace (m' + 1) with (Z.succ m') by lia. rewrite (seqZ_cons 0 (Z.succ m')) by lia.
    rewrite fmap_cons, !Z.add_0_r. replace (Z.pred (Z.succ m')) with m' by lia.
    assert (Hs : seqZ (Z.succ 0) m' = Z.add 1 <$> seqZ 0 m') by (exact (eq_sym (fmap_add_seqZ 1 0 m'))).
    rewrite Hs, <- list_fmap_compose.
    assert (Hf : (fun i => worker_for h n cfg (Z.succ q0 + i) (c + 1 + i)) <$> seqZ 0 m' =
                 (fun i => worker_for h n cfg (q0 + i) (c + i)) ∘ Z.add 1 <$> seqZ 0 m').
    { apply list_fmap_ext. intros _ i _. unfold compose. f_equal; lia. }
    rewrite Hf. do 2 f_equal. replace (Z.succ m' <? Z.of_nat (S k)) with (m' <? Z.of_nat k).
    + lia.
    + apply eq_true_iff_eq. rewrite !Z.ltb_lt. lia.
  - unfold iteration. fold len. replace (len <=? c) with true by (symmetry; bool_to_prop; lia).
    assert (Hm : m = 0) by (unfold m; lia). rewrite Hm. exists [].
    replace (0 <? Z.of_nat (S k)) with true by (symmetry; bool_to_prop; lia).
    rewrite wadd_small, Z.add_0_r by lia. reflexivity.
Qed.

(** A start that succeeds, and what it leaves. *)
Lemma do_start_ok h n g ifidx c : calls_ok n -> n_ifindex n = Some ifidx ->
  node_core_idx g !! Z.to_nat (node_idx n) = Some c -> 0 <= c -> c + queue_count h n < 2 ^ 64 ->
  let cfg := unified_cfg_for (n_name n) g in
  let qc := queue_count h n in
  let k := Z.min qc (Z.max 0 (Z.of_nat (length (core_pool h n)) - c)) in
  exists g', do_start h n g =
    (g', Ok (mkStarted ((fun i => worker_for h n cfg i (c + i)) <$> seqZ 0 k) (rss_queues h n cfg)
               (recalibrated cfg (if unified n cfg then k else 0)))) /\
    node_core_idx g' = <[Z.to_nat (node_idx n) := c + k + (if k <? qc then 1 else 0)]> (node_core_idx g) /\
    xdp_unified g' = xdp_unified g || (unified n cfg && (0 <? k)) /\ unified_cfgs g' = unified_cfgs g.
Proof.
  intros Hok Hix Hc Hc0 Hb cfg qc k. unfold do_start. rewrite Hix. destruct Hok as (Hload & Hcalls). rewrite Hload.
  cbn [negb]. fold cfg qc. rewrite (list_lookup_total_correct _ _ _ Hc).
  pose proof (queue_count_bound h n) as Hq. fold qc in Hq.
  destruct (spawn_loop_ok h n ifidx cfg (Z.to_nat qc) 0 c (conj Hload Hcalls) Hc0) as (txs & Hs); [fold qc in Hb; lia|].
  cbn zeta in Hs. rewrite !Z2Nat.id in Hs by lia. fold k in Hs.
  rewrite Hs. cbn [set_cursor node_core_idx xdp_unified xdp_tx_states unified_cfgs].
  assert (Hk : 0 <= k) by (unfold k; lia).
  assert (Hlen : Z.of_nat (length ((fun i => worker_for h n cfg i (c + i)) <$> seqZ 0 k)) = k).
  { rewrite length_fmap, length_seqZ. lia. }
  assert (Hemp : is_empty ((fun i => worker_for h n cfg i (c + i)) <$> seqZ 0 k) = negb (0 <? k)).
  { destruct (seqZ 0 k) as [|x l] eqn:E; apply (f_equal length) in E; rewrite length_seqZ in E; cbn [length] in E;
      cbn [fmap list_fmap is_empty]; symmetry; [apply negb_true_iff|apply negb_false_iff]; bool_to_prop; lia. }
  assert (Hz : (fun i => worker_for h n cfg (0 + i) (c + i)) <$> seqZ 0 k =
               (fun i => worker_for h n cfg i (c + i)) <$> seqZ 0 k) by done.
  rewrite Hz, Hlen, Hemp, negb_involutive, orb_false_r. eexists. split; [reflexivity|]. done.
Qed.

(** ** Theorems *)

(** C13. Core assignment: the interfaces of a run start at the same time, and their
    iterations interleave in any order.  As long as two interfaces either share
    their node or both know theirs, no two queues of any interfaces are assigned the
    same core, every assigned core is a physical core, on its interface's node when
    that is known, and the thread of a queue is pinned to its core when it is a
    unified worker, so that no two of those share one (a split receiver is pinned to
    a CPU of the upper half of the interface's list, or not at all). *)
Theorem start_cores_disjoint h nics st :
  NoDup (phys h) -> rtc (start_step h) (loops_new nics) st ->
  (forall a b, a ∈ nics -> b ∈ nics ->
     n_node a.1.1 = n_node b.1.1 \/ (is_Some (n_node a.1.1) /\ is_Some (n_node b.1.1))) ->
  Z.of_nat (length nics) * (Z.of_nat (length (phys h)) + 2) < 2 ^ 63 ->
  (forall j l k w, st.2 !! j = Some l -> l_workers l !! k = Some w ->
     w_core w ∈ phys h /\ (is_Some (n_node (l_nic l)) -> node_of h (w_core w) = n_node (l_nic l)) /\
     w_pin w = pin_of (l_nic l) w) /\
  (forall j1 l1 k1 w1 j2 l2 k2 w2,
     st.2 !! j1 = Some l1 -> l_workers l1 !! k1 = Some w1 -> st.2 !! j2 = Some l2 -> l_workers l2 !! k2 = Some w2 ->
     (j1, k1) <> (j2, k2) ->
     w_core w1 <> w_core w2 /\ (w_unified w1 = true -> w_unified w2 = true -> w_pin w1 <> w_pin w2)).
Proof.
  intros Hnd Hr Hnodes Hfew.
  assert (Hf : few h (loops_new nics).2) by (unfold few; cbn [loops_new snd]; by rewrite length_fmap).
  pose proof (cores_reach h _ _ Hr Hf (cores_init h nics)) as [_ _ C3 C4].
  assert (Hnic : forall j l, st.2 !! j = Some l -> exists a, a ∈ nics /\ n_node a.1.1 = n_node (l_nic l)).
  { intros j l Hl. pose proof (step_nics h _ _ Hr) as Hn. cbn [loops_new snd] in Hn. rewrite <- list_fmap_compose in Hn.
    assert (Hj : (l_nic <$> st.2) !! j = Some (l_nic l)) by (by rewrite list_lookup_fmap, Hl).
    rewrite Hn, list_lookup_fmap in Hj. destruct (nics !! j) as [[[n ix] cfg]|] eqn:E; [|done].
    injection Hj as <-. exists (n, ix, cfg). split; [by eapply list_elem_of_lookup_2|done]. }
  assert (Hcore : forall j l k w, st.2 !! j = Some l -> l_workers l !! k = Some w ->
    w_core w ∈ phys h /\ (is_Some (n_node (l_nic l)) -> node_of h (w_core w) = n_node (l_nic l))).
  { intros j l k w Hl Hk. destruct (C3 _ _ _ _ Hl Hk) as (c & _ & Ht & Hlt & -> & _). apply core_pool_sub.
    apply list_elem_of_lookup_total_2. lia. }
  assert (Hpin : forall j l k w, st.2 !! j = Some l -> l_workers l !! k = Some w -> w_pin w = pin_of (l_nic l) w).
  { intros j l k w Hl Hk. by destruct (C3 _ _ _ _ Hl Hk) as (c & _ & _ & _ & _ & Hp). }
  split.
  { intros j l k w Hl Hk. destruct (Hcore _ _ _ _ Hl Hk) as [Hc1 Hc2]. split; [done|]. split; [done|by eapply Hpin]. }
  intros j1 l1 k1 w1 j2 l2 k2 w2 H1 Hk1 H2 Hk2 Hne.
  assert (Hdis : w_core w1 <> w_core w2); cycle 1.
  { split; [done|]. intros U1 U2. rewrite (Hpin _ _ _ _ H1 Hk1), (Hpin _ _ _ _ H2 Hk2). unfold pin_of.
    rewrite U1, U2. congruence. }
  destruct (Hnic _ _ H1) as (a & Ha & Hna). destruct (Hnic _ _ H2) as (b & Hb & Hnb).
  destruct (decide (n_node (l_nic l1) = n_node (l_nic l2))) as [Hsame|Hdiff].
  - assert (Hidx : node_idx (l_nic l1) = node_idx (l_nic l2)) by (unfold node_idx; by rewrite Hsame).
    pose proof (C4 _ _ _ _ _ _ _ _ H1 Hk1 H2 Hk2 Hidx Hne) as Ht.
    destruct (C3 _ _ _ _ H1 Hk1) as (c1 & _ & Ht1 & Hl1 & -> & _). destruct (C3 _ _ _ _ H2 Hk2) as (c2 & _ & Ht2 & Hl2 & -> & _).
    rewrite (core_pool_same h _ _ Hsame) in Hl1 |- *. intros E.
    apply lookup_total_inj in E; [lia|by apply core_pool_NoDup|lia|lia].
  - destruct (Hnodes a b Ha Hb) as [E|[S1 S2]]; [congruence|]. rewrite Hna in S1. rewrite Hnb in S2. intros E.
    destruct (Hcore _ _ _ _ H1 Hk1) as [_ N1]. destruct (Hcore _ _ _ _ H2 Hk2) as [_ N2].
    rewrite <- (N1 S1), <- (N2 S2), E in Hdiff. done.
Qed.

(** A start alone, when every system call succeeds: it never indexes out of
    range; it spawns one worker per queue, in order, on the cores of the node from
    the node's cursor on, until the queues or the cores run out; the receive
    steering names between one queue and all of them; and when the rate is shared
    out again, each worker gets at least one query per second and the workers
    together, unless there are more of them than queries, get the total less a
    remainder smaller than their number. *)
Theorem start_spawns_workers h n g ifidx c :
  calls_ok n -> n_ifindex n = Some ifidx -> node_core_idx g !! Z.to_nat (node_idx n) = Some c ->
  0 <= c -> c + queue_count h n < 2 ^ 64 ->
  let cfg := unified_cfg_for (n_name n) g in
  let k := Z.min (queue_count h n) (Z.max 0 (Z.of_nat (length (core_pool h n)) - c)) in
  exists g' s, do_start h n g = (g', Ok s) /\
    w_queue <$> s_workers s = seqZ 0 k /\
    w_core <$> s_workers s = take (Z.to_nat k) (drop (Z.to_nat c) (core_pool h n)) /\
    1 <= s_rss s <= queue_count h n /\
    (forall r, s_rate s = Some r -> exists u, cfg = Some u /\ 1 <= r /\
       (k <= u_total_qps u -> u_total_qps u - k < k * r <= u_total_qps u)) /\
    (forall u, cfg = Some u -> unified n cfg = true -> 0 < k -> 0 < u_total_qps u -> is_Some (s_rate s)).
Proof.
  intros Hok Hix Hc Hc0 Hb cfg k. destruct (do_start_ok h n g ifidx c Hok Hix Hc Hc0 Hb) as (g' & He & _).
  cbn zeta in He. fold cfg k in He. eexists g', _. split; [exact He|]. cbn [s_workers s_rss s_rate].
  pose proof (queue_count_bound h n) as Hq. assert (Hk : 0 <= k) by (unfold k; lia).
  split. { rewrite <- list_fmap_compose. apply list_fmap_id. }
  split. { rewrite <- list_fmap_compose. apply list_eq. intros i. rewrite list_lookup_fmap, lookup_take, lookup_drop.
    destruct (decide (i < Z.to_nat k)%nat) as [Hi|Hi].
    - rewrite (proj2 (lookup_seqZ 0 k i (Z.of_nat i))) by lia. cbn [fmap option_fmap option_map].
      unfold compose, worker_for. cbn [w_core]. symmetry.
      replace (Z.to_nat c + i)%nat with (Z.to_nat (c + Z.of_nat i)) by lia.
      apply list_lookup_lookup_total_lt. unfold k in Hi. lia.
    - rewrite lookup_ge_None_2 by (rewrite length_seqZ; lia). done. }
  split. { unfold rss_queues. destruct (firehose cfg); lia. }
  split.
  - intros r. set (ku := if unified n cfg then k else 0).
    assert (Hku : ku = k \/ ku = 0) by (unfold ku; destruct (unified n cfg); tauto). clearbody ku. unfold recalibrated.
    destruct cfg as [u|]; [|done]. destruct (_ && _) eqn:Eb; [|done]. injection 1 as <-.
    exists u. split; [done|]. split; [lia|]. intros Hle.
    apply andb_true_iff in Eb as [Eb _]. rewrite Z.gtb_ltb in Eb. bool_to_prop. destruct Hku as [->|Hku]; [|lia].
    pose proof (Z.div_mod (u_total_qps u) k). pose proof (Z.mod_pos_bound (u_total_qps u) k).
    assert (1 <= u_total_qps u / k) by (apply Z.div_le_lower_bound; lia). rewrite Z.max_l by lia. lia.
  - intros u -> Hun Hk0 Hu. unfold recalibrated. rewrite Hun.
    replace (k >? 0) with true by (symmetry; rewrite Z.gtb_ltb; bool_to_prop; lia).
    replace (u_total_qps u >? 0) with true by (symmetry; rewrite Z.gtb_ltb; bool_to_prop; lia). by eexists.
Qed.

(** The cursor of a node is never put back: when an interface has at least as many
    queues as its node has cores, a first start in a process takes them all and
    raises the unified flag, and a later start of the same interface (a second
    server compared in the same process, with its own configuration registered in
    between) succeeds without a single worker, while every sender task leaves the
    sending to the workers: nothing is ever sent. *)
Theorem second_start_sends_nothing h n g ifidx i u :
  calls_ok n -> n_ifindex n = Some ifidx -> node_core_idx g !! Z.to_nat (node_idx n) = Some 0 ->
  Z.of_nat (length (core_pool h n)) < 2 ^ 62 -> (0 < length (core_pool h n))%nat ->
  Z.of_nat (length (core_pool h n)) <= n_hw_queues n -> unified n (unified_cfg_for (n_name n) g) = true ->
  exists g1 s1 g2 s2, do_start h n g = (g1, Ok s1) /\ length (s_workers s1) = length (core_pool h n) /\
    do_start h n (set_unified_cfg i u g1) = (g2, Ok s2) /\ s_workers s2 = [] /\
    forall tx_var worker_id bind_ok connect_ok,
      run_xdp_sender_worker g2 tx_var worker_id bind_ok connect_ok = Idle.
Proof.
  intros Hok Hix Hc Hsmall Hpos Hhw Hun.
  assert (Hqc : queue_count h n = Z.of_nat (length (core_pool h n))) by (unfold queue_count; lia).
  destruct (do_start_ok h n g ifidx 0 Hok Hix Hc) as (g1 & He1 & Hcur1 & Hfl1 & _); [lia..|]. cbn zeta in *.
  rewrite Hqc in *. set (len := Z.of_nat (length (core_pool h n))) in *.
  replace (Z.min len (Z.max 0 (len - 0))) with len in * by lia. rewrite Z.ltb_irrefl, !Z.add_0_r in Hcur1.
  assert (Hc2 : node_core_idx (set_unified_cfg i u g1) !! Z.to_nat (node_idx n) = Some len).
  { cbn [set_unified_cfg node_core_idx]. rewrite Hcur1. apply list_lookup_insert_eq. by eapply lookup_lt_Some. }
  destruct (do_start_ok h n (set_unified_cfg i u g1) ifidx len Hok Hix Hc2) as (g2 & He2 & _ & Hfl2 & _); [lia..|].
  cbn zeta in *. rewrite Hqc in *. fold len in He2, Hfl2. replace (Z.min len (Z.max 0 (len - len))) with 0 in * by lia.
  eexists g1, _, g2, _. split; [exact He1|]. split; [cbn [s_workers]; rewrite length_fmap, length_seqZ; lia|].
  split; [exact He2|]. split; [done|]. intros tx_var w b c. unfold run_xdp_sender_worker. rewrite Hfl2.
  cbn [set_unified_cfg xdp_unified]. rewrite Hfl1, Hun. replace (0 <? len) with true by (symmetry; bool_to_prop; lia).
  by rewrite !orb_true_r.
Qed.

(** ** Witnesses *)

(** Two nodes of two cores each. *)
Definition ex_cores : cores := mkCores [0; 1; 2; 3] (fun c => Some (c mod 2)).

Definition ex_nic (nm : str) (node : option Z) (hw : Z) : nic :=
  mkNic nm (Some 5) true hw node [0; 2; 4; 6] (Some (mkHeader [] 42 14 0)) (fun _ => true) (fun _ => true) (fun _ => true).

Definition ex_cfg : UnifiedCfg := mkUnified [] 0 0 1000 false.
Definition ex_globals : globals := set_unified_cfg (lit "eth0") ex_cfg globals_new.

Definition ex_nics : list (nic * Z * option UnifiedCfg) :=
  [(ex_nic (lit "eth0") (Some 0) 4, 5, Some ex_cfg); (ex_nic (lit "eth1") (Some 1) 4, 6, Some ex_cfg)].

(** Both interfaces run one iteration. *)
Definition ex_after : list Z * list loop :=
  ([1; 1; 0; 0; 0; 0; 0; 0],
   [mkLoop (ex_nic (lit "eth0") (Some 0) 4) 5 (Some ex_cfg) [mkWorker 0 0 0 true (Some 0)] false;
    mkLoop (ex_nic (lit "eth1") (Some 1) 4) 6 (Some ex_cfg) [mkWorker 0 0 1 true (Some 1)] false]).

Lemma ex_run : rtc (start_step ex_cores) (loops_new ex_nics) ex_after.
Proof.
  eapply rtc_l.
  { eapply (st_iter ex_cores _ _ 0%nat); [reflexivity|reflexivity|vm_compute; reflexivity|reflexivity]. }
  eapply rtc_l.
  { eapply (st_iter ex_cores _ _ 1%nat); [reflexivity|reflexivity|vm_compute; reflexivity|reflexivity]. }
  apply rtc_refl.
Qed.

Lemma start_cores_disjoint_witness : w_pin (mkWorker 0 0 0 true (Some 0)) <> w_pin (mkWorker 0 0 1 true (Some 1)).
Proof.
  destruct (start_cores_disjoint ex_cores ex_nics ex_after) as [_ Hd].
  - cbn [ex_cores phys]. apply NoDup_ListNoDup. repeat constructor; cbn; lia.
  - exact ex_run.
  - intros a b Ha Hb. right. unfold ex_nics in *.
    split; [revert a Ha|revert b Hb]; apply Forall_forall; repeat constructor; by eexists.
  - vm_compute. reflexivity.
  - destruct (Hd 0%nat _ 0%nat _ 1%nat _ 0%nat _ eq_refl eq_refl eq_refl eq_refl ltac:(discriminate)) as [_ Hp].
    exact (Hp eq_refl eq_refl).
Defined.

Lemma ex_calls nm node hw : calls_ok (ex_nic nm node hw).
Proof. by split_and!. Qed.

Lemma start_spawns_workers_witness :
  exists g' s, do_start ex_cores (ex_nic (lit "eth0") (Some 0) 4) ex_globals = (g', Ok s) /\ w_core <$> s_workers s = [0; 2].
Proof.
  destruct (start_spawns_workers ex_cores (ex_nic (lit "eth0") (Some 0) 4) ex_globals 5 0 (ex_calls _ _ _))
    as (g' & s & He & _ & Hc & _); [reflexivity|reflexivity|lia|vm_compute; reflexivity|].
  exists g', s. split; [exact He|]. rewrite Hc. vm_compute. reflexivity.
Defined.

Lemma second_start_sends_nothing_witness :
  exists g1 s1 g2 s2, do_start ex_cores (ex_nic (lit "eth0") (Some 0) 4) ex_globals = (g1, Ok s1) /\
    length (s_workers s1) = 2%nat /\
    do_start ex_cores (ex_nic (lit "eth0") (Some 0) 4) (set_unified_cfg (lit "eth0") ex_cfg g1) = (g2, Ok s2) /\
    s_workers s2 = [] /\ run_xdp_sender_worker g2 None 0 true true = Idle.
Proof.
  destruct (second_start_sends_nothing ex_cores (ex_nic (lit "eth0") (Some 0) 4) ex_globals 5 (lit "eth0") ex_cfg (ex_calls _ _ _))
    as (g1 & s1 & g2 & s2 & H1 & Hl & H2 & Hw & Hidle); [reflexivity|reflexivity|vm_compute; reflexivity|
      vm_compute; lia|vm_compute; discriminate|vm_compute; reflexivity|].
  exists g1, s1, g2, s2. split; [exact H1|]. split; [exact Hl|]. split; [exact H2|]. split; [exact Hw|apply Hidle].
Defined.

(** ** Limits of the guarantees *)

(** An interface of node 0 that starts first and one whose node is not reported
    draw from the same cursor, but from different lists of cores: both can be
    given core 2. *)
Example unknown_node_shares_core :
  let '(g1, r1) := do_start ex_cores (ex_nic (lit "eth0") (Some 0) 2) ex_globals in
  let '(_, r2) := do_start ex_cores (ex_nic (lit "eth1") None 2) g1 in
  match r1, r2 with
  | Ok s1, Ok s2 => (w_core <$> s_workers s1, w_core <$> s_workers s2) = ([0; 2], [2; 3])
  | _, _ => False
  end.
Proof. vm_compute. reflexivity. Qed.

(** A node whose cores cannot be matched: no worker, no error. *)
Example no_local_core_no_worker :
  match (do_start ex_cores (ex_nic (lit "eth0") (Some 5) 4) ex_globals).2 with
  | Ok s => s_workers s = []
  | Err _ => False
  end.
Proof. vm_compute. reflexivity. Qed.

(** The parent of a bridge is its first lower entry, virtual or not, although the
    bridge has a physical port. *)
Definition ex_sysfs : sysfs :=
  mkSysfs (fun i => str_eqb i (lit "eno1")) (fun _ => None)
    (fun i => if str_eqb i (lit "vmbr0") then Some [lit "lower_tap100i0"; lit "lower_eno1"] else None)
    (fun _ => None) (fun i => if str_eqb i (lit "vmbr0") then Some [lit "tap100i0"; lit "eno1"] else None) (fun _ => None).

Example parent_can_be_virtual :
  parent_interface ex_sysfs (lit "vmbr0") = Some (lit "tap100i0") /\
  is_virtual_interface ex_sysfs (lit "tap100i0") = true /\
  first_physical_bridge_port ex_sysfs (lit "vmbr0") = Some (lit "eno1").
Proof. vm_compute. done. Qed.

End Start.
