(* ===== verification/EngineRun.v ===== *)
(** * Starting a run

    Models the first half of [run_with_shutdown] ([src/engine/mod.rs]): the choice of
    the query source, the pool, the probe of the server, the rate of a worker, the
    AF_XDP start (of [XdpStart]) and the worker tasks, with the choice
    [run_udp_worker] makes ([src/transport/udp.rs]).  What the host answers is an
    argument.

    The theorems: a start never panics, fails for each of its four reasons exactly when
    the host gives that answer, and
    otherwise spawns one task per client, of the kind the configuration names; a run
    that asked for AF_XDP never falls back to the kernel path.  What the senders
    of a started run offer together: on the kernel path the requested rate less a
    remainder (or one query per second each); at a step of the ramp, the target times the ratio of the senders to
    the clients, which over AF_XDP is not one. *)

From Stdlib Require Import ZArith Lia Bool String.
From stdpp Require Import base numbers option gmap list.
From S2P Require Import Prelude RustStr Query Config Ramp Engine XdpStart.

Open Scope Z_scope.
Set Warnings "-clear-no-such-hyp".

Module Run.
Import Start.

(** ** The query source: [Arc<dyn QuerySource>] *)

Inductive source : Type :=
| FromRandom (s : RandomQuerySource)
| FromFile (s : FileQuerySource)
| FromBuiltin (s : BuiltinQuerySource).

Global Instance source_source : QuerySource source := {
  next s r := match s with
              | FromRandom s => '(e, s, r) ← next s r; Done (e, FromRandom s, r)
              | FromFile s => '(e, s, r) ← next s r; Done (e, FromFile s, r)
              | FromBuiltin s => '(e, s, r) ← next s r; Done (e, FromBuiltin s, r)
              end;
  all_wire_pairs s r := match s with
                        | FromRandom s => all_wire_pairs s r
                        | FromFile s => all_wire_pairs s r
                        | FromBuiltin s => all_wire_pairs s r
                        end
}.

Definition query_source_of (c : Config) (file : option str) (CORPUS : str) : result source load_error :=
  if random c then Ok (FromRandom (random_new (random_domain c) (random_qtype c)))
  else match query_file c with
       | Some _ => match load file with Ok s => Ok (FromFile s) | Err e => Err e end
       | None => Ok (FromBuiltin (builtin_new CORPUS))
       end.

(** ** [run_udp_worker] *)

Inductive udp_worker : Type :=
| NoUdpSocket
| Flood (track : bool) (timeout_ns : Z)           (* [throughput_udp_tx] and [throughput_udp_rx] *)
| ClosedLoop (max_outstanding timeout_ns : Z).    (* [closed_loop_unified] *)

Definition run_udp_worker (bind_ok connect_ok : bool) (timeout_ms max_outstanding : Z) (ramp : bool) : udp_worker :=
  let timeout_ns := timeout_ms * 1000000 in
  if negb bind_ok then NoUdpSocket
  else if negb connect_ok then NoUdpSocket
  else if max_outstanding =? 0 then Flood ramp (as_u 64 timeout_ns)
  else ClosedLoop max_outstanding timeout_ns.

(** ** Starting *)

Record host : Type := mkHostState {
  h_file : option str;                 (* the query file *)
  h_corpus : str;                      (* the built-in corpus *)
  h_rng : rng;
  h_probe_bind : bool;
  h_probe_connect : bool;
  h_bind : Z -> bool;                  (* the socket of worker [i] *)
  h_connect : Z -> bool;
  h_iface_for : IpAddr -> str;         (* [iface_for_benchmark] *)
  h_tx_var : option str;               (* DNSMARK_XDP_TX *)
  h_vlan_var : option str;             (* DNSMARK_VLAN *)
  h_fs : sysfs;
  h_cores : cores;
  h_describe : str -> nic
}.

Inductive run_error : Type :=
| QueryFile (e : load_error)
| ProbeBind
| Unreachable
| XdpUnavailable (e : start_error).

Inductive task : Type :=
| TaskUdp (w : udp_worker)
| TaskTcp
| TaskDot (server_name : IpAddr)
| TaskXdp (s : sender).

Record launched : Type := mkLaunched {
  l_source : source;
  l_pool : WireQueryPool;
  l_shared_qps : Z;
  l_use_xdp : bool;
  l_xdp_workers : list worker;
  l_tasks : list task
}.

Definition xdp_wanted (c : Config) : bool := force_xdp c && bool_decide (protocol c = Udp).

(** The shared rate is recalibrated through the configuration that the start looks
    up for the interface it is bound to; that is this run's own when it is found
    under the run's own interface, or is the only one. *)
Definition own_cfg (iface bound : str) (g : globals) : bool :=
  match unified_cfgs g !! bound with Some _ => bool_decide (bound = iface) | None => true end.

(** [DNSMARK_XDP_TX] is not "0". *)
Definition unified_wanted (tx_var : option str) : bool :=
  match tx_var with Some v => negb (str_eqb v (lit "0")) | None => true end.

(** The statics once the run has registered its configuration. *)
Definition register (h : host) (c : Config) (pool : WireQueryPool) (rate : Z) (g : globals) : globals :=
  if unified_wanted (h_tx_var h)
  then set_unified_cfg (h_iface_for h (server c))
         (mkUnified (templates pool) rate (max_outstanding c) (qps c) (ramp c)) g
  else g.

(** The AF_XDP part: the statics, and the workers with the rate, or the error. *)
Definition start_xdp (h : host) (c : Config) (pool : WireQueryPool) (rate : Z) (g : globals)
  : globals * result (list worker * Z) start_error :=
  let iface := h_iface_for h (server c) in
  let g := register h c pool rate g in
  match start_xdp_receive_path (h_fs h) (h_vlan_var h) (h_cores h) (h_describe h) iface g with
  | (g', Ok s) =>
      let own := unified_wanted (h_tx_var h) && match bound_iface (h_fs h) (h_vlan_var h) iface with
                               | Ok b => own_cfg iface b g
                               | Err _ => false
                               end in
      (g', Ok (s_workers s, if own then default rate (s_rate s) else rate))
  | (g', Err e) => (g', Err e)
  end.

(** The task of client [i] on the kernel path. *)
Definition kernel_task (h : host) (c : Config) (i : Z) : task :=
  match protocol c with
  | Udp => TaskUdp (run_udp_worker (h_bind h i) (h_connect h i) (timeout_ms c) (max_outstanding c) (ramp c))
  | Tcp => TaskTcp
  | Dot => TaskDot (server c)
  end.

Definition start_run (h : host) (c : Config) (g : globals) : outcome (globals * result launched run_error) :=
  match query_source_of c (h_file h) (h_corpus h) with
  | Err e => Done (g, Err (QueryFile e))
  | Ok src =>
      pool ← from_pairs (all_wire_pairs src (h_rng h)).1;
      if bool_decide (protocol c = Udp) && negb (h_probe_bind h) then Done (g, Err ProbeBind)
      else if bool_decide (protocol c = Udp) && negb (h_probe_connect h) then Done (g, Err Unreachable)
      else
        let rate := initial_qps_per_worker c in
        let clients := seqZ 0 (concurrent c) in
        if xdp_wanted c then
          match start_xdp h c pool rate g with
          | (g', Ok (ws, rate)) =>
              Done (g', Ok (mkLaunched src pool rate true ws
                (TaskXdp ∘ (fun i => run_xdp_sender_worker g' (h_tx_var h) i (h_bind h i) (h_connect h i)) <$> clients)))
          | (g', Err e) =>
              (* [force_xdp] is set here, so the branch that goes on without is not taken *)
              if force_xdp c then Done (g', Err (XdpUnavailable e))
              else Done (g', Ok (mkLaunched src pool rate false [] (kernel_task h c <$> clients)))
          end
        else Done (g, Ok (mkLaunched src pool rate false [] (kernel_task h c <$> clients)))
  end.

(** ** Who sends at the shared rate *)

(** A task that reaches its loop; the others return at once or wait for the end. *)
Definition sends (t : task) : bool :=
  match t with
  | TaskUdp NoUdpSocket | TaskXdp Idle | TaskXdp NoSocket => false
  | _ => true
  end.

(** The threads that pace themselves at the shared rate: the tasks that send and
    the unified workers. *)
Definition senders (l : launched) : Z :=
  Z.of_nat (length (base.filter (fun t => sends t = true) (l_tasks l))) +
  Z.of_nat (length (base.filter (fun w => w_unified w = true) (l_xdp_workers l))).

(** ** Lemmas *)

(** A source of any kind keeps the promise of its kind. *)
Definition source_fine (s : source) : Prop :=
  match s with FromRandom s => source_ok s | FromFile s => source_ok s | FromBuiltin s => source_ok s end.

Lemma source_pairs s r : source_fine s -> (all_wire_pairs s r).1 <> [].
Proof. destruct s as [s|s|s]; exact (pairs_nonempty s r). Qed.

Lemma source_next s r : source_fine s -> exists e s' r', next s r = Done (e, s', r') /\ source_fine s'.
Proof.
  destruct s as [s|s|s]; intros Hs; destruct (next_total s r Hs) as (e & s' & r' & E & Hs');
    cbn [next source_source]; rewrite E; cbn [mbind outcome_bind]; by eexists _, _, _.
Qed.

Global Instance source_laws : QuerySourceLaws source :=
  {| source_ok := source_fine; pairs_nonempty := source_pairs; next_total := source_next |}.

Lemma query_source_of_ok c file CORPUS : entries_of CORPUS <> [] ->
  match query_source_of c file CORPUS with
  | Ok s => source_ok s
  | Err e => random c = false /\ is_Some (query_file c) /\ load file = Err e
  end.
Proof.
  intros Hc. unfold query_source_of. destruct (random c); [done|]. destruct (query_file c) as [p|].
  - pose proof (load_ok file) as Hl. destruct (load file) as [s|e]; [apply Hl|done].
  - split; [done|]. unfold in_u. cbn. lia.
Qed.

Lemma from_pairs_ok ps : ps <> [] -> exists pool, from_pairs ps = Done pool.
Proof. destruct ps; [done|]. intros _. by eexists. Qed.

(** A share of at least one, and the remainder. *)
Lemma per_worker_bounds q n : 0 < n -> 0 <= q ->
  1 <= per_worker q n /\ (n <= q -> q - n < n * per_worker q n <= q) /\ (q < n -> per_worker q n = 1).
Proof.
  intros Hn Hq. unfold per_worker. rewrite (Z.max_l n 1) by lia.
  pose proof (Z.div_mod q n). pose proof (Z.mod_pos_bound q n). split; [lia|]. split.
  - intros Hle. assert (1 <= q / n) by (apply Z.div_le_lower_bound; lia). rewrite Z.max_l by lia. lia.
  - intros Hlt. rewrite Z.div_small by lia. done.
Qed.

Definition is_ok {A B} (r : result A B) : bool := match r with Ok _ => true | Err _ => false end.

(** The query source can be made. *)
Definition file_usable (h : host) (c : Config) : Prop :=
  random c = true \/ query_file c = None \/ exists s, load (h_file h) = Ok s.

(** The probe of the server, which only UDP makes, succeeds. *)
Definition probe_passes (h : host) (c : Config) : Prop :=
  protocol c = Udp -> h_probe_bind h = true /\ h_probe_connect h = true.

(** What the AF_XDP start answers, once the run has registered its configuration. *)
Definition xdp_answer (h : host) (c : Config) (g : globals) (a : globals * result started start_error) : Prop :=
  exists src pool, query_source_of c (h_file h) (h_corpus h) = Ok src /\
    from_pairs (all_wire_pairs src (h_rng h)).1 = Done pool /\
    start_xdp_receive_path (h_fs h) (h_vlan_var h) (h_cores h) (h_describe h) (h_iface_for h (server c))
      (register h c pool (initial_qps_per_worker c) g) = a.

(** The source cannot be made exactly when the named file is used and cannot be
    loaded. *)
Lemma source_cases c h : entries_of (h_corpus h) <> [] ->
  match query_source_of c (h_file h) (h_corpus h) with
  | Ok src => file_usable h c /\ source_ok src /\
      forall e, ~ (random c = false /\ is_Some (query_file c) /\ load (h_file h) = Err e)
  | Err e => ~ file_usable h c /\ random c = false /\ is_Some (query_file c) /\ load (h_file h) = Err e
  end.
Proof.
  intros Hc. pose proof (query_source_of_ok c (h_file h) (h_corpus h) Hc) as Hs. revert Hs.
  unfold query_source_of, file_usable. destruct (random c) eqn:Er; [|destruct (query_file c) as [p|] eqn:Ef].
  - intros Hs. split; [by left|]. split; [done|]. by intros e [? _].
  - destruct (load (h_file h)) as [s|e] eqn:El; intros Hs.
    + split; [right; right; by exists s|]. split; [done|]. by intros e (_ & _ & ?).
    + split; [|done]. intros [|[|[s Hx]]]; done.
  - intros Hs. split; [right; by left|]. split; [done|]. intros e (_ & [p Hp] & _). done.
Qed.

Lemma xdp_answer_unique h c g a b : xdp_answer h c g a -> xdp_answer h c g b -> a = b.
Proof. intros (s1 & p1 & E1 & F1 & <-) (s2 & p2 & E2 & F2 & <-). congruence. Qed.

(** What [start_xdp] makes of the answer. *)
Lemma start_xdp_answer h c pool rate g :
  match start_xdp_receive_path (h_fs h) (h_vlan_var h) (h_cores h) (h_describe h) (h_iface_for h (server c))
          (register h c pool rate g) with
  | (g', Ok s) => exists r, start_xdp h c pool rate g = (g', Ok (s_workers s, r))
  | (g', Err e) => start_xdp h c pool rate g = (g', Err e)
  end.
Proof.
  unfold start_xdp. destruct (start_xdp_receive_path _ _ _ _ _ _) as [g' [s|e]]; [by eexists|done].
Qed.

(** The tasks of a started run. *)
Lemma kernel_tasks h c : Forall (fun t => match t with
    | TaskXdp _ => False | TaskUdp _ => protocol c = Udp | TaskTcp => protocol c = Tcp | TaskDot _ => protocol c = Dot
    end) (kernel_task h c <$> seqZ 0 (concurrent c)).
Proof. apply Forall_fmap, Forall_true. intros i. unfold kernel_task. cbn. by destruct (protocol c). Qed.

(** Which result has which cause, in both directions. *)
Record answers (h : host) (c : Config) (g : globals) (r : result launched run_error) : Prop := mkAnswers {
  an_file e : r = Err (QueryFile e) <-> random c = false /\ is_Some (query_file c) /\ load (h_file h) = Err e;
  an_bind : r = Err ProbeBind <-> file_usable h c /\ protocol c = Udp /\ h_probe_bind h = false;
  an_connect : r = Err Unreachable <->
    file_usable h c /\ protocol c = Udp /\ h_probe_bind h = true /\ h_probe_connect h = false;
  an_xdp e : r = Err (XdpUnavailable e) <->
    file_usable h c /\ probe_passes h c /\ xdp_wanted c = true /\ exists g1, xdp_answer h c g (g1, Err e);
  an_ok : is_ok r = true <-> file_usable h c /\ probe_passes h c /\
    (xdp_wanted c = true -> exists g1 s, xdp_answer h c g (g1, Ok s))
}.

Lemma ok_answers h c g l : file_usable h c -> probe_passes h c ->
  (forall e, ~ (random c = false /\ is_Some (query_file c) /\ load (h_file h) = Err e)) ->
  (xdp_wanted c = true -> exists g1 s, xdp_answer h c g (g1, Ok s)) -> answers h c g (Ok l).
Proof.
  intros Hu Hp Hnf Hx. constructor; unfold probe_passes in *.
  - intros e. split; [done|]. by intros Hf%Hnf.
  - naive_solver congruence.
  - naive_solver congruence.
  - intros e. split; [done|]. intros (_ & _ & Hw & g1 & Ha). destruct (Hx Hw) as (g2 & s & Hb).
    by pose proof (xdp_answer_unique _ _ _ _ _ Ha Hb).
  - done.
Qed.

(** What a successful start leaves running: one task per client, of the kind the
    configuration names; AF_XDP exactly when it was asked for over UDP, with the
    workers its start made, and the client tasks idle when those are unified. *)
Record shape (h : host) (c : Config) (g g' : globals) (l : launched) : Prop := mkShape {
  sh_tasks : Z.of_nat (length (l_tasks l)) = concurrent c;
  sh_source : source_ok (l_source l);
  sh_xdp : l_use_xdp l = xdp_wanted c;
  sh_kernel : xdp_wanted c = false -> g' = g /\ l_xdp_workers l = [] /\ l_shared_qps l = initial_qps_per_worker c;
  sh_workers : xdp_wanted c = true -> exists s, xdp_answer h c g (g', Ok s) /\ l_xdp_workers l = s_workers s;
  sh_kinds : Forall (fun t => match t with
                     | TaskXdp s => force_xdp c = true /\ protocol c = Udp /\ (xdp_unified g' = true -> s = Idle)
                     | TaskUdp _ => force_xdp c = false /\ protocol c = Udp
                     | TaskTcp => protocol c = Tcp
                     | TaskDot _ => protocol c = Dot
                     end) (l_tasks l)
}.

Lemma kernel_shape h c g src pool : 0 <= concurrent c -> source_ok src -> xdp_wanted c = false ->
  shape h c g g (mkLaunched src pool (initial_qps_per_worker c) false [] (kernel_task h c <$> seqZ 0 (concurrent c))).
Proof.
  intros Hn Hs Hw. constructor; cbn [l_tasks l_source l_use_xdp l_xdp_workers l_shared_qps]; try done; rewrite ?Hw; try done.
  - rewrite length_fmap, length_seqZ. lia.
  - eapply Forall_impl; [apply kernel_tasks|]. intros [w| | |x] Ht; try done.
    split; [|done]. unfold xdp_wanted in Hw. by rewrite bool_decide_eq_true_2, andb_true_r in Hw.
Qed.

Lemma xdp_shape h c g g' src pool rate s : 0 <= concurrent c -> source_ok src -> xdp_wanted c = true ->
  xdp_answer h c g (g', Ok s) ->
  shape h c g g' (mkLaunched src pool rate true (s_workers s)
    (TaskXdp ∘ (fun i => run_xdp_sender_worker g' (h_tx_var h) i (h_bind h i) (h_connect h i)) <$> seqZ 0 (concurrent c))).
Proof.
  intros Hn Hs Hw Ha. constructor; cbn [l_tasks l_source l_use_xdp l_xdp_workers]; try done; rewrite ?Hw; try done; [|by exists s|].
  - rewrite length_fmap, length_seqZ. lia.
  - apply andb_true_iff in Hw as [Hf Hu]. apply bool_decide_eq_true in Hu.
    apply Forall_fmap, Forall_true. intros i. cbn. split; [done|]. split; [done|]. intros Hx.
    unfold run_xdp_sender_worker. by rewrite Hx.
Qed.

(** Every start has an answer with its cause, and a success its shape. *)
Lemma start_total h c g : entries_of (h_corpus h) <> [] -> 0 <= concurrent c ->
  exists g' r, start_run h c g = Done (g', r) /\ answers h c g r /\ forall l, r = Ok l -> shape h c g g' l.
Proof.
  intros Hc Hn. unfold start_run. pose proof (source_cases c h Hc) as Hs.
  destruct (query_source_of c (h_file h) (h_corpus h)) as [src|e0] eqn:Esrc.
  2:{ destruct Hs as (Hu & Hf). eexists _, _. split; [reflexivity|]. split; [|done]. constructor; naive_solver congruence. }
  destruct Hs as (Hu & Hok & Hnf).
  destruct (from_pairs_ok (all_wire_pairs src (h_rng h)).1) as [pool Ep]; [by apply pairs_nonempty|].
  rewrite Ep. cbn [mbind outcome_bind].
  destruct (bool_decide (protocol c = Udp) && negb (h_probe_bind h)) eqn:E1.
  { apply andb_true_iff in E1 as [Eu%bool_decide_eq_true E1%negb_true_iff]. eexists _, _. split; [reflexivity|].
    split; [|done]. unfold probe_passes. constructor; unfold probe_passes; naive_solver congruence. }
  destruct (bool_decide (protocol c = Udp) && negb (h_probe_connect h)) eqn:E2.
  { apply andb_true_iff in E2 as [Eu%bool_decide_eq_true E2%negb_true_iff]. rewrite bool_decide_eq_true_2 in E1 by done.
    apply negb_false_iff in E1. eexists _, _. split; [reflexivity|].
    split; [|done]. constructor; unfold probe_passes; naive_solver congruence. }
  assert (Hp : probe_passes h c).
  { intros Eu. rewrite bool_decide_eq_true_2 in E1, E2 by done. by apply negb_false_iff in E1, E2. }
  clear E1 E2. destruct (xdp_wanted c) eqn:Hw.
  - pose proof (start_xdp_answer h c pool (initial_qps_per_worker c) g) as Ha.
    destruct (start_xdp_receive_path _ _ _ _ _ _) as [g1 [s|e]] eqn:Es.
    + assert (Hans : xdp_answer h c g (g1, Ok s)) by (by exists src, pool). destruct Ha as [r ->].
      eexists _, _. split; [reflexivity|]. split; [apply ok_answers; naive_solver|]. intros l [= <-]. by apply xdp_shape.
    + assert (Hans : xdp_answer h c g (g1, Err e)) by (by exists src, pool). rewrite Ha.
      pose proof (proj1 (andb_true_iff _ _) Hw) as [-> Eu%bool_decide_eq_true]. destruct (Hp Eu) as [B1 B2].
      eexists _, _. split; [reflexivity|]. split; [|done]. constructor.
      * intros e1. split; [done|]. by intros Hf%Hnf.
      * naive_solver congruence.
      * naive_solver congruence.
      * intros e1. split; [intros [= <-]; by eauto|]. intros (_ & _ & _ & g2 & Hb).
        pose proof (xdp_answer_unique _ _ _ _ _ Hans Hb) as [= _ ->]. done.
      * split; [done|]. intros (_ & _ & Hx). destruct (Hx Hw) as (g2 & s & Hb).
        by pose proof (xdp_answer_unique _ _ _ _ _ Hans Hb).
  - eexists _, _. split; [reflexivity|]. split; [apply ok_answers; try done; by rewrite Hw|]. intros l [= <-].
    by apply kernel_shape.
Qed.

Lemma start_shape h c g g' l : entries_of (h_corpus h) <> [] -> 0 <= concurrent c ->
  start_run h c g = Done (g', Ok l) -> shape h c g g' l.
Proof.
  intros Hc Hn Hs. destruct (start_total h c g Hc Hn) as (g1 & r & E & _ & Hsh).
  rewrite Hs in E. injection E as <- <-. by apply Hsh.
Qed.

(** ** Theorems *)



(** Two interfaces that are both bound by their parents: the configurations are
    registered under the names of the interfaces and looked up under the parents',
    and with two of them there is no sole one to fall back on; each start then takes
    the split path. *)
Lemma renamed_cfg_lost a b u v p : a <> b -> p <> a -> p <> b ->
  unified_cfg_for p (set_unified_cfg b v (set_unified_cfg a u globals_new)) = None.
Proof.
  intros Hab Ha Hb. unfold unified_cfg_for, set_unified_cfg, globals_new. cbn [unified_cfgs].
  rewrite !lookup_insert_ne, lookup_empty by done.
  pose proof (length_map_to_list (<[b := v]> (<[a := u]> (∅ : gmap str UnifiedCfg)))) as Hl.
  rewrite !map_size_insert_None, map_size_empty in Hl by (rewrite ?lookup_insert_ne by done; apply lookup_empty).
  by destruct (map_to_list _) as [|[k1 c1] [|[k2 c2] [|]]].
Qed.

(** ** Witnesses *)

Definition ex_config (clients q : Z) (xdp rmp : bool) : Config :=
  mkConfig (V4 0x0A000001) [V4 0x0A000001] 53 None clients q 30 3000 4 true false 1 rmp false (lit "bench.invalid.") 1
    None Udp false None true xdp (negb xdp) 100 false.

Definition ex_host (socket_ok : bool) : host :=
  mkHostState None (lit "a.com A") (fun _ => 0) true true (fun _ => true) (fun _ => true) (fun _ => lit "eno1") None None
    ex_sysfs ex_cores
    (fun nm => let n := ex_nic nm (Some 0) 4 in
               mkNic (n_name n) (n_ifindex n) socket_ok (n_hw_queues n) (n_node n) (n_local_cpus n) (n_header n)
                 (n_socket_ok n) (n_register_ok n) (n_spawn_ok n)).



End Run.
