(* ===== verification/Output.v ===== *)
(** * Results: CSV, line rate, dashboard, comparison

    Models what [src/output/] computes before it prints: [line_rate]
    ([mod.rs]), the CSV file ([csv.rs]), the warnings and percentages of the text
    report ([text.rs]), the notes and the verdict of the JSON report ([json.rs]), the
    state of the dashboard ([tui.rs]); the second configuration of
    [src/engine/compare.rs]; and the frequency governor of [src/governor.rs].  The
    reports themselves, line by line, are in [Report].

    The theorems: every column of the CSV file reads back as the value of the
    snapshot it is named after; the governors are put back as they were; the
    two runs of a comparison read the counters of the same NICs. *)

From Stdlib Require Import ZArith Lia Bool String SpecFloat.
From stdpp Require Import base numbers option strings gmap list.
From S2P Require Import Prelude Float64 RustStr Stats Config Engine.

Open Scope Z_scope.

Module Output.

(** ** Printing a float with a fixed number of decimals *)

(** The quotient rounded to nearest, ties to even. *)
Definition div_half_even (n d : Z) : Z :=
  let q := n / d in
  let r := n mod d in
  if 2 * r <? d then q else if d <? 2 * r then q + 1 else if Z.even q then q else q + 1.

(** [n] divided by ten to the [d]. *)
Definition decimal (d : nat) (n : Z) : str :=
  display_fuel 400 (n / 10 ^ Z.of_nat d) ++
  match d with O => [] | _ => c_dot :: digits_fixed 10 d (n mod 10 ^ Z.of_nat d) end.

Definition sign (s : bool) : str := if s then [c_dash] else [].

(** [format!("{:.d}", x)]: the exact value, correctly rounded. *)
Definition fmt_fixed (d : nat) (x : f64) : str :=
  match x with
  | S754_nan => lit "NaN"
  | S754_infinity s => sign s ++ lit "inf"
  | S754_zero s => sign s ++ decimal d 0
  | S754_finite s m e =>
      let n := Zpos m * 10 ^ Z.of_nat d in
      sign s ++ decimal d (if 0 <=? e then n * 2 ^ e else div_half_even n (2 ^ (- e)))
  end.

(** ** The CSV file *)

Definition csv_header : list str :=
  lit <$> ["queries_sent"; "queries_completed"; "queries_lost"; "rcode_noerror"; "rcode_nxdomain"; "rcode_servfail";
           "rcode_refused"; "rcode_other"; "run_time_s"; "avg_qps"; "min_us"; "avg_us"; "p50_us"; "p95_us"; "p99_us";
           "p999_us"; "max_us"]%string.

Definition csv_record (snap : StatsSnapshot) : list str :=
  [display_u (queries_sent snap); display_u (queries_completed snap); display_u (queries_lost snap);
   display_u (s_rcode_noerror snap); display_u (s_rcode_nxdomain snap); display_u (s_rcode_servfail snap);
   display_u (s_rcode_refused snap); display_u (s_rcode_other snap);
   fmt_fixed 3 (run_time_s snap); fmt_fixed 0 (avg_qps snap);
   display_u (min_us snap); fmt_fixed 1 (avg_us snap);
   display_u (p50_us snap); display_u (p95_us snap); display_u (p99_us snap); display_u (p999_us snap);
   display_u (max_us snap)].

(** A record of fields that need no quoting, as [csv::Writer] writes it. *)
Definition csv_line (fields : list str) : str := join c_comma fields ++ [c_lf].

(** What [write_csv] leaves in the file. *)
Definition write_csv (snap : StatsSnapshot) : str := csv_line csv_header ++ csv_line (csv_record snap).

(** ** Line rate *)

Record LineRate : Type := mkLineRate {
  rate_qps : f64; avg_reply_bytes : f64; lr_link_mbps : Z; line_rate_pps : f64; lr_pct : f64; wire_bound : bool
}.

Definition line_rate (snap : StatsSnapshot) : option LineRate :=
  let rate := match server_rx_qps snap with
              | Some r => if f64_gtb r f64_zero then r else avg_qps snap
              | None => avg_qps snap
              end in
  bytes ← server_rx_avg_bytes snap;
  link ← link_mbps snap;
  if f64_leb rate f64_zero || f64_leb bytes f64_zero || (link =? 0) then None
  else
    let on_wire := f64_add bytes (f64_lit 24 1) in
    let pps := f64_div (f64_mul (f64_of_Z link) (f64_lit 1000000 1)) (f64_mul on_wire (f64_lit 8 1)) in
    let pct := if f64_gtb pps f64_zero then f64_mul (f64_div rate pps) (f64_lit 100 1) else f64_zero in
    Some (mkLineRate rate bytes link pps pct (f64_geb pct (f64_lit 90 1))).

(** ** The text and JSON reports *)

(** The closure [pct]. *)
Definition pct (n d : Z) : f64 :=
  if d =? 0 then f64_zero else f64_mul (f64_div (f64_of_Z n) (f64_of_Z d)) (f64_lit 100 1).

Definition rt_pct (snap : StatsSnapshot) : f64 :=
  if f64_gtb (send_qps snap) f64_zero then f64_mul (f64_div (avg_qps snap) (send_qps snap)) (f64_lit 100 1)
  else f64_zero.

(** The egress is said not to reach the wire. *)
Definition wedged_warning (snap : StatsSnapshot) : bool :=
  match wire_qps snap with
  | Some wire => f64_gtb (send_qps snap) (f64_lit 1000 1) && f64_ltb wire (f64_mul (send_qps snap) (f64_lit 5 10))
  | None => false
  end.

(** Replies are said to be dropped on the generator's side: how many. *)
Definition dropped_note (snap : StatsSnapshot) : option f64 :=
  rx ← server_rx_qps snap;
  if f64_gtb (avg_qps snap) (f64_lit 1000 1) && f64_gtb rx (f64_mul (avg_qps snap) (f64_lit 110 100))
  then Some (f64_sub rx (avg_qps snap)) else None.

(** Both reports give the line rate outside the ramp only. *)
Definition reported_line_rate (snap : StatsSnapshot) (c : Config) : option LineRate :=
  if ramp c then None else line_rate snap.

Definition verdict (l : LineRate) : str := if wire_bound l then lit "wire-bound" else lit "link-headroom".

Inductive source_label : Type :=
| LabelRandom (domain : str) (qtype : str)
| LabelFile (path : str)
| LabelBuiltin (domains : Z).

Definition source_of (c : Config) : source_label :=
  if random c then LabelRandom (random_domain c) (if random_qtype c =? 28 then lit "AAAA" else lit "A")
  else match query_file c with Some f => LabelFile f | None => LabelBuiltin 2000 end.

Definition qps_str (c : Config) : str := if qps c =? 0 then lit "unlimited" else display_u (qps c).

(** [format_qps] of the ramp's summary. *)
Definition format_qps (n : Z) : str :=
  if 1000000 <=? n then fmt_fixed 2 (f64_div (f64_of_Z n) (f64_lit 1000000 1)) ++ lit "M"
  else if 1000 <=? n then fmt_fixed 1 (f64_div (f64_of_Z n) (f64_lit 1000 1)) ++ lit "K"
  else display_u n.

(** What is written for a finished run, and where. *)
Inductive written : Type := JsonOut | TextOut | CsvOut (path : str) (content : str).

Definition print_output (snap : StatsSnapshot) (c : Config) : list written :=
  (if json_output c then JsonOut else TextOut) ::
  match csv_file c with Some path => [CsvOut path (write_csv snap)] | None => [] end.

(** ** The dashboard *)

Record tui : Set := mkTui { qps_history : list Z; last_completed : Z; paused : bool }.

Inductive key : Set := KeyQuit | KeyPause | KeyReset | KeyOther.

Definition tui_new : tui := mkTui [] 0 false.

(** The numbers of a frame: the answers since the last one. *)
Definition tui_frame (completed : Z) (t : tui) : tui :=
  let delta := sat_sub completed (last_completed t) in
  let hist := if 60 <=? Z.of_nat (length (qps_history t)) then drop 1 (qps_history t) else qps_history t in
  mkTui (hist ++ [delta]) completed (paused t).

Definition peak_qps (t : tui) : Z := foldr Z.max 0 (qps_history t).

(** The key pressed in a frame, if any; false when the loop ends. *)
Definition tui_key (completed : Z) (k : option key) (t : tui) : tui * bool :=
  match k with
  | Some KeyQuit => (t, false)
  | Some KeyPause => (mkTui (qps_history t) (last_completed t) (negb (paused t)), true)
  | Some KeyReset => (mkTui [] completed (paused t), true)
  | _ => (t, true)
  end.

(** The loop: what each frame reads; true in the result when the user ended the run. *)
Fixpoint tui_loop (frames : list (Z * option key)) (t : tui) : tui * bool :=
  match frames with
  | [] => (t, false)
  | (completed, k) :: frames' =>
      let '(t, go) := tui_key completed k (tui_frame completed t) in
      if go then tui_loop frames' t else (t, true)
  end.

(** The gauge, in per cent. *)
Definition progress (elapsed : f64) (c : Config) : Z :=
  if (duration_secs c >? 0) && negb (ramp c)
  then f64_as_u 16 (f64_min (f64_mul (f64_div elapsed (f64_of_Z (duration_secs c))) (f64_lit 100 1)) (f64_lit 100 1))
  else 0.

(** ** Comparison *)

(** [run_compare]: the configuration of the second run. *)
Definition second_config (c : Config) (secondary : IpAddr) : Config :=
  mkConfig secondary (servers c) (port c) (query_file c) (concurrent c) (qps c) (duration_secs c) (timeout_ms c)
    (threads c) (quiet c) (verbose c) (stats_interval_secs c) (ramp c) (random c) (random_domain c) (random_qtype c)
    (compare c) (protocol c) (json_output c) (csv_file c) true (force_xdp c) (no_xdp c) (max_outstanding c) (nic_stats c).

Definition completion_rate (s : StatsSnapshot) : f64 :=
  if queries_sent s >? 0 then f64_mul (f64_div (f64_of_Z (queries_completed s)) (f64_of_Z (queries_sent s))) (f64_lit 100 1)
  else f64_zero.

Record CompareResult : Type := mkCompare {
  primary : StatsSnapshot; secondary : StatsSnapshot; primary_addr : IpAddr; secondary_addr : IpAddr
}.

(** Both runs are awaited; the error of the first is reported before that of the
    second.  [run] is [run_with_shutdown]. *)
Definition run_compare {E} (run : Config -> result StatsSnapshot E) (c : Config) (second : IpAddr)
  : result CompareResult E :=
  match run c, run (second_config c second) with
  | Ok a, Ok b => Ok (mkCompare a b (server c) second)
  | Err e, _ => Err e
  | _, Err e => Err e
  end.

(** The lines of [print_compare]: the metric and the two figures, before they are
    padded. *)
Definition compare_rows (r : CompareResult) : list (str * str * str) :=
  let ms v := fmt_fixed 3 (f64_div (f64_of_Z v) (f64_lit 1000 1)) ++ lit "ms" in
  let row (name : str) (f : StatsSnapshot -> str) := (name, f (primary r), f (secondary r)) in
  [row (lit "Average QPS") (fun s => fmt_fixed 0 (avg_qps s));
   row (lit "p50 latency") (fun s => ms (p50_us s));
   row (lit "p95 latency") (fun s => ms (p95_us s));
   row (lit "p99 latency") (fun s => ms (p99_us s));
   row (lit "Completion rate") (fun s => fmt_fixed 2 (completion_rate s) ++ lit "%")].

(** ** The frequency governor *)

(** The governor files that can be read, and which of them can be written. *)
Abbreviation governors := (gmap str str).

Definition performance : str := lit "performance".

(** [pin_performance] over the directory entries [paths]: the files, and what was
    saved. *)
Fixpoint pin_performance (writable : str -> bool) (paths : list str) (fs : governors)
  : governors * list (str * str) :=
  match paths with
  | [] => (fs, [])
  | p :: paths' =>
      match fs !! p with
      | Some prev =>
          let prev := trim prev in
          if negb (str_eqb prev performance) && writable p then
            let '(fs, saved) := pin_performance writable paths' (<[p := performance]> fs) in
            (fs, (p, prev) :: saved)
          else pin_performance writable paths' fs
      | None => pin_performance writable paths' fs
      end
  end.

(** The drop of the guard. *)
Fixpoint restore (writable : str -> bool) (saved : list (str * str)) (fs : governors) : governors :=
  match saved with
  | [] => fs
  | (p, prev) :: saved' => restore writable saved' (if writable p then <[p := prev]> fs else fs)
  end.

(** ** Fields that need no quoting *)

(** No comma, quote or line end: all of these come before the dash. *)
Definition plain (s : str) : Prop := Forall (fun c => c_dash <= c) s.

Lemma plain_no_char sep s : plain s -> sep < c_dash -> no_char (Z.eqb sep) s.
Proof. intros Hs Hsep. eapply Forall_impl; [exact Hs|]. cbn. intros c Hc. bool_to_prop. lia. Qed.

Lemma plain_display n z : 0 <= z -> plain (display_fuel n z).
Proof. intros Hz. eapply Forall_impl; [by apply display_fuel_digits|]. cbn. unfold c_dash. lia. Qed.

Lemma plain_digits n z : plain (digits_fixed 10 n z).
Proof.
  revert z. induction n as [|n IH]; intros z; cbn [digits_fixed]; [constructor|].
  apply Forall_app_2; [apply IH|]. apply Forall_singleton. pose proof (Z.mod_pos_bound z 10).
  unfold digit_char, c_dash. case_if; lia.
Qed.

Lemma plain_decimal d n : 0 <= n -> plain (decimal d n).
Proof.
  intros Hn. unfold decimal. apply Forall_app_2; [apply plain_display, Z.div_pos; lia|].
  destruct d; [constructor|]. constructor; [vm_compute; discriminate|apply plain_digits].
Qed.

Lemma div_half_even_nonneg n d : 0 <= n -> 0 < d -> 0 <= div_half_even n d.
Proof. intros Hn Hd. assert (0 <= n / d) by (apply Z.div_pos; lia). unfold div_half_even. ifs_lia. Qed.

Lemma plain_sign s t : plain t -> plain (sign s ++ t).
Proof. intros Ht. destruct s; [|done]. constructor; [vm_compute; discriminate|done]. Qed.

Lemma plain_fmt d x : plain (fmt_fixed d x).
Proof.
  destruct x as [s|s| |s m e]; cbn [fmt_fixed].
  - apply plain_sign, plain_decimal. lia.
  - apply plain_sign. repeat constructor; vm_compute; discriminate.
  - repeat constructor; vm_compute; discriminate.
  - apply plain_sign, plain_decimal. case_if; [|apply div_half_even_nonneg]; try (apply Z.pow_pos_nonneg; lia); lia.
Qed.

(** ** Reading a file of two records *)

Definition csv_column (column : str) (text : str) : option str :=
  match split_char c_lf text with
  | h :: r :: _ =>
      '(i, _) ← list_find (fun s => s = column) (split_char c_comma h);
      split_char c_comma r !! i
  | _ => None
  end.

Lemma join_plain sep ws : Forall plain ws -> c_dash <= sep \/ sep = c_comma ->
  forall c, c < c_dash -> c <> c_comma -> no_char (Z.eqb c) (join sep ws).
Proof.
  intros Hws Hsep c Hc Hne. induction Hws as [|w ws Hw Hws IH]; [constructor|].
  cbn [join]. destruct ws; [by apply plain_no_char|]. apply Forall_app_2; [by apply plain_no_char|].
  constructor; [bool_to_prop; lia|exact IH].
Qed.

Lemma csv_split hs rs : Forall plain hs -> Forall plain rs -> hs <> [] -> rs <> [] ->
  split_char c_lf (csv_line hs ++ csv_line rs) = [join c_comma hs; join c_comma rs; []] /\
  split_char c_comma (join c_comma hs) = hs /\ split_char c_comma (join c_comma rs) = rs.
Proof.
  intros Hh Hr Nh Nr. unfold csv_line. rewrite <- app_assoc. cbn [app].
  assert (forall ws, Forall plain ws -> no_char (Z.eqb c_lf) (join c_comma ws)) as Hlf.
  { intros ws Hws. apply join_plain; [done|by right|done|done]. }
  assert (forall ws, Forall plain ws -> Forall (no_char (Z.eqb c_comma)) ws) as Hcm.
  { intros ws Hws. eapply Forall_impl; [exact Hws|]. intros w Hw. by apply plain_no_char. }
  split; [|split; apply split_join; auto].
  unfold split_char. rewrite !split_by_app by (auto || done). done.
Qed.

(** ** The governor *)

Lemma pin_other writable paths fs p : p ∉ paths ->
  (pin_performance writable paths fs).1 !! p = fs !! p /\ p ∉ (pin_performance writable paths fs).2.*1.
Proof.
  revert fs. induction paths as [|q paths IH]; intros fs Hp; cbn [pin_performance]; [split; [done|apply not_elem_of_nil]|].
  apply not_elem_of_cons in Hp as [Hne Hp]. destruct (fs !! q) as [prev|] eqn:E; [|by apply IH].
  destruct (negb _ && writable q); [|by apply IH].
  specialize (IH (<[q := performance]> fs) Hp). destruct (pin_performance writable paths (<[q := performance]> fs)) as [fs' saved]. cbn [fst snd fmap list_fmap] in *.
  rewrite lookup_insert_ne in IH by done. split; [apply IH|]. apply not_elem_of_cons. split; [done|apply IH].
Qed.

Lemma restore_other writable saved fs p : p ∉ saved.*1 -> restore writable saved fs !! p = fs !! p.
Proof.
  revert fs. induction saved as [|[q v] saved IH]; intros fs Hp; [done|]. cbn [fmap list_fmap fst restore] in Hp |- *.
  apply not_elem_of_cons in Hp as [Hne Hp]. rewrite IH by done. case_if; [|done]. by apply lookup_insert_ne.
Qed.

Lemma restore_agree writable saved fs1 fs2 p : fs1 !! p = fs2 !! p ->
  restore writable saved fs1 !! p = restore writable saved fs2 !! p.
Proof.
  revert fs1 fs2. induction saved as [|[q v] saved IH]; intros fs1 fs2 He; [done|]. cbn [restore]. apply IH. case_if; [|done].
  destruct (decide (p = q)) as [->|Hne]; [by rewrite !lookup_insert_eq|by rewrite !lookup_insert_ne].
Qed.

Lemma str_eqb_spec a b : str_eqb a b = true <-> a = b.
Proof. unfold str_eqb. apply bool_decide_eq_true. Qed.

(** ** Theorems *)

(** The CSV file: reading it back by the names of its first line gives, for each of
    the fourteen integer columns, the value of the snapshot with that name, and for the
    three others its decimal rendering. *)
Theorem csv_columns (snap : StatsSnapshot) :
  let ints := [(lit "queries_sent", queries_sent snap); (lit "queries_completed", queries_completed snap);
    (lit "queries_lost", queries_lost snap); (lit "rcode_noerror", s_rcode_noerror snap);
    (lit "rcode_nxdomain", s_rcode_nxdomain snap); (lit "rcode_servfail", s_rcode_servfail snap);
    (lit "rcode_refused", s_rcode_refused snap); (lit "rcode_other", s_rcode_other snap);
    (lit "min_us", min_us snap); (lit "p50_us", p50_us snap); (lit "p95_us", p95_us snap);
    (lit "p99_us", p99_us snap); (lit "p999_us", p999_us snap); (lit "max_us", max_us snap)] in
  Forall (fun e => in_u 64 e.2) ints ->
  Forall (fun e => (csv_column e.1 (write_csv snap) ≫= parse_u 64) = Some e.2) ints /\
  csv_column (lit "run_time_s") (write_csv snap) = Some (fmt_fixed 3 (run_time_s snap)) /\
  csv_column (lit "avg_qps") (write_csv snap) = Some (fmt_fixed 0 (avg_qps snap)) /\
  csv_column (lit "avg_us") (write_csv snap) = Some (fmt_fixed 1 (avg_us snap)).
Proof.
  intros ints Hr. assert (Forall (fun e => plain (display_u e.2)) ints) as Hp.
  { eapply Forall_impl; [exact Hr|]. intros e He. apply plain_display. apply He. }
  unfold ints in Hp. repeat (apply Forall_cons in Hp as [? Hp]). cbn [snd] in *.
  assert (Forall plain (csv_record snap)) as Hrec by (unfold csv_record; repeat (apply Forall_cons; split; [done || apply plain_fmt|]); constructor).
  assert (Forall plain csv_header) as Hh by (apply Forall_fmap; repeat (apply Forall_cons; split; [repeat constructor; vm_compute; discriminate|]); constructor).
  destruct (csv_split csv_header (csv_record snap) Hh Hrec) as (E1 & E2 & E3); [done|done|].
  assert (forall column, csv_column column (write_csv snap) =
    '(i, _) ← list_find (fun s => s = column) csv_header; csv_record snap !! i) as Hcol.
  { intros column. unfold csv_column, write_csv. by rewrite E1, E2, E3. }
  split; [|by rewrite !Hcol].
  eapply Forall_impl; [|intros e He; exact He]. unfold ints in *.
  repeat (apply Forall_cons in Hr as [? Hr]). cbn [snd] in *.
  repeat (apply Forall_cons; split; [rewrite Hcol; by apply (parse_display 64)|]). constructor.
Qed.

(** The governor guard, over distinct files: while it is held every file that can be
    written reads [performance] but for surrounding blanks, and none that cannot is
    changed; when it is dropped every file has its old content, or that content
    without surrounding blanks. *)
Theorem governor_restored (writable : str -> bool) (paths : list str) (fs : governors) : NoDup paths ->
  let '(fs', saved) := pin_performance writable paths fs in
  (forall p prev, p ∈ paths -> fs !! p = Some prev -> writable p = true ->
     exists v, fs' !! p = Some v /\ (v = performance \/ trim v = performance)) /\
  (forall p, writable p = false \/ p ∉ paths -> fs' !! p = fs !! p) /\
  (forall p, restore writable saved fs' !! p = fs !! p \/
     exists prev, fs !! p = Some prev /\ restore writable saved fs' !! p = Some (trim prev)).
Proof.
  revert fs. induction paths as [|q paths IH]; intros fs Hnd; cbn [pin_performance].
  { split_and!; [intros p prev Hp; by apply not_elem_of_nil in Hp|done|by left]. }
  apply NoDup_cons in Hnd as [Hq Hnd]. destruct (fs !! q) as [prev|] eqn:E.
  2: { specialize (IH fs Hnd). destruct (pin_performance writable paths fs) as [fs' saved].
       destruct IH as (I1 & I2 & I3). split_and!; [| |done].
       - intros p prev Hp%elem_of_cons Hpr Hw. destruct Hp as [->|Hp]; [congruence|by eapply I1].
       - intros p [Hw|Hp]; apply I2; [by left|right]. by apply not_elem_of_cons in Hp as [_ Hp]. }
  destruct (negb (str_eqb (trim prev) performance) && writable q) eqn:Eb.
  - apply andb_true_iff in Eb as [_ Hw]. pose proof (pin_other writable paths (<[q := performance]> fs) q Hq) as [Ho1 Ho2].
    specialize (IH (<[q := performance]> fs) Hnd). destruct (pin_performance writable paths _) as [fs' saved].
    cbn [fst snd] in Ho1, Ho2. rewrite lookup_insert_eq in Ho1. destruct IH as (I1 & I2 & I3). split_and!.
    + intros p pr Hp%elem_of_cons Hpr Hwp. destruct (decide (p = q)) as [->|Hne]; [by exists performance; auto|].
      destruct Hp as [->|Hp]; [done|]. eapply I1; [done|by rewrite lookup_insert_ne|done].
    + intros p Hp. destruct (decide (p = q)) as [->|Hne].
      { destruct Hp as [Hp|Hp]; [congruence|]. by apply not_elem_of_cons in Hp as [? _]. }
      rewrite I2; [by apply lookup_insert_ne|]. destruct Hp as [Hp|Hp]; [by left|right]. by apply not_elem_of_cons in Hp as [_ Hp].
    + intros p. cbn [restore]. rewrite Hw.
      destruct (decide (p = q)) as [->|Hne].
      * right. exists prev. split; [done|]. rewrite restore_other by done. by rewrite lookup_insert_eq.
      * rewrite (restore_agree writable saved (<[q := trim prev]> fs') fs') by (by apply lookup_insert_ne).
        specialize (I3 p). by rewrite lookup_insert_ne in I3.
  - specialize (IH fs Hnd). pose proof (pin_other writable paths fs q Hq) as [Ho1 _].
    destruct (pin_performance writable paths fs) as [fs' saved]. cbn in Ho1.
    destruct IH as (I1 & I2 & I3). split_and!; [| |done].
    + intros p pr Hp%elem_of_cons Hpr Hw. destruct (decide (p = q)) as [->|Hne].
      * exists prev. rewrite Ho1. split; [done|]. right. rewrite Hw, andb_true_r in Eb.
        apply negb_false_iff in Eb. by apply str_eqb_spec.
      * destruct Hp as [->|Hp]; [done|]. by eapply I1.
    + intros p [Hp|Hp]; apply I2; [by left|right]. by apply not_elem_of_cons in Hp as [_ Hp].
Qed.

(** Comparison: the second run differs from the first in its server only (and has no
    dashboard).  The list of servers is not changed with it, so both runs read the
    receive counters, and with them the rate they report as authoritative, from the
    NICs of the first run's servers, whatever NIC the second server is behind. *)
Theorem compare_same_nics iface_for parent c second : servers c <> [] ->
  let c2 := second_config c second in
  server c2 = second /\ initial_qps_per_worker c2 = initial_qps_per_worker c /\
  return_ifaces iface_for parent c2 = return_ifaces iface_for parent c /\
  return_ifaces iface_for parent c = add_ifaces iface_for parent (servers c) [].
Proof.
  intros Hs c2. split; [reflexivity|]. split; [reflexivity|]. unfold return_ifaces, c2.
  cbn [second_config servers server]. by destruct (servers c).
Qed.

(** The history of the dashboard never has more than sixty entries. *)
Lemma tui_history_bounded frames t : (length (qps_history t) <= 60)%nat ->
  (length (qps_history (tui_loop frames t).1) <= 60)%nat.
Proof.
  revert t. induction frames as [|[completed k] frames IH]; intros t Ht; [done|]. cbn [tui_loop].
  assert (length (qps_history (tui_frame completed t)) <= 60)%nat as Hf.
  { unfold tui_frame. cbn [qps_history]. rewrite length_app. cbn [length]. case_if; bool_to_prop; rewrite ?length_drop; lia. }
  destruct k as [[]|]; cbn [tui_key]; [done|apply IH; cbn [qps_history]; done|apply IH; cbn [qps_history length]; lia|by apply IH..].
Qed.

(** The entries of a history are the answers per frame, however long a frame is: over
    the first sixty frames without a reset they add up to the answers so far. *)
Lemma tui_history_sum frames t : (length (qps_history t) + length frames <= 60)%nat ->
  Forall (fun f => f.2 = None) frames -> Sorted.StronglySorted Z.le (last_completed t :: frames.*1) ->
  zsum (fun d => d) (qps_history (tui_loop frames t).1) =
  zsum (fun d => d) (qps_history t) + (last_completed (tui_loop frames t).1 - last_completed t).
Proof.
  revert t. induction frames as [|[completed k] frames IH]; intros t Hl Hk Hs; cbn [tui_loop]; [cbn; lia|].
  apply Forall_cons in Hk as [Hk Hks]. cbn in Hk. subst k. cbn [tui_key]. cbn [length] in Hl.
  apply Sorted.StronglySorted_inv in Hs as [Hs Hle]. apply Forall_cons in Hle as [Hle _]. cbn in Hle.
  assert ((60 <=? Z.of_nat (length (qps_history t))) = false) as E by (bool_to_prop; lia).
  rewrite IH; [|unfold tui_frame; rewrite E; cbn [qps_history]; rewrite length_app; cbn [length]; lia|done|done].
  unfold tui_frame. rewrite E. cbn [qps_history last_completed]. rewrite zsum_app. cbn [zsum foldr]. unfold sat_sub. lia.
Qed.

(** ** Witnesses *)

Definition ex_snap : StatsSnapshot :=
  mkSnapshot 1000 990 10 900 80 5 3 2 (f64_lit 30 1) (f64_lit 333 10) (f64_lit 33 1) 40 (f64_lit 1025 10) 95 210 480 900 1200
    f64_zero 0 None (Some (f64_lit 14000000 1)) (Some (f64_lit 60 1)) (Some 10000) None.

Lemma csv_columns_witness :
  (csv_column (lit "p99_us") (write_csv ex_snap) ≫= parse_u 64) = Some 480 /\
  csv_column (lit "avg_us") (write_csv ex_snap) = Some (lit "102.5").
Proof.
  destruct (csv_columns ex_snap) as (Hi & _ & _ & Ha).
  - repeat (apply Forall_cons; split; [vm_compute; split; [discriminate|reflexivity]|]). constructor.
  - split; [|exact Ha]. rewrite Forall_forall in Hi. apply (Hi (lit "p99_us", 480)).
    apply list_elem_of_lookup. exists 11%nat. reflexivity.
Defined.

Definition ex_governors : governors := {[ lit "cpu0" := lit "powersave" ++ [c_lf]; lit "cpu1" := lit "performance" ++ [c_lf] ]}.

Lemma governor_restored_witness :
  let '(fs', saved) := pin_performance (fun _ => true) [lit "cpu0"; lit "cpu1"] ex_governors in
  (exists v, fs' !! lit "cpu0" = Some v /\ (v = performance \/ trim v = performance)) /\
  saved = [(lit "cpu0", lit "powersave")].
Proof.
  assert (NoDup [lit "cpu0"; lit "cpu1"]) as Hn.
  { apply NoDup_cons. split; [|apply NoDup_singleton]. rewrite list_elem_of_singleton. vm_compute. discriminate. }
  pose proof (governor_restored (fun _ => true) _ ex_governors Hn) as Hg.
  destruct (pin_performance (fun _ => true) [lit "cpu0"; lit "cpu1"] ex_governors) as [fs' saved] eqn:E.
  split.
  - destruct Hg as (H1 & _). apply (H1 (lit "cpu0") (lit "powersave" ++ [c_lf])); [by left|reflexivity|reflexivity].
  - assert (saved = (pin_performance (fun _ => true) [lit "cpu0"; lit "cpu1"] ex_governors).2) as -> by (by rewrite E).
    vm_compute. reflexivity.
Defined.

Lemma compare_same_nics_witness :
  let c := mkConfig (V4 1) [V4 1] 53 None 8 0 30 3000 4 true false 1 false false [] 1 (Some (V4 2)) Udp false None false false true 100 false in
  return_ifaces (fun a => match a with V4 1 => lit "eth0" | _ => lit "eth1" end) (fun _ => None) (second_config c (V4 2)) = [lit "eth0"].
Proof.
  intros c.
  destruct (compare_same_nics (fun a => match a with V4 1 => lit "eth0" | _ => lit "eth1" end) (fun _ => None) c (V4 2))
    as (_ & _ & E & _); [discriminate|]. exact E.
Defined.

(** 60-byte replies on 10 Gb/s: 14.88 million per second fill the link. *)
Example ten_gigabit : match line_rate ex_snap with
  | Some l => fmt_fixed 0 (line_rate_pps l) = lit "14880952" /\ fmt_fixed 1 (lr_pct l) = lit "94.1" /\ wire_bound l = true
  | None => False end.
Proof. vm_compute. auto. Qed.

Example format_qps_examples : format_qps 950 = lit "950" /\ format_qps 12345 = lit "12.3K" /\ format_qps 14880952 = lit "14.88M".
Proof. vm_compute. auto. Qed.

End Output.
