(* ===== verification/Lifecycle.v ===== *)
(** * The life of a run

    Models the end of [run_with_shutdown] ([src/engine/mod.rs]: the warm-up, the
    [select!], the joins) with the tasks that share the shutdown flag with it: the
    memory guard ([src/stats/oom_guard.rs]), the dashboard ([run_tui] of
    [src/output/tui.rs]), the ramp task and the workers.

    A state has the flag, the notification of the ramp task, the clock and where each
    task is; [act] is what one event does, or [None] when the task it belongs to does
    not react to it there.  A run is a list of events in any order.  Of a worker only
    its end is modelled here: it leaves when it sees the flag, or early when its
    socket fails.

    The theorems: which states a run can return from without a signal from the
    user, and how long a run of fixed duration lasts, whatever sets the flag. *)

From Stdlib Require Import ZArith Lia Bool String.
From stdpp Require Import base numbers option gmap list.
From S2P Require Import Prelude Float64 RustStr Ramp Stats Config Engine Autodetect EngineRun Output.

Open Scope Z_scope.

Module Life.

(** ** State *)

(** [run_with_shutdown] after the workers have been spawned. *)
Inductive engine : Set :=
| Warming
| Selecting (start : Z)
| Joining (start : Z)
| Returned (elapsed : Z).

(** The ramp task: in which sleep it is, and until when. *)
Inductive ramp_at : Type :=
| Absent
| Priming (until : Z)
| Settling (until : Z) (s : ramp_state)
| Measuring (until : Z) (s : ramp_state)
| Over.

Record life : Type := mkLife {
  now : Z;                       (* seconds *)
  shutdown : bool;
  eng : engine;
  rmp : ramp_at;
  notified : bool;               (* the permit of [ramp_done] *)
  rate : Z;                      (* [shared_qps] *)
  peak : Z;                      (* [ramp_peak] *)
  guard : bool;                  (* the memory guard runs *)
  dash : option Output.tui;      (* the dashboard, while it runs *)
  workers : nat
}.

Definition set_now (t : Z) (s : life) : life :=
  mkLife t (shutdown s) (eng s) (rmp s) (notified s) (rate s) (peak s) (guard s) (dash s) (workers s).
Definition set_flag (b : bool) (s : life) : life :=
  mkLife (now s) b (eng s) (rmp s) (notified s) (rate s) (peak s) (guard s) (dash s) (workers s).
Definition set_eng (e : engine) (s : life) : life :=
  mkLife (now s) (shutdown s) e (rmp s) (notified s) (rate s) (peak s) (guard s) (dash s) (workers s).
Definition set_rmp (r : ramp_at) (s : life) : life :=
  mkLife (now s) (shutdown s) (eng s) r (notified s) (rate s) (peak s) (guard s) (dash s) (workers s).
Definition set_notified (b : bool) (s : life) : life :=
  mkLife (now s) (shutdown s) (eng s) (rmp s) b (rate s) (peak s) (guard s) (dash s) (workers s).
Definition set_rate (q : Z) (s : life) : life :=
  mkLife (now s) (shutdown s) (eng s) (rmp s) (notified s) q (peak s) (guard s) (dash s) (workers s).
Definition set_guard (b : bool) (s : life) : life :=
  mkLife (now s) (shutdown s) (eng s) (rmp s) (notified s) (rate s) (peak s) b (dash s) (workers s).
Definition set_dash (d : option Output.tui) (s : life) : life :=
  mkLife (now s) (shutdown s) (eng s) (rmp s) (notified s) (rate s) (peak s) (guard s) d (workers s).
Definition set_workers (n : nat) (s : life) : life :=
  mkLife (now s) (shutdown s) (eng s) (rmp s) (notified s) (rate s) (peak s) (guard s) (dash s) n.
Definition set_peak (p : Z) (s : life) : life :=
  mkLife (now s) (shutdown s) (eng s) (rmp s) (notified s) (rate s) p (guard s) (dash s) (workers s).

(** ** Operations *)

(** One tick of the memory guard, with the text of [/proc/meminfo]. *)
Definition guard_tick (meminfo : option str) (s : life) : life :=
  if shutdown s then set_guard false s
  else
    let '(total, avail) := read_proc_meminfo_total_and_avail_kb meminfo in
    match oom_check total avail with
    | OomStop => set_guard false (set_flag true s)
    | OomSkip | OomWarn | OomOk => s
    end.

(** One turn of the dashboard: the answers so far, and the key pressed, if any;
    [None] when the terminal gives an error. *)
Definition run_tui (completed : Z) (r : option (option Output.key)) (t : Output.tui) (s : life) : life :=
  if shutdown s then set_dash None s
  else match r with
       | None => set_dash None (set_flag true s)
       | Some k =>
           let '(t, go) := Output.tui_key completed k (Output.tui_frame completed t) in
           if go then set_dash (Some t) s else set_dash None (set_flag true s)
       end.

(** [DNSMARK_RAMP_PRIME] and [DNSMARK_WARMUP]: a number of seconds, 5 by default. *)
Definition seconds (var : option str) : Z := default 5 (v ← var; parse_u 64 v).

Section Run.
Context (c : Config) (prime_var warmup_var : option str) (use_xdp terminal : bool).

(** A step of the ramp begins: the rate is published and given a second to settle. *)
Definition settle (r : ramp_state) (s : life) : life :=
  set_rmp (Settling (now s + 1) r) (set_rate (per_worker (current_qps (ctrl r)) (concurrent c)) s).

(** The ramp task wakes up from its sleep; [w] is what it reads. *)
Definition ramp_wake (w : window) (s : life) : option life :=
  match rmp s with
  | Priming until =>
      if until <=? now s then
        Some (if shutdown s then set_rmp Over s else settle (mkRampState (new use_xdp) 0 0) s)
      else None
  | Settling until r =>
      if until <=? now s then
        Some (if shutdown s then set_rmp Over s else set_rmp (Measuring (now s + 4) r) s)
      else None
  | Measuring until r =>
      if until <=? now s then
        if shutdown s then Some (set_rmp Over s)
        else
          let '(r, new_qps, saturated) := ramp_step w r in
          Some (if saturated then set_rmp Over (set_notified true (set_flag true (set_peak (peak_served r) s)))
                else settle r (set_rate (per_worker new_qps (concurrent c)) s))
      else None
  | Absent | Over => None
  end.

(** The ramp task when it is spawned. *)
Definition ramp_start (s : life) : life :=
  if ramp c then
    let r := mkRampState (new use_xdp) 0 0 in
    if seconds prime_var >? 0
    then set_rmp (Priming (now s + seconds prime_var))
           (set_rate (per_worker (current_qps (ctrl r)) (concurrent c)) s)
    else settle r s
  else s.

(** The engine waits: for the warm-up, in the [select!], for the tasks. *)
Definition joined (s : life) : bool :=
  (workers s =? 0)%nat && (match rmp s with Absent | Over => true | _ => false end) &&
  match dash s with None => true | Some _ => false end.

Definition leave (start : Z) (s : life) : life := set_eng (Joining start) (set_flag true s).

Definition engine_wake (s : life) : option life :=
  match eng s with
  | Warming =>
      let wait := if warmup_reset c warmup_var then seconds warmup_var else 0 in
      if wait <=? now s then Some (set_eng (Selecting (now s)) s) else None
  | Selecting start =>
      if ramp c
      then if notified s then Some (leave start (set_notified false s)) else None
      else if start + duration_secs c <=? now s then Some (leave start s) else None
  | Joining start => if joined s then Some (set_eng (Returned (now s - start)) s) else None
  | Returned _ => None
  end.

(** ** Events *)

Inductive event : Type :=
| Tick (dt : Z)                                     (* time passes *)
| Memory (meminfo : option str)                     (* the guard's interval *)
| Frame (completed : Z) (r : option (option Output.key))
| RampWake (w : window)
| WorkerEnds (failed : bool)
| EngineWake
| Interrupt.                                        (* SIGINT, once [ctrl_c] listens *)

Definition act (ev : event) (s : life) : option life :=
  match ev with
  | Tick dt => if 0 <=? dt then Some (set_now (now s + dt) s) else None
  | Memory meminfo => if guard s then Some (guard_tick meminfo s) else None
  | Frame completed r => t ← dash s; Some (run_tui completed r t s)
  | RampWake w => ramp_wake w s
  | WorkerEnds failed =>
      match workers s with
      | S n => if failed || shutdown s then Some (set_workers n s) else None
      | O => None
      end
  | EngineWake => engine_wake s
  | Interrupt => match eng s with Selecting start => Some (leave start s) | _ => None end
  end.

Fixpoint run (evs : list event) (s : life) : option life :=
  match evs with
  | [] => Some s
  | ev :: evs' => s' ← act ev s; run evs' s'
  end.

(** The tasks have been spawned, at time 0. *)
Definition life_init (n : nat) : life :=
  ramp_start
    (mkLife 0 false Warming Absent false (initial_qps_per_worker c) 0 true
       (if negb (no_tui c) && negb (quiet c) && terminal then Some Output.tui_new else None) n).

(** ** What is said of a run *)

Definition uninterrupted (ev : event) : bool := match ev with Interrupt => false | _ => true end.

Definition returned (s : life) : bool := match eng s with Returned _ => true | _ => false end.

(** The engine has not left the [select!]. *)
Definition waiting (s : life) : bool := match eng s with Warming | Selecting _ => true | _ => false end.

(** The flag is set, but not by the ramp task the engine waits for. *)
Definition stranded (s : life) : bool := ramp c && waiting s && shutdown s && negb (notified s).

(** The run can still return by itself. *)
Definition can_return (s : life) : Prop :=
  exists evs s', Forall (fun ev => uninterrupted ev = true) evs /\ run evs s = Some s' /\ returned s' = true.

(** ** Lemmas *)

Definition ramp_fine (r : ramp_at) : Prop :=
  match r with
  | Settling _ r | Measuring _ r => ramp_ready (ctrl r)
  | _ => True
  end.

(** What holds in every state of a run. *)
Record sound (s : life) : Prop := {
  s_now : 0 <= now s;
  s_absent : ramp c = negb (match rmp s with Absent => true | _ => false end);
  s_fine : ramp_fine (rmp s);
  s_over : rmp s = Over -> shutdown s = true;
  s_notified : notified s = true -> ramp c = true /\ shutdown s = true;
  s_left : waiting s = false -> shutdown s = true;
  s_returned : returned s = true -> workers s = 0%nat /\ dash s = None /\ (rmp s = Absent \/ rmp s = Over)
}.

(** The invariant of a state given field by field. *)
Ltac life :=
  constructor; unfold settle, leave, returned, waiting in *; cbn in *; intros;
  repeat case_match; subst; cbn in *; try (done || lia || intuition congruence).

Lemma settle_sound r s : ramp c = true -> ramp_ready (ctrl r) -> returned s = false -> sound s -> sound (settle r s).
Proof. intros Hc Hr Hn []. destruct s as [t f e p nt q pk g d n]. life. Qed.

Lemma init_sound n : sound (life_init n).
Proof. unfold life_init, ramp_start. destruct (ramp c) eqn:Hc; [case_if|]; life. apply new_ready. Qed.

Lemma over_sound s : ramp c = true -> shutdown s = true -> sound s -> sound (set_rmp Over s).
Proof. intros Hc Hs []. destruct s as [t f e p nt q pk g d n]. life. Qed.

Lemma joined_spec s : joined s = true -> workers s = 0%nat /\ dash s = None /\ (rmp s = Absent \/ rmp s = Over).
Proof.
  unfold joined. intros Hj. apply andb_prop in Hj as [Hj Hd]. apply andb_prop in Hj as [Hw Hr].
  apply Nat.eqb_eq in Hw. destruct (dash s), (rmp s); intuition done.
Qed.

Lemma flag_sound s : returned s = false -> sound s -> sound (set_flag true s).
Proof. intros Hn []. destruct s as [t f e p nt q pk g d n]. life. Qed.

Lemma ramp_wake_sound w s s' : ramp_wake w s = Some s' -> sound s -> sound s'.
Proof.
  intros He Hs. pose proof Hs as []. destruct s as [t f e p nt q pk g d n]. unfold ramp_wake in He.
  cbn [rmp now shutdown] in *. destruct p as [|until|until r|until r|]; cbn iota in He; try discriminate He;
    (destruct (until <=? t); [|discriminate He]).
  - destruct f; injection He as <-; [by apply over_sound|].
    apply settle_sound; [done|apply new_ready| |done]. destruct (returned _); [|done]. intuition done.
  - destruct f; injection He as <-; [by apply over_sound|]. life.
  - destruct f; [injection He as <-; by apply over_sound|]. destruct (ramp_step w r) as [[r' q'] sat] eqn:Est.
    destruct (ramp_step_fields _ _ _ _ _ Est) as (_ & _ & m & Hadv).
    pose proof (advance_inv (ctrl r) (served_qps w) (w_p50 w) s_fine0) as Hinv. rewrite Hadv in Hinv.
    destruct sat; injection He as <-; [life|]. destruct Hinv as [_ Hinv]. life.
Qed.

Lemma act_sound ev s s' : act ev s = Some s' -> sound s -> sound s'.
Proof.
  intros He Hs. pose proof Hs as []. destruct s as [t f e p nt q pk g d n]. destruct ev as [dt|m|k r|w|b| |].
  - unfold act in He. destruct (0 <=? dt) eqn:E; [|done]. injection He as <-. bool_to_prop. life.
  - unfold act in He. cbn [guard] in He. destruct g; [|done]. injection He as <-. unfold guard_tick. cbn [shutdown]. destruct f; [life|].
    destruct (read_proc_meminfo_total_and_avail_kb m) as [x y]. destruct (oom_check x y); [done|life|done|done].
  - unfold act in He. cbn [dash] in He. destruct d as [u|]; [|done]. cbn [mbind option_bind] in He. injection He as <-. unfold run_tui. cbn [shutdown]. destruct f; [life|].
    destruct r as [k'|]; [|life]. destruct (Output.tui_key _ _ _) as [u' go]. destruct go; life.
  - by eapply ramp_wake_sound.
  - unfold act in He. cbn [workers shutdown] in He. destruct n as [|n]; [done|]. destruct (b || f); [|done]. injection He as <-. life.
  - unfold act, engine_wake in He. cbn [eng now notified] in He. destruct e as [|st|st|el].
    + destruct (_ <=? _); [|done]. injection He as <-. life.
    + destruct (ramp c) eqn:Hc, nt, (st + duration_secs c <=? t); try discriminate He; injection He as <-; life.
    + destruct (joined _) eqn:Hj; [|done]. injection He as <-. apply joined_spec in Hj. life.
    + done.
  - unfold act in He. cbn [eng] in He. destruct e; try discriminate He. injection He as <-. life.
Qed.

Lemma run_sound evs s s' : run evs s = Some s' -> sound s -> sound s'.
Proof.
  revert s. induction evs as [|ev evs IH]; intros s He Hs; cbn [run] in He; [by injection He as <-|].
  destruct (act ev s) as [s1|] eqn:E; [|done]. apply (IH s1 He). by eapply act_sound.
Qed.

Lemma returns_by ev s s' : act ev s = Some s' -> uninterrupted ev = true -> can_return s' -> can_return s.
Proof.
  intros He Hu (evs & s2 & Hf & Hr & Ht). exists (ev :: evs), s2. split; [by constructor|]. split; [|done].
  cbn [run]. by rewrite He.
Qed.

Lemma returns_later dt s : 0 <= dt -> can_return (set_now (now s + dt) s) -> can_return s.
Proof. intros Hd. apply (returns_by (Tick dt)); [|done]. cbn [act]. by rewrite (proj2 (Z.leb_le 0 dt) Hd). Qed.

(** Once the engine waits for the tasks, they can all end: the workers and the
    dashboard see the flag, and so does the ramp task when it wakes up. *)
Lemma workers_leave s : shutdown s = true -> can_return (set_workers 0 s) -> can_return s.
Proof.
  intros Hf Hr. destruct s as [t f e p nt q pk g d n]. cbn in Hf, Hr. subst f.
  induction n as [|n IH]; [done|]. eapply (returns_by (WorkerEnds false)); [reflexivity|done|exact (IH Hr)].
Qed.

Lemma dashboard_leaves s : shutdown s = true -> can_return (set_dash None s) -> can_return s.
Proof.
  intros Hf Hr. destruct (dash s) as [u|] eqn:Ed.
  - eapply (returns_by (Frame 0 None)); [|done|exact Hr]. cbn [act]. rewrite Ed. cbn. unfold run_tui. by rewrite Hf.
  - destruct s; cbn in *. by subst.
Qed.

(** A sleep of the ramp task ends. *)
Definition wake_time (s : life) : Z :=
  match rmp s with
  | Priming until | Settling until _ | Measuring until _ => until
  | Absent | Over => now s
  end.

Lemma returns_awake s : can_return (set_now (Z.max (now s) (wake_time s)) s) -> can_return s.
Proof.
  intros Hr. apply (returns_later (Z.max (now s) (wake_time s) - now s)); [lia|].
  by replace (now s + (Z.max (now s) (wake_time s) - now s)) with (Z.max (now s) (wake_time s)) by lia.
Qed.

Definition some_window : window := mkWindow false false 0 0 0 None None.

Lemma ramp_leaves s : shutdown s = true -> rmp s <> Absent ->
  (forall t, can_return (set_now t (set_rmp Over s))) -> can_return s.
Proof.
  intros Hf Ha Hr. destruct s as [t f e p nt q pk g d n]. cbn in Hf. subst f.
  destruct p as [|until|until r|until r|]; [done| | | |exact (Hr t)];
    (apply returns_awake; cbn [wake_time rmp now set_now];
     eapply (returns_by (RampWake some_window)); [|done|apply (Hr (Z.max t until))];
     cbn [act]; unfold ramp_wake; cbn [rmp now shutdown set_now]; by rewrite (proj2 (Z.leb_le until (Z.max t until))) by lia).
Qed.

Lemma joining_returns s start : eng s = Joining start -> sound s -> can_return s.
Proof.
  intros He Hs. assert (Hf : shutdown s = true) by (apply (s_left _ Hs); unfold waiting; by rewrite He).
  apply workers_leave; [done|]. apply dashboard_leaves; [done|].
  assert (Hend : forall s', eng s' = Joining start -> workers s' = 0%nat -> dash s' = None ->
                   (rmp s' = Absent \/ rmp s' = Over) -> can_return s').
  { intros s' E1 E2 E3 E4. eapply (returns_by EngineWake); [|done|].
    - cbn [act]. unfold engine_wake, joined. rewrite E1, E2, E3. by destruct E4 as [-> | ->].
    - exists [], (set_eng (Returned (now s' - start)) s'). split; [constructor|done]. }
  destruct (rmp s) as [|until|until r|until r|] eqn:Ep;
    [apply Hend; cbn; auto|apply ramp_leaves; cbn; rewrite ?Ep; [done|done|intros t; apply Hend; cbn; auto]..].
Qed.

(** The engine that has been notified leaves, and the run ends. *)
Lemma notified_returns s : sound s -> ramp c = true -> waiting s = true -> notified s = true -> can_return s.
Proof.
  intros Hs Hc Hw Hn.
  assert (Hsel : forall s' start, sound s' -> eng s' = Selecting start -> notified s' = true -> can_return s').
  { intros s' start Hs' He Hn'. assert (Ha : act EngineWake s' = Some (leave start (set_notified false s'))).
    { cbn [act]. unfold engine_wake. by rewrite He, Hc, Hn'. }
    apply (returns_by _ _ _ Ha); [done|]. eapply joining_returns; [reflexivity|by eapply act_sound]. }
  destruct (eng s) as [|start| |] eqn:He; try (unfold waiting in Hw; by rewrite He in Hw); [|by eapply Hsel].
  assert (Ha : act EngineWake s = Some (set_eng (Selecting (now s)) s)).
  { cbn [act]. unfold engine_wake, warmup_reset. rewrite He, Hc. cbn [negb andb].
    by rewrite (proj2 (Z.leb_le 0 (now s)) (s_now _ Hs)). }
  apply (returns_by _ _ _ Ha); [done|]. eapply Hsel; [by eapply act_sound|done|done].
Qed.

(** What the ramp task does when it wakes up and the flag is not set. *)
Lemma wake_act w s : shutdown s = false -> wake_time s <= now s ->
  act (RampWake w) s =
    match rmp s with
    | Priming _ => Some (settle (mkRampState (new use_xdp) 0 0) s)
    | Settling _ r => Some (set_rmp (Measuring (now s + 4) r) s)
    | Measuring _ r =>
        let '(r, new_qps, saturated) := ramp_step w r in
        Some (if saturated then set_rmp Over (set_notified true (set_flag true (set_peak (peak_served r) s)))
              else settle r (set_rate (per_worker new_qps (concurrent c)) s))
    | Absent | Over => None
    end.
Proof.
  intros Hf Hw. cbn [act]. unfold ramp_wake, wake_time in *. rewrite Hf.
  destruct (rmp s); try done; by rewrite (proj2 (Z.leb_le _ _) Hw).
Qed.

(** The ramp left alone saturates: every window brings it closer. *)
Lemma ramp_saturates k s : sound s -> ramp c = true -> waiting s = true -> shutdown s = false ->
  match rmp s with
  | Settling _ r => (2 * steps_left (ctrl r) + 1 <= k)%nat
  | Measuring _ r => (2 * steps_left (ctrl r) <= k)%nat
  | _ => (2 * steps_left (new use_xdp) + 2 <= k)%nat
  end -> can_return s.
Proof.
  revert s. induction k as [|k IH]; intros s Hs Hc Hw Hf Hk.
  { destruct (rmp s) eqn:Er; try lia. pose proof (s_fine _ Hs) as Hr. rewrite Er in Hr. apply ready_steps_pos in Hr. lia. }
  apply returns_awake. set (s1 := set_now _ s). assert (Hs1 : sound s1) by (destruct Hs; destruct s; life).
  assert (Ha : forall s2, act (RampWake some_window) s1 = Some s2 -> sound s2 /\ (can_return s2 -> can_return s1)).
  { intros s2 Ha. split; [by eapply act_sound|]. by apply (returns_by _ _ _ Ha). }
  assert (Hf1 : shutdown s1 = false) by done.
  assert (Hw1 : wake_time s1 <= now s1) by (unfold s1, wake_time; cbn [now rmp set_now]; destruct (rmp s); lia).
  rewrite (wake_act _ _ Hf1 Hw1) in Ha. change (rmp s1) with (rmp s) in Ha.
  pose proof (s_fine _ Hs) as Hr. pose proof (s_absent _ Hs) as Hab. pose proof (s_over _ Hs) as Hov.
  destruct (rmp s) as [|until|until r|until r|] eqn:Er; cbn iota beta in Ha.
  - by rewrite Hc in Hab.
  - destruct (Ha _ eq_refl) as [Hs2 Hret]. apply Hret, IH; try done. cbn in Hk |- *. lia.
  - destruct (Ha _ eq_refl) as [Hs2 Hret]. apply Hret, IH; try done. cbn [rmp set_rmp]. lia.
  - destruct (ramp_step some_window r) as [[r' q] sat] eqn:Est. destruct (Ha _ eq_refl) as [Hs2 Hret].
    apply Hret. destruct sat; [by apply notified_returns|].
    destruct (ramp_step_fields _ _ _ _ _ Est) as (_ & _ & m & Hadv).
    pose proof (advance_inv (ctrl r) (served_qps some_window) (w_p50 some_window) Hr) as Hinv. rewrite Hadv in Hinv.
    destruct Hinv as [_ Hinv]. destruct (Hinv eq_refl). apply IH; try done. cbn [rmp settle set_rmp set_rate]. lia.
  - by rewrite Hov in Hf.
Qed.

(** A run of fixed duration: the clock is enough. *)
Lemma fixed_returns s : sound s -> ramp c = false -> waiting s = true -> can_return s.
Proof.
  intros Hs Hc Hw.
  assert (Hsel : forall s' start, sound s' -> eng s' = Selecting start -> can_return s').
  { intros s' start Hs' He. apply (returns_later (Z.max 0 (start + duration_secs c - now s'))); [lia|].
    set (s1 := set_now _ s'). assert (Hs1 : sound s1) by (destruct Hs'; destruct s'; life).
    assert (Ha : act EngineWake s1 = Some (leave start s1)).
    { cbn [act]. unfold engine_wake. change (eng s1) with (eng s'). rewrite He, Hc.
      rewrite (proj2 (Z.leb_le _ _)); [done|]. unfold s1. cbn [now set_now]. lia. }
    apply (returns_by _ _ _ Ha); [done|]. eapply joining_returns; [reflexivity|by eapply act_sound]. }
  destruct (eng s) as [|start| |] eqn:He; try (unfold waiting in Hw; by rewrite He in Hw); [|by eapply Hsel].
  set (wait := if warmup_reset c warmup_var then seconds warmup_var else 0).
  apply (returns_later (Z.max 0 (wait - now s))); [lia|].
  set (s1 := set_now _ s). assert (Hs1 : sound s1) by (destruct Hs; destruct s; life).
  assert (Ha : act EngineWake s1 = Some (set_eng (Selecting (now s1)) s1)).
  { cbn [act]. unfold engine_wake. change (eng s1) with (eng s). rewrite He. fold wait.
    rewrite (proj2 (Z.leb_le _ _)); [done|]. unfold s1. cbn [now set_now]. lia. }
  apply (returns_by _ _ _ Ha); [done|]. eapply Hsel; [by eapply act_sound|reflexivity].
Qed.

Lemma stranded_eq s s' : eng s' = eng s -> shutdown s' = shutdown s -> notified s' = notified s ->
  stranded s' = stranded s.
Proof. intros E1 E2 E3. unfold stranded, waiting. by rewrite E1, E2, E3. Qed.

(** Nothing but an interrupt helps a stranded run. *)
Lemma stranded_act ev s s' : uninterrupted ev = true -> act ev s = Some s' -> stranded s = true -> stranded s' = true.
Proof.
  intros Hu He Hs. pose proof Hs as Hp. unfold stranded in Hp. apply andb_prop in Hp as [Hp Hn].
  apply andb_prop in Hp as [Hp Hf]. apply andb_prop in Hp as [Hc Hw]. apply negb_true_iff in Hn.
  destruct ev as [dt|m|k r|w|b| |]; cbn [act] in He.
  - destruct (0 <=? dt); [|done]. injection He as <-. by rewrite (stranded_eq s).
  - destruct (guard s); [|done]. injection He as <-. unfold guard_tick. rewrite Hf. by rewrite (stranded_eq s).
  - destruct (dash s) as [u|]; [|done]. injection He as <-. unfold run_tui. rewrite Hf. by rewrite (stranded_eq s).
  - assert (s' = set_rmp Over s) as ->; [|by rewrite (stranded_eq s)].
    unfold ramp_wake in He. rewrite Hf in He. destruct (rmp s); try done; destruct (_ <=? _); try done; by injection He as <-.
  - destruct (workers s); [done|]. destruct (b || shutdown s); [|done]. injection He as <-. by rewrite (stranded_eq s).
  - unfold engine_wake in He. rewrite Hc, Hn in He. unfold waiting in Hw. destruct (eng s); try done.
    destruct (_ <=? _); [|done]. injection He as <-. unfold stranded. cbn. by rewrite Hc, Hf, Hn.
  - done.
Qed.

Lemma stranded_stays evs s s' : Forall (fun ev => uninterrupted ev = true) evs -> run evs s = Some s' ->
  stranded s = true -> stranded s' = true.
Proof.
  intros Hf. revert s. induction Hf as [|ev evs Hev _ IH]; intros s He Hs; cbn [run] in He; [by injection He as <-|].
  destruct (act ev s) as [s1|] eqn:E; [|done]. apply (IH s1 He). by eapply stranded_act.
Qed.

(** The times of a run of fixed duration that is not interrupted. *)
Definition on_time (s : life) : Prop :=
  match eng s with
  | Warming => True
  | Selecting start => start <= now s
  | Joining start => start + duration_secs c <= now s
  | Returned elapsed => duration_secs c <= elapsed
  end.

Lemma on_time_eq s s' : eng s' = eng s -> now s' = now s -> on_time s -> on_time s'.
Proof. intros E1 E2. unfold on_time. by rewrite E1, E2. Qed.

Lemma act_on_time ev s s' : ramp c = false -> uninterrupted ev = true -> sound s -> act ev s = Some s' ->
  on_time s -> on_time s'.
Proof.
  intros Hc Hu Hs He Ht. destruct ev as [dt|m|k r|w|b| |]; cbn [act] in He.
  - destruct (0 <=? dt) eqn:E; [|done]. injection He as <-. bool_to_prop. unfold on_time in *. cbn. destruct (eng s); lia.
  - destruct (guard s); [|done]. injection He as <-. unfold guard_tick. destruct (shutdown s); [by eapply on_time_eq|].
    destruct (read_proc_meminfo_total_and_avail_kb m) as [x y]. destruct (oom_check x y); by eapply on_time_eq.
  - destruct (dash s) as [u|]; [|done]. injection He as <-. unfold run_tui. destruct (shutdown s); [by eapply on_time_eq|].
    destruct r as [k'|]; [|by eapply on_time_eq]. destruct (Output.tui_key _ _ _) as [u' []]; by eapply on_time_eq.
  - pose proof (s_absent _ Hs) as Ha. rewrite Hc in Ha. unfold ramp_wake in He. by destruct (rmp s).
  - destruct (workers s); [done|]. destruct (b || shutdown s); [|done]. injection He as <-. by eapply on_time_eq.
  - unfold engine_wake in He. rewrite Hc in He. unfold on_time in Ht. destruct (eng s) as [|st|st|el].
    + destruct (_ <=? _); [|done]. injection He as <-. cbn. lia.
    + destruct (_ <=? _) eqn:E; [|done]. injection He as <-. bool_to_prop. cbn. lia.
    + destruct (joined s); [|done]. injection He as <-. cbn. lia.
    + done.
  - done.
Qed.

Lemma run_on_time evs s s' : ramp c = false -> Forall (fun ev => uninterrupted ev = true) evs -> sound s ->
  run evs s = Some s' -> on_time s -> on_time s'.
Proof.
  intros Hc Hf. revert s. induction Hf as [|ev evs Hev _ IH]; intros s Hs He Ht; cbn [run] in He; [by injection He as <-|].
  destruct (act ev s) as [s1|] eqn:E; [|done]. apply (IH s1); [by eapply act_sound|done|by eapply act_on_time].
Qed.

Lemma init_eng n : eng (life_init n) = Warming.
Proof. unfold life_init, ramp_start. destruct (ramp c); [|done]. by case_if. Qed.

End Run.

(** ** Theorems *)

(** C24. When a run can end by itself.  From every state a run can reach, in whatever
    order its tasks act, there is a continuation without a signal from the user in
    which [run_with_shutdown] returns, unless the run is stranded: it is a ramp, the
    engine still waits for it, and the flag was set by something else.  The memory
    guard, the quit key and a terminal error set the flag in just that way, so each
    of them makes a ramp wait for ever: the ramp task leaves without notifying. *)
Theorem run_can_return c prime_var warmup_var use_xdp terminal n evs s :
  run c warmup_var use_xdp evs (life_init c prime_var use_xdp terminal n) = Some s ->
  (can_return c warmup_var use_xdp s <-> stranded c s = false) /\
  (ramp c = true -> waiting s = true -> shutdown s = false ->
   forall ev s', (exists m, ev = Memory m) \/ (exists k r, ev = Frame k r) ->
     act c warmup_var use_xdp ev s = Some s' -> shutdown s' = true -> stranded c s' = true).
Proof.
  intros Hr. pose proof (run_sound _ _ _ _ _ _ Hr (init_sound _ _ _ _ _)) as Hs. split; [split|].
  - intros (evs' & s' & Hf & He & Ht). destruct (stranded c s) eqn:Est; [|done].
    pose proof (stranded_stays _ _ _ _ _ _ Hf He Est) as Hst. unfold stranded, waiting, returned in *.
    destruct (eng s'); try done. by rewrite andb_false_r in Hst.
  - intros Hst. destruct (waiting s) eqn:Hw.
    + destruct (ramp c) eqn:Hc; [|by apply fixed_returns]. unfold stranded in Hst. rewrite Hc, Hw in Hst. cbn in Hst.
      destruct (shutdown s) eqn:Hf; [apply notified_returns; try done; by destruct (notified s)|].
      eapply ramp_saturates; try done.
      instantiate (1 := match rmp s with Settling _ r => _ | Measuring _ r => _ | _ => _ end). by destruct (rmp s).
    + unfold waiting in Hw. destruct (eng s) as [| |st|el] eqn:He; try done; [by eapply joining_returns|].
      exists [], s. split; [constructor|]. unfold returned. by rewrite He.
  - intros Hc Hw Hf ev s' Hev He Hf'.
    assert (Hn : notified s = false).
    { destruct (notified s) eqn:E; [|done]. destruct (s_notified _ _ Hs E). congruence. }
    assert (eng s' = eng s /\ notified s' = notified s) as [E1 E2].
    { destruct Hev as [[m ->] |(k & r & ->)]; cbn [act] in He.
      - destruct (guard s); [|done]. injection He as <-. unfold guard_tick. rewrite Hf.
        destruct (read_proc_meminfo_total_and_avail_kb m) as [x y]. by destruct (oom_check x y).
      - destruct (dash s); [|done]. injection He as <-. unfold run_tui. rewrite Hf.
        destruct r; [|done]. by destruct (Output.tui_key _ _ _) as [? []]. }
    unfold stranded, waiting in *. by rewrite Hc, E1, Hw, Hf', E2, Hn.
Qed.

(** C25. How long a run of fixed duration lasts.  Without a signal from the user the
    engine does not leave before the duration has passed since the end of the
    warm-up, whatever sets the flag in the meantime (the quit key, the memory
    guard): the elapsed time it divides by is at least the duration.  When a run of
    any kind returns, the flag is set and no worker, ramp task or dashboard is left. *)
Theorem run_waits c prime_var warmup_var use_xdp terminal n evs s :
  run c warmup_var use_xdp evs (life_init c prime_var use_xdp terminal n) = Some s ->
  (ramp c = false -> Forall (fun ev => uninterrupted ev = true) evs -> on_time c s) /\
  (returned s = true ->
     shutdown s = true /\ workers s = 0%nat /\ dash s = None /\ (rmp s = Absent \/ rmp s = Over)).
Proof.
  intros Hr. pose proof (run_sound _ _ _ _ _ _ Hr (init_sound _ _ _ _ _)) as Hs. split.
  - intros Hc Hf. eapply run_on_time; [done|done|apply init_sound|exact Hr|]. unfold on_time. by rewrite init_eng.
  - intros Ht. split; [|by apply Hs]. apply (s_left _ _ Hs). unfold waiting, returned in *. by destruct (eng s).
Qed.

(** ** Witnesses *)

Definition low_memory : str := lit "MemTotal: 1000 kB" ++ [c_lf] ++ lit "MemAvailable: 50 kB" ++ [c_lf].

(** A ramp of two clients that the memory guard stops cannot return. *)
Lemma run_can_return_witness :
  exists s, run (Run.ex_config 2 0 false true) None false [Memory (Some low_memory)]
              (life_init (Run.ex_config 2 0 false true) None false false 2) = Some s /\
    ~ can_return (Run.ex_config 2 0 false true) None false s.
Proof.
  eexists. split; [reflexivity|]. intros Hc.
  eapply (run_can_return (Run.ex_config 2 0 false true) None None false false 2 [Memory (Some low_memory)]) in Hc;
    [|reflexivity]. vm_compute in Hc. discriminate Hc.
Defined.

(** Ten seconds, one client, with the dashboard. *)
Definition ex_fixed : Config :=
  mkConfig (V4 0x0A000001) [V4 0x0A000001] 53 None 1 0 10 3000 4 false false 1 false false (lit "bench.invalid.") 1
    None Udp false None false false true 100 false.

(** The events of a run that the user quits in its first second. *)
Definition quit_early : list event :=
  [Frame 0 (Some (Some Output.KeyQuit)); WorkerEnds false; Tick 5; EngineWake; Tick 10; EngineWake; EngineWake].

Lemma run_waits_witness :
  exists s, run ex_fixed (Some (lit "5")) false quit_early
              (life_init ex_fixed None false true 1) = Some s /\
    eng s = Returned 10 /\ shutdown s = true /\ on_time ex_fixed s.
Proof.
  eexists. split; [vm_compute; reflexivity|]. split; [reflexivity|].
  edestruct (run_waits ex_fixed None (Some (lit "5")) false true 1 quit_early) as [Ht He];
    [vm_compute; reflexivity|]. split; [apply He; reflexivity|]. apply Ht; [reflexivity|]. repeat constructor.
Defined.

End Life.
