(* ===== verification/Workload.v ===== *)
(** * The workers of a run and the collector they share

    Composes the workers of the kernel paths ([UdpClosedLoop], [UdpFlood], [Stream])
    with the collector ([Stats]).  Each worker was proved with the collector to
    itself; in a run they all write to one, without ever reading it.

    [StatsClient] is what a worker promises to the collector: it behaves the same
    whatever the counters are, and what it does to them is a list of calls, which add
    up to its [tally].  The instances discharge it for every worker ([worker_logged]);
    the lemmas on whole runs are proved against it, and the theorems are about the
    concrete workers ([worker], [client_of]), in any number and under every
    interleaving of their atomic accesses.

    [reset_window], which the engine calls after the warm-up while the workers run,
    is modelled as the stores it is made of ([reset_events]): what a counter holds at
    the end is what was added to it after its own store. *)

From Stdlib Require Import ZArith Lia Bool String.
From stdpp Require Import base numbers option list.
From S2P Require Import Prelude Float64 RustStr Dns Query Stats InFlight UdpClosedLoop UdpFlood Stream.

Open Scope Z_scope.

Module Workload.

(** ** The interface *)

(** What a worker did: the queries it handed to the kernel, and those of them that
    were neither completed nor timed out (negative for a client that only completes
    what another one sent). *)
Record tally : Set := mkTally { t_sent : Z; t_open : Z }.

Section Interface.
Context {H : Type} `{HdrHistogram H}.

(** A worker, as a function of the collector it is given. *)
Definition client : Type := StatsCollector H -> outcome (StatsCollector H * tally).

Record logged (f : client) (log : list call) (t : tally) : Prop := mkLogged {
  lg_ok : Forall call_ok log;
  lg_run : forall st, f st = Done (fold_left exec_call log st, t);
  lg_sent : zsum (call_delta Sent) log mod 2 ^ 64 = t_sent t mod 2 ^ 64;
  lg_open : zsum unresolved_delta log mod 2 ^ 64 = t_open t mod 2 ^ 64
}.

Class StatsClient (f : client) : Prop := client_logs : exists log t, logged f log t.

(** ** The workers as clients *)

Definition closed_loop (cfg : cl_config) (es : list cl_env) (rand_id rand_idx q now : Z) : client := fun st =>
  '(s, out) ← cl_run cfg es (cl_init rand_id rand_idx q now st);
  Done (stats s, mkTally (Z.of_nat (length out)) (outstanding s)).

(** The two threads of a worker without a gate, outside the ramp. *)
Definition flood_tx (pool : WireQueryPool) (es : list tx_env) (last : tx_env) (rand_id rand_idx now : Z) : client :=
  fun st =>
    '(s, out) ← tx_run pool false es last (tx_init rand_id rand_idx now table_new st);
    Done (tx_stats s, mkTally (Z.of_nat (length out)) (Z.of_nat (length out))).

Definition flood_rx (timeout_ns : Z) (es : list rx_env) (now : Z) : client := fun st =>
  let '(s, _) := rx_run false timeout_ns es (rx_init now table_new st) in
  Done (rx_stats s, mkTally 0 (- zsum (fun e => Z.of_nat (length (received e))) es)).

Section StreamClients.
Context {S : Type} `{QuerySource S}.

(** What an iteration of a stream worker sends and leaves open: a query that is
    answered by something else, or whose stream breaks, stays open; a time-out
    before the query is sent is counted without it. *)
Definition flushed (e : Stream.env) : Z :=
  match Stream.e_connect e, Stream.e_write e with Stream.IoOk _, Stream.IoOk _ => 1 | _, _ => 0 end.

Definition left_open (e : Stream.env) : Z :=
  match Stream.e_connect e, Stream.e_write e, Stream.read_reply (Stream.e_events e) with
  | Stream.IoOk _, Stream.IoOk _, Stream.IoOk b => if parse_response b is Some _ then 0 else 1
  | Stream.IoOk _, Stream.IoOk _, Stream.IoErr => 1
  | Stream.IoOk _, Stream.IoOk _, Stream.IoTimeout => 0
  | Stream.IoOk _, Stream.IoTimeout, _ | Stream.IoTimeout, _, _ => -1
  | _, _, _ => 0
  end.

Definition stream (turn : Stream.env -> Stream.state (H := H) (S := S) -> outcome (Stream.state * list Z))
    (es : list Stream.env) (id : Z) (src : S) (r : rng) : client := fun st =>
  '(s, _) ← Stream.run_with turn es (Stream.mkState id src r st);
  Done (Stream.stats s, mkTally (zsum flushed es) (zsum left_open es)).

End StreamClients.

End Interface.
Arguments client H : clear implicits.

(** ** Calls *)

Section Calls.
Context {H : Type} `{HdrHistogram H}.

Lemma exec_calls_range (log : list call) (st : StatsCollector H) :
  counters_in_range st -> counters_in_range (fold_left exec_call log st).
Proof. revert st. induction log as [|k log IH]; intros st Hr; cbn [fold_left]; [done|]. by apply IH, exec_call_range. Qed.

Lemma exec_calls_get c (log : list call) (st : StatsCollector H) : counters_in_range st ->
  get c (fold_left exec_call log st) = (get c st + zsum (call_delta c) log) mod 2 ^ 64.
Proof.
  revert st. induction log as [|k log IH]; intros st Hr; cbn [fold_left].
  - cbn. rewrite Z.add_0_r, Z.mod_small; [done|apply Hr].
  - rewrite IH, exec_call_get by (try apply exec_call_range; done). rewrite Zplus_mod_idemp_l, zsum_cons. f_equal. lia.
Qed.

Lemma exec_calls_unresolved (log : list call) (st : StatsCollector H) : counters_in_range st ->
  unresolved (fold_left exec_call log st) = (unresolved st + zsum unresolved_delta log) mod 2 ^ 64.
Proof.
  revert st. induction log as [|k log IH]; intros st Hr; cbn [fold_left].
  - cbn. rewrite Z.add_0_r, Z.mod_small; [done|apply unresolved_range].
  - rewrite IH, unresolved_call by (try apply exec_call_range; done). rewrite Zplus_mod_idemp_l, zsum_cons. f_equal. lia.
Qed.

Lemma inc_timeouts_calls n (st : StatsCollector H) :
  inc_timeouts n st = fold_left exec_call (replicate n CallTimeout) st.
Proof. revert st. induction n as [|n IH]; intros st; cbn; [done|apply IH]. Qed.

Lemma zsum_replicate {A} (f : A -> Z) n x : zsum f (replicate n x) = Z.of_nat n * f x.
Proof. induction n as [|n IH]; [done|]. cbn [replicate]. rewrite zsum_cons, IH. lia. Qed.

Lemma zsum_unresolved log : zsum unresolved_delta log =
  zsum (call_delta Sent) log - zsum (call_delta Completed) log - zsum (call_delta Timeouts) log.
Proof. induction log as [|k log IH]; [done|]. rewrite !zsum_cons, IH. unfold unresolved_delta. lia. Qed.

Lemma stats_new_range : counters_in_range (stats_new (H := H)).
Proof. intros c. destruct c; cbn; unfold in_u; lia. Qed.

End Calls.

(** ** The closed loop *)

Section ClosedLoop.
Context {H : Type} `{HdrHistogram H}.
Implicit Types s : cl_state (H := H).

Definition set_stats (st : StatsCollector H) s : cl_state := with_slots (slots s) (outstanding s) st s.

(** The calls of this worker: no batched sends. *)
Definition plain (k : call) : Prop := match k with CallSentN _ _ => False | _ => True end.

(** What the calls of a step add up to: the queries sent, and the change of the
    open ones. *)
Record sends (log : list call) (n : nat) (d : Z) : Prop := mkSends {
  sn_ok : Forall call_ok log;
  sn_sent : zsum (call_delta Sent) log = Z.of_nat n;
  sn_open : zsum unresolved_delta log = d;
  sn_plain : Forall plain log
}.

Lemma sends_nil : sends [] 0 0.
Proof. by constructor. Qed.

Lemma sends_call k n d : call_ok k -> plain k -> call_delta Sent k = Z.of_nat n -> unresolved_delta k = d ->
  sends [k] n d.
Proof. intros. constructor; [by repeat constructor|rewrite zsum_cons; cbn; lia..|by repeat constructor]. Qed.

Lemma sends_app l1 l2 n m d e : sends l1 n d -> sends l2 m e -> sends (l1 ++ l2) (n + m) (d + e).
Proof. intros [] []. constructor; [by apply Forall_app|rewrite zsum_app; lia..|by apply Forall_app]. Qed.

Lemma update_rate_stats cfg e st s : update_rate cfg e (set_stats st s) = set_stats st (update_rate cfg e s).
Proof. unfold update_rate, set_stats, with_slots. cbn [UdpClosedLoop.qps]. by case_if. Qed.

Lemma update_rate_open cfg e s : outstanding (update_rate cfg e s) = outstanding s.
Proof. unfold update_rate. by case_if. Qed.

Lemma send_one_log cfg a s s' d more : send_one cfg a s = Done (s', d, more) ->
  exists log, sends log (length (option_list d)) (outstanding s' - outstanding s) /\
    forall st, send_one cfg a (set_stats st s) = Done (set_stats (fold_left exec_call log st) s', d, more).
Proof.
  unfold send_one, set_stats, with_slots. cbn [UdpClosedLoop.qps UdpClosedLoop.next_send UdpClosedLoop.next_id
    UdpClosedLoop.tmpl_idx sbuf slots outstanding stats].
  case_if; [injection 1 as <- <- <-; exists []; rewrite Z.sub_diag; by split; [apply sends_nil|]|].
  destruct (write_with_index _ _ _ _) as [[buf len]|]; [|done]. cbn [mbind outcome_bind].
  destruct (at_res a); injection 1 as <- <- <-; [exists [CallSent]|exists []|exists [CallError]]; (split; [|done]);
    cbn [outstanding]; [replace (outstanding s + 1 - outstanding s) with 1 by lia|rewrite Z.sub_diag..];
    [by apply sends_call|apply sends_nil|by apply sends_call].
Qed.

Lemma send_fill_log fuel cfg tries s s' out : send_fill fuel cfg tries s = Done (s', out) ->
  exists log, sends log (length out) (outstanding s' - outstanding s) /\
    forall st, send_fill fuel cfg tries (set_stats st s) = Done (set_stats (fold_left exec_call log st) s', out).
Proof.
  revert tries s out. induction fuel as [|fuel IH]; intros tries s out; cbn [send_fill].
  { injection 1 as <- <-. exists []. rewrite Z.sub_diag. by split; [apply sends_nil|]. }
  change (outstanding (set_stats ?st s)) with (outstanding s).
  case_if; [|injection 1 as <- <-; exists []; rewrite Z.sub_diag; by split; [apply sends_nil|]].
  destruct (send_one cfg (tries 0%nat) s) as [[[s1 d] more]|] eqn:E; [|done]. cbn [mbind outcome_bind].
  destruct (send_one_log _ _ _ _ _ _ E) as (l1 & Hs1 & Hr1). destruct more.
  - destruct (send_fill fuel cfg _ s1) as [[s2 rest]|] eqn:E2; [|done]. cbn [mbind outcome_bind].
    injection 1 as <- <-. destruct (IH _ _ _ E2) as (l2 & Hs2 & Hr2). exists (l1 ++ l2). split.
    + rewrite length_app. replace (outstanding s2 - outstanding s)
        with (outstanding s1 - outstanding s + (outstanding s2 - outstanding s1)) by lia. by apply sends_app.
    + intros st. rewrite Hr1. cbn [mbind outcome_bind]. by rewrite Hr2, fold_left_app.
  - injection 1 as <- <-. exists l1. split; [done|]. intros st. rewrite Hr1. done.
Qed.

(** A reply is one call, late or not. *)
Lemma reply_log rcode rtt (timely : bool) : exists k, sends [k] 0 (-1) /\
  forall st : StatsCollector H, (if timely then record_response rcode rtt st else record_late rcode st) = exec_call st k.
Proof.
  destruct timely.
  - exists (CallResponse rcode rtt). split; [|done].
    apply sends_call; try done; unfold unresolved_delta, call_delta, actions_of, rcode_counter; repeat case_if; done.
  - unfold record_late. repeat case_if;
      [exists (CallRcodes 1 0 0 0 0)|exists (CallRcodes 0 1 0 0 0)|exists (CallRcodes 0 0 1 0 0)
      |exists (CallRcodes 0 0 0 1 0)|exists (CallRcodes 0 0 0 0 1)];
      (split; [apply sends_call; try done; cbn; unfold in_u; lia|done]).
Qed.

Lemma recv_one_log cfg base t s m : cl_inv cfg base s -> exists log,
  sends log 0 (outstanding (recv_one cfg t s m) - outstanding s) /\
  forall st, recv_one cfg t (set_stats st s) m = set_stats (fold_left exec_call log st) (recv_one cfg t s m).
Proof.
  intros Hi. unfold recv_one. change (slots (set_stats ?st s)) with (slots s). set (buf := take _ m).
  case_if; [exists []; rewrite Z.sub_diag; by split; [apply sends_nil|]|].
  set (i := from_be_bytes16 _ _). destruct (negb (slot (slots s) i =? 0)) eqn:Ev;
    [|exists []; rewrite Z.sub_diag; by split; [apply sends_nil|]]. bool_to_prop.
  pose proof (outstanding_pos cfg base s i Hi Ev) as Ho. set (rtt := sat_sub t _). set (rcode := Z.land _ _).
  destruct (reply_log rcode (Z.max (rtt / 1000) 1) (rtt <=? timeout_ns cfg)) as (k & Hk & Hr). exists [k].
  cbn [outstanding with_slots]. split.
  - replace (sat_sub (outstanding s) 1 - outstanding s) with (-1) by (unfold sat_sub; lia). done.
  - intros st. cbn [fold_left set_stats with_slots stats outstanding]. rewrite <- Hr. done.
Qed.

Lemma recv_all_log cfg base t ms s : Forall (Forall (in_u 8)) ms -> cl_inv cfg base s -> exists log,
  sends log 0 (outstanding (fold_left (recv_one cfg t) ms s) - outstanding s) /\
  forall st, fold_left (recv_one cfg t) ms (set_stats st s) =
             set_stats (fold_left exec_call log st) (fold_left (recv_one cfg t) ms s).
Proof.
  intros Hms. revert s. induction Hms as [|m ms Hm _ IH]; intros s Hi; cbn [fold_left].
  { exists []. rewrite Z.sub_diag. by split; [apply sends_nil|]. }
  destruct (recv_one_log cfg base t s m Hi) as (l1 & Hs1 & Hr1). destruct (recv_one_inv cfg base t s m Hm Hi) as [Hi1 _].
  destruct (IH (recv_one cfg t s m) Hi1) as (l2 & Hs2 & Hr2). exists (l1 ++ l2). split.
  - pose proof (sends_app _ _ _ _ _ _ Hs1 Hs2) as Hs. 
    replace (outstanding (fold_left (recv_one cfg t) ms (recv_one cfg t s m)) - outstanding s)
      with (outstanding (recv_one cfg t s m) - outstanding s +
            (outstanding (fold_left (recv_one cfg t) ms (recv_one cfg t s m)) - outstanding (recv_one cfg t s m))) by lia.
    exact Hs.
  - intros st. by rewrite Hr1, Hr2, fold_left_app.
Qed.

Lemma timeouts_send n : sends (replicate n CallTimeout) 0 (- Z.of_nat n).
Proof.
  induction n as [|n IH]; [apply sends_nil|]. cbn [replicate].
  replace (- Z.of_nat (Datatypes.S n)) with (-1 + - Z.of_nat n) by lia.
  apply (sends_app [CallTimeout] _ 0 0); [by apply sends_call|done].
Qed.

Lemma sweep_log cfg base e s : cl_inv cfg base s -> exists log,
  sends log 0 (outstanding (sweep cfg e s) - outstanding s) /\
  forall st, sweep cfg e (set_stats st s) = set_stats (fold_left exec_call log st) (sweep cfg e s).
Proof.
  intros Hi. unfold sweep. change (slots (set_stats ?st s)) with (slots s).
  change (UdpClosedLoop.last_sweep (set_stats ?st s)) with (UdpClosedLoop.last_sweep s).
  case_if; [|exists []; rewrite Z.sub_diag; by split; [apply sends_nil|]].
  pose proof (occupied_sweep (fun v => timeout_ns cfg <=? sat_sub (e_sweep_ns e) v) (slots s)) as Ho.
  unfold shared_sweep. destruct (sweep_table _ (slots s)) as [freed sl] eqn:E. cbn [fst snd] in Ho.
  pose proof (occupied_nonneg sl). pose proof (inv_leak _ _ _ Hi) as Hl. unfold leak in Hl.
  assert (0 <= freed).
  { inversion E; subst. apply zsum_nonneg. intros v _. unfold sweep_slot. case_if; cbn; lia. }
  exists (replicate (Z.to_nat freed) CallTimeout). cbn [outstanding with_slots]. split.
  - replace (sat_sub (outstanding s) freed - outstanding s) with (- Z.of_nat (Z.to_nat freed)) by (unfold sat_sub; lia).
    apply timeouts_send.
  - intros st. rewrite <- inc_timeouts_calls. done.
Qed.

Section Pool.
Variable cfg : cl_config.
Variable entries : list (str * Z).
Hypothesis pool_from : from_pairs entries = Done (wire_pool cfg).
Hypothesis names_fit : Forall (fun e => Z.of_nat (length (as_bytes e.1)) <= 494) entries.

Lemma cl_turn_log base e s s' out : env_ok e -> cl_inv cfg base s -> cl_turn cfg e s = Done (s', out) ->
  exists log, sends log (length out) (outstanding s' - outstanding s) /\
    forall st, cl_turn cfg e (set_stats st s) = Done (set_stats (fold_left exec_call log st) s', out).
Proof.
  intros He Hi. unfold cl_turn. intros E. destruct (update_rate_inv cfg base e s Hi) as [Hi0 _].
  destruct (send_fill_inv cfg entries pool_from names_fit base
              (Z.to_nat (max_outstanding cfg - outstanding (update_rate cfg e s))) (e_tries e) _ Hi0)
    as (s1 & out1 & E1 & Hi1 & _). rewrite E1 in E. cbn [mbind outcome_bind] in E. injection E as <- <-.
  destruct (recv_all_inv cfg base (e_recv_ns e) (e_recv e) s1 He Hi1) as [Hi2 _].
  destruct (send_fill_log _ _ _ _ _ _ E1) as (l1 & Hs1 & Hr1).
  destruct (recv_all_log cfg base (e_recv_ns e) (e_recv e) s1 He Hi1) as (l2 & Hs2 & Hr2).
  destruct (sweep_log cfg base e _ Hi2) as (l3 & Hs3 & Hr3). exists (l1 ++ l2 ++ l3). split.
  - pose proof (sends_app _ _ _ _ _ _ Hs1 (sends_app _ _ _ _ _ _ Hs2 Hs3)) as Hs.
    rewrite update_rate_open, !Nat.add_0_r in Hs. revert Hs. by match goal with
      |- sends _ _ ?a -> sends _ _ ?b => replace a with b by lia end.
  - intros st. rewrite update_rate_stats.
    change (outstanding (set_stats st (update_rate cfg e s))) with (outstanding (update_rate cfg e s)).
    rewrite Hr1. cbn [mbind outcome_bind]. by rewrite Hr2, Hr3, !fold_left_app.
Qed.

Lemma cl_run_log base es s s' out : Forall env_ok es -> cl_inv cfg base s -> cl_run cfg es s = Done (s', out) ->
  exists log, sends log (length out) (outstanding s' - outstanding s) /\
    forall st, cl_run cfg es (set_stats st s) = Done (set_stats (fold_left exec_call log st) s', out).
Proof.
  intros Hes. revert s out. induction Hes as [|e es He _ IH]; intros s out Hi; cbn [cl_run].
  { injection 1 as <- <-. exists []. rewrite Z.sub_diag. by split; [apply sends_nil|]. }
  destruct (cl_turn_inv cfg entries pool_from names_fit base e s He Hi) as (s1 & o1 & E1 & Hi1 & _).
  rewrite E1. cbn [mbind outcome_bind].
  destruct (cl_run cfg es s1) as [[s2 o2]|] eqn:E2; [|done]. cbn [mbind outcome_bind]. injection 1 as <- <-.
  destruct (cl_turn_log _ _ _ _ _ He Hi E1) as (l1 & Hs1 & Hr1). destruct (IH _ _ Hi1 E2) as (l2 & Hs2 & Hr2).
  exists (l1 ++ l2). split.
  - rewrite length_app. replace (outstanding s2 - outstanding s)
      with (outstanding s1 - outstanding s + (outstanding s2 - outstanding s1)) by lia. by apply sends_app.
  - intros st. rewrite Hr1. cbn [mbind outcome_bind]. by rewrite Hr2, fold_left_app.
Qed.

(** The whole worker. *)
Lemma closed_loop_log es rand_id rand_idx q now :
  1 <= max_outstanding cfg -> in_u 16 rand_id -> 0 <= rand_idx -> Forall env_ok es ->
  exists log n o, sends log n o /\ 0 <= o <= max_outstanding cfg /\
    forall st, closed_loop (H := H) cfg es rand_id rand_idx q now st =
               Done (fold_left exec_call log st, mkTally (Z.of_nat n) o).
Proof.
  intros Hm Hid Hix Hes. set (s0 := cl_init (H := H) rand_id rand_idx q now stats_new).
  assert (Hi0 : cl_inv cfg (unresolved (stats_new (H := H))) s0) by (by apply cl_init_inv, stats_new_range).
  destruct (cl_run_inv cfg entries pool_from names_fit _ es s0 Hes Hi0) as (s & out & Hr & Hi & _ & _).
  destruct (cl_run_log _ _ _ _ _ Hes Hi0 Hr) as (log & Hs & Hlog).
  pose proof Hi as [_ _ _ _ Hl Hg _ _]. pose proof (occupied_nonneg (slots s)) as Ho. unfold leak in Hl.
  exists log, (length out), (outstanding s). change (outstanding s0) with 0 in Hs. rewrite Z.sub_0_r in Hs.
  split; [done|]. split; [lia|]. intros st. unfold closed_loop.
  change (cl_init rand_id rand_idx q now st) with (set_stats st s0). rewrite Hlog. done.
Qed.

Lemma closed_loop_logged es rand_id rand_idx q now :
  1 <= max_outstanding cfg -> in_u 16 rand_id -> 0 <= rand_idx -> Forall env_ok es ->
  StatsClient (closed_loop (H := H) cfg es rand_id rand_idx q now).
Proof.
  intros Hm Hid Hix Hes. destruct (closed_loop_log es rand_id rand_idx q now Hm Hid Hix Hes)
    as (log & n & o & [Hok Hs Ho _] & _ & Hr). exists log, (mkTally (Z.of_nat n) o).
  constructor; cbn [t_sent t_open]; [done|done|by rewrite Hs|by rewrite Ho].
Qed.

End Pool.

End ClosedLoop.

(** ** The flood *)

Section Flood.
Context {H : Type} `{HdrHistogram H}.

Definition set_tx (st : StatsCollector H) (s : tx_state (H := H)) : tx_state (H := H) :=
  mkTx (local_sent s) (UdpFlood.next_id s) (UdpFlood.tmpl_idx s) (batch_ctr s) (next_batch s) (last_qps s)
    (batch_interval s) (tx_flat s) (tx_table s) st.

(** Only flushes. *)
Definition is_sent_n (k : call) : Prop := match k with CallSentN _ _ => True | _ => False end.

Lemma sent_n_facts log : Forall is_sent_n log ->
  Forall call_ok log /\ zsum (call_delta Completed) log = 0 /\ zsum (call_delta Timeouts) log = 0.
Proof.
  induction 1 as [|k log Hk _ (IH1 & IH2 & IH3)]; [done|]. destruct k; try done.
  rewrite !zsum_cons, IH2, IH3. split_and!; [by constructor|done|done].
Qed.

Lemma flush_log e s : exists k, is_sent_n k /\ forall st, UdpFlood.flush e (set_tx st s) = set_tx (exec_call st k) (UdpFlood.flush e s).
Proof. by exists (CallSentN (local_sent s) (t_flush_ns e)). Qed.

Lemma tx_turn_log pool e s s' out : tx_turn pool false e s = Done (s', out) ->
  exists log, Forall is_sent_n log /\
    forall st, tx_turn pool false e (set_tx st s) = Done (set_tx (fold_left exec_call log st) s', out).
Proof.
  unfold tx_turn, pace. intros E.
  destruct (send_batch pool false e s) as [[s1 o1]|] eqn:E1; [|done]. cbn [mbind outcome_bind] in E. injection E as <- <-.
  assert (Hb : forall st, send_batch pool false e (set_tx st s) = Done (set_tx st s1, o1)).
  { intros st. unfold send_batch in E1 |- *. cbn [set_tx tx_flat UdpFlood.next_id UdpFlood.tmpl_idx] in *.
    destruct (write_batch _ _ _ _) as [[bufs ds]|]; [|done]. cbn [mbind outcome_bind] in E1 |- *.
    injection E1 as <- <-. done. }
  destruct ((batch_ctr s1 mod FLUSH_STATS =? 0) && (local_sent s1 >? 0)) eqn:Ef.
  - destruct (flush_log e s1) as (k & Hk & Hr). exists [k]. split; [by repeat constructor|].
    intros st. rewrite Hb. cbn [mbind outcome_bind set_tx batch_ctr local_sent]. rewrite Ef.
    f_equal. f_equal. apply Hr.
  - exists []. split; [constructor|]. intros st. rewrite Hb. cbn [mbind outcome_bind set_tx batch_ctr local_sent].
    by rewrite Ef.
Qed.

Lemma tx_run_log pool es last s s' out : tx_run pool false es last s = Done (s', out) ->
  exists log, Forall is_sent_n log /\
    forall st, tx_run pool false es last (set_tx st s) = Done (set_tx (fold_left exec_call log st) s', out).
Proof.
  revert s out. induction es as [|e es IH]; intros s out; cbn [tx_run].
  - intros [= <- <-]. destruct (local_sent s >? 0) eqn:E.
    + destruct (flush_log last s) as (k & Hk & Hr). exists [k]. split; [by repeat constructor|].
      intros st. cbn [set_tx local_sent]. rewrite E. f_equal. f_equal. apply Hr.
    + exists []. split; [constructor|]. intros st. cbn [set_tx local_sent]. by rewrite E.
  - destruct (tx_turn pool false e s) as [[s1 o1]|] eqn:E1; [|done]. cbn [mbind outcome_bind].
    destruct (tx_run pool false es last s1) as [[s2 o2]|] eqn:E2; [|done]. cbn [mbind outcome_bind]. intros [= <- <-].
    destruct (tx_turn_log _ _ _ _ _ E1) as (l1 & Hs1 & Hr1). destruct (IH _ _ E2) as (l2 & Hs2 & Hr2).
    exists (l1 ++ l2). split; [by apply Forall_app|]. intros st. rewrite Hr1. cbn [mbind outcome_bind].
    by rewrite Hr2, fold_left_app.
Qed.

Lemma flood_tx_logged pool entries es last rand_id rand_idx now :
  from_pairs entries = Done pool -> Forall (fun e => Z.of_nat (length (as_bytes e.1)) <= 494) entries ->
  in_u 16 rand_id -> in_u 64 rand_idx -> Forall tx_env_ok es ->
  StatsClient (flood_tx (H := H) pool es last rand_id rand_idx now).
Proof.
  intros Hp Hn Hid Hix Hes. set (s0 := tx_init (H := H) rand_id rand_idx now table_new stats_new).
  assert (Hi : tx_inv s0).
  { constructor; [by apply Forall_replicate|done|done|done|split; cbn; lia|apply stats_new_range]. }
  destruct (tx_run_total pool entries Hp Hn false es last s0 Hi Hes) as (s & out & Hr & Hi' & Ht & Hl).
  destruct (tx_run_log _ _ _ _ _ _ Hr) as (log & Hlog & Hrun). destruct (sent_n_facts log Hlog) as (Hok & Hc & Hto).
  exists log, (mkTally (Z.of_nat (length out)) (Z.of_nat (length out))).
  assert (Hsum : zsum (call_delta Sent) log mod 2 ^ 64 = Z.of_nat (length out) mod 2 ^ 64).
  { pose proof (Hrun stats_new) as E. change (set_tx stats_new s0) with s0 in E. rewrite Hr in E.
    assert (Es : tx_stats s = fold_left exec_call log stats_new) by (injection E as E; by rewrite E).
    unfold tx_total in Ht. rewrite Hl, Es, Z.add_0_r, exec_calls_get, Z.mod_mod in Ht by (lia || apply stats_new_range).
    exact Ht. }
  constructor; cbn [t_sent t_open]; [done| |done|rewrite zsum_unresolved, Hc, Hto, !Z.sub_0_r; exact Hsum].
  intros st. unfold flood_tx. change (tx_init rand_id rand_idx now table_new st) with (set_tx st s0).
  by rewrite Hrun.
Qed.

Definition set_rx (st : StatsCollector H) (s : rx_state (H := H)) : rx_state (H := H) :=
  mkRx (rc s) (since_flush s) (rx_last_sweep s) (rx_table s) st.

Definition is_rcodes (k : call) : Prop := match k with CallRcodes _ _ _ _ _ => call_ok k | _ => False end.

Lemma rcodes_facts log : Forall is_rcodes log ->
  Forall call_ok log /\ zsum (call_delta Sent) log = 0 /\ zsum (call_delta Timeouts) log = 0.
Proof.
  induction 1 as [|k log Hk _ (IH1 & IH2 & IH3)]; [done|]. destruct k as [| | | |a b c d e| | |]; try done.
  assert (E : forall x, x = Sent \/ x = Timeouts -> call_delta x (CallRcodes a b c d e) = 0).
  { intros x Hx. cbn in Hk. destruct_ands. unfold call_delta. cbn [actions_of]. case_if; [done|].
    rewrite zsum_cons, !zsum_app, !zsum_add_actions by (unfold in_u in *; lia). by destruct Hx as [-> | ->]. }
  rewrite !zsum_cons, IH2, IH3, !E by auto. split_and!; [by constructor|done|done].
Qed.

Lemma rx_msgs_untracked horizon clock ms s st :
  exists s', rx_msgs false horizon clock ms s = (s', []) /\ rx_msgs false horizon clock ms (set_rx st s) = (set_rx st s', []).
Proof.
  revert clock s. induction ms as [|m ms IH]; intros clock s; cbn [rx_msgs]; [by exists s|].
  unfold rx_msg, rx_latency. cbn [andb fold_left set_rx rc since_flush rx_last_sweep rx_table rx_stats].
  set (s1 := mkRx _ _ _ _ (rx_stats s)).
  change (mkRx _ _ _ _ st) with (set_rx st s1). destruct (IH (fun n => clock (S n)) s1) as (s' & -> & ->). by exists s'.
Qed.

Lemma rx_flush_log s : rx_inv s -> exists k, is_rcodes k /\
  forall st, rx_flush (set_rx st s) = set_rx (exec_call st k) (rx_flush s).
Proof.
  intros [Hl Hr _]. destruct (rc s) as [|a [|b [|c [|d [|e [|? ?]]]]]] eqn:Erc; try done.
  exists (CallRcodes a b c d e). split; [cbn; by rewrite !Forall_cons in Hr; destruct_ands|].
  intros st. unfold rx_flush, set_rx. cbn [rc rx_last_sweep rx_table rx_stats]. by rewrite Erc.
Qed.

Lemma rx_turn_log timeout_ns e s s' ks : rx_inv s -> rx_turn false timeout_ns e s = (s', ks) ->
  exists log, Forall is_rcodes log /\
    forall st, rx_turn false timeout_ns e (set_rx st s) = (set_rx (fold_left exec_call log st) s', ks).
Proof.
  intros Hi Ht. unfold rx_turn, rx_sweep in *. cbn [andb] in *.
  destruct (r_poll e <=? 0); [injection Ht as <- <-; by exists []|].
  destruct (r_recv e) as [|m ms]; [injection Ht as <- <-; by exists []|].
  destruct (rx_msgs_untracked (lat_horizon timeout_ns) (r_clock e) (m :: ms) s (rx_stats s)) as (s1 & E1 & _).
  assert (E2 : forall st, rx_msgs false (lat_horizon timeout_ns) (r_clock e) (m :: ms) (set_rx st s) = (set_rx st s1, [])).
  { intros st. destruct (rx_msgs_untracked (lat_horizon timeout_ns) (r_clock e) (m :: ms) s st) as (s1' & E1' & E2').
    rewrite E1 in E1'. by injection E1' as <-. }
  rewrite E1 in Ht. set (s2 := mkRx (rc s1) (since_flush s1 + 1) (rx_last_sweep s1) (rx_table s1) (rx_stats s1)) in Ht.
  assert (Hi2 : rx_inv s2).
  { assert (Hh : lat_horizon timeout_ns <= 200000000) by (unfold lat_horizon; lia).
    destruct (rx_msgs_inv _ _ _ _ _ _ _ Hh E1 Hi) as ([] & _). by constructor. }
  injection Ht as <- <-. change (since_flush s1 + 1) with (since_flush s2).
  destruct (FLUSH_STATS <=? since_flush s2) eqn:Ef.
  - destruct (rx_flush_log s2 Hi2) as (k & Hk & Hr). exists [k]. split; [by repeat constructor|]. intros st.
    rewrite E2. change (mkRx _ _ _ _ (rx_stats (set_rx st s1))) with (set_rx st s2).
    change (since_flush (set_rx st s2)) with (since_flush s2). rewrite Ef. f_equal. apply Hr.
  - exists []. split; [constructor|]. intros st. rewrite E2.
    change (mkRx _ _ _ _ (rx_stats (set_rx st s1))) with (set_rx st s2).
    change (since_flush (set_rx st s2)) with (since_flush s2). by rewrite Ef.
Qed.

Lemma rx_run_log timeout_ns es s s' ks : rx_inv s -> rx_run false timeout_ns es s = (s', ks) ->
  exists log, Forall is_rcodes log /\
    forall st, rx_run false timeout_ns es (set_rx st s) = (set_rx (fold_left exec_call log st) s', ks).
Proof.
  revert s ks. induction es as [|e es IH]; intros s ks Hi; cbn [rx_run].
  - intros [= <- <-]. change (rc (set_rx ?st s)) with (rc s). destruct (existsb _ (rc s)) eqn:E.
    + destruct (rx_flush_log s Hi) as (k & Hk & Hr). exists [k]. split; [by repeat constructor|].
      intros st. f_equal. apply Hr.
    + by exists [].
  - destruct (rx_turn false timeout_ns e s) as [s1 k1] eqn:E1.
    destruct (rx_turn_inv _ _ _ _ _ _ E1 Hi) as (Hi1 & _).
    destruct (rx_run false timeout_ns es s1) as [s2 k2] eqn:E2. intros [= <- <-].
    destruct (rx_turn_log _ _ _ _ _ Hi E1) as (l1 & Hs1 & Hr1). destruct (IH _ _ Hi1 E2) as (l2 & Hs2 & Hr2).
    exists (l1 ++ l2). split; [by apply Forall_app|]. intros st. by rewrite Hr1, Hr2, fold_left_app.
Qed.

Lemma flood_rx_logged timeout_ns es now : StatsClient (flood_rx (H := H) timeout_ns es now).
Proof.
  set (s0 := rx_init (H := H) now table_new stats_new).
  assert (Hi : rx_inv s0).
  { constructor; [done|repeat constructor; cbn; lia|apply stats_new_range]. }
  destruct (rx_run false timeout_ns es s0) as [s ks] eqn:Hr.
  destruct (rx_run_inv _ _ _ _ _ _ Hr Hi) as (Hc & _). change (rx_total s0) with 0 in Hc.
  destruct (rx_run_log _ _ _ _ _ Hi Hr) as (log & Hlog & Hrun). destruct (rcodes_facts log Hlog) as (Hok & Hs & Hto).
  exists log, (mkTally 0 (- zsum (fun e => Z.of_nat (length (received e))) es)).
  assert (Es : rx_stats s = fold_left exec_call log stats_new).
  { pose proof (Hrun stats_new) as E. change (set_rx stats_new s0) with s0 in E. rewrite Hr in E.
    injection E as E. by rewrite E. }
  constructor; cbn [t_sent t_open]; [done| |by rewrite Hs|].
  - intros st. unfold flood_rx. change (rx_init now table_new st) with (set_rx st s0). by rewrite Hrun.
  - rewrite zsum_unresolved, Hs, Hto. rewrite Es, exec_calls_get in Hc by apply stats_new_range.
    change (get Completed stats_new) with 0 in Hc. rewrite !Z.add_0_l in Hc.
    rewrite Z.sub_0_l, Z.sub_0_r. rewrite <- (Z.sub_0_l (zsum (call_delta _) _)), <- (Z.sub_0_l (zsum _ es)).
    by rewrite Zminus_mod, Hc, <- Zminus_mod.
Qed.

End Flood.

(** ** The streams *)

Section Streams.
Context {H : Type} `{HdrHistogram H} {S : Type} `{QuerySourceLaws S}.
Implicit Types s : Stream.state (H := H) (S := S).

Definition set_stream (st : StatsCollector H) s : Stream.state :=
  Stream.mkState (Stream.id s) (Stream.query_source s) (Stream.draws s) st.

(** The calls of an iteration. *)
Definition exchange_calls (e : Stream.env) : list call :=
  match Stream.e_write e with
  | Stream.IoOk _ =>
      CallSent ::
      match Stream.read_reply (Stream.e_events e) with
      | Stream.IoOk b => if parse_response b is Some resp then [CallResponse (resp_rcode resp) (Stream.e_rtt e)] else []
      | Stream.IoErr => [CallError]
      | Stream.IoTimeout => [CallTimeout]
      end
  | Stream.IoErr => [CallError]
  | Stream.IoTimeout => [CallTimeout]
  end.

Definition turn_calls (e : Stream.env) : list call :=
  match Stream.e_connect e with
  | Stream.IoOk _ => exchange_calls e
  | Stream.IoErr => [CallError]
  | Stream.IoTimeout => [CallTimeout]
  end.

Lemma exchange_log e st :
  let '(st', r) := Stream.exchange e st in Stream.conclude r st' = fold_left exec_call (exchange_calls e) st.
Proof.
  unfold Stream.exchange, exchange_calls. destruct (Stream.e_write e); try done.
  destruct (Stream.read_reply _) as [b| |]; try done. by destruct (parse_response b).
Qed.

Lemma turn_calls_facts e : Forall call_ok (turn_calls e) /\
  zsum (call_delta Sent) (turn_calls e) = flushed e /\ zsum unresolved_delta (turn_calls e) = left_open e.
Proof.
  assert (Hr : forall rc rtt, unresolved_delta (CallResponse rc rtt) = -1).
  { intros rc rtt. unfold unresolved_delta, call_delta, actions_of, rcode_counter. repeat case_if; reflexivity. }
  unfold turn_calls, exchange_calls, flushed, left_open.
  destruct (Stream.e_connect e), (Stream.e_write e); try (split_and!; [by repeat constructor|done|done]).
  destruct (Stream.read_reply _) as [b| |]; try (split_and!; [by repeat constructor|done|done]).
  destruct (parse_response b) as [resp|]; [|split_and!; [by repeat constructor|done|done]].
  split_and!; [by repeat constructor|rewrite !zsum_cons; unfold call_delta, actions_of, rcode_counter; by repeat case_if|
    by rewrite !zsum_cons, Hr].
Qed.

(** A turn that does these calls. *)
Definition stream_turn (turn : Stream.env -> Stream.state (H := H) (S := S) -> outcome (Stream.state * list Z)) : Prop :=
  forall e s, source_ok (Stream.query_source s) ->
    exists s' out, source_ok (Stream.query_source s') /\
      forall st, turn e (set_stream st s) = Done (set_stream (fold_left exec_call (turn_calls e) st) s', out).

Lemma tcp_stream_turn : stream_turn Stream.tcp_turn.
Proof.
  intros e s Hs. unfold Stream.tcp_turn, turn_calls. cbn [set_stream Stream.query_source Stream.draws Stream.id Stream.stats].
  destruct (Stream.e_connect e); [|by eexists s, _..].
  destruct (next_total (Stream.query_source s) (Stream.draws s) Hs) as (en & src & r & -> & Hok). cbn [mbind outcome_bind].
  eexists (Stream.mkState (wadd 16 (Stream.id s) 1) src r (Stream.stats s)), _. split; [done|]. intros st.
  pose proof (exchange_log e st) as Hx. destruct (Stream.exchange e st) as [st' res]. by rewrite Hx.
Qed.

Lemma dot_stream_turn : stream_turn Stream.dot_turn.
Proof.
  intros e s Hs. unfold Stream.dot_turn, turn_calls. cbn [set_stream Stream.query_source Stream.draws Stream.id Stream.stats].
  destruct (Stream.e_connect e);
    [|by eexists (Stream.mkState (wadd 16 (Stream.id s) 1) (Stream.query_source s) (Stream.draws s) (Stream.stats s)), _..].
  destruct (next_total (Stream.query_source s) (Stream.draws s) Hs) as (en & src & r & -> & Hok). cbn [mbind outcome_bind].
  eexists (Stream.mkState (wadd 16 (Stream.id s) 1) src r (Stream.stats s)), _. split; [done|]. intros st.
  pose proof (exchange_log e st) as Hx. destruct (Stream.exchange e st) as [st' res]. by rewrite Hx.
Qed.

Lemma stream_run_log turn es s : stream_turn turn -> source_ok (Stream.query_source s) ->
  exists s' outs, forall st, Stream.run_with turn es (set_stream st s) =
    Done (set_stream (fold_left exec_call (concat (turn_calls <$> es)) st) s', outs).
Proof.
  intros Ht. revert s. induction es as [|e es IH]; intros s Hs; cbn [Stream.run_with]; [by eexists s, _|].
  destruct (Ht e s Hs) as (s1 & o1 & Hs1 & Hr1). destruct (IH s1 Hs1) as (s2 & o2 & Hr2).
  eexists s2, _. intros st. rewrite Hr1. cbn [mbind outcome_bind]. rewrite Hr2. cbn [mbind outcome_bind fmap list_fmap concat].
  by rewrite fold_left_app.
Qed.

Lemma stream_logged turn es id (src : S) r : stream_turn turn -> source_ok src ->
  StatsClient (stream (H := H) turn es id src r).
Proof.
  intros Ht Hs. exists (concat (turn_calls <$> es)), (mkTally (zsum flushed es) (zsum left_open es)).
  assert (Hf : forall (f : call -> Z) g, (forall e, zsum f (turn_calls e) = g e) -> zsum f (concat (turn_calls <$> es)) = zsum g es).
  { intros f g Hg. rewrite zsum_concat, zsum_fmap. apply zsum_ext. intros e _. apply Hg. }
  constructor; cbn [t_sent t_open].
  - apply Forall_concat, Forall_fmap, Forall_true. intros e. apply turn_calls_facts.
  - intros st. unfold stream. destruct (stream_run_log turn es (Stream.mkState id src r st) Ht Hs) as (s' & outs & Hr).
    specialize (Hr st). change (set_stream st (Stream.mkState id src r st)) with (Stream.mkState (H := H) id src r st) in Hr.
    rewrite Hr. done.
  - f_equal. apply Hf. intros e. apply turn_calls_facts.
  - f_equal. apply Hf. intros e. apply turn_calls_facts.
Qed.

End Streams.

(** ** Everything together *)

(** The threads of a run and what they did. *)
Definition threads_of (lts : list (list call * tally)) : list (list action) := thread_actions <$> (fst <$> lts).
Definition total (f : tally -> Z) (lts : list (list call * tally)) : Z := zsum (fun lt => f lt.2) lts.

(** A worker that ran with any collector did these calls. *)
Definition ran {H} `{HdrHistogram H} (f : client H) (lt : list call * tally) : Prop :=
  forall st, f st = Done (fold_left exec_call lt.1 st, lt.2).

Lemma zsum_mod_ext {A B} (f : A -> Z) (g : B -> Z) (l : list A) (l' : list B) :
  Forall2 (fun a b => f a mod 2 ^ 64 = g b mod 2 ^ 64) l l' -> zsum f l mod 2 ^ 64 = zsum g l' mod 2 ^ 64.
Proof.
  induction 1 as [|a b l l' Hab _ IH]; [done|]. rewrite !zsum_cons, Zplus_mod, Hab, IH, <- Zplus_mod. done.
Qed.

(** ** The reset after the warm-up

    [reset_window] stores zero in one counter after the other. *)

Inductive access : Set :=
| Act (a : action)
| StoreWindow (t : Z)
| Zero (c : counter)
| ZeroMax
| ClearHist.

#[global] Instance action_eq_dec : EqDecision action.
Proof. solve_decision. Defined.

#[global] Instance access_eq_dec : EqDecision access.
Proof. solve_decision. Defined.

Definition reset_events (t : Z) : list access :=
  StoreWindow t ::
  (Zero <$> [Sent; Completed; Timeouts; Errors; Noerror; Nxdomain; Servfail; Refused; Other; InflightSum; InflightCount]) ++
  [ZeroMax; ClearHist].

Definition added_by (c : counter) (ev : access) : Z := match ev with Act a => delta c a | _ => 0 end.

Section Reset.
Context {H : Type} `{HdrHistogram H}.
Implicit Types st : StatsCollector H.

Definition set_counter (c : counter) (v : Z) (st : StatsCollector H) : StatsCollector H :=
  let f k x := if decide (c = k) then v else x in
  mkStats (f Sent (sent st)) (f Completed (completed st)) (f Timeouts (timeouts st))
    (f Errors (errors st)) (f Noerror (rcode_noerror st)) (f Nxdomain (rcode_nxdomain st))
    (f Servfail (rcode_servfail st)) (f Refused (rcode_refused st)) (f Other (rcode_other st))
    (histogram st) (f InflightSum (inflight_sum st)) (f InflightCount (inflight_count st))
    (inflight_max st) (last_egress_ns st) (window_start_ns st).

Definition set_window (t : Z) (st : StatsCollector H) : StatsCollector H :=
  mkStats (sent st) (completed st) (timeouts st) (errors st) (rcode_noerror st) (rcode_nxdomain st)
    (rcode_servfail st) (rcode_refused st) (rcode_other st) (histogram st) (inflight_sum st)
    (inflight_count st) (inflight_max st) (last_egress_ns st) t.

Definition exec_access (st : StatsCollector H) (ev : access) : StatsCollector H :=
  match ev with
  | Act a => exec_action st a
  | StoreWindow t => set_window t st
  | Zero c => set_counter c 0 st
  | ZeroMax => set_inflight_max 0 st
  | ClearHist => set_hist (h_clear (histogram st)) st
  end.

(** Alone, the stores are the reset. *)
Lemma reset_events_exec t st : fold_left exec_access (reset_events t) st = reset_window t st.
Proof. by destruct st. Qed.

Lemma get_set_counter c c' v st : get c (set_counter c' v st) = if decide (c' = c) then v else get c st.
Proof. by destruct c; cbn; case_decide. Qed.

Lemma exec_access_range ev st : counters_in_range st -> counters_in_range (exec_access st ev).
Proof.
  intros Hr. destruct ev as [a|t|c| |]; cbn [exec_access]; [by apply exec_action_range| | | |];
    intros c'; pose proof (Hr c') as Hc; [by destruct c'| |by destruct c'..].
  rewrite get_set_counter. case_decide; [unfold in_u; lia|done].
Qed.

Lemma exec_access_get c ev st : counters_in_range st -> ev <> Zero c ->
  get c (exec_access st ev) = (get c st + added_by c ev) mod 2 ^ 64.
Proof.
  intros Hr He. destruct ev as [a|t|c'| |]; cbn [exec_access added_by]; [by apply exec_action_get|..];
    rewrite Z.add_0_r, Z.mod_small by apply Hr; try by destruct c.
  rewrite get_set_counter. by case_decide; [congruence|].
Qed.

Lemma exec_accesses_range_all tr st : counters_in_range st -> counters_in_range (fold_left exec_access tr st).
Proof. revert st. induction tr as [|ev tr IH]; intros st Hr; cbn [fold_left]; [done|]. by apply IH, exec_access_range. Qed.

Lemma exec_accesses_get c tr st : counters_in_range st -> Zero c ∉ tr ->
  get c (fold_left exec_access tr st) = (get c st + zsum (added_by c) tr) mod 2 ^ 64.
Proof.
  revert st. induction tr as [|ev tr IH]; intros st Hr Hn; cbn [fold_left].
  - cbn. rewrite Z.add_0_r, Z.mod_small; [done|apply Hr].
  - apply not_elem_of_cons in Hn as [Hne Hn].
    rewrite IH, exec_access_get by (done || by apply exec_access_range || congruence).
    rewrite Zplus_mod_idemp_l, zsum_cons. f_equal. lia.
Qed.

(** What a counter holds at the end was added after the last store of zero. *)
Lemma reset_get c tr st : counters_in_range st -> Zero c ∈ tr ->
  exists tr1 tr2, tr = tr1 ++ Zero c :: tr2 /\
    get c (fold_left exec_access tr st) = zsum (added_by c) tr2 mod 2 ^ 64.
Proof.
  intros Hr Hin. apply list_elem_of_split_r in Hin as (tr1 & tr2 & -> & Hn). exists tr1, tr2. split; [done|].
  rewrite fold_left_app. cbn [fold_left]. pose proof (exec_accesses_range_all tr1 st Hr) as Hr1.
  rewrite exec_accesses_get; [|by apply exec_access_range|done]. cbn [exec_access].
  by rewrite get_set_counter, decide_True.
Qed.

End Reset.

(** What the workers did in a trace, and what the reset did. *)
Definition acts (tr : list access) : list action := omap (fun ev => match ev with Act a => Some a | _ => None end) tr.
Definition stores (tr : list access) : list access := omap (fun ev => match ev with Act _ => None | _ => Some ev end) tr.

Lemma added_acts c tr : zsum (added_by c) tr = zsum (delta c) (acts tr).
Proof.
  induction tr as [|ev tr IH]; [done|]. rewrite zsum_cons, IH.
  destruct ev; cbn [acts omap list_omap added_by]; rewrite ?zsum_cons; unfold acts; lia.
Qed.

Lemma reset_events_NoDup t : NoDup (reset_events t).
Proof.
  constructor; [|apply (bool_decide_unpack _); by vm_compute].
  intros Hin. apply elem_of_app in Hin as [Hin|Hin]; [by apply list_elem_of_fmap in Hin as (c & Hc & _)|].
  repeat (apply elem_of_cons in Hin as [Hin|Hin]; [done|]). by apply elem_of_nil in Hin.
Qed.

(** The reset clears each counter once. *)
Lemma reset_store c t : Zero c ∈ reset_events t.
Proof. apply elem_of_cons. right. apply elem_of_app. left. apply list_elem_of_fmap_2. apply (bool_decide_unpack _). by destruct c. Qed.

Lemma store_elem c tr : Zero c ∈ tr <-> Zero c ∈ stores tr.
Proof.
  unfold stores. rewrite list_elem_of_omap. split; [by exists (Zero c)|].
  intros (ev & Hin & He). destruct ev; simplify_eq; done.
Qed.

(** A counter when the reset stores zero in it, and at the end. *)
Lemma reset_split {H} `{HdrHistogram H} c t tr (st : StatsCollector H) : counters_in_range st -> stores tr = reset_events t ->
  exists tr1 tr2, tr = tr1 ++ Zero c :: tr2 /\ acts tr = acts tr1 ++ acts tr2 /\
    get c (fold_left exec_access tr1 st) = (get c st + zsum (delta c) (acts tr1)) mod 2 ^ 64 /\
    get c (fold_left exec_access tr st) = zsum (delta c) (acts tr2) mod 2 ^ 64.
Proof.
  intros Hr Hs. destruct (reset_get c tr st Hr) as (tr1 & tr2 & -> & Hg).
  { rewrite store_elem, Hs. apply reset_store. }
  exists tr1, tr2. split; [done|]. split; [unfold acts; by rewrite omap_app|]. rewrite Hg, added_acts. split; [|done].
  rewrite exec_accesses_get, added_acts; [done|done|]. rewrite store_elem. intros Hin.
  unfold stores in Hs, Hin. rewrite omap_app in Hs. pose proof (reset_events_NoDup t) as Hn. rewrite <- Hs in Hn.
  apply NoDup_app in Hn as (_ & Hn & _). apply (Hn _ Hin). by left.
Qed.

(** ** Sums over the runs of closed loops *)

Lemma plain_delta c k a : call_ok k -> plain k -> a ∈ actions_of k -> 0 <= delta c a.
Proof.
  intros Hk Hp Ha.
  assert (Hadd : forall c' n a', a' ∈ add_actions c' n -> 0 <= delta c a').
  { intros c' n a' Hin. unfold add_actions in Hin. destruct (n >? 0) eqn:E; [|by apply elem_of_nil in Hin].
    apply list_elem_of_singleton in Hin as ->. cbn. bool_to_prop. case_decide; lia. }
  destruct k as [| | | |x y z u v|rc rtt|rtt|n]; try done; cbn [actions_of] in Ha.
  - apply list_elem_of_singleton in Ha as ->. cbn. case_decide; lia.
  - apply list_elem_of_singleton in Ha as ->. cbn. case_decide; lia.
  - apply list_elem_of_singleton in Ha as ->. cbn. case_decide; lia.
  - destruct (_ =? 0); [by apply elem_of_nil in Ha|]. rewrite elem_of_cons, !elem_of_app in Ha.
    destruct Ha as [-> |Ha]; [|by destruct_or! Ha; eapply Hadd]. cbn. case_decide; [|lia].
    apply (wadd_range 64). lia.
  - rewrite !elem_of_cons in Ha. destruct Ha as [-> |[-> |[-> |Ha]]]; [..|by apply elem_of_nil in Ha]; cbn; try case_decide; lia.
  - apply list_elem_of_singleton in Ha as ->. done.
  - rewrite !elem_of_cons in Ha. destruct Ha as [-> |[-> |[-> |Ha]]]; [..|by apply elem_of_nil in Ha]; cbn; try case_decide; try lia.
    apply Z.mod_pos_bound. lia.
Qed.

(** Any part of what the threads did adds a natural number to every counter. *)
Lemma part_delta_nonneg c lts tr1 tr2 :
  Forall (fun lt => Forall call_ok lt.1 /\ Forall plain lt.1) lts -> interleaving (threads_of lts) (tr1 ++ tr2) ->
  0 <= zsum (delta c) tr1 /\ 0 <= zsum (delta c) tr2.
Proof.
  intros Hl Hi. apply interleaving_perm in Hi.
  assert (Ha : forall a, a ∈ tr1 ++ tr2 -> 0 <= delta c a).
  { intros a Hin. rewrite <- Hi in Hin. apply list_elem_of_In, in_concat in Hin as (t & Ht & Hin).
    apply list_elem_of_In, list_elem_of_fmap in Ht as (log & -> & Hlog).
    apply list_elem_of_fmap in Hlog as (lt & -> & Hlt). apply list_elem_of_In in Hin. unfold thread_actions in Hin.
    apply list_elem_of_In, in_concat in Hin as (ks & Hks & Hin).
    apply list_elem_of_In, list_elem_of_fmap in Hks as (k & -> & Hk). apply list_elem_of_In in Hin.
    rewrite Forall_forall in Hl. destruct (Hl lt Hlt) as [H1 H2]. rewrite Forall_forall in H1, H2.
    apply (plain_delta c k); auto. }
  split; apply zsum_nonneg; intros a Hin; apply Ha, elem_of_app; auto.
Qed.

(** The sums of the calls, and of the tallies. *)
Lemma threads_sums lts (ns : list (nat * Z)) tr :
  Forall2 (fun lt no => sends lt.1 no.1 no.2 /\ lt.2 = mkTally (Z.of_nat no.1) no.2) lts ns ->
  interleaving (threads_of lts) tr ->
  zsum (delta Sent) tr = total t_sent lts /\
  zsum (delta Sent) tr - zsum (delta Completed) tr - zsum (delta Timeouts) tr = total t_open lts.
Proof.
  intros Hl Hi. rewrite !(interleaved_delta _ _ _ Hi). unfold total_delta. rewrite !zsum_fmap. unfold total. clear Hi.
  induction Hl as [|lt no lts ns [[Hok Hs Ho Hp] Ht] _ [IH1 IH2]]; [done|].
  rewrite !zsum_cons, Ht. cbn [t_sent t_open]. rewrite zsum_unresolved in Ho. lia.
Qed.

(** A closed-loop worker of a run. *)
Record cl_worker : Set := mkClWorker {
  w_envs : list cl_env; w_id : Z; w_idx : Z; w_qps : Z; w_now : Z
}.

Definition cl_worker_ok (w : cl_worker) : Prop := Forall env_ok (w_envs w) /\ in_u 16 (w_id w) /\ 0 <= w_idx w.

Definition cl_client {H} `{HdrHistogram H} (cfg : cl_config) (w : cl_worker) : client H :=
  closed_loop cfg (w_envs w) (w_id w) (w_idx w) (w_qps w) (w_now w).

(** A worker of a run on the kernel path: the closed loop, either thread of the flood,
    or a stream, with what the kernel, the clock and the peer answer it. *)
Inductive worker {S : Type} : Type :=
| ClosedLoopWorker (w : cl_worker)
| FloodTx (es : list tx_env) (last : tx_env) (rand_id rand_idx now : Z)
| FloodRx (es : list rx_env) (now : Z)
| TcpWorker (es : list Stream.env) (id : Z) (src : S) (r : rng)
| DotWorker (es : list Stream.env) (id : Z) (src : S) (r : rng).
Arguments worker S : clear implicits.

(** The code it runs. *)
Definition client_of {H} `{HdrHistogram H} {S} `{QuerySource S} (cfg : cl_config) (w : worker S) : client H :=
  match w with
  | ClosedLoopWorker w => cl_client cfg w
  | FloodTx es last rand_id rand_idx now => flood_tx (wire_pool cfg) es last rand_id rand_idx now
  | FloodRx es now => flood_rx (timeout_ns cfg) es now
  | TcpWorker es id src r => stream Stream.tcp_turn es id src r
  | DotWorker es id src r => stream Stream.dot_turn es id src r
  end.

(** What it draws is in range, what the kernel answers is possible, and its source
    has queries. *)
Definition worker_ok {S} `{QuerySourceLaws S} (w : worker S) : Prop :=
  match w with
  | ClosedLoopWorker w => cl_worker_ok w
  | FloodTx es _ rand_id rand_idx _ => in_u 16 rand_id /\ in_u 64 rand_idx /\ Forall tx_env_ok es
  | FloodRx _ _ => True
  | TcpWorker _ _ src _ | DotWorker _ _ src _ => source_ok src
  end.

(** Every worker keeps the promise. *)
Lemma worker_logged {H} `{HdrHistogram H} {S} `{QuerySourceLaws S} cfg entries (w : worker S) :
  from_pairs entries = Done (wire_pool cfg) ->
  Forall (fun e => Z.of_nat (length (as_bytes e.1)) <= 494) entries ->
  1 <= max_outstanding cfg -> worker_ok w -> StatsClient (client_of (H := H) cfg w).
Proof.
  intros Hp Hn Hm. destruct w as [w|es last ri rx now|es now|es id src r|es id src r]; cbn [worker_ok client_of].
  - intros (He & Hid & Hix). by apply (closed_loop_logged cfg entries).
  - intros (Hid & Hix & He). by apply (flood_tx_logged _ entries).
  - intros _. apply flood_rx_logged.
  - intros Hs. by apply stream_logged; [apply tcp_stream_turn|].
  - intros Hs. by apply stream_logged; [apply dot_stream_turn|].
Qed.

(** Any clients that keep the promise, over one collector. *)
Lemma clients_accounting {H} `{HdrHistogram H} (fs : list (client H)) (st0 : StatsCollector H) :
  Forall StatsClient fs -> counters_in_range st0 ->
  exists lts, Forall2 ran fs lts /\
    forall tr, interleaving (threads_of lts) tr ->
      let st := fold_left exec_action tr st0 in
      get Sent st = (get Sent st0 + total t_sent lts) mod 2 ^ 64 /\
      unresolved st = (unresolved st0 + total t_open lts) mod 2 ^ 64 /\
      (balanced st0 -> balanced st).
Proof.
  intros Hfs Hr.
  assert (Hl : exists lts, Forall2 (fun f lt => logged f lt.1 lt.2) fs lts).
  { induction Hfs as [|f fs (log & t & Hf) _ (lts & IH)]; [by exists []|]. exists ((log, t) :: lts). by constructor. }
  destruct Hl as [lts Hl]. exists lts. split; [eapply Forall2_impl; [exact Hl|]; intros f lt Hf; exact (lg_run _ _ _ Hf)|].
  intros tr Hi st. assert (Hok : Forall (Forall call_ok) (fst <$> lts)).
  { clear -Hl. induction Hl as [|f lt fs lts Hf _ IH]; constructor; [apply Hf|done]. }
  assert (Hg : forall c, get c st = (get c st0 + total_delta c (fst <$> lts)) mod 2 ^ 64).
  { intros c. subst st. rewrite exec_trace_get by done. by rewrite (interleaved_delta c _ tr Hi). }
  assert (Hsum : forall g h, Forall (fun lt => zsum g lt.1 mod 2 ^ 64 = h lt.2 mod 2 ^ 64) lts ->
    zsum (zsum g) (fst <$> lts) mod 2 ^ 64 = total h lts mod 2 ^ 64).
  { intros g h Hgh. rewrite zsum_fmap. apply zsum_mod_ext. clear -Hgh. induction Hgh; by constructor. }
  split; [|split].
  - rewrite Hg. unfold total_delta. rewrite <- Zplus_mod_idemp_r, (Hsum _ t_sent), Zplus_mod_idemp_r; [done|].
    clear -Hl. induction Hl as [|f lt fs lts Hf _ IH]; constructor; [apply Hf|done].
  - assert (Hop : zsum (zsum unresolved_delta) (fst <$> lts) mod 2 ^ 64 = total t_open lts mod 2 ^ 64).
    { apply Hsum. clear -Hl. induction Hl as [|f lt fs lts Hf _ IH]; constructor; [apply Hf|done]. }
    rewrite <- Zplus_mod_idemp_r, <- Hop, Zplus_mod_idemp_r. unfold unresolved at 1.
    pose proof (Hg Sent) as E1. pose proof (Hg Completed) as E2. pose proof (Hg Timeouts) as E3. cbn [get] in E1, E2, E3.
    assert (Hu : zsum (zsum unresolved_delta) (fst <$> lts) = total_delta Sent (fst <$> lts) -
              total_delta Completed (fst <$> lts) - total_delta Timeouts (fst <$> lts)).
    { unfold total_delta. clear. induction lts as [|lt lts IH]; [done|]. cbn [fmap list_fmap].
      rewrite !zsum_cons, zsum_unresolved. lia. }
    rewrite E1, E2, E3, Hu. unfold unresolved. apply diff3_mod. lia.
  - apply (balanced_step _ _ (fun c => total_delta c (fst <$> lts))); [done|by apply total_balanced].
Qed.

Lemma cl_clients {H} `{HdrHistogram H} cfg entries ws :
  from_pairs entries = Done (wire_pool cfg) ->
  Forall (fun e => Z.of_nat (length (as_bytes e.1)) <= 494) entries ->
  1 <= max_outstanding cfg -> Forall cl_worker_ok ws ->
  exists lts ns, Forall2 ran (cl_client (H := H) cfg <$> ws) lts /\
    Forall2 (fun lt no => sends lt.1 no.1 no.2 /\ lt.2 = mkTally (Z.of_nat no.1) no.2) lts ns /\
    0 <= total t_open lts <= Z.of_nat (length ws) * max_outstanding cfg.
Proof.
  intros Hp Hn Hm. induction 1 as [|w ws (He & Hid & Hix) _ (lts & ns & IH1 & IH2 & IH3)]; [by exists [], []|].
  destruct (closed_loop_log (H := H) cfg entries Hp Hn (w_envs w) (w_id w) (w_idx w) (w_qps w) (w_now w) Hm Hid Hix He)
    as (log & n & o & Hs & Ho & Hr).
  exists ((log, mkTally (Z.of_nat n) o) :: lts), ((n, o) :: ns). split; [by constructor|]. split; [by constructor|].
  unfold total in *. rewrite zsum_cons. cbn [length snd t_open]. lia.
Qed.

(** ** Theorems *)

(** C7. A whole run over one collector.  Let any number of closed-loop workers, sender
    and receiver threads of the flood, TCP and DoT workers run, whatever the kernel,
    the clock and the peers answer, their atomic accesses to the collector
    interleaved in any way.  Each does what it does alone, whatever the collector
    holds; and at the end the sent counter has grown by the queries that the workers
    handed to the kernel, the queries not resolved by those they left open (64-bit
    counters), and the completions are still the sum of the response codes. *)
Theorem run_accounting {H} `{HdrHistogram H} {S} `{QuerySourceLaws S} cfg entries (ws : list (worker S))
    (st0 : StatsCollector H) :
  from_pairs entries = Done (wire_pool cfg) ->
  Forall (fun e => Z.of_nat (length (as_bytes e.1)) <= 494) entries ->
  1 <= max_outstanding cfg -> Forall worker_ok ws -> counters_in_range st0 ->
  exists lts, Forall2 ran (client_of (H := H) cfg <$> ws) lts /\
    forall tr, interleaving (threads_of lts) tr ->
      let st := fold_left exec_action tr st0 in
      get Sent st = (get Sent st0 + total t_sent lts) mod 2 ^ 64 /\
      unresolved st = (unresolved st0 + total t_open lts) mod 2 ^ 64 /\
      (balanced st0 -> balanced st).
Proof.
  intros Hp Hn Hm Hws. apply clients_accounting, Forall_fmap. eapply Forall_impl; [exact Hws|].
  intros w Hw. by apply (worker_logged cfg entries).
Qed.

(** C8. The report of a closed-loop run.  Any number of closed-loop workers share a
    fresh collector, and fewer than 2^64 queries are sent.  Without a reset the report
    has exactly the queries sent, and as lost exactly those that timed out and those
    still open at the end, at most the gate for each worker.  When the collector is
    reset while they run, whatever the workers do between the reset's stores, the
    report has the queries sent after the store in the sent counter; and as lost,
    the time-outs of the whole run and the queries still open, less what the two
    counters differed by when they were cleared: those that had timed out by then, and
    those in flight, each of which hides a loss. *)
Theorem closed_loop_report {H} `{HdrHistogram H} cfg entries ws :
  from_pairs entries = Done (wire_pool cfg) ->
  Forall (fun e => Z.of_nat (length (as_bytes e.1)) <= 494) entries ->
  1 <= max_outstanding cfg -> Forall cl_worker_ok ws ->
  exists lts, Forall2 ran (cl_client (H := H) cfg <$> ws) lts /\
    0 <= total t_open lts <= Z.of_nat (length ws) * max_outstanding cfg /\
    (total t_sent lts < 2 ^ 64 ->
     (forall tr elapsed, interleaving (threads_of lts) tr ->
        let snap := snapshot elapsed (fold_left exec_action tr (stats_new (H := H))) in
        queries_sent snap = total t_sent lts /\
        queries_lost snap = zsum (delta Timeouts) tr + total t_open lts) /\
     (forall tr t elapsed, interleaving (threads_of lts) (acts tr) -> stores tr = reset_events t ->
        exists tr1 tr2 tr3 tr4, tr = tr1 ++ Zero Sent :: tr2 /\ tr = tr3 ++ Zero Completed :: tr4 /\
          let sent0 := sent (fold_left exec_access tr1 (stats_new (H := H))) in
          let completed0 := completed (fold_left exec_access tr3 (stats_new (H := H))) in
          let snap := snapshot elapsed (fold_left exec_access tr (stats_new (H := H))) in
          queries_sent snap = total t_sent lts - sent0 /\
          queries_lost snap =
            Z.max 0 (zsum (delta Timeouts) (acts tr) + total t_open lts - (sent0 - completed0)))).
Proof.
  intros Hp Hn Hm Hws. destruct (cl_clients (H := H) cfg entries ws Hp Hn Hm Hws) as (lts & ns & Hr & Hl & Ho).
  exists lts. split; [done|]. split; [done|]. intros Hlt.
  assert (Hpl : Forall (fun lt => Forall call_ok lt.1 /\ Forall plain lt.1) lts).
  { clear -Hl. induction Hl as [|lt no lts ns [[] _] _ IH]; by constructor. }
  split.
  - intros tr elapsed Hi snap. destruct (threads_sums lts ns _ Hl Hi) as [Hs Hop].
    assert (Hnn : forall c, 0 <= zsum (delta c) tr).
    { intros c. apply (part_delta_nonneg c lts [] tr Hpl). exact Hi. }
    assert (G : forall c, get c (fold_left exec_action tr (stats_new (H := H))) = zsum (delta c) tr mod 2 ^ 64).
    { intros c. rewrite exec_trace_get by apply stats_new_range. by destruct c. }
    pose proof (G Sent) as A1. pose proof (G Completed) as A2. cbn [get] in A1, A2.
    pose proof (Hnn Sent). pose proof (Hnn Completed). pose proof (Hnn Timeouts).
    rewrite Z.mod_small in A1, A2 by lia. unfold snap. cbn [snapshot queries_sent queries_lost]. unfold sat_sub.
    rewrite A1, A2. lia.
  - intros tr t elapsed Hi Hst. destruct (threads_sums lts ns _ Hl Hi) as [Hs Hop].
    assert (Hnn : forall c, 0 <= zsum (delta c) (acts tr)).
    { intros c. apply (part_delta_nonneg c lts [] (acts tr) Hpl). exact Hi. }
    destruct (reset_split Sent t tr stats_new stats_new_range Hst) as (tr1 & tr2 & E1 & Ea & A1 & B1).
    destruct (reset_split Completed t tr stats_new stats_new_range Hst) as (tr3 & tr4 & E2 & Eb & A2 & B2).
    exists tr1, tr2, tr3, tr4. split; [done|]. split; [done|]. cbn zeta.
    pose proof (part_delta_nonneg Sent lts (acts tr1) (acts tr2) Hpl ltac:(by rewrite <- Ea)) as P1.
    pose proof (part_delta_nonneg Completed lts (acts tr3) (acts tr4) Hpl ltac:(by rewrite <- Eb)) as P2.
    pose proof (f_equal (zsum (delta Sent)) Ea) as S1. pose proof (f_equal (zsum (delta Completed)) Eb) as S2.
    rewrite zsum_app in S1, S2. pose proof (Hnn Timeouts). pose proof (Hnn Sent). pose proof (Hnn Completed).
    cbn [get stats_new sent completed] in A1, A2, B1, B2. rewrite Z.add_0_l, Z.mod_small in A1, A2 by lia.
    rewrite Z.mod_small in B1, B2 by lia. cbn [snapshot queries_sent queries_lost]. unfold sat_sub.
    rewrite A1, A2, B1, B2. lia.
Qed.

(** ** Witnesses *)

Lemma ex_names1 : Forall (fun e => Z.of_nat (length (as_bytes e.1)) <= 494) ex_pairs1.
Proof. constructor; [vm_compute; discriminate|constructor]. Qed.

(** A closed loop that sends twice and gets one reply, the two threads of a flood
    that sends a batch and gets one reply, and a TCP worker whose peer stalls. *)
Definition ex_worker : cl_worker := mkClWorker [ex_turn [7]] 7 0 0 0.
Definition ex_tx : tx_env := mkTxEnv 0 0 0 1 2 1 1.
Definition ex_rx : rx_env := mkRxEnv 0 0 0 1 [reply 7] (fun _ => 1).
Definition ex_stream : Stream.env := Stream.mkEnv (Stream.IoOk tt) (Stream.IoOk tt) [Stream.Stall] 0.
Definition ex_src : FileQuerySource := mkFile [mkEntry (lit "a.com") 1] 0.

Definition ex_workers : list (worker FileQuerySource) :=
  [ClosedLoopWorker ex_worker; FloodTx [ex_tx] ex_tx 0 0 0; FloodRx [ex_rx] 0; TcpWorker [ex_stream] 0 ex_src (fun _ => 0)].

Lemma ex_worker_ok : cl_worker_ok ex_worker.
Proof.
  split; [|split; [unfold in_u; cbn; lia|cbn; lia]]. constructor; [|constructor]. apply ex_turn_ok.
  constructor; [unfold in_u; lia|constructor].
Qed.

Lemma ex_workers_ok : Forall worker_ok ex_workers.
Proof.
  apply Forall_cons. split; [apply ex_worker_ok|]. apply Forall_cons. split.
  { split; [unfold in_u; lia|]. split; [unfold in_u; lia|]. repeat constructor. unfold tx_env_ok. cbn. unfold TX_BATCH. lia. }
  apply Forall_cons. split; [done|]. apply Forall_singleton. split; [discriminate|]. split; vm_compute; congruence.
Qed.

Lemma acts_only l : acts (Act <$> l) = l /\ stores (Act <$> l) = [].
Proof. induction l as [|a l [IH1 IH2]]; [done|]. unfold acts, stores in *. cbn [fmap list_fmap omap list_omap]. by rewrite IH1, IH2. Qed.

(** The tally of the closed loop: two queries sent, one still open. *)
Lemma ex_tally log t : ran (H := exact_hist) (cl_client ex_cfg ex_worker) (log, t) -> t = mkTally 2 1.
Proof.
  intros Hr. specialize (Hr stats_new).
  assert (E : match cl_client (H := exact_hist) ex_cfg ex_worker stats_new with Done (_, t) => t | Panic => mkTally 0 0 end = mkTally 2 1)
    by (vm_compute; reflexivity).
  rewrite Hr in E. exact E.
Qed.

Lemma run_accounting_witness :
  exists lts, Forall2 ran (client_of (H := exact_hist) ex_cfg <$> ex_workers) lts /\
    get Sent (fold_left exec_action (concat (threads_of lts)) (stats_new (H := exact_hist))) =
      (0 + total t_sent lts) mod 2 ^ 64.
Proof.
  destruct (run_accounting ex_cfg ex_pairs1 ex_workers (stats_new (H := exact_hist))) as (lts & Hr & Ht);
    [reflexivity|apply ex_names1|cbn; lia|apply ex_workers_ok|apply stats_new_range|].
  exists lts. split; [exact Hr|]. exact (proj1 (Ht _ (interleaving_sequential _))).
Defined.

(** Two such workers, and a reset after both: the report has the four queries less
    those sent before the store. *)
Lemma closed_loop_report_witness :
  exists lts, Forall2 ran (cl_client (H := exact_hist) ex_cfg <$> [ex_worker; ex_worker]) lts /\
    total t_sent lts = 4 /\
    let tr := (Act <$> concat (threads_of lts)) ++ reset_events 9 in
    exists tr1 tr2, tr = tr1 ++ Zero Sent :: tr2 /\
      queries_sent (snapshot f64_zero (fold_left exec_access tr (stats_new (H := exact_hist)))) =
      4 - sent (fold_left exec_access tr1 (stats_new (H := exact_hist))).
Proof.
  destruct (closed_loop_report (H := exact_hist) ex_cfg ex_pairs1 [ex_worker; ex_worker]) as (lts & Hr & Ho & Hrep);
    [reflexivity|apply ex_names1|cbn; lia|repeat constructor; apply ex_worker_ok|].
  assert (Hs : total t_sent lts = 4).
  { destruct lts as [|[l1 t1] [|[l2 t2] [|]]]; try (exfalso; apply Forall2_length in Hr; cbn in Hr; lia).
    apply Forall2_cons in Hr as [H1 Hr]. apply Forall2_cons in Hr as [H2 _].
    rewrite (ex_tally _ _ H1), (ex_tally _ _ H2). reflexivity. }
  exists lts. split; [exact Hr|]. split; [exact Hs|].
  destruct Hrep as [_ Hrep]; [rewrite Hs; reflexivity|].
  destruct (Hrep ((Act <$> concat (threads_of lts)) ++ reset_events 9) 9 f64_zero) as (tr1 & tr2 & _ & _ & Htr & _ & Hq & _).
  - destruct (acts_only (concat (threads_of lts))) as [Ha _]. unfold acts in *. rewrite omap_app, Ha.
    change (omap _ (reset_events 9)) with (@nil action). rewrite app_nil_r. apply interleaving_sequential.
  - destruct (acts_only (concat (threads_of lts))) as [_ Hst]. unfold stores in *. rewrite omap_app, Hst. reflexivity.
  - exists tr1, tr2. split; [exact Htr|]. rewrite <- Hs. exact Hq.
Defined.

End Workload.
