(* ===== verification/Host.v ===== *)
(** * The host: what is read from it, and the CPUs and memory it is given

    Composes the parsers of [Autodetect] with the files they read ([machine]: files,
    directories and links by path), and models the rest of [src/autodetect.rs]
    ([detect], [cpu_model_name], [numa_node_count], [nic_driver], the banner),
    [src/simd.rs], [local_ipv4] of [frame.rs], and CPU pinning and NUMA confinement
    of [src/transport/mod.rs] as operations on the process: the [OnceLock] of the
    pinned cores, the affinity mask of each thread, the memory policy, the log.

    [libc]'s [cpu_set_t] is an interface ([CpuSet]) with the laws of the manual page
    for CPU numbers below [CPU_SETSIZE]; whether the kernel accepts a mask or a policy
    is an argument of the operation.

    The theorems: the list of cores is fixed by the first call and every later pin
    gives a thread one physical core, the same for two workers exactly when their
    numbers agree modulo the number of cores; and what the start of [main] leaves the
    process with: the main thread is confined to the node of the NIC, but the workers
    beyond the cores of that node are pinned outside it. *)

From Stdlib Require Import ZArith Lia Bool String.
From stdpp Require Import base numbers option gmap sorting list.
From S2P Require Import Prelude RustStr Config Autodetect.

Open Scope Z_scope.

Module Host.

(** ** The machine *)

(** An unreadable file, directory or link is [None]; a directory is the names of its
    entries. *)
Record machine : Type := mkMachine {
  read_to_string : str -> option str;
  read_dir : str -> option (list str);
  read_link : str -> option str;
  num_cpus : Z;          (* [num_cpus::get()] *)
  num_physical : Z;      (* [num_cpus::get_physical()] *)
  xdp_socket : Z;        (* what [socket(AF_XDP)] returns *)
  cpu_feature : string -> bool  (* [is_x86_feature_detected!] *)
}.

Definition c_slash : char := 47.

Definition cpu_path (cpu : Z) : str := lit "/sys/devices/system/cpu/cpu" ++ display_u cpu.
Definition net_path (iface : str) : str := lit "/sys/class/net/" ++ iface.

(** ** CPUs and nodes *)

Definition topo (m : machine) (cpu : Z) (file : str) : option str :=
  read_to_string m (cpu_path cpu ++ lit "/topology/" ++ file).

Definition cores (m : machine) : list Z :=
  physical_cores (read_dir m (lit "/sys/devices/system/cpu")) (topo m) (num_physical m).

Definition node_of (m : machine) (cpu : Z) : option Z := dir ← read_dir m (cpu_path cpu); numa_node_for_cpu dir.

Definition iface_for (m : machine) (addr : IpAddr) : outcome (option str) :=
  iface_for_addr (read_to_string m (lit "/proc/net/route")) addr.

Definition node_for_iface (m : machine) (iface : str) : option Z :=
  numa_node_for_iface (read_to_string m (net_path iface ++ lit "/device/numa_node")).

Definition node_cpus (m : machine) (node : Z) : list Z :=
  logical_cpus_for_node (read_to_string m (lit "/sys/devices/system/node/node" ++ display_u node ++ lit "/cpulist")).

Definition physical_cores_numa_sorted (m : machine) (preferred_node : option Z) : list Z :=
  numa_sorted (cores m) (node_of m) preferred_node.

(** ** What is read for the reports *)

Record AutoConfig : Set := mkAuto { cpus : Z; mem_mb : Z; af_xdp_socket_available : bool }.

Definition probe_xdp_support (m : machine) : bool := 0 <=? xdp_socket m.

Definition detect (m : machine) : AutoConfig :=
  mkAuto (num_cpus m) (read_proc_meminfo_avail_mb (read_to_string m (lit "/proc/meminfo"))) (probe_xdp_support m).

(** The loop over the lines of [/proc/cpuinfo]. *)
Fixpoint model_name (ls : list str) : option str :=
  match ls with
  | [] => None
  | line :: ls' =>
      match strip_prefix (lit "model name") line with
      | Some v => Some (trim (drop_prefix_while (fun c => (c =? c_colon) || (c =? 32) || (c =? 9)) v))
      | None => model_name ls'
      end
  end.

Definition cpu_model_name (m : machine) : option str :=
  txt ← read_to_string m (lit "/proc/cpuinfo"); model_name (lines txt).

(** A [nodeN] entry: the length is that of the name in bytes. *)
Definition is_node_entry (name : str) : bool :=
  (4 <? Z.of_nat (length (as_bytes name))) &&
  match strip_prefix (lit "node") name with
  | Some digits => forallb is_ascii_digit digits
  | None => false
  end.

Definition numa_node_count (m : machine) : Z :=
  Z.max 1 (match read_dir m (lit "/sys/devices/system/node") with
           | Some names => Z.of_nat (length (base.filter is_node_entry names))
           | None => 0
           end).

(** [Path::file_name]: the last component that is not [.], unless it is [..]. *)
Definition file_name (path : str) : option str :=
  let parts := base.filter (fun p => p <> [] /\ p <> [c_dot]) (split_char c_slash path) in
  name ← last parts;
  if str_eqb name [c_dot; c_dot] then None else Some name.

Definition nic_driver (m : machine) (iface : str) : option str :=
  link ← read_link m (net_path iface ++ lit "/device/driver"); file_name link.

Definition nic_speed (m : machine) (iface : str) : option Z :=
  nic_speed_mbps (read_to_string m (net_path iface ++ lit "/speed")).

(** [s.contains(p)] *)
Fixpoint contains (p s : str) : bool :=
  starts_with p s || match s with [] => false | _ :: s' => contains p s' end.

(** [l.split(':').nth(1).map(|v| v.trim() == value)] *)
Definition field_is (value : str) (line : str) : bool :=
  match split_char c_colon line !! 1%nat with
  | Some v => str_eqb (trim v) value
  | None => false
  end.

Definition is_ascii_alphanumeric (c : char) : bool :=
  is_ascii_digit c || ((65 <=? c) && (c <=? 90)) || ((97 <=? c) && (c <=? 122)).

Definition is_xeon_v2_x520 (m : machine) (iface : str) : bool :=
  let xeon_v2 :=
    match read_to_string m (lit "/proc/cpuinfo") with
    | Some s =>
        existsb (fun l => starts_with (lit "cpu family") l && field_is (lit "6") l) (lines s) &&
        existsb (fun l => starts_with (lit "model") l && negb (starts_with (lit "model name") l) &&
                          field_is (lit "62") l) (lines s)
    | None => false
    end in
  if negb xeon_v2 then false
  else if is_empty iface ||
          negb (forallb (fun c => is_ascii_alphanumeric c || (c =? c_dot) || (c =? 95) || (c =? c_dash)) iface)
  then false
  else match read_link m (net_path iface ++ lit "/device/driver/module") with
       | Some path => contains (lit "ixgbe") path
       | None => false
       end.

(** The banner of [log_host_info]. *)
Definition log_host_info (m : machine) (target : IpAddr) : outcome str :=
  iface ← iface_for m target;
  let model := default (lit "unknown CPU") (cpu_model_name m) in
  let nic :=
    match iface with
    | Some i =>
        i ++ lit " (" ++ default (lit "?") (nic_driver m i) ++ lit ", " ++
        match nic_speed m i with Some s => display_u s ++ lit "Mb/s" | None => lit "?" end ++ lit ")"
    | None => lit "n/a"
    end in
  Done (lit "[dnsmark] host: " ++ model ++ lit " (" ++ display_u (num_physical m) ++ lit "c/" ++
        display_u (num_cpus m) ++ lit "t, " ++ display_u (numa_node_count m) ++ lit " NUMA) | egress NIC: " ++ nic).

(** An entry of [getifaddrs]: its name when it is UTF-8, and its address when there
    is one: the family and, for [AF_INET], the address in network order. *)
Record ifa : Type := mkIfa { i_name : option str; i_addr : option (Z * Z) }.

Definition AF_INET : Z := 2.

Fixpoint ipv4_entries (iface : str) (l : list ifa) : option Z :=
  match l with
  | [] => None
  | e :: l' =>
      match i_addr e with
      | None => ipv4_entries iface l'
      | Some (family, s_addr) =>
          if negb (family =? AF_INET) then ipv4_entries iface l'
          else if negb (str_eqb (default [] (i_name e)) iface) then ipv4_entries iface l'
          else Some (swap_bytes s_addr)
      end
  end.

Definition local_ipv4 (getifaddrs : option (list ifa)) (iface : str) : option Z :=
  l ← getifaddrs; ipv4_entries iface l.

(** ** What the kernel says of interfaces and sockets *)

(** [iface_index]: a name with a NUL is no C string; the index 0 is an error. *)
Definition iface_index (if_nametoindex : str -> Z) (name : str) : option Z :=
  if existsb (Z.eqb 0) name then None
  else let idx := if_nametoindex name in if idx =? 0 then None else Some idx.

Record XdpStatistics : Set := mkXdpStatistics {
  rx_dropped : Z; rx_invalid_descs : Z; tx_invalid_descs : Z;
  rx_ring_full : Z; rx_fill_ring_empty_descs : Z; tx_ring_empty_descs : Z
}.

(** [getsockopt]'s return code and what it wrote. *)
Definition read_xsk_statistics (rc : Z) (st : XdpStatistics) : option XdpStatistics := if rc =? 0 then Some st else None.

(** The line of worker 0 every two seconds of a stall check. *)
Definition xsk_line (st : XdpStatistics) (stall_sub stall_egr : Z) : str :=
  [27] ++ lit "[36m[dnsmark] XSK q0: tx_invalid_descs=" ++ display_u (tx_invalid_descs st) ++
  lit " tx_ring_empty=" ++ display_u (tx_ring_empty_descs st) ++ lit " rx_dropped=" ++ display_u (rx_dropped st) ++
  lit " rx_invalid=" ++ display_u (rx_invalid_descs st) ++ lit " rx_fill_empty=" ++
  display_u (rx_fill_ring_empty_descs st) ++ lit " rx_ring_full=" ++ display_u (rx_ring_full st) ++
  lit " | submitted_2s=" ++ display_u stall_sub ++ lit " completed_2s=" ++ display_u stall_egr ++ [27] ++ lit "[0m".

(** ** SIMD tiers *)

Inductive SimdLevel : Set := Scalar | Sse2 | Sse42 | Avx2 | Avx512.

Definition simd_as_str (l : SimdLevel) : str :=
  match l with
  | Scalar => lit "Scalar" | Sse2 => lit "SSE2" | Sse42 => lit "SSE4.2" | Avx2 => lit "AVX2" | Avx512 => lit "AVX-512"
  end.

(** On x86_64. *)
Definition simd_detect (m : machine) : SimdLevel :=
  if cpu_feature m "avx512f" then Avx512
  else if cpu_feature m "avx2" then Avx2
  else if cpu_feature m "sse4.2" then Sse42
  else Sse2.

Definition bool_str (b : bool) : str := if b then lit "true" else lit "false".

Definition log_simd_info (m : machine) : str :=
  lit "[dnsmark] CPU SIMD: " ++ simd_as_str (simd_detect m) ++ lit " | sse4.2=" ++ bool_str (cpu_feature m "sse4.2") ++
  lit " avx2=" ++ bool_str (cpu_feature m "avx2") ++ lit " avx512f=" ++ bool_str (cpu_feature m "avx512f").

(** [OnceLock::get_or_init] *)
Definition get_or_init {A} (init : A) (cell : option A) : A := default init cell.

Definition simd_level (m : machine) (level : option SimdLevel) : SimdLevel * option SimdLevel :=
  let l := get_or_init (simd_detect m) level in (l, Some l).

(** ** Masks of CPUs *)

Definition CPU_SETSIZE : Z := 1024.

(** [cpu_set_t]; what setting a CPU from [CPU_SETSIZE] on does is not said. *)
Class CpuSet (T : Type) := {
  CPU_ZERO : T;
  CPU_SET : Z -> T -> outcome T;
  CPU_ISSET : Z -> T -> bool;
  cpu_isset_zero : forall c, CPU_ISSET c CPU_ZERO = false;
  cpu_isset_set : forall c s, 0 <= c < CPU_SETSIZE ->
    exists s', CPU_SET c s = Done s' /\ forall d, CPU_ISSET d s' = (d =? c) || CPU_ISSET d s
}.

(** The mask as a number; an index out of range panics. *)
#[global, refine] Instance mask_cpu_set : CpuSet Z := {|
  CPU_ZERO := 0;
  CPU_SET c s := if (0 <=? c) && (c <? CPU_SETSIZE) then Done (Z.setbit s c) else Panic;
  CPU_ISSET c s := Z.testbit s c
|}.
Proof.
  - intros c. apply Z.testbit_0_l.
  - intros c s Hc. exists (Z.setbit s c). split.
    + by destruct (Z.leb_spec 0 c), (Z.ltb_spec c CPU_SETSIZE); [|lia..].
    + intros d. destruct (Z.ltb_spec d 0); [rewrite !Z.testbit_neg_r by done; destruct (Z.eqb_spec d c); [lia|done]|].
      rewrite Z.setbit_eqb, Z.eqb_sym by lia. done.
Defined.

(** ** The process *)

Section Process.
Context {T : Type} `{CpuSet T}.

Record process : Type := mkProcess {
  pinned_cores : option (list Z);   (* [PINNED_CORES] *)
  affinity : gmap Z T;              (* by thread *)
  mempolicy : option Z;             (* the nodes memory is bound to *)
  log : list str
}.

Definition info (line : str) (p : process) : process :=
  mkProcess (pinned_cores p) (affinity p) (mempolicy p) (log p ++ [line]).

Definition set_cores (l : list Z) (p : process) : process :=
  mkProcess (Some l) (affinity p) (mempolicy p) (log p).

(** [sched_setaffinity] of thread [t], which the kernel accepts or not. *)
Definition sched_setaffinity (t : Z) (mask : T) (accepted : bool) (p : process) : process :=
  if accepted then mkProcess (pinned_cores p) (<[t := mask]> (affinity p)) (mempolicy p) (log p) else p.

Definition set_mempolicy (mask : Z) (accepted : bool) (p : process) : process :=
  if accepted then mkProcess (pinned_cores p) (affinity p) (Some mask) (log p) else p.

Definition init_message (m : machine) (iface : option str) (node : option Z) (l : list Z) : str :=
  let total := display_u (Z.of_nat (length l)) in
  match iface, node with
  | Some i, Some n =>
      let local := base.filter (fun c => node_of m c = Some n) l in
      lit "[CPU] NUMA pinning: NIC " ++ i ++ lit " on node " ++ display_u n ++ lit ", " ++
      display_u (Z.of_nat (length local)) ++ lit "/" ++ total ++ lit " cores NUMA-local"
  | Some i, None =>
      lit "[CPU] CPU pinning: " ++ i ++ lit " " ++ [0x2014] ++ lit " single-NUMA, " ++ total ++ lit " physical cores"
  | None, _ => lit "[CPU] CPU pinning: " ++ total ++ lit " physical cores (no NUMA iface detected)"
  end.

Definition init_cpu_pinning (m : machine) (server : IpAddr) (p : process) : outcome process :=
  match pinned_cores p with
  | Some _ => Done p
  | None =>
      iface ← iface_for m server;
      let node := i ← iface; node_for_iface m i in
      let l := physical_cores_numa_sorted m node in
      Done (set_cores l (info (init_message m iface node l) p))
  end.

(** The mask of the CPUs of a list that fit one. *)
Fixpoint node_mask (l : list Z) (mask : T) : outcome T :=
  match l with
  | [] => Done mask
  | c :: l' => if c <? CPU_SETSIZE then mask ← CPU_SET c mask; node_mask l' mask else node_mask l' mask
  end.

Definition confined_message (node : Z) (l : list Z) : str :=
  lit "[CPU] auto-NUMA: process confined to NIC node " ++ display_u node ++ lit " (" ++
  display_u (Z.of_nat (length l)) ++ lit " logical CPUs) + membind " ++ [0x2014] ++ lit " no numactl needed".

(** Called by thread [t]; [ok_cpus] and [ok_mem] are what the kernel answers. *)
Definition confine_to_nic_node (m : machine) (t : Z) (server : IpAddr) (ok_cpus ok_mem : bool) (p : process)
  : outcome process :=
  iface ← iface_for m server;
  match i ← iface; node_for_iface m i with
  | None => Done p
  | Some node =>
      let l := node_cpus m node in
      p ← (if is_empty l then Done p
           else mask ← node_mask l CPU_ZERO; Done (sched_setaffinity t mask ok_cpus p));
      let p := if node <? 64 then set_mempolicy (Z.shiftl 1 node) ok_mem p else p in
      Done (info (confined_message node l) p)
  end.

(** [pin_thread_to] of [receiver.rs] *)
Definition pin_thread_to (t cpu : Z) (ok : bool) (p : process) : outcome process :=
  mask ← CPU_SET cpu CPU_ZERO;
  Done (sched_setaffinity t mask ok p).

Definition pin_to_cpu (m : machine) (t worker_id : Z) (ok : bool) (p : process) : outcome process :=
  let l := get_or_init (cores m) (pinned_cores p) in
  cpu ← pinned_cpu l worker_id;
  pin_thread_to t cpu ok (set_cores l p).

(** A new thread has the mask of the thread that starts it. *)
Definition spawn (parent t : Z) (p : process) : process :=
  match affinity p !! parent with
  | Some mask => sched_setaffinity t mask true p
  | None => p
  end.

(** What [main] does before it makes the configuration. *)
Definition start (m : machine) (main : Z) (servers : list IpAddr) (ok_cpus ok_mem : bool) (p : process)
  : outcome process :=
  match servers with
  | [] => Panic
  | primary :: _ =>
      p ← init_cpu_pinning m primary p;
      if Z.of_nat (length servers) =? 1 then confine_to_nic_node m main primary ok_cpus ok_mem p else Done p
  end.

(** What [main] asks the host to make its configuration ([Config.Host]); a routing
    table that makes [iface_for_addr] panic ends the process before. *)
Definition config_host (m : machine) : Config.Host :=
  Config.mkHost (num_cpus m) (Z.of_nat (length (cores m))) (probe_xdp_support m)
    (fun a => match iface_for m a with Done i => i | Panic => None end).

(** Threads that start, confine and pin in any order. *)
Inductive op : Type :=
| Init (server : IpAddr)
| Confine (t : Z) (server : IpAddr) (ok_cpus ok_mem : bool)
| Spawn (parent t : Z)
| Pin (t worker_id : Z) (ok : bool)
| PinTo (t cpu : Z) (ok : bool).

Definition exec (m : machine) (o : op) (p : process) : outcome process :=
  match o with
  | Init server => init_cpu_pinning m server p
  | Confine t server ok_cpus ok_mem => confine_to_nic_node m t server ok_cpus ok_mem p
  | Spawn parent t => Done (spawn parent t p)
  | Pin t w ok => pin_to_cpu m t w ok p
  | PinTo t cpu ok => pin_thread_to t cpu ok p
  end.

Fixpoint execs (m : machine) (os : list op) (p : process) : outcome process :=
  match os with
  | [] => Done p
  | o :: os' => p ← exec m o p; execs m os' p
  end.

End Process.
Arguments process T : clear implicits.

(** ** Lists of CPUs *)

Lemma parse_u_nonneg s v : parse_u 64 s = Some v -> 0 <= v.
Proof. intros Hp. apply from_str_radix_range in Hp; [|lia..]. unfold in_u in Hp. lia. Qed.

Lemma cores_facts m : Forall (fun c => 0 <= c) (cores m) /\ NoDup (cores m).
Proof.
  assert (Hseq : forall n, Forall (fun c => 0 <= c) (seqZ 0 n) /\ NoDup (seqZ 0 n)).
  { intros n. split; [apply Forall_forall; intros c Hc; apply elem_of_seqZ in Hc; lia|apply NoDup_seqZ]. }
  unfold cores, physical_cores. destruct (read_dir m _) as [names|]; [|apply Hseq].
  destruct (sorted_ids (omap cpu_entry names)) as [Hs Hp].
  destruct (distinct_cores_spec (fun c => read_topo (topo m c (lit "core_id")))
              (fun c => read_topo (topo m c (lit "physical_package_id"))) _ ∅ Hs) as (H1 & H2 & _).
  cbn zeta in H1, H2. destruct (distinct_cores _ _ _ _) as [|c l]; [apply Hseq|]. cbn [is_empty]. split.
  - apply Forall_forall. intros d Hd. destruct (H1 d Hd) as [Hin _]. rewrite Hp in Hin.
    apply list_elem_of_omap in Hin as (name & _ & Hn). unfold cpu_entry in Hn.
    apply bind_Some in Hn as (digits & _ & Hn). destruct (_ && _); [|done]. by eapply parse_u_nonneg.
  - by apply NoDup_fmap_1 in H2.
Qed.

Lemma cpulist_part_nonneg part : Forall (fun c => 0 <= c) (cpulist_part part).
Proof.
  unfold cpulist_part. destruct (is_empty part); [constructor|]. destruct (split_once c_dash part) as [[a b]|].
  - destruct (parse_u 64 (trim a)) as [x|] eqn:Ex; [|constructor]. destruct (parse_u 64 (trim b)); [|constructor].
    apply parse_u_nonneg in Ex. apply Forall_forall. intros c Hc. apply elem_of_seqZ in Hc. lia.
  - destruct (parse_u 64 (trim part)) eqn:E; [|constructor]. apply Forall_singleton. by eapply parse_u_nonneg.
Qed.

Lemma node_cpus_nonneg m node : Forall (fun c => 0 <= c) (node_cpus m node).
Proof.
  unfold node_cpus, logical_cpus_for_node. apply Forall_concat, Forall_fmap, Forall_true.
  intros part. apply cpulist_part_nonneg.
Qed.

(** The NUMA order: the cores of the node, then the others. *)
Lemma numa_sorted_local l f node i c : numa_sorted l f (Some node) !! i = Some c ->
  (f c = Some node <-> (i < length (base.filter (fun c => f c = Some node) l))%nat).
Proof.
  unfold numa_sorted. set (local := base.filter _ l). intros Hi.
  destruct (decide (i < length local)%nat) as [Hl|Hl].
  - rewrite lookup_app_l in Hi by done. apply list_elem_of_lookup_2, list_elem_of_filter in Hi as [Hi _]. tauto.
  - rewrite lookup_app_r in Hi by lia. apply list_elem_of_lookup_2, list_elem_of_filter in Hi as [Hi _]. tauto.
Qed.

(** An automatic run has a worker for every core. *)
Lemma auto_workers m cli c : from_cli (config_host m) cli = Done (Ok c) -> cli_clients cli = lit "auto" ->
  Z.of_nat (length (cores m)) <= concurrent c.
Proof.
  intros Hc Ha. unfold from_cli in Hc. destruct (dedup ∅ (cli_server cli)) as [|primary srvs]; [done|].
  injection Hc as Hc. rewrite Ha in Hc. change (parse_clients (lit "auto") ?n) with (Some n) in Hc. cbn beta iota in Hc.
  repeat case_match; try congruence; simplify_eq; cbn; lia.
Qed.

(** The core of a worker. *)
Definition worker_core (l : list Z) (w : Z) : option Z := l !! Z.to_nat (w mod Z.of_nat (length l)).

Lemma worker_core_pinned l w : l <> [] -> 0 <= w -> exists c, worker_core l w = Some c /\ pinned_cpu l w = Done c.
Proof.
  intros Hl Hw. destruct (pinned_cpu_in l w Hl Hw) as (c & Hc & _). exists c. split; [|done].
  unfold pinned_cpu in Hc. unfold worker_core. destruct (_ =? 0); [done|]. destruct (l !! _); congruence.
Qed.

Lemma worker_core_inj l w w' : NoDup l -> l <> [] -> 0 <= w -> 0 <= w' ->
  worker_core l w = worker_core l w' <-> w mod Z.of_nat (length l) = w' mod Z.of_nat (length l).
Proof.
  intros Hn Hl Hw Hw'. unfold worker_core. split; [|by intros ->].
  assert (0 < Z.of_nat (length l)) by (destruct l; [done|cbn [length]; lia]).
  pose proof (Z.mod_pos_bound w (Z.of_nat (length l))). pose proof (Z.mod_pos_bound w' (Z.of_nat (length l))).
  destruct (lookup_lt_is_Some_2 l (Z.to_nat (w mod Z.of_nat (length l)))) as [c Hc]; [lia|].
  rewrite Hc. intros E. symmetry in E. pose proof (proj1 (NoDup_alt l) Hn _ _ _ Hc E). lia.
Qed.

(** ** The process *)

(** What the host must be for pinning to work: there is a core, the numbers of the
    CPUs fit a mask, and the routing table has no short line. *)
Record usable (m : machine) : Prop := mkUsable {
  us_cores : 1 <= num_physical m;
  us_cpus : Forall (fun c => c < CPU_SETSIZE) (cores m);
  us_routes : forall a, exists i, iface_for m a = Done i
}.

Definition op_ok (o : op) : Prop :=
  match o with
  | Pin _ w _ => 0 <= w
  | PinTo _ cpu _ => 0 <= cpu < CPU_SETSIZE
  | _ => True
  end.

(** The calls that choose the list of cores when it is not chosen yet. *)
Definition chooses (o : op) : Prop := match o with Init _ | Pin _ _ _ => True | _ => False end.

Section Pinning.
Context {T : Type} `{CpuSet T}.
Implicit Types p : process T.

(** Thread [t] runs on [cpu] only. *)
Definition pinned_to p (t cpu : Z) : Prop :=
  exists mask, affinity p !! t = Some mask /\ forall d, CPU_ISSET d mask = (d =? cpu).

Lemma pin_thread_to_spec t cpu ok p : 0 <= cpu < CPU_SETSIZE -> exists p',
  pin_thread_to t cpu ok p = Done p' /\ pinned_cores p' = pinned_cores p /\ (ok = true -> pinned_to p' t cpu).
Proof.
  intros Hc. destruct (cpu_isset_set cpu CPU_ZERO Hc) as (mask & Hs & Hm).
  unfold pin_thread_to. rewrite Hs. exists (sched_setaffinity t mask ok p). split; [done|]. split; [by destruct ok|].
  intros ->. exists mask. split; [apply lookup_insert_eq|]. intros d. by rewrite Hm, cpu_isset_zero, orb_false_r.
Qed.

Lemma node_mask_spec l mask : Forall (fun c => 0 <= c) l -> exists mask', node_mask l mask = Done mask' /\
  forall d, CPU_ISSET d mask' = true <-> CPU_ISSET d mask = true \/ (d ∈ l /\ d < CPU_SETSIZE).
Proof.
  intros Hl. revert mask. induction Hl as [|c l Hc _ IH]; intros mask; cbn [node_mask].
  { exists mask. split; [done|]. intros d. rewrite elem_of_nil. tauto. }
  destruct (Z.ltb_spec c CPU_SETSIZE) as [Hlt|Hge].
  - destruct (cpu_isset_set c mask ltac:(lia)) as (mask1 & Hs & Hm). rewrite Hs. cbn [mbind outcome_bind].
    destruct (IH mask1) as (mask2 & Hr & Hd). exists mask2. split; [exact Hr|].
    intros d. rewrite Hd, Hm, orb_true_iff, Z.eqb_eq, elem_of_cons. split; [intros [[->|]|[]]|intros [|[[->|] ?]]]; auto.
  - destruct (IH mask) as (mask2 & Hr & Hd). exists mask2. split; [exact Hr|].
    intros d. rewrite Hd, elem_of_cons. split; [intros [|[]]|intros [|[[->|] ?]]]; auto; lia.
Qed.

Section Machine.
Context (m : machine) (Hm : usable m).

Lemma cores_ne : cores m <> [].
Proof. apply physical_cores_nonempty, Hm. Qed.

Lemma core_fits c : c ∈ cores m -> 0 <= c < CPU_SETSIZE.
Proof.
  intros Hc. destruct (cores_facts m) as [Hp _]. destruct Hm as [_ Hl _]. rewrite Forall_forall in Hp, Hl. auto.
Qed.

(** A list of pinned cores is the physical cores in some order. *)
Definition chosen (l : list Z) : Prop := l ≡ₚ cores m.

Lemma chosen_facts l : chosen l -> l <> [] /\ NoDup l.
Proof.
  unfold chosen. intros Hl. split; [|rewrite Hl; apply cores_facts]. intros ->. apply cores_ne. by apply Permutation_nil in Hl.
Qed.

Lemma chosen_sorted node : chosen (physical_cores_numa_sorted m node).
Proof. apply numa_sorted_perm. Qed.

Lemma pin_to_cpu_spec t w ok p l : get_or_init (cores m) (pinned_cores p) = l -> chosen l -> 0 <= w ->
  exists p' cpu, pin_to_cpu m t w ok p = Done p' /\ pinned_cores p' = Some l /\
    worker_core l w = Some cpu /\ cpu ∈ cores m /\ (ok = true -> pinned_to p' t cpu).
Proof.
  intros Hg Hl Hw. destruct (chosen_facts l Hl) as [Hne _].
  destruct (worker_core_pinned l w Hne Hw) as (cpu & Hc & Hp).
  assert (Hin : cpu ∈ cores m) by (unfold chosen in Hl; rewrite <- Hl; by eapply list_elem_of_lookup_2).
  destruct (pin_thread_to_spec t cpu ok (set_cores l p) (core_fits cpu Hin)) as (p' & Hr & Hk & Ht).
  exists p', cpu. unfold pin_to_cpu. rewrite Hg, Hp. cbn [mbind outcome_bind]. done.
Qed.

Lemma init_spec server p : pinned_cores p = None -> exists p' l,
  init_cpu_pinning m server p = Done p' /\ pinned_cores p' = Some l /\ chosen l.
Proof.
  intros Hp. unfold init_cpu_pinning. rewrite Hp. destruct (us_routes m Hm server) as [i ->].
  cbn [mbind outcome_bind]. eexists _, _. split; [done|]. split; [done|]. apply chosen_sorted.
Qed.

Lemma confine_spec t server ok1 ok2 p : exists p',
  confine_to_nic_node m t server ok1 ok2 p = Done p' /\ pinned_cores p' = pinned_cores p.
Proof.
  unfold confine_to_nic_node. destruct (us_routes m Hm server) as [i ->]. cbn [mbind outcome_bind].
  destruct (i ≫= node_for_iface m) as [node|] eqn:En; rewrite ?En; [|by exists p].
  destruct (is_empty (node_cpus m node)); cbn [mbind outcome_bind].
  - eexists. split; [done|]. destruct (node <? 64), ok2; done.
  - destruct (node_mask_spec (node_cpus m node) CPU_ZERO (node_cpus_nonneg m node)) as (mask & -> & _).
    cbn [mbind outcome_bind]. eexists. split; [done|]. destruct ok1, (node <? 64), ok2; done.
Qed.

(** Once chosen, the list stays, whatever the threads do; and nothing panics. *)
Lemma exec_chosen o p l : op_ok o -> pinned_cores p = Some l -> chosen l ->
  exists p', exec m o p = Done p' /\ pinned_cores p' = Some l.
Proof.
  intros Ho Hp Hl. destruct o as [server|t server ok1 ok2|parent t|t w ok|t cpu ok]; cbn [exec op_ok] in *.
  - unfold init_cpu_pinning. rewrite Hp. by exists p.
  - destruct (confine_spec t server ok1 ok2 p) as (p' & Hr & Hk). exists p'. by rewrite Hk.
  - exists (spawn parent t p). split; [done|]. unfold spawn. by destruct (affinity p !! parent).
  - destruct (pin_to_cpu_spec t w ok p l) as (p' & cpu & Hr & Hk & _); [by rewrite Hp|done|done|by exists p'].
  - destruct (pin_thread_to_spec t cpu ok p Ho) as (p' & Hr & Hk & _). exists p'. by rewrite Hk.
Qed.

Lemma execs_app os os' p : execs m (os ++ os') p = (p1 ← execs m os p; execs m os' p1).
Proof.
  revert p. induction os as [|o os IH]; intros p; [done|]. cbn [execs app]. destruct (exec m o p); cbn; [apply IH|done].
Qed.

Lemma execs_chosen os p l : Forall op_ok os -> pinned_cores p = Some l -> chosen l ->
  exists p', execs m os p = Done p' /\ pinned_cores p' = Some l.
Proof.
  intros Hos. revert p. induction Hos as [|o os Ho _ IH]; intros p Hp Hl; [by exists p|].
  destruct (exec_chosen o p l Ho Hp Hl) as (p1 & Hr & Hp1). cbn [execs]. rewrite Hr. by apply IH.
Qed.

Lemma chooses_spec o p : op_ok o -> chooses o -> pinned_cores p = None ->
  exists p' l, exec m o p = Done p' /\ pinned_cores p' = Some l /\ chosen l.
Proof.
  intros Ho Hc Hp. destruct o as [server| | |t w ok|]; try done; cbn [exec op_ok] in *; [by apply init_spec|].
  destruct (pin_to_cpu_spec t w ok p (cores m)) as (p' & cpu & Hr & Hk & _); [by rewrite Hp|by unfold chosen|done|].
  exists p', (cores m). split_and!; [exact Hr|exact Hk|by unfold chosen].
Qed.

End Machine.

(** ** Theorems *)

(** C27. Pinning.  The first call of [init_cpu_pinning] or [pin_to_cpu] chooses a list
    of the physical cores, in some order and without repetition.  Whatever the
    threads of the process do afterwards (they start, they confine, they pin and
    initialise again, whatever the kernel answers), nothing panics and the list
    stays; and when a worker pins its thread and the kernel accepts, the thread runs
    on the worker's core of that list and no other, a core two workers share exactly
    when their numbers agree modulo the number of cores. *)
Theorem pinned_threads m first p0 :
  usable m -> op_ok first -> chooses first -> pinned_cores p0 = None ->
  exists p1 l, exec m first p0 = Done p1 /\ l ≡ₚ cores m /\ NoDup l /\
    (forall os t w, Forall op_ok os -> 0 <= w -> exists p cpu,
      execs m (os ++ [Pin t w true]) p1 = Done p /\ pinned_cores p = Some l /\
      worker_core l w = Some cpu /\ pinned_to p t cpu) /\
    (forall w w', 0 <= w -> 0 <= w' ->
      worker_core l w = worker_core l w' <-> w mod Z.of_nat (length l) = w' mod Z.of_nat (length l)).
Proof.
  intros Hm Ho Hc Hp0. destruct (chooses_spec m Hm first p0 Ho Hc Hp0) as (p1 & l & Hr & Hl & Hch).
  destruct (chosen_facts m Hm l Hch) as [Hne Hnd]. exists p1, l. split_and!; [done|done|done| |].
  - intros os t w Hos Hw. destruct (execs_chosen m Hm os p1 l Hos Hl Hch) as (p2 & Hr2 & Hl2).
    destruct (pin_to_cpu_spec m Hm t w true p2 l) as (p & cpu & Hr3 & Hk & Hcpu & _ & Ht); [by rewrite Hl2|done|done|].
    exists p, cpu. rewrite execs_app, Hr2. cbn [mbind outcome_bind execs exec]. rewrite Hr3. auto.
  - intros w w' Hw Hw'. by apply worker_core_inj.
Qed.

(** C22. The start of the process, one target.  When the node of the NIC that routes to
    it is known and lists its CPUs, the main thread ends up confined to exactly those
    CPUs (those that fit a mask) and memory to that node (unless its number is 64 or
    more).  The workers do not stay there: the thread of worker [w], which starts with
    the mask of the main thread, is pinned to a core of the node exactly when [w],
    modulo all the cores, is below the number of cores of the node; and when the
    number of workers is left to the program every core, of whatever node, has a
    worker pinned to it. *)
Theorem start_confines m main server i node p0 :
  usable m -> iface_for m server = Done (Some i) -> node_for_iface m i = Some node -> node_cpus m node <> [] ->
  (forall c, c ∈ cores m -> c ∈ node_cpus m node <-> node_of m c = Some node) ->
  pinned_cores p0 = None -> mempolicy p0 = None ->
  exists p, start m main [server] true true p0 = Done p /\
    (exists mask, affinity p !! main = Some mask /\
       forall d, CPU_ISSET d mask = true <-> d ∈ node_cpus m node /\ d < CPU_SETSIZE) /\
    mempolicy p = (if node <? 64 then Some (2 ^ node) else None) /\
    forall t, (forall w, 0 <= w -> exists p' cpu,
      execs m [Spawn main t; Pin t w true] p = Done p' /\ pinned_to p' t cpu /\
      (cpu ∈ node_cpus m node <->
       w mod Z.of_nat (length (cores m)) < Z.of_nat (length (base.filter (fun c => node_of m c = Some node) (cores m))))) /\
    forall cli cfg core, from_cli (config_host m) cli = Done (Ok cfg) -> cli_clients cli = lit "auto" ->
        core ∈ cores m -> exists w p', 0 <= w < concurrent cfg /\
          execs m [Spawn main t; Pin t w true] p = Done p' /\ pinned_to p' t core.
Proof.
  intros Hm Hi Hn Hne Hcons Hp0 Hmem.
  destruct (node_mask_spec (node_cpus m node) CPU_ZERO (node_cpus_nonneg m node)) as (mask & Hmask & Hbits).
  set (l := physical_cores_numa_sorted m (Some node)).
  assert (Hs : exists p, start m main [server] true true p0 = Done p /\ pinned_cores p = Some l /\
    affinity p !! main = Some mask /\ mempolicy p = (if node <? 64 then Some (2 ^ node) else None)).
  { unfold start, init_cpu_pinning, confine_to_nic_node. rewrite Hp0, Hi. cbn [mbind outcome_bind option_bind length].
    rewrite Hn. cbn [Z.of_nat Pos.of_succ_nat Z.eqb Pos.eqb mbind outcome_bind].
    destruct (node_cpus m node) as [|c cs]; [done|]. cbn [is_empty].
    rewrite Hmask. cbn [mbind outcome_bind]. eexists. split; [reflexivity|].
    destruct (node <? 64) eqn:E; cbn; rewrite ?lookup_insert_eq, ?Hmem; repeat split.
    bool_to_prop. by rewrite Z.shiftl_1_l. }
  destruct Hs as (p & Hr & Hl & Ha & Hpol). exists p. split; [done|]. split.
  { exists mask. split; [done|]. intros d. rewrite Hbits, cpu_isset_zero. split; [by intros [|]|by right]. }
  split; [done|]. intros t.
  assert (Hl' : pinned_cores (spawn main t p) = Some l) by (unfold spawn; by rewrite Ha).
  assert (Hlen : length l = length (cores m)) by (apply Permutation_length, chosen_sorted).
  assert (Hpin : forall w, 0 <= w -> exists p' cpu, execs m [Spawn main t; Pin t w true] p = Done p' /\
    worker_core l w = Some cpu /\ cpu ∈ cores m /\ pinned_to p' t cpu).
  { intros w Hw. destruct (pin_to_cpu_spec m Hm t w true (spawn main t p) l) as (p' & cpu & Hr' & _ & Hcpu & Hin & Ht);
      [by rewrite Hl'|apply chosen_sorted|done|].
    exists p', cpu. cbn [execs exec mbind outcome_bind]. rewrite Hr'. auto. }
  split.
  - intros w Hw. destruct (Hpin w Hw) as (p' & cpu & Hr' & Hcpu & Hin & Ht). exists p', cpu. split; [done|]. split; [done|].
    rewrite Hcons by done. rewrite (numa_sorted_local _ _ _ _ _ Hcpu), Hlen.
    pose proof (Z.mod_pos_bound w (Z.of_nat (length (cores m)))).
    assert (0 < Z.of_nat (length (cores m))) by (pose proof (cores_ne m Hm); destruct (cores m); [done|cbn [length]; lia]).
    lia.
  - intros cli cfg core Hcfg Hauto Hcore. pose proof (auto_workers m cli cfg Hcfg Hauto) as Hn'.
    assert (Hcl : core ∈ l) by (unfold l; by rewrite (chosen_sorted m (Some node))).
    apply list_elem_of_lookup_1 in Hcl as [j Hj]. pose proof (lookup_lt_Some _ _ _ Hj).
    destruct (Hpin (Z.of_nat j)) as (p' & cpu & Hr' & Hcpu & _ & Ht); [lia|].
    exists (Z.of_nat j), p'. split; [lia|]. split; [done|].
    unfold worker_core in Hcpu. rewrite Z.mod_small, Nat2Z.id, Hj in Hcpu by lia. by injection Hcpu as ->.
Qed.

End Pinning.

(** ** Smaller facts *)

(** The tier is the best one the CPU has, and does not change after the first look. *)
Lemma simd_level_cached m m' cell l cell' : simd_level m cell = (l, cell') -> simd_level m' cell' = (l, cell').
Proof. by intros [= <- <-]. Qed.

(** The first entry of the interface with an IPv4 address. *)
Lemma local_ipv4_first l1 name a l2 :
  Forall (fun e => forall x, i_addr e = Some (AF_INET, x) -> default [] (i_name e) <> name) l1 ->
  local_ipv4 (Some (l1 ++ mkIfa (Some name) (Some (AF_INET, a)) :: l2)) name = Some (swap_bytes a).
Proof.
  cbn [local_ipv4 mbind option_bind]. induction 1 as [|e l1 He _ IH]; cbn [app ipv4_entries i_addr i_name default].
  { rewrite Z.eqb_refl. cbn [negb]. unfold str_eqb. by rewrite bool_decide_true. }
  destruct (i_addr e) as [[family x]|]; [|done].
  destruct (Z.eqb_spec family AF_INET) as [->|]; cbn [negb]; [|done].
  destruct (str_eqb (default [] (i_name e)) name) eqn:E; [|done].
  apply str_eqb_eq in E. by destruct (He x).
Qed.

(** ** A machine with two nodes *)

Definition assoc {A} (l : list (string * A)) (path : str) : option A :=
  option_map snd (List.find (fun e => str_eqb (lit e.1) path) l).

Definition ex_files : list (string * string) :=
  [("/proc/net/route", "Iface Destination Gateway Flags RefCnt Use Metric Mask
eth0 00000000 0101A8C0 0003 0 0 0 00000000 0 0 0");
   ("/sys/devices/system/cpu/cpu0/topology/core_id", "0");
   ("/sys/devices/system/cpu/cpu1/topology/core_id", "1");
   ("/sys/devices/system/cpu/cpu2/topology/core_id", "0");
   ("/sys/devices/system/cpu/cpu3/topology/core_id", "1");
   ("/sys/devices/system/cpu/cpu2/topology/physical_package_id", "1");
   ("/sys/devices/system/cpu/cpu3/topology/physical_package_id", "1");
   ("/sys/class/net/eth0/device/numa_node", "1");
   ("/sys/class/net/eth0/speed", "10000");
   ("/sys/devices/system/node/node1/cpulist", "2-3");
   ("/proc/cpuinfo", "model name : Xeon")]%string.

Definition ex_dirs : list (string * list string) :=
  [("/sys/devices/system/cpu", ["cpufreq"; "cpu3"; "cpu0"; "cpu1"; "cpu2"]);
   ("/sys/devices/system/cpu/cpu0", ["topology"; "node0"]);
   ("/sys/devices/system/cpu/cpu1", ["topology"; "node0"]);
   ("/sys/devices/system/cpu/cpu2", ["topology"; "node1"]);
   ("/sys/devices/system/cpu/cpu3", ["topology"; "node1"]);
   ("/sys/devices/system/node", ["possible"; "node0"; "node1"])]%string.

Definition ex_machine : machine :=
  mkMachine (fun p => option_map lit (assoc ex_files p)) (fun p => option_map (List.map lit) (assoc ex_dirs p))
    (fun p => if str_eqb p (lit "/sys/class/net/eth0/device/driver") then Some (lit "../../../bus/pci/drivers/ixgbe") else None)
    4 4 3 (fun f => String.eqb f "sse4.2").

Definition ex_server : IpAddr := V4 0x0A000001.

Lemma ex_machine_usable : usable ex_machine.
Proof.
  split; [cbn; lia|vm_compute; repeat constructor; discriminate|].
  intros a. unfold iface_for, iface_for_addr. cbn [read_to_string ex_machine].
  destruct (is_loopback a), a; eexists; vm_compute; reflexivity.
Qed.

Lemma ex_consistent c : c ∈ cores ex_machine -> c ∈ node_cpus ex_machine 1 <-> node_of ex_machine c = Some 1.
Proof.
  revert c. apply Forall_forall. apply (bool_decide_unpack _). vm_compute. exact I.
Qed.

Definition ex_process : process Z := mkProcess None {[0 := 15]} None [].

Lemma pinned_threads_witness :
  exists p1 l, exec ex_machine (Init ex_server) ex_process = Done p1 /\ l ≡ₚ [0; 1; 2; 3] /\
    exists p cpu, execs ex_machine ([Spawn 0 1; Confine 0 ex_server true true] ++ [Pin 1 5 true]) p1 = Done p /\
      worker_core l 5 = Some cpu /\ pinned_to p 1 cpu.
Proof.
  destruct (pinned_threads ex_machine (Init ex_server) ex_process ex_machine_usable I I eq_refl) as (p1 & l & Hr & Hp & _ & Hpin & _).
  exists p1, l. split; [exact Hr|]. split; [exact Hp|].
  destruct (Hpin [Spawn 0 1; Confine 0 ex_server true true] 1 5) as (p & cpu & H1 & _ & H2 & H3);
    [repeat constructor|discriminate|].
  exists p, cpu. auto.
Defined.

(** On this machine the NIC is on node 1: workers 0 and 1 run there, workers 2 and 3
    do not, although the process is confined to node 1. *)
Lemma start_confines_witness :
  exists p, start ex_machine 0 [ex_server] true true ex_process = Done p /\ mempolicy p = Some 2 /\
    exists p' cpu, execs ex_machine [Spawn 0 1; Pin 1 2 true] p = Done p' /\ pinned_to p' 1 cpu /\ cpu ∉ [2; 3].
Proof.
  destruct (start_confines (T := Z) ex_machine 0 ex_server (lit "eth0") 1 ex_process ex_machine_usable) as (p & Hr & _ & Hmem & Hw);
    [reflexivity|reflexivity|discriminate| |reflexivity|reflexivity|].
  { exact ex_consistent. }
  exists p. split; [exact Hr|]. split; [exact Hmem|]. destruct (proj1 (Hw 1) 2) as (p' & cpu & H1 & H2 & H3); [discriminate|].
  exists p', cpu. split; [exact H1|]. split; [exact H2|]. intros Hin. apply H3 in Hin. by vm_compute in Hin.
Defined.

(** The TCP and DoT workers pin whatever thread of the runtime polls them first: two
    threads, three tasks, and both threads end up on core 3. *)
Example async_pins_collide :
  exists p, execs ex_machine [Init ex_server; Pin 10 0 true; Pin 11 1 true; Pin 10 5 true] ex_process = Done p /\
    affinity p !! 10 = Some 8 /\ affinity p !! 11 = Some 8.
Proof. eexists. split; [vm_compute; reflexivity|]. by vm_compute. Qed.

Example ex_banner :
  log_host_info ex_machine ex_server =
    Done (lit "[dnsmark] host: Xeon (4c/4t, 2 NUMA) | egress NIC: eth0 (ixgbe, 10000Mb/s)").
Proof. vm_compute. reflexivity. Qed.

End Host.
