(* ===== verification/Report.v ===== *)
(** * Reports: text, JSON, dashboard, comparison

    Models what is written for a finished run, line by line: [print_result]
    ([src/output/text.rs]), the value [print_json] serialises
    ([src/output/json.rs]) with [host_info_json] ([src/autodetect.rs]), the texts of
    the dashboard ([src/output/tui.rs]), [print_compare] ([src/engine/compare.rs]),
    and [print_output] over them; and the lines [main], the ramp task and the
    multi-NIC engine print on the way.  The serialiser ([serde_json::to_string_pretty])
    and the CSV writer's file are arguments; JSON objects list their fields in the
    order of the source.

    The theorems: the three reports of a run agree, field by field, with the
    snapshot, and on the line rate and its verdict; a whole number printed as a float reads
    back; the JSON value has no repeated
    key and no number that JSON cannot write. *)

From Stdlib Require Import ZArith Lia Bool String SpecFloat.
From stdpp Require Import base numbers option strings gmap list.
From S2P Require Import Prelude Float64 RustStr Ramp Dns Frame Stats WireLatency Config Engine Autodetect Output Host.
Import Output Host.

Open Scope Z_scope.

Module Report.

(** ** Text *)

(** A literal with characters that are not ASCII: its bytes decoded. *)
Fixpoint decode (bs : list Z) : str :=
  match bs with
  | [] => []
  | a :: bs1 =>
      if a <? 0x80 then a :: decode bs1
      else match bs1 with
           | [] => []
           | b :: bs2 =>
               if a <? 0xE0 then ((a - 0xC0) * 64 + (b - 0x80)) :: decode bs2
               else match bs2 with
                    | [] => []
                    | c :: bs3 => ((a - 0xE0) * 4096 + (b - 0x80) * 64 + (c - 0x80)) :: decode bs3
                    end
           end
  end.

Definition ulit (s : string) : str := decode (lit s).

(** [{:<n}] and [{:>n}] *)
Definition pad_right (n : nat) (s : str) : str := s ++ replicate (n - length s) 32.
Definition pad_left (n : nat) (s : str) : str := replicate (n - length s) 32 ++ s.

(** [{:x}] of a 16-bit number. *)
Definition hex16 (z : Z) : str :=
  match drop_prefix_while (Z.eqb 48) (format_hex 4 z) with [] => [48] | s => s end.

Definition octets (v4 : Z) : list Z := to_be_bytes16 (Z.shiftr v4 16) ++ to_be_bytes16 (Z.land v4 0xFFFF).

(** The eight segments of an IPv6 address. *)
Definition segments (v6 : Z) : list Z :=
  (fun i => Z.land (Z.shiftr v6 (112 - 16 * i)) 0xFFFF) <$> seqZ 0 8.

(** The first of the longest runs of zero segments: start and length. *)
Fixpoint zero_run (i : Z) (segs : list Z) (cur longest : Z * Z) : Z * Z :=
  match segs with
  | [] => longest
  | s :: segs' =>
      if s =? 0 then
        let cur := (if cur.2 =? 0 then i else cur.1, cur.2 + 1) in
        zero_run (i + 1) segs' cur (if cur.2 >? longest.2 then cur else longest)
      else zero_run (i + 1) segs' (0, 0) longest
  end.

(** [Display] of [Ipv4Addr], [Ipv6Addr] and [IpAddr]. *)
Definition ipv4_str (v4 : Z) : str := ipv4_to_string (octets v4).

Definition ipv6_str (v6 : Z) : str :=
  if Z.shiftr v6 32 =? 0xFFFF then lit "::ffff:" ++ ipv4_str (Z.land v6 0xFFFFFFFF)
  else
    let segs := segments v6 in
    let run := zero_run 0 segs (0, 0) (0, 0) in
    if run.2 >? 1 then
      join c_colon (hex16 <$> take (Z.to_nat run.1) segs) ++ lit "::" ++
      join c_colon (hex16 <$> drop (Z.to_nat (run.1 + run.2)) segs)
    else join c_colon (hex16 <$> segs).

Definition ip_str (a : IpAddr) : str := match a with V4 b => ipv4_str b | V6 b => ipv6_str b end.

Definition version : str := lit "1.0.0".

(** A line on the standard output, or on the standard error. *)
Inductive out : Type := Line (s : str) | Warn (s : str).

(** Milliseconds of a count of microseconds. *)
Definition ms (us : Z) : f64 := f64_div (f64_of_Z us) (f64_lit 1000 1).

(** ** The text report *)

Definition mode_str (c : Config) : str := if ramp c then lit "ramp" else lit "fixed".

Definition source_str (c : Config) : str :=
  match source_of c with
  | LabelRandom domain qtype => lit "random (" ++ domain ++ lit " " ++ qtype ++ lit ")"
  | LabelFile path => lit "file (" ++ path ++ lit ")"
  | LabelBuiltin n => lit "builtin (" ++ display_u n ++ lit " domains)"
  end.

Definition parameters (c : Config) : list out :=
  [Line (ulit "DNS Performance Testing Tool — dnsmark " ++ version);
   Line (lit "[DISCLAIMER: authorized testing only]");
   Line [];
   Line (lit "Parameters:");
   Line [];
   Line (lit "  Server:       " ++ ip_str (server c) ++ lit ":" ++ display_u (port c));
   Line (lit "  Protocol:     " ++ as_str (protocol c));
   Line (lit "  Clients:      " ++ display_u (concurrent c));
   Line (lit "  QPS cap:      " ++ qps_str c);
   Line (lit "  Duration:     " ++ display_u (duration_secs c) ++ lit " s");
   Line (lit "  Timeout:      " ++ display_u (timeout_ms c) ++ lit " ms");
   Line (lit "  Mode:         " ++ mode_str c);
   Line (lit "  Source:       " ++ source_str c);
   Line []].

(** A count and its share. *)
Definition count_line (label : string) (n d : Z) : out :=
  Line (lit label ++ pad_right 10 (display_u n) ++ lit "  (" ++ fmt_fixed 2 (pct n d) ++ lit "%)").

Definition counts (snap : StatsSnapshot) : list out :=
  let sent := queries_sent snap in
  let completed := queries_completed snap in
  [Line (lit "Statistics:");
   Line [];
   Line (lit "  Queries sent:         " ++ display_u sent);
   count_line "  Queries completed:    " completed sent;
   count_line "  Queries lost:         " (queries_lost snap) sent;
   Line [];
   Line (lit "  Response codes:");
   count_line "    NOERROR:            " (s_rcode_noerror snap) completed;
   count_line "    NXDOMAIN:           " (s_rcode_nxdomain snap) completed;
   count_line "    SERVFAIL:           " (s_rcode_servfail snap) completed;
   count_line "    REFUSED:            " (s_rcode_refused snap) completed;
   Line []].

Definition esc : str := [27].

Definition wedged_text (snap : StatsSnapshot) (wire : f64) : str :=
  esc ++ lit "[1;31m[dnsmark] WARNING: reported egress (" ++ fmt_fixed 0 (send_qps snap) ++
  lit " qps) is NOT reaching the wire - NIC PHY confirmed only " ++ fmt_fixed 0 wire ++
  lit " qps. The XDP TX path is wedged or misconfigured; the throughput number above is fictional. (ixgbe X520: try a host reboot; modprobe reload is insufficient.)" ++
  esc ++ lit "[0m".

Definition dropped_text (snap : StatsSnapshot) (rx dropped : f64) : str :=
  esc ++ lit "[33m[dnsmark] NOTE: the SERVER answered " ++ fmt_fixed 0 rx ++
  ulit " qps (counted at the NIC, incl. ring-overflow drops) — that is the authoritative throughput. The generator's receive path only delivered " ++
  fmt_fixed 0 (avg_qps snap) ++ lit " qps to userspace; ~" ++ fmt_fixed 0 dropped ++
  ulit " qps of replies were dropped on the GENERATOR side (kernel socket/NIC-ring overflow, or an RX queue not drained fast enough — e.g. a non-NUMA-local stack in multi-NIC). The SERVER is fine. In kernel-UDP, use --xdp; in --xdp multi-NIC, ensure each stack is NUMA-local to its NIC." ++
  esc ++ lit "[0m".

Definition throughput (snap : StatsSnapshot) : list out :=
  [Line (lit "  Send throughput (egress):  " ++ fmt_fixed 0 (send_qps snap) ++
         ulit " qps  ← match this to rx_packets on receiver NIC")] ++
  match wire_qps snap with
  | Some wire =>
      Line (lit "  Wire egress (NIC PHY):     " ++ fmt_fixed 0 wire ++ lit " qps  (confirmed transmitted)") ::
      (if wedged_warning snap then [Warn (wedged_text snap wire)] else [])
  | None => []
  end ++
  [Line (lit "  Round-trip completed:      " ++ fmt_fixed 0 (avg_qps snap) ++ lit " qps  (" ++
         fmt_fixed 1 (rt_pct snap) ++ lit "% of egress, userspace)")] ++
  match server_rx_qps snap with
  | Some rx =>
      Line (lit "  Server throughput (NIC rx):  " ++ fmt_fixed 0 rx ++
            ulit " qps  (authoritative — replies on the wire)") ::
      match dropped_note snap with Some dropped => [Warn (dropped_text snap rx dropped)] | None => [] end
  | None => []
  end ++
  match ramp_capacity snap with
  | Some cap => [Line (lit "  Capacity (ramp knee):      " ++ fmt_fixed 0 cap ++
                       ulit " qps  (NIC-verified peak — the --ramp throughput answer)")]
  | None => []
  end.

Definition line_rate_lines (snap : StatsSnapshot) (c : Config) : list out :=
  match reported_line_rate snap c with
  | Some lr =>
      Line (lit "  Line rate:                 " ++ fmt_fixed 0 (lr_pct lr) ++ lit "% of " ++
            display_u (lr_link_mbps lr / 1000) ++ lit " Gb/s wire  (" ++ fmt_fixed 0 (avg_reply_bytes lr) ++
            lit " B replies, ceiling " ++ fmt_fixed 2 (f64_div (line_rate_pps lr) (f64_lit 1000000 1)) ++ lit " M/s)") ::
      (if wire_bound lr then
         [Line (ulit "    → WIRE-BOUND: the Ethernet link is saturated — this IS the max for this");
          Line (lit "      reply size on this link. Use faster/more NICs (25/40/100G) to push higher.")]
       else
         [Line (ulit "    → link has headroom: the limit is the server or the generator, not the wire");
          Line (lit "      (raise offered load, or check the generator isn't the bottleneck).")])
  | None => []
  end.

Definition latency (snap : StatsSnapshot) : list out :=
  let row (label : string) (x : f64) := Line (lit label ++ fmt_fixed 3 x ++ lit " ms") in
  [Line [];
   Line (lit "  Latency:");
   row "    min:       " (ms (min_us snap));
   row "    avg:       " (f64_div (avg_us snap) (f64_lit 1000 1));
   row "    p50:       " (ms (p50_us snap));
   row "    p95:       " (ms (p95_us snap));
   row "    p99:       " (ms (p99_us snap));
   row "    p999:      " (ms (p999_us snap));
   row "    max:       " (ms (max_us snap))] ++
  (if s_inflight_max snap >? 0 then
     [Line (lit "  outstanding:");
      Line (lit "    mean:      " ++ fmt_fixed 1 (inflight_mean snap));
      Line (lit "    max:       " ++ display_u (s_inflight_max snap))]
   else []) ++
  [Line [];
   Line (lit "  Run time: " ++ fmt_fixed 3 (run_time_s snap) ++ lit " s")].

Definition print_result (snap : StatsSnapshot) (c : Config) : list out :=
  parameters c ++ counts snap ++ throughput snap ++ line_rate_lines snap c ++ latency snap.

(** ** JSON *)

(** [serde_json::Value] *)
Inductive json : Type :=
| JNull
| JNum (n : Z)
| JFloat (x : f64)
| JString (s : str)
| JArray (l : list json)
| JObject (fields : list (str * json)).

(** A float that is not finite becomes null. *)
Definition is_finite (x : f64) : bool :=
  match x with S754_zero _ | S754_finite _ _ _ => true | _ => false end.
Definition json_f64 (x : f64) : json := if is_finite x then JFloat x else JNull.

Definition json_opt {A} (f : A -> json) (o : option A) : json := match o with Some a => f a | None => JNull end.

(** An object written with the [json!] macro. *)
Definition obj (fields : list (string * json)) : json := JObject ((fun e => (lit e.1, e.2)) <$> fields).

Definition host_info_json (m : machine) (target : IpAddr) : outcome json :=
  iface ← iface_for m target;
  let mem_total_kb := (read_proc_meminfo_total_and_avail_kb (read_to_string m (lit "/proc/meminfo"))).1 in
  let nic := json_opt (fun i => obj
    [("iface", JString i);
     ("driver", json_opt JString (nic_driver m i));
     ("speed_mbps", json_opt JNum (nic_speed m i));
     ("numa_node", json_opt JNum (node_for_iface m i))]%string) iface in
  Done (obj
    [("role", JString (lit "generator (the host running dnsmark)"));
     ("cpu", obj
        [("model", json_opt JString (cpu_model_name m));
         ("physical_cores", JNum (num_physical m));
         ("logical_threads", JNum (num_cpus m))]);
     ("numa_nodes", JNum (numa_node_count m));
     ("mem_total_mb", JNum (mem_total_kb / 1024));
     ("nic", nic)]%string).

(** The fields [serde] derives for [StatsSnapshot]. *)
Definition snapshot_json (snap : StatsSnapshot) : json := obj
  [("queries_sent", JNum (queries_sent snap));
   ("queries_completed", JNum (queries_completed snap));
   ("queries_lost", JNum (queries_lost snap));
   ("rcode_noerror", JNum (s_rcode_noerror snap));
   ("rcode_nxdomain", JNum (s_rcode_nxdomain snap));
   ("rcode_servfail", JNum (s_rcode_servfail snap));
   ("rcode_refused", JNum (s_rcode_refused snap));
   ("rcode_other", JNum (s_rcode_other snap));
   ("run_time_s", json_f64 (run_time_s snap));
   ("send_qps", json_f64 (send_qps snap));
   ("avg_qps", json_f64 (avg_qps snap));
   ("min_us", JNum (min_us snap));
   ("avg_us", json_f64 (avg_us snap));
   ("p50_us", JNum (p50_us snap));
   ("p95_us", JNum (p95_us snap));
   ("p99_us", JNum (p99_us snap));
   ("p999_us", JNum (p999_us snap));
   ("max_us", JNum (max_us snap));
   ("inflight_mean", json_f64 (inflight_mean snap));
   ("inflight_max", JNum (s_inflight_max snap));
   ("wire_qps", json_opt json_f64 (wire_qps snap));
   ("server_rx_qps", json_opt json_f64 (server_rx_qps snap));
   ("server_rx_avg_bytes", json_opt json_f64 (server_rx_avg_bytes snap));
   ("link_mbps", json_opt JNum (link_mbps snap));
   ("ramp_capacity", json_opt json_f64 (ramp_capacity snap))]%string.

Definition qps_cap_json (c : Config) : json := if qps c =? 0 then JString (lit "unlimited") else JNum (qps c).

Definition source_json (c : Config) : json :=
  if random c then
    let qtype := if random_qtype c =? 28 then lit "aaaa" else lit "a" in
    obj [("type", JString (lit "random")); ("domain", JString (random_domain c)); ("qtype", JString qtype)]%string
  else match query_file c with
       | Some f => obj [("type", JString (lit "file")); ("path", JString f)]%string
       | None => obj [("type", JString (lit "builtin")); ("domains", JNum 2000)]%string
       end.

Definition line_rate_json (l : LineRate) : json := obj
  [("rate_qps", json_f64 (rate_qps l));
   ("avg_reply_bytes", json_f64 (avg_reply_bytes l));
   ("link_mbps", JNum (lr_link_mbps l));
   ("line_rate_pps", json_f64 (line_rate_pps l));
   ("percent_of_line", json_f64 (lr_pct l));
   ("verdict", JString (verdict l))]%string.

Definition note (l : LineRate) : str :=
  if wire_bound l then
    lit "WIRE-BOUND: " ++ fmt_fixed 0 (lr_pct l) ++ lit "% of " ++ display_u (lr_link_mbps l / 1000) ++
    lit " Gb/s line rate at " ++ fmt_fixed 0 (avg_reply_bytes l) ++
    ulit " B/reply. The Ethernet link is saturated — the server is NOT the limit. server_rx_qps is the true throughput (line rate); faster/more NICs (25/40/100G) are needed to push higher."
  else
    lit "link has headroom: " ++ fmt_fixed 0 (lr_pct l) ++ lit "% of " ++ display_u (lr_link_mbps l / 1000) ++
    ulit " Gb/s line rate. The bottleneck is the server or the generator, NOT the wire — server_rx_qps is the authoritative reply rate.".

Definition notes (snap : StatsSnapshot) (c : Config) : list str :=
  match reported_line_rate snap c with Some l => [note l] | None => [] end.

Definition parameters_json (c : Config) : json := obj
  [("server", JString (ip_str (server c)));
   ("port", JNum (port c));
   ("protocol", JString (as_str (protocol c)));
   ("concurrent", JNum (concurrent c));
   ("qps_cap", qps_cap_json c);
   ("duration_secs", JNum (duration_secs c));
   ("timeout_ms", JNum (timeout_ms c));
   ("mode", JString (mode_str c));
   ("source", source_json c)]%string.

(** What [print_json] serialises, given the host. *)
Definition report_json (host : json) (snap : StatsSnapshot) (c : Config) : json := obj
  [("dnsmark_version", JString version);
   ("host", host);
   ("parameters", parameters_json c);
   ("statistics", snapshot_json snap);
   ("line_rate", json_opt line_rate_json (reported_line_rate snap c));
   ("notes", JArray (JString <$> notes snap c))]%string.

Section Output.
Context {E : Type}.
Variable to_string_pretty : json -> result str E.

Definition print_json (m : machine) (snap : StatsSnapshot) (c : Config) : outcome (result (list out) E) :=
  host ← host_info_json m (server c);
  Done (match to_string_pretty (report_json host snap c) with Ok s => Ok [Line s] | Err e => Err e end).

(** [print_output]; [create] is what opening and writing the CSV file gives. *)
Definition print_output (create : str -> result unit E) (m : machine) (snap : StatsSnapshot) (c : Config)
  : outcome (result (list out * option (str * str)) E) :=
  shown ← (if json_output c then print_json m snap c else Done (Ok (print_result snap c)));
  Done (match shown with
        | Err e => Err e
        | Ok lines =>
            match csv_file c with
            | None => Ok (lines, None)
            | Some path => match create path with
                           | Ok _ => Ok (lines, Some (path, write_csv snap))
                           | Err e => Err e
                           end
            end
        end).
End Output.

(** ** The dashboard *)

(** The counters a frame shows, each read on its own. *)
Record shown : Set := mkShown {
  sh_sent : Z; sh_completed : Z; sh_timeouts : Z; sh_errors : Z;
  sh_noerror : Z; sh_nxdomain : Z; sh_servfail : Z; sh_refused : Z
}.

Definition tui_title (elapsed : f64) (c : Config) : str :=
  let server_str := ip_str (server c) ++ lit ":" ++ display_u (port c) ++ ulit " — " ++ as_str (protocol c) in
  let time_str := if ramp c then fmt_fixed 1 elapsed ++ lit "s"
                  else fmt_fixed 1 elapsed ++ lit "s / " ++ display_u (duration_secs c) ++ lit "s" in
  ulit " dnsmark 0.1.0 — " ++ server_str ++ ulit " — " ++ time_str ++ lit " ".

Definition qps_title (delta : Z) (t : tui) (c : Config) : str :=
  ulit " QPS (1s window) — current: " ++ display_u delta ++ lit "  target: " ++
  (if qps c >? 0 then display_u (qps c) else ulit "∞") ++ lit "  peak: " ++ display_u (peak_qps t) ++ lit " ".

Definition lat_text (snap : StatsSnapshot) : str :=
  let f us := fmt_fixed 1 (ms us) in
  lit "  p50: " ++ f (p50_us snap) ++ lit "ms    p95: " ++ f (p95_us snap) ++ lit "ms    p99: " ++
  f (p99_us snap) ++ lit "ms    p999: " ++ f (p999_us snap) ++ lit "ms".

Definition cnt_text (s : shown) : str :=
  let p n v := pad_left n (display_u v) in
  lit "  Sent: " ++ p 10%nat (sh_sent s) ++ lit "   Recv: " ++ p 10%nat (sh_completed s) ++
  lit "   Timeout: " ++ p 8%nat (sh_timeouts s) ++ lit "   Error: " ++ p 8%nat (sh_errors s) ++ [c_lf] ++
  lit "  NOERROR: " ++ p 8%nat (sh_noerror s) ++ lit "   NXDOMAIN: " ++ p 8%nat (sh_nxdomain s) ++
  lit "   SERVFAIL: " ++ p 4%nat (sh_servfail s) ++ lit "   REFUSED: " ++ p 4%nat (sh_refused s).

Definition footer_text (t : tui) : str :=
  if paused t then ulit "  [q] quit   [p] resume   [r] reset stats   — PAUSED"
  else lit "  [q] quit   [p] pause    [r] reset stats".

(** The widgets of a frame. *)
Record frame : Type := mkFrame {
  f_title : str; f_percent : Z; f_qps_title : str; f_history : list Z; f_latency : str; f_counters : str; f_footer : str
}.

(** A frame: the dashboard after it has read the counters, and what it draws. *)
Definition draw (elapsed : f64) (s : shown) (snap : StatsSnapshot) (c : Config) (t : tui) : tui * frame :=
  let delta := sat_sub (sh_completed s) (last_completed t) in
  let t := tui_frame (sh_completed s) t in
  (t, mkFrame (tui_title elapsed c) (progress elapsed c) (qps_title delta t c) (qps_history t)
        (lat_text snap) (cnt_text s) (footer_text t)).

(** ** The comparison *)

Definition rule : str := replicate 72 61.

Definition compare_row (name : string) (left middle right : str) : out :=
  Line (lit "  " ++ pad_right 30 (lit name) ++ lit " " ++ left ++ middle ++ right).

Definition print_compare (r : CompareResult) : list out :=
  let a := primary r in
  let b := secondary r in
  let pa := ip_str (primary_addr r) in
  let sa := ip_str (secondary_addr r) in
  let lat name f := compare_row name (pad_left 16 (fmt_fixed 3 (ms (f a))) ++ lit "ms") (lit " ")
                      (pad_left 16 (fmt_fixed 3 (ms (f b))) ++ lit "ms") in
  let rate s := pad_left 17 (fmt_fixed 2 (completion_rate s)) ++ lit "%" in
  [Line ([c_lf] ++ rule);
   Line (lit "  Comparison: " ++ pa ++ lit " vs " ++ sa);
   Line rule;
   compare_row "Metric" (pad_left 18 pa) (lit " ") (pad_left 18 sa);
   compare_row "------------------------------" (replicate 18 c_dash) (lit " ") (replicate 18 c_dash);
   compare_row "Average QPS" (pad_left 17 (fmt_fixed 0 (avg_qps a))) (lit "  ") (pad_left 17 (fmt_fixed 0 (avg_qps b)));
   lat "p50 latency"%string p50_us;
   lat "p95 latency"%string p95_us;
   lat "p99 latency"%string p99_us;
   compare_row "Completion rate" (rate a) (lit " ") (rate b);
   Line (rule ++ [c_lf])].

(** ** What is printed before and during the run *)

(** [main], unless it is quiet: the targets, the number of workers, the automatic
    ramp. *)
Definition targets_line (targets ifaces : Z) : out :=
  Line (lit "Multi-NIC mode: " ++ display_u targets ++ lit " targets / " ++ display_u ifaces ++ lit " interfaces").

Definition workers_line (concurrent_auto : bool) (concurrent physical_count : Z) : out :=
  Line (lit "Workers: " ++ display_u concurrent ++
    if concurrent_auto then
      if physical_count <? 8
      then ulit " (auto — min 8, VM has " ++ display_u physical_count ++ lit " physical core" ++
           (if physical_count =? 1 then [] else lit "s") ++ lit ")"
      else ulit " (auto — physical cores, HT excluded)"
    else lit " (manual)").

Definition auto_ramp_line : out :=
  Warn (ulit "No -Q or -l specified — discovering server capacity (DSD). Pass -l <secs> or -Q <qps> for a fixed-load test.").

(** The result of the latency probe. *)
Definition wire_lines (r : Wire.WireLatencyResult) : list out :=
  let row (label : string) (us : f64) := Line (lit label ++ fmt_fixed 3 (f64_div us (f64_lit 1000 1)) ++ lit " ms") in
  [Line (lit "  stamps:    " ++ if Wire.hw r then lit "raw hardware" else lit "software (driver-level)");
   Line (lit "  samples:   " ++ display_u (Wire.samples r));
   Line (lit "  wire RTT (server + network, generator overhead excluded):");
   row "    min:  " (Wire.min_us r);
   row "    p50:  " (Wire.p50_us r);
   row "    p95:  " (Wire.p95_us r);
   row "    p99:  " (Wire.p99_us r);
   row "    max:  " (Wire.max_us r)].

(** The line of a step of the ramp: the window, the samples and the tail of its
    latencies. *)
Definition ramp_step_line (w : window) (samples p95 p99 : Z) : out :=
  Line (lit "Ramp step: offered " ++ pad_left 9 (display_u (sat_sub (w_sent1 w) (w_sent0 w) / 4)) ++
    lit " q/s | served " ++ pad_left 9 (display_u (served_qps w)) ++ lit " q/s | rtt-samples " ++
    pad_left 8 (display_u samples) ++ lit " | p50 " ++ fmt_fixed 3 (ms (w_p50 w)) ++ lit " ms  p95 " ++
    fmt_fixed 3 (ms p95) ++ lit " ms  p99 " ++ fmt_fixed 3 (ms p99) ++ lit " ms").

(** The summary of a ramp that ended. *)
Definition ramp_summary (xdp : bool) (s : ramp_state) : list out :=
  let slo := fmt_fixed 2 (ms (threshold_us (ctrl s))) in
  let capacity := pad_left 12 (format_qps (peak_served s)) in
  let within := pad_left 12 (format_qps (best_ok_served s)) in
  let '(klo, khi) := bracket (ctrl s) in
  [Line [];
   Line (lit "  Idle latency:  " ++ fmt_fixed 3 (ms (baseline_us (ctrl s))) ++ ulit " ms   (floor — minimum p50 observed)");
   Line (lit "  Capacity:      " ++ capacity ++
     if xdp then ulit "  (NIC-verified — max replies/s on the wire)"
     else ulit "  (closed-loop knee — kernel-recv bound, NOT the server's raw max)");
   Line (lit "  Within SLO:    " ++ within ++ lit "  (p50 stays under " ++ slo ++
     if xdp then lit " ms at this rate)" else lit " ms at this rate; dnsperf-comparable)")] ++
  (if khi >? klo then
     [Line (lit "Knee bracket (DSD bisection): [" ++ display_u klo ++ lit " ; " ++ display_u khi ++ ulit "] q/s  (±" ++
        fmt_fixed 1 (f64_div (f64_mul (f64_div (f64_of_Z (khi - klo)) (f64_of_Z (Z.max klo 1))) (f64_lit 100 1)) (f64_lit 2 1)) ++
        lit "%)")]
   else []) ++
  (if xdp then []
   else [Line (ulit "  → kernel-UDP caps this ramp (generator recv, not the server). For the server's RAW ceiling run open-loop:");
         Line (lit "      dnsmark -s <ip> -Q 0 --max-outstanding 0   (reports Server throughput (NIC rx) = server_rx_qps)")]).

(** The lines of the multi-NIC engine: the start, and the result of each NIC. *)
Definition nics_line (n_nics base_workers total_c : Z) : out :=
  Line (lit "Multi-NIC: " ++ display_u n_nics ++ ulit " NICs × ~" ++ display_u base_workers ++
        lit " workers each  (total workers = " ++ display_u total_c ++ lit ")").

Definition nic_line (idx : Z) (target : IpAddr) (iface : str) (workers : Z) : out :=
  Line (lit "  NIC[" ++ display_u idx ++ lit "]: target=" ++ ip_str target ++ lit " iface=" ++ iface ++
        lit " workers=" ++ display_u workers).

Definition breakdown_line (iface_for : IpAddr -> option str) (e : IpAddr * StatsSnapshot) : out :=
  let '(addr, snap) := e in
  Line (lit "  " ++ ip_str addr ++ lit " (" ++ default (lit "?") (iface_for addr) ++ lit ")  " ++
    match ramp_capacity snap with
    | Some cap => lit "capacity=" ++ fmt_fixed 0 cap ++ lit " qps (NIC-verified knee)  p99=" ++ display_u (p99_us snap) ++ ulit " µs"
    | None => lit "sent=" ++ display_u (queries_sent snap) ++ lit " done=" ++ display_u (queries_completed snap) ++
              lit " qps=" ++ fmt_fixed 0 (avg_qps snap) ++ lit "  p99=" ++ display_u (p99_us snap) ++ ulit " µs"
    end).

Definition breakdown (c : Config) (iface_for : IpAddr -> option str) (per_nic : list (IpAddr * StatsSnapshot)) : list out :=
  if nic_stats c || negb (quiet c) then
    [Line ([c_lf] ++ ulit "── Per-NIC breakdown ──────────────────────────────────")] ++
    (breakdown_line iface_for <$> per_nic) ++
    [Line (ulit "────────────────────────────────────────────────────────")]
  else [].

(** ** From the collector to the reports *)

(** What is read of each NIC at one end of the run. *)
Record nic_reading : Type := mkReading {
  r_wire_tx : str -> option Z;   (* [nic_wire_tx_packets] *)
  r_rx : str -> option Z;        (* [nic_rx_packets] *)
  r_bytes : str -> option Z;     (* [nic_rx_bytes] *)
  r_speed : str -> option Z      (* [nic_speed_mbps] *)
}.

(** [ifs.iter().filter_map(read).sum()], which wraps in a release build. *)
Definition nic_sum (read : str -> option Z) (ifs : list str) : Z := fold_left (wadd 64) (omap read ifs) 0.

Definition wt_baseline (use_xdp : bool) (ifs : list str) (r : nic_reading) : option (list str * Z) :=
  if use_xdp then Some (ifs, nic_sum (r_wire_tx r) ifs) else None.

Definition rx_baseline (ifs : list str) (r : nic_reading) : option (list str * Z * Z) :=
  let rx0 := nic_sum (r_rx r) ifs in
  if (rx0 >? 0) || negb (is_empty ifs) then Some (ifs, rx0, nic_sum (r_bytes r) ifs) else None.

(** The end of [run_with_shutdown]: the snapshot of the collector, completed with
    what the NICs counted between the readings [r0] and [r1].  Both base lines are of
    the same NICs, and there is one ([rx_baseline_some]). *)
Definition finish {H} `{HdrHistogram H} (iface_for : IpAddr -> str) (parent : str -> option str) (c : Config)
    (use_xdp : bool) (peak : Z) (elapsed : f64) (r0 r1 : nic_reading) (st : StatsCollector H) : StatsSnapshot :=
  let snap := snapshot elapsed st in
  let ifs := return_ifaces iface_for parent c in
  match rx_baseline ifs r0 with
  | None => snap
  | Some (ifs, rx0, bytes0) =>
      let tx := match wt_baseline use_xdp ifs r0 with
                | Some (ifs, tx0) => Some (tx0, nic_sum (r_wire_tx r1) ifs)
                | None => None
                end in
      complete_snapshot c peak elapsed
        (mkNicWindow tx rx0 (nic_sum (r_rx r1) ifs) bytes0 (nic_sum (r_bytes r1) ifs) (nic_sum (r_speed r1) ifs)) snap
  end.

Definition xdp_cap_hint (e : str) : str :=
  if contains (lit "Operation not permitted") e || contains (lit "EPERM") e || contains (lit "BPF_PROG_LOAD") e
  then lit "To enable XDP: sudo setcap cap_net_raw,cap_net_admin,cap_bpf+eip $(which dnsmark)"
  else [].

(** ** Reading the reports *)

(** The first word after a label at the start of a line, as a number. *)
Fixpoint text_field (label : string) (ls : list out) : option Z :=
  match ls with
  | [] => None
  | Line s :: ls' =>
      match strip_prefix (lit label) s with
      | Some rest => head (split_whitespace rest) ≫= parse_u 64
      | None => text_field label ls'
      end
  | Warn _ :: ls' => text_field label ls'
  end.

Definition has_line (p : str) (ls : list out) : bool :=
  existsb (fun o => match o with Line s => starts_with p s | Warn _ => false end) ls.

Definition warnings (ls : list out) : list str := omap (fun o => match o with Warn s => Some s | Line _ => None end) ls.

Definition field (key : string) (j : json) : option json :=
  match j with
  | JObject fs => option_map snd (List.find (fun e => str_eqb e.1 (lit key)) fs)
  | _ => None
  end.

Definition json_num (j : json) : option Z := match j with JNum n => Some n | _ => None end.

(** A count of the statistics, in the JSON and in the CSV report. *)
Definition json_count (key : string) (j : json) : option Z :=
  s ← field "statistics" j; v ← field key s; json_num v.

Definition csv_count (key : string) (text : str) : option Z :=
  v ← csv_column (lit key) text; parse_u 64 v.

Definition json_verdict (j : json) : option json := l ← field "line_rate" j; field "verdict" l.

(** No repeated key, no number that is not finite. *)
Fixpoint json_ok (j : json) : bool :=
  match j with
  | JFloat x => is_finite x
  | JArray l => forallb json_ok l
  | JObject fs => bool_decide (NoDup fs.*1) && forallb (fun e => json_ok e.2) fs
  | _ => true
  end.

(** The counts all three reports give: the label of the text, the name in the JSON
    object and the CSV header, the value. *)
Definition reported (snap : StatsSnapshot) : list (string * string * Z) :=
  [("  Queries sent:         ", "queries_sent", queries_sent snap);
   ("  Queries completed:    ", "queries_completed", queries_completed snap);
   ("  Queries lost:         ", "queries_lost", queries_lost snap);
   ("    NOERROR:            ", "rcode_noerror", s_rcode_noerror snap);
   ("    NXDOMAIN:           ", "rcode_nxdomain", s_rcode_nxdomain snap);
   ("    SERVFAIL:           ", "rcode_servfail", s_rcode_servfail snap);
   ("    REFUSED:            ", "rcode_refused", s_rcode_refused snap)]%string.

(** *** The text *)

(** No line of [ls] starts with the label. *)
Definition avoids (label : string) (ls : list out) : Prop :=
  Forall (fun o => match o with Line s => strip_prefix (lit label) s = None | Warn _ => True end) ls.

Lemma text_field_skip label ls1 ls2 : avoids label ls1 -> text_field label (ls1 ++ ls2) = text_field label ls2.
Proof. induction 1 as [|[s|s] ls1 Ho _ IH]; cbn [app text_field]; [done|by rewrite Ho|done]. Qed.

Lemma first_word w t : w <> [] -> no_char is_whitespace w -> (t = [] \/ exists c t', t = c :: t' /\ is_whitespace c = true) ->
  head (split_whitespace (w ++ t)) = Some w.
Proof.
  intros Hw Hn Ht. unfold split_whitespace. destruct Ht as [-> | (c & t' & -> & Hc)].
  - rewrite app_nil_r, split_by_none by done. by destruct w.
  - rewrite split_by_app by done. by destruct w.
Qed.

Lemma number_word n t : in_u 64 n -> (t = [] \/ exists c t', t = c :: t' /\ is_whitespace c = true) ->
  (head (split_whitespace (display_u n ++ t)) ≫= parse_u 64) = Some n.
Proof.
  intros Hn Ht. rewrite first_word; [|apply display_not_empty|apply display_no_char; [apply Hn|apply digit_not_whitespace]|done].
  cbn [mbind option_bind]. apply parse_display; [lia|done].
Qed.

Lemma text_field_plain label n ls : in_u 64 n -> text_field label (Line (lit label ++ display_u n) :: ls) = Some n.
Proof.
  intros Hn. cbn [text_field]. rewrite strip_prefix_app, <- (app_nil_r (display_u n)). apply number_word; [done|by left].
Qed.

Lemma text_field_count label n d ls : in_u 64 n -> text_field label (count_line label n d :: ls) = Some n.
Proof.
  intros Hn. unfold count_line, pad_right. cbn [text_field].
  rewrite strip_prefix_app, <- app_assoc. apply number_word; [done|]. right.
  destruct (10 - length (display_u n))%nat; cbn [replicate app lit]; by eexists _, _.
Qed.

(** Decides that the lines before the one looked for start differently. *)
Ltac avoid :=
  repeat (apply Forall_cons; split; [cbv beta iota; lazymatch goal with |- True => exact I | _ => reflexivity end|]);
  exact (Forall_nil_2 _).

Lemma parameters_avoid snap c : Forall (fun e => avoids e.1.1 (parameters c)) (reported snap).
Proof. repeat (apply Forall_cons; split; [cbn [fst]; avoid|]). constructor. Qed.

(** The lines after the first [k]. *)
Lemma text_field_drop k label ls ls' : avoids label (take k ls) -> text_field label (ls ++ ls') = text_field label (drop k ls ++ ls').
Proof. intros Ha. rewrite <- (take_drop k ls) at 1. rewrite <- app_assoc. by apply text_field_skip. Qed.

Lemma counts_text snap ls : Forall (fun e => in_u 64 e.2) (reported snap) ->
  Forall (fun e => text_field e.1.1 (counts snap ++ ls) = Some e.2) (reported snap).
Proof.
  intros Hr. unfold reported in *. repeat (apply Forall_cons in Hr as [? Hr]). cbn [fst snd] in *.
  repeat (apply Forall_cons; split; [cbn [fst snd]|]); [| | | | | | |constructor].
  - rewrite (text_field_drop 2) by avoid. by apply text_field_plain.
  - rewrite (text_field_drop 3) by avoid. by apply text_field_count.
  - rewrite (text_field_drop 4) by avoid. by apply text_field_count.
  - rewrite (text_field_drop 7) by avoid. by apply text_field_count.
  - rewrite (text_field_drop 8) by avoid. by apply text_field_count.
  - rewrite (text_field_drop 9) by avoid. by apply text_field_count.
  - rewrite (text_field_drop 10) by avoid. by apply text_field_count.
Qed.

Lemma counts_read snap c : Forall (fun e => in_u 64 e.2) (reported snap) ->
  Forall (fun e => text_field e.1.1 (print_result snap c) = Some e.2) (reported snap).
Proof.
  intros Hr. unfold print_result.
  pose proof (counts_text snap (throughput snap ++ line_rate_lines snap c ++ latency snap) Hr) as Ht.
  pose proof (parameters_avoid snap c) as Ha. rewrite Forall_forall in Ht, Ha |- *.
  intros e He. rewrite text_field_skip by (by apply Ha). by apply Ht.
Qed.

(** A whole number printed as a float without decimals is the number. *)
Lemma display_fuel_more n k z : 0 <= z < 10 ^ Z.of_nat n -> (0 < n)%nat -> display_fuel (n + k) z = display_fuel n z.
Proof.
  revert z. induction n as [|n IH]; intros z Hz Hn; [lia|]. cbn [display_fuel Nat.add].
  destruct (Z.ltb_spec z 10); [done|]. f_equal. destruct n as [|n]; [cbn in Hz; lia|].
  apply IH; [|lia]. rewrite Nat2Z.inj_succ, Z.pow_succ_r in Hz by lia.
  pose proof (Z.div_pos z 10). split; [lia|]. apply Z.div_lt_upper_bound; lia.
Qed.

Lemma decimal_int n : 0 <= n < 10 ^ 20 -> decimal 0 n = display_u n.
Proof.
  intros Hn. unfold decimal. change (10 ^ Z.of_nat 0) with 1. rewrite Z.div_1_r, app_nil_r.
  apply (display_fuel_more 20 380); [exact Hn|lia].
Qed.

Lemma div_half_even_exact n d : 0 < d -> div_half_even (n * d) d = n.
Proof. intros Hd. unfold div_half_even. rewrite Z.div_mul, Z.mod_mul by lia. by destruct (Z.ltb_spec (2 * 0) d); [|lia]. Qed.

Lemma fmt_int n : 0 < n < 2 ^ 53 -> fmt_fixed 0 (f64_of_Z n) = display_u n.
Proof.
  intros Hn. destruct (f64_of_Z_exact n Hn) as (m & e & -> & _ & He & Hm & _). cbn [fmt_fixed sign app].
  change (10 ^ Z.of_nat 0) with 1. rewrite Z.mul_1_r, Hm. assert (2 ^ 53 < 10 ^ 20) by reflexivity.
  destruct (Z.leb_spec 0 e).
  - assert (e = 0) as -> by lia. cbn [Z.opp]. rewrite !Z.pow_0_r, !Z.mul_1_r. apply decimal_int. lia.
  - rewrite div_half_even_exact by (apply Z.pow_pos_nonneg; lia). apply decimal_int. lia.
Qed.

Definition capacity_label : string := "  Capacity (ramp knee):      ".

Lemma capacity_read snap c n : ramp_capacity snap = Some (f64_of_Z n) -> 0 < n < 2 ^ 53 ->
  text_field capacity_label (print_result snap c) = Some n.
Proof.
  intros Hc Hn. unfold print_result. rewrite text_field_skip by avoid. rewrite text_field_skip by avoid.
  unfold throughput. rewrite Hc, <- !app_assoc. rewrite text_field_skip by avoid.
  rewrite text_field_skip by (destruct (wire_qps snap); [destruct (wedged_warning snap)|]; avoid).
  rewrite text_field_skip by avoid.
  rewrite text_field_skip by (destruct (server_rx_qps snap); [destruct (dropped_note snap)|]; avoid).
  cbn [app text_field]. rewrite strip_prefix_app, (fmt_int n Hn).
  apply number_word; [unfold in_u; lia|]. right. exists 32. eexists. split; vm_compute; reflexivity.
Qed.

(** *** JSON *)

Lemma json_f64_ok x : json_ok (json_f64 x) = true.
Proof. unfold json_f64. destruct (is_finite x) eqn:E; cbn; by rewrite ?E. Qed.

Lemma json_opt_ok {A} (f : A -> json) o : (forall a, json_ok (f a) = true) -> json_ok (json_opt f o) = true.
Proof. intros Hf. by destruct o; cbn. Qed.

Lemma obj_ok (fields : list (string * json)) :
  bool_decide (NoDup ((fun e => lit e.1) <$> fields)) = true -> Forall (fun e => json_ok e.2 = true) fields ->
  json_ok (obj fields) = true.
Proof.
  intros Hn Hf. cbn [obj json_ok]. apply andb_true_iff. split.
  - rewrite <- list_fmap_compose. exact Hn.
  - apply forallb_forall. intros e He. apply list_elem_of_In, list_elem_of_fmap in He as (e' & -> & He).
    rewrite Forall_forall in Hf. by apply Hf.
Qed.

Create HintDb json.
#[local] Hint Resolve json_f64_ok json_opt_ok : json.

(** An object with literal keys. *)
Ltac object_ok := apply obj_ok; [by vm_compute|repeat (apply Forall_cons; split; [cbn [snd]|]); [auto with json..|constructor]].

Lemma host_info_ok m target host : host_info_json m target = Done host -> json_ok host = true.
Proof.
  unfold host_info_json. destruct (iface_for m target) as [iface|]; [|done]. cbn [mbind outcome_bind]. intros [= <-].
  object_ok; [object_ok|]. apply json_opt_ok. intros i. object_ok.
Qed.

Lemma snapshot_json_ok snap : json_ok (snapshot_json snap) = true.
Proof. object_ok. Qed.

Lemma parameters_json_ok c : json_ok (parameters_json c) = true.
Proof.
  object_ok.
  - unfold qps_cap_json. by destruct (qps c =? 0).
  - unfold source_json. destruct (random c); [object_ok|]. destruct (query_file c); object_ok.
Qed.

Lemma line_rate_json_ok l : json_ok (line_rate_json l) = true.
Proof. object_ok. Qed.

Lemma strings_ok l : json_ok (JArray (JString <$> l)) = true.
Proof. cbn [json_ok]. apply forallb_forall. intros j Hj. by apply list_elem_of_In, list_elem_of_fmap in Hj as (s & -> & _). Qed.

#[local] Hint Resolve snapshot_json_ok parameters_json_ok line_rate_json_ok strings_ok : json.

Lemma report_ok host snap c : json_ok host = true -> json_ok (report_json host snap c) = true.
Proof. intros Hh. object_ok. Qed.

(** *** The line rate *)

Lemma has_line_app p l1 l2 : has_line p (l1 ++ l2) = has_line p l1 || has_line p l2.
Proof. apply existsb_app. Qed.

(** The texts that speak of the line rate. *)
Definition line_rate_label : str := lit "  Line rate:".
Definition bound_label : str := ulit "    → WIRE-BOUND".
Definition headroom_label : str := ulit "    → link has headroom".

Lemma elsewhere snap c : Forall (fun p =>
  has_line p (parameters c) = false /\ has_line p (counts snap) = false /\ has_line p (throughput snap) = false /\
  has_line p (latency snap) = false) [line_rate_label; bound_label; headroom_label].
Proof.
  repeat (apply Forall_cons; split; [split_and!|]); [reflexivity|reflexivity| | |reflexivity|reflexivity| | |reflexivity|reflexivity| | |constructor].
  all: unfold throughput, latency; rewrite !has_line_app.
  all: repeat (apply orb_false_iff; split); try reflexivity.
  all: repeat case_match; reflexivity.
Qed.

Lemma has_line_report p snap c : p ∈ [line_rate_label; bound_label; headroom_label] ->
  has_line p (print_result snap c) = has_line p (line_rate_lines snap c).
Proof.
  intros Hp. pose proof (elsewhere snap c) as He. rewrite Forall_forall in He. destruct (He p Hp) as (H1 & H2 & H3 & H4).
  unfold print_result. rewrite !has_line_app, H1, H2, H3, H4. cbn [orb]. apply orb_false_r.
Qed.

Lemma warnings_app l1 l2 : warnings (l1 ++ l2) = warnings l1 ++ warnings l2.
Proof. apply omap_app. Qed.

Lemma warnings_report snap c : length (warnings (print_result snap c)) =
  ((if wedged_warning snap then 1 else 0) + (if dropped_note snap is Some _ then 1 else 0))%nat.
Proof.
  unfold print_result. rewrite !warnings_app.
  assert (H1 : warnings (line_rate_lines snap c) = []).
  { unfold line_rate_lines. destruct (reported_line_rate snap c) as [lr|]; [|done]. by destruct (wire_bound lr). }
  assert (H2 : warnings (latency snap) = []) by (unfold latency; by destruct (s_inflight_max snap >? 0)).
  rewrite H1, H2, !app_nil_r. change (warnings (parameters c)) with (@nil str). change (warnings (counts snap)) with (@nil str).
  unfold throughput, wedged_warning, dropped_note. rewrite !warnings_app.
  destruct (wire_qps snap), (server_rx_qps snap); cbn [mbind option_bind]; repeat case_match; done.
Qed.

(** There is always a NIC to read, so that the snapshot is always completed. *)
Lemma add_ifaces_ne iface_for parent srvs ifs : (srvs <> [] \/ ifs <> []) -> add_ifaces iface_for parent srvs ifs <> [].
Proof.
  revert ifs. induction srvs as [|s srvs IH]; intros ifs Hn; cbn [add_ifaces]; [by destruct Hn|].
  apply IH. right. case_bool_decide as Hin; [by intros ->; apply not_elem_of_nil in Hin|by destruct ifs].
Qed.

Lemma rx_baseline_some iface_for parent c r : exists rx0 bytes0,
  rx_baseline (return_ifaces iface_for parent c) r = Some (return_ifaces iface_for parent c, rx0, bytes0).
Proof.
  unfold rx_baseline. assert (Hne : return_ifaces iface_for parent c <> []).
  { unfold return_ifaces. apply add_ifaces_ne. left. by destruct (servers c). }
  destruct (return_ifaces iface_for parent c); [done|]. cbn [is_empty negb]. rewrite orb_true_r. by eexists _, _.
Qed.

(** The counts of a finished run are those of the collector; when that is balanced
    the codes shown are the completions, less those under other codes. *)
Lemma finish_counts {H} `{HdrHistogram H} iface_for parent c use_xdp peak elapsed r0 r1 (st : StatsCollector H) :
  let snap := finish iface_for parent c use_xdp peak elapsed r0 r1 st in
  queries_sent snap = sent st /\ queries_completed snap = completed st /\
  queries_lost snap = sat_sub (sent st) (completed st) /\
  (balanced st -> queries_completed snap = (s_rcode_noerror snap + s_rcode_nxdomain snap +
     s_rcode_servfail snap + s_rcode_refused snap + s_rcode_other snap) mod 2 ^ 64).
Proof. unfold finish. destruct (rx_baseline _ r0) as [[[? ?] ?]|]; cbn; split_and!; done. Qed.

(** ** Theorem *)

(** The integers of a snapshot, as the collector holds them. *)
Definition snapshot_range (snap : StatsSnapshot) : Prop :=
  Forall (in_u 64) [queries_sent snap; queries_completed snap; queries_lost snap; s_rcode_noerror snap;
    s_rcode_nxdomain snap; s_rcode_servfail snap; s_rcode_refused snap; s_rcode_other snap; min_us snap; p50_us snap;
    p95_us snap; p99_us snap; p999_us snap; max_us snap].

Lemma reported_range snap : snapshot_range snap -> Forall (fun e => in_u 64 e.2) (reported snap).
Proof. intros Hr. repeat (apply Forall_cons in Hr as [? Hr]). repeat (apply Forall_cons; split; [done|]). by apply Forall_nil. Qed.

Lemma counts_csv snap : snapshot_range snap ->
  Forall (fun e => csv_count e.1.2 (write_csv snap) = Some e.2) (reported snap).
Proof.
  intros Hr. repeat (apply Forall_cons in Hr as [? Hr]). destruct (csv_columns snap) as [Hc _].
  { repeat (apply Forall_cons; split; [done|]). constructor. }
  repeat (apply Forall_cons in Hc as [? Hc]). repeat (apply Forall_cons; split; [done|]). constructor.
Qed.

(** C23. The reports of a run agree.  The seven counts of the text, read back from
    their lines, are the fields of the same name of the JSON object and the columns of
    the CSV file, all of them the values of the snapshot.  The text speaks of the line
    rate, and the JSON report has one, in the same cases, never in the ramp; both call
    the run wire-bound exactly when it is at 90 per cent of the line rate or more, and
    the notes say so too.  The capacity a ramp found, below 2^53, is printed exactly.
    The JSON value has no repeated key and no number that is
    not finite, whatever the host.  The text report warns exactly when the egress does
    not reach the wire and when replies were dropped. *)
Theorem reports_agree m snap c host :
  host_info_json m (server c) = Done host -> snapshot_range snap ->
  let text := print_result snap c in
  let j := report_json host snap c in
  Forall (fun e => text_field e.1.1 text = Some e.2 /\
                   json_count e.1.2 j = Some e.2 /\
                   csv_count e.1.2 (write_csv snap) = Some e.2) (reported snap) /\
  json_ok j = true /\
  match reported_line_rate snap c with
  | Some l =>
      ramp c = false /\ line_rate snap = Some l /\ wire_bound l = f64_geb (lr_pct l) (f64_lit 90 1) /\
      has_line line_rate_label text = true /\ has_line bound_label text = wire_bound l /\
      has_line headroom_label text = negb (wire_bound l) /\
      json_verdict j = Some (JString (if wire_bound l then lit "wire-bound" else lit "link-headroom")) /\
      field "notes" j = Some (JArray [JString (note l)]) /\
      starts_with (lit "WIRE-BOUND") (note l) = wire_bound l
  | None =>
      has_line line_rate_label text = false /\ has_line bound_label text = false /\
      has_line headroom_label text = false /\ field "line_rate" j = Some JNull /\ field "notes" j = Some (JArray [])
  end /\
  (forall n, ramp_capacity snap = Some (f64_of_Z n) -> 0 < n < 2 ^ 53 -> text_field capacity_label text = Some n) /\
  length (warnings text) = ((if wedged_warning snap then 1 else 0) + (if dropped_note snap is Some _ then 1 else 0))%nat.
Proof.
  intros Hh Hr text j. split; [|split; [|split; [|split]]].
  - apply Forall_and; split; [apply counts_read, reported_range, Hr|]. apply Forall_and; split; [|by apply counts_csv].
    repeat (apply Forall_cons; split; [reflexivity|]). constructor.
  - apply report_ok. by eapply host_info_ok.
  - assert (Hl : forall p, p ∈ [line_rate_label; bound_label; headroom_label] ->
      has_line p text = has_line p (line_rate_lines snap c)) by (intros p Hp; by apply has_line_report).
    rewrite !Hl by (rewrite !elem_of_cons; tauto). unfold line_rate_lines.
    subst j. unfold report_json, notes. destruct (reported_line_rate snap c) as [l|] eqn:El; [|split_and!; reflexivity].
    assert (ramp c = false /\ line_rate snap = Some l) as [Hc Hs] by (unfold reported_line_rate in El; by destruct (ramp c)).
    assert (Hb : wire_bound l = f64_geb (lr_pct l) (f64_lit 90 1)).
    { unfold line_rate in Hs. destruct (server_rx_avg_bytes snap); [|done]. destruct (link_mbps snap); [|done].
      cbn [mbind option_bind] in Hs. destruct (_ || _); [done|]. by injection Hs as <-. }
    split; [done|]. split; [done|]. split; [exact Hb|]. clear Hb. unfold note.
    split; [reflexivity|]. destruct (wire_bound l) eqn:Eb; split_and!; try reflexivity.
    all: transitivity (Some (JString (verdict l))); [reflexivity|]; unfold verdict; by rewrite Eb.
  - intros n Hc Hn. by apply capacity_read.
  - apply warnings_report.
Qed.

(** ** Examples *)

Definition ex_report_config (ramp : bool) : Config :=
  mkConfig ex_server [ex_server] 53 None 8 0 30 2000 4 false false 1 ramp false [] 1 None Udp false None true false
    false 100 false.

(** Replies of 60 bytes on a 2.5 Gb/s link, nearly full. *)
Definition ex_report_snap : StatsSnapshot :=
  mkSnapshot 1000 990 10 900 80 5 3 2 (f64_lit 30 1) (f64_lit 4000000 1) (f64_lit 3600000 1) 10 (f64_lit 50 1) 40 90 120
    200 300 f64_zero 0 None (Some (f64_lit 3700000 1)) (Some (f64_lit 60 1)) (Some 2500) None.

Lemma reports_agree_witness :
  exists host, host_info_json ex_machine (server (ex_report_config false)) = Done host /\
    text_field "    NXDOMAIN:           " (print_result ex_report_snap (ex_report_config false)) = Some 80 /\
    json_count "rcode_nxdomain" (report_json host ex_report_snap (ex_report_config false)) = Some 80.
Proof.
  destruct (host_info_json ex_machine (server (ex_report_config false))) as [host|] eqn:Eh; [|by vm_compute in Eh].
  exists host. split; [reflexivity|].
  destruct (reports_agree ex_machine ex_report_snap (ex_report_config false) host Eh) as (Hc & _).
  { repeat (apply Forall_cons; split; [unfold in_u; cbn; lia|]). by apply Forall_nil. }
  do 4 apply Forall_cons in Hc as [_ Hc]. apply Forall_cons in Hc as [(H1 & H2 & _) _]. split; [exact H1|exact H2].
Defined.

(** The speed of the link is printed in whole gigabits: 2.5 Gb/s as 2, 100 Mb/s as 0. *)
Example link_speed_truncated :
  line_rate_lines ex_report_snap (ex_report_config false) =
    [Line (lit "  Line rate:                 99% of 2 Gb/s wire  (60 B replies, ceiling 3.72 M/s)");
     Line (ulit "    → WIRE-BOUND: the Ethernet link is saturated — this IS the max for this");
     Line (lit "      reply size on this link. Use faster/more NICs (25/40/100G) to push higher.")].
Proof. vm_compute. reflexivity. Qed.

Example ip_texts :
  ip_str (V4 0x0A000001) = lit "10.0.0.1" /\ ip_str (V6 1) = lit "::1" /\ ip_str (V6 0) = lit "::" /\
  ip_str (V6 0x20010DB8000000000000000000000001) = lit "2001:db8::1" /\
  ip_str (V6 0xFFFF0A000001) = lit "::ffff:10.0.0.1" /\
  ip_str (V6 0x00010000000200000003000000040000) = lit "1:0:2:0:3:0:4:0".
Proof. vm_compute. repeat split. Qed.

Example counters_text :
  cnt_text (mkShown 12 11 1 0 9 2 0 0) =
    lit "  Sent:         12   Recv:         11   Timeout:        1   Error:        0" ++ [c_lf] ++
    lit "  NOERROR:        9   NXDOMAIN:        2   SERVFAIL:    0   REFUSED:    0".
Proof. vm_compute. reflexivity. Qed.

End Report.
